(** * neuralforecast: the time-series dataset and loader ([tsdataset])

    A shallow embedding of [nbs/tsdataset.ipynb] (exported module
    [neuralforecast.tsdataset]): the ragged storage of many series in one
    concatenated array delimited by [indptr], padded item extraction,
    [append], [trim_dataset], [from_df], [update_dataset] and the loader's
    collation.

    Conventions of the embedding.
    - Python exceptions are values of [exn]; a call that can raise returns
      [result A].
    - A float32 scalar is a [spec_float] (the Standard Library's IEEE-754
      datum); the code only copies scalars and writes the constants 0, 1
      and NaN, so no floating-point arithmetic is needed.
    - A 2-d array or tensor is a [Matrix]: its rows and its column count
      (a tensor with no rows still has a column count).
    - Python integers are unbounded and are values of [Z]; Python's
      negative indices and slice clipping are written out in [norm_index]
      and [slice_bounds].
    - An integer array of numpy is a list of [Z] together with its integer
      type ([int32] or [int64], the two that occur in the module); the
      arithmetic of numpy on arrays and on their scalars wraps around in
      that type, which is written out in [wrap].  The types of the
      results follow the promotion rules of numpy 2: two numpy operands
      give the wider of their types, and a Python integer takes the type
      of the numpy operand it meets. *)

From Stdlib Require Import ZArith Lia SpecFloat.
Set Warnings "-register-all,-clear-no-such-hyp".
From stdpp Require Import base numbers option list strings gmap.

(** ** Exceptions and results *)

Inductive exn : Set :=
| ValueError | TypeError | IndexError | KeyError
| RuntimeError | AttributeError | OverflowError | Exception.

Inductive result (A : Type) : Type :=
| Ok (a : A)
| Raise (e : exn).
Arguments Ok {A} a.
Arguments Raise {A} e.

#[export] Instance result_ret : MRet result := fun A a => Ok a.
#[export] Instance result_bind : MBind result := fun A B f m =>
  match m with Ok a => f a | Raise e => Raise e end.

Definition raises {A} (r : result A) : Prop := exists e, r = Raise e.

(** ** Scalars *)

Definition float32 : Set := spec_float.
Definition f32_zero : float32 := S754_zero false.
Definition f32_one : float32 := S754_finite false 8388608 (-23).
Definition f32_nan : float32 := S754_nan.

(** ** Python indexing *)

(** [a[i]] on a Python list (or on the rows of a tensor): negative
    indices count from the end, anything out of range raises IndexError. *)
Definition list_getitem {A} (a : list A) (i : Z) : result A :=
  let n := Z.of_nat (length a) in
  let j := if (i <? 0)%Z then (i + n)%Z else i in
  if (j <? 0)%Z then Raise IndexError
  else match a !! Z.to_nat j with
       | Some x => Ok x
       | None => Raise IndexError
       end.

(** [a[i]] on a 1-d numpy array: as on a list, but an index from 2^63 to
    2^64 - 1 raises OverflowError (it does not convert to a C long).  An
    array has fewer than 2^63 entries, so such an index is never in
    range. *)
Definition np_getitem {A} (a : list A) (i : Z) : result A :=
  let n := Z.of_nat (length a) in
  let j := if (i <? 0)%Z then (i + n)%Z else i in
  if (j <? 0)%Z then Raise IndexError
  else match a !! Z.to_nat j with
       | Some x => Ok x
       | None => if decide (2 ^ 63 <= i < 2 ^ 64)%Z then Raise OverflowError
                 else Raise IndexError
       end.

(** ** Fixed-width integers *)

(** The integer types of the index arrays. *)
Inductive int_dtype : Set :=
| int32
| int64.

#[export] Instance int_dtype_eq_dec : EqDecision int_dtype.
Proof. solve_decision. Defined.

Definition int_bits (dt : int_dtype) : Z :=
  match dt with int32 => 32 | int64 => 64 end.

Definition int_min (dt : int_dtype) : Z := (- 2 ^ (int_bits dt - 1))%Z.
Definition int_max (dt : int_dtype) : Z := (2 ^ (int_bits dt - 1) - 1)%Z.

(** [z] is a value of the type. *)
Definition fits (dt : int_dtype) (z : Z) : Prop :=
  (int_min dt <= z <= int_max dt)%Z.

(** The value of the type that is congruent to [z] modulo 2^bits: what an
    overflowing operation and a narrowing cast leave. *)
Definition wrap (dt : int_dtype) (z : Z) : Z :=
  ((z - int_min dt) mod 2 ^ int_bits dt + int_min dt)%Z.

(** The type of the result of an operation on operands of two types. *)
Definition promote (a b : int_dtype) : int_dtype :=
  match a, b with
  | int32, int32 => int32
  | _, _ => int64
  end.

(** [a + b] and [a - b] with a result of type [dt]. *)
Definition int_add (dt : int_dtype) (a b : Z) : Z := wrap dt (a + b).
Definition int_sub (dt : int_dtype) (a b : Z) : Z := wrap dt (a - b).

(** A Python integer as operand of a scalar of type [dt] (numpy 2): it
    is converted to [dt], and one that is no value of [dt] raises
    OverflowError. *)
Definition as_scalar (dt : int_dtype) (p : Z) : result Z :=
  if decide (int_min dt <= p <= int_max dt)%Z then Ok p
  else Raise OverflowError.

(** [np.array(l, dtype=dt)] on integers that numpy holds already, and
    [a.astype(dt)]: a narrowing cast wraps. *)
Definition np_astype (dt : int_dtype) (l : list Z) : list Z := map (wrap dt) l.

(** A slice bound after Python's normalisation against a length [n]. *)
Definition norm_index (n : Z) (i : Z) : Z :=
  if (i <? 0)%Z then Z.max (i + n) 0 else Z.min i n.

(** [slice(start, stop).indices(n)] for step 1, as naturals. *)
Definition slice_bounds (start stop : option Z) (n : nat) : nat * nat :=
  let lo := match start with
            | None => 0%Z
            | Some a => norm_index (Z.of_nat n) a
            end in
  let hi := match stop with
            | None => Z.of_nat n
            | Some b => norm_index (Z.of_nat n) b
            end in
  (Z.to_nat lo, Z.to_nat hi).

(** [l[start:stop]] *)
Definition py_slice {A} (start stop : option Z) (l : list A) : list A :=
  let '(lo, hi) := slice_bounds start stop (length l) in
  take (hi - lo) (drop lo l).

(** ** Two-dimensional arrays *)

Record Matrix : Set := mkMatrix {
  ncols : nat;
  mrows : list (list float32)
}.

Definition nrows (m : Matrix) : nat := length (mrows m).

(** Every row has the declared width. *)
Definition mat_wf (m : Matrix) : Prop :=
  Forall (fun r => length r = ncols m) (mrows m).

(** [m[i][j]], with 0 outside the array (only used inside it). *)
Definition mat_get (m : Matrix) (i j : nat) : float32 :=
  nth j (nth i (mrows m) []) f32_zero.

(** [t[start:stop, :]] *)
Definition rows_slice (start stop : option Z) (m : Matrix) : Matrix :=
  {| ncols := ncols m; mrows := py_slice start stop (mrows m) |}.

(** [t.permute(1, 0)] *)
Definition permute10 (m : Matrix) : Matrix :=
  {| ncols := nrows m;
     mrows := map (fun j => map (fun r => nth j r f32_zero) (mrows m))
                  (seq 0 (ncols m)) |}.

(** [torch.zeros(size=(r, c))] and [np.ones((r, c))]; a negative size
    raises. *)
Definition full (v : float32) (r c : Z) : result Matrix :=
  if ((r <? 0) || (c <? 0))%Z then Raise RuntimeError
  else Ok {| ncols := Z.to_nat c;
             mrows := replicate (Z.to_nat r) (replicate (Z.to_nat c) v) |}.

Definition torch_zeros (r c : Z) : result Matrix := full f32_zero r c.
Definition np_ones (r c : Z) : result Matrix := full f32_one r c.

(** [torch.empty(size=(r, c))]: the cells hold whatever the allocator
    returns, here the contents [mem] of the fresh block. *)
Definition torch_empty (mem : nat -> float32) (r c : Z) : result Matrix :=
  if ((r <? 0) || (c <? 0))%Z then Raise RuntimeError
  else Ok {| ncols := Z.to_nat c;
             mrows := map (fun i => map (fun j => mem (i * Z.to_nat c + j))
                                        (seq 0 (Z.to_nat c)))
                          (seq 0 (Z.to_nat r)) |}.

(** Broadcasting of a source of [k] entries to [n] entries along one
    dimension: equal sizes copy, size 1 repeats, anything else is a shape
    error. *)
Definition broadcastable (k n : nat) : bool := (k =? n) || (k =? 1).

Definition bcast {A} (k n : nat) (l : list A) : list A :=
  if k =? n then l
  else match l with
       | x :: _ => replicate n x
       | [] => []
       end.

(** [dest[start:stop] = src] and [dest[start:stop, :] = src]: whole rows of
    [dest] are overwritten by the rows of [src], broadcast to the shape of
    the destination slice. *)
Definition setitem_rows (dest : Matrix) (start stop : option Z)
    (src : Matrix) : result Matrix :=
  let '(lo, hi) := slice_bounds start stop (nrows dest) in
  let m := hi - lo in
  if broadcastable (nrows src) m && broadcastable (ncols src) (ncols dest)
  then
    let new := bcast (nrows src) m
                     (map (bcast (ncols src) (ncols dest)) (mrows src)) in
    Ok {| ncols := ncols dest;
          mrows := take lo (mrows dest) ++ new ++ drop (lo + m) (mrows dest) |}
  else Raise RuntimeError.

(** Overwrite the cells [lo .. lo + length new) of one row. *)
Definition splice {A} (lo : nat) (new old : list A) : list A :=
  take lo old ++ new ++ drop (lo + length new) old.

(** [dest[r0:r1, c0:c1] = src] *)
Definition setitem_block (dest : Matrix) (r0 r1 c0 c1 : option Z)
    (src : Matrix) : result Matrix :=
  let '(rlo, rhi) := slice_bounds r0 r1 (nrows dest) in
  let '(clo, chi) := slice_bounds c0 c1 (ncols dest) in
  let h := rhi - rlo in
  let w := chi - clo in
  if broadcastable (nrows src) h && broadcastable (ncols src) w
  then
    let block := bcast (nrows src) h (map (bcast (ncols src) w) (mrows src)) in
    Ok {| ncols := ncols dest;
          mrows := take rlo (mrows dest)
                   ++ zip_with (splice clo) block
                               (take h (drop rlo (mrows dest)))
                   ++ drop (rlo + h) (mrows dest) |}
  else Raise RuntimeError.

(** [t[i, :]] on a 2-d tensor *)
Definition tensor_row (m : Matrix) (i : Z) : result (list float32) :=
  list_getitem (mrows m) i.

(** The differences of neighbouring entries, as integers. *)
Fixpoint differences (a : list Z) : list Z :=
  match a with
  | x :: ((y :: _) as tl) => (y - x)%Z :: differences tl
  | _ => []
  end.

(** [np.diff] on a 1-d array of type [dt]: the differences, in [dt];
    [a.max()], [a.min()]. *)
Definition np_diff (dt : int_dtype) (a : list Z) : list Z :=
  map (wrap dt) (differences a).

Definition np_max (a : list Z) : result Z :=
  match a with
  | [] => Raise ValueError
  | x :: tl => Ok (foldr Z.max x tl)
  end.

Definition np_min (a : list Z) : result Z :=
  match a with
  | [] => Raise ValueError
  | x :: tl => Ok (foldr Z.min x tl)
  end.

(** A [for i in range(n)] loop over a state [S] whose body can raise. *)
Fixpoint for_each {St} (body : Z -> St -> result St) (idxs : list nat)
    (s : St) : result St :=
  match idxs with
  | [] => Ok s
  | i :: tl => s' ← body (Z.of_nat i) s; for_each body tl s'
  end.

Definition for_range {St} (n : Z) (body : Z -> St -> result St) (s : St)
    : result St :=
  for_each body (seq 0 (Z.to_nat n)) s.

(** ** Values handed to the loader *)

(** Tensors of any rank, as the loader sees them: a 1-d tensor, a 2-d
    tensor, or tensors of one shape stacked along a new first dimension. *)
Inductive ndarray : Set :=
| Arr1 (v : list float32)
| Arr2 (m : Matrix)
| Stacked (elem_shape : list nat) (elems : list ndarray).

Definition shape (t : ndarray) : list nat :=
  match t with
  | Arr1 v => [length v]
  | Arr2 m => [nrows m; ncols m]
  | Stacked s elems => length elems :: s
  end.

(** The values stored under the keys of an item. *)
Inductive leaf : Set :=
| LNone
| LInt (z : Z)
| LIndex (names : list string)
| LTensor (t : ndarray).

(** What a batch can hold: a tensor, a mapping, or an object of another
    type (named for the error message). *)
Inductive pyval : Set :=
| VTensor (t : ndarray)
| VMapping (d : gmap string leaf)
| VOther (type_name : string).

Definition leaf_to_pyval (l : leaf) : pyval :=
  match l with
  | LTensor t => VTensor t
  | LNone => VOther "NoneType"
  | LInt _ => VOther "int"
  | LIndex _ => VOther "Index"
  end.

Definition option_index (o : option (list string)) : leaf :=
  match o with Some c => LIndex c | None => LNone end.

(** ** The dataset *)

(** [indptr] is a numpy array: its entries and, in [indptr_dtype], its
    integer type. *)
Record TimeSeriesDataset : Set := mkDataset {
  temporal : Matrix;
  temporal_cols : list string;
  indptr : list Z;
  indptr_dtype : int_dtype;
  n_groups : Z;
  static : option Matrix;
  static_cols : option (list string);
  max_size : Z;
  min_size : Z;
  y_idx : Z;
  updated : bool
}.

(** [_as_torch_copy]: conversion to float32 and [clone()].  On values it
    is the identity; the fresh storage it allocates is modelled in
    [Module Store] below. *)
Definition _as_torch_copy (x : Matrix) : Matrix := x.

(** [TimeSeriesDataset.__init__] followed by
    [BaseTimeSeriesDataset.__init__]; the array [indptr] is given by its
    entries [indptr0] and its type [dtype0]. *)
Definition TimeSeriesDataset_init (temporal0 : Matrix)
    (temporal_cols0 : list string) (indptr0 : list Z) (dtype0 : int_dtype)
    (y_idx0 : Z) (static0 : option Matrix)
    (static_cols0 : option (list string))
    : result TimeSeriesDataset :=
  let temporal1 := _as_torch_copy temporal0 in
  let n_groups0 := (Z.of_nat (length indptr0) - 1)%Z in
  let sizes := np_diff dtype0 indptr0 in
  max_size0 ← np_max sizes;
  min_size0 ← np_min sizes;
  Ok {| temporal := temporal1;
        temporal_cols := temporal_cols0;
        indptr := indptr0;
        indptr_dtype := dtype0;
        n_groups := n_groups0;
        static := _as_torch_copy <$> static0;
        static_cols := static_cols0;
        max_size := max_size0;
        min_size := min_size0;
        y_idx := y_idx0;
        updated := false |}.

(** The index argument of [__getitem__]: a Python [int] or anything else. *)
Inductive pyidx : Set :=
| IdxInt (i : Z)
| IdxOther.

Definition __getitem__ (self : TimeSeriesDataset) (idx : pyidx)
    : result (gmap string leaf) :=
  match idx with
  | IdxInt idx =>
      let c := Z.of_nat (length (temporal_cols self)) in
      a ← np_getitem (indptr self) idx;
      b ← np_getitem (indptr self) (idx + 1);
      let ts := rows_slice (Some a) (Some b) (temporal self) in
      item_temporal ←
        (if decide ((c, max_size self)
                    = (Z.of_nat (ncols ts), Z.of_nat (nrows ts)))
         then Ok (permute10 ts)
         else
           z ← torch_zeros c (max_size self);
           setitem_block z None (Some c)
                         (Some (- Z.of_nat (nrows ts))%Z) None
                         (permute10 ts));
      item_static ←
        match static self with
        | None => Ok LNone
        | Some s => r ← tensor_row s idx; Ok (LTensor (Arr1 r))
        end;
      Ok (<["temporal" := LTensor (Arr2 item_temporal)]>
          (<["temporal_cols" := LIndex (temporal_cols self)]>
          (<["static" := item_static]>
          (<["static_cols" := option_index (static_cols self)]>
          (<["y_idx" := LInt (y_idx self)]> ∅)))))
  | IdxOther => Raise ValueError
  end.

Definition __len__ (self : TimeSeriesDataset) : Z := n_groups self.

(** The names [hasattr] finds on a [TimeSeriesDataset] instance: what the
    two [__init__]s assign and what the classes define. *)
Definition dataset_attrs : list string :=
  ["temporal"; "indptr"; "n_groups"; "temporal_cols"; "static";
   "static_cols"; "max_size"; "min_size"; "y_idx"; "updated";
   "__len__"; "_as_torch_copy"; "_ensure_available_mask";
   "_extract_static_features"; "__getitem__"; "__repr__"; "__eq__";
   "align"; "append"; "update_dataset"; "trim_dataset"; "from_df"].

(** The right operand of [==]: a dataset or some other object, given by
    the names of its attributes. *)
Inductive pyobj : Set :=
| ObjDataset (d : TimeSeriesDataset)
| ObjOther (attrs : list string).

Definition hasattr (o : pyobj) (name : string) : bool :=
  match o with
  | ObjDataset _ => bool_decide (name ∈ dataset_attrs)
  | ObjOther attrs => bool_decide (name ∈ attrs)
  end.

(** [__eq__].  Past the guard the code evaluates [self.data]; the
    comparison itself, [np.allclose(self.data, other.data) and
    np.array_equal(self.indptr, other.indptr)], belongs to numpy and is
    the parameter [np_compare]. *)
Definition __eq__ (np_compare : TimeSeriesDataset -> pyobj -> bool)
    (self : TimeSeriesDataset) (other : pyobj) : result bool :=
  if negb (hasattr other "data") || negb (hasattr other "indptr")
  then Ok false
  else if hasattr (ObjDataset self) "data"
       then Ok (np_compare self other)
       else Raise AttributeError.

(** The body of the loop of [append], for group [i].  [curr_size] is a
    difference of two scalars of [self.indptr]; [new_indptr[i] + curr_size]
    has the type of [new_indptr]. *)
Definition append_step (self futr_dataset : TimeSeriesDataset)
    (new_indptr : list Z) (i : Z) (new_temporal : Matrix) : result Matrix :=
  let new_dtype := promote (indptr_dtype self) (indptr_dtype futr_dataset) in
  cur_start ← np_getitem (indptr self) i;
  cur_stop ← np_getitem (indptr self) (i + 1);
  let curr_size := int_sub (indptr_dtype self) cur_stop cur_start in
  futr_start ← np_getitem (indptr futr_dataset) i;
  futr_stop ← np_getitem (indptr futr_dataset) (i + 1);
  new_start ← np_getitem new_indptr i;
  new_temporal ←
    setitem_rows new_temporal (Some new_start)
      (Some (int_add new_dtype new_start curr_size))
      (rows_slice (Some cur_start) (Some cur_stop) (temporal self));
  new_stop ← np_getitem new_indptr (i + 1);
  setitem_rows new_temporal (Some (int_add new_dtype new_start curr_size))
    (Some new_stop)
    (rows_slice (Some futr_start) (Some futr_stop) (temporal futr_dataset)).

Definition append (mem : nat -> float32) (self futr_dataset : TimeSeriesDataset)
    : result TimeSeriesDataset :=
  if decide (length (indptr self) ≠ length (indptr futr_dataset))
  then Raise ValueError
  else
    let len_temporal := Z.of_nat (nrows (temporal self)) in
    let col_temporal := Z.of_nat (ncols (temporal self)) in
    let len_futr := Z.of_nat (nrows (temporal futr_dataset)) in
    new_temporal ← torch_empty mem (len_temporal + len_futr) col_temporal;
    let new_dtype :=
      promote (indptr_dtype self) (indptr_dtype futr_dataset) in
    let new_indptr :=
      zip_with (int_add new_dtype) (indptr self) (indptr futr_dataset) in
    new_temporal ← for_range (n_groups self)
                     (append_step self futr_dataset new_indptr) new_temporal;
    TimeSeriesDataset_init new_temporal (temporal_cols self) new_indptr
      new_dtype (y_idx self) (static self) (static_cols self).

(** The body of the loop of [trim_dataset], for group [i]; the state is
    [(new_temporal, new_indptr, acum)].  The lengths and [acum] are
    scalars of the type of [dataset.indptr]; the trims are Python integers
    and are converted to that type where they meet a scalar. *)
Definition trim_step (dataset : TimeSeriesDataset) (left_trim right_trim : Z)
    (i : Z) (st : Matrix * list Z * Z) : result (Matrix * list Z * Z) :=
  let '(new_temporal, new_indptr, acum) := st in
  let dt := indptr_dtype dataset in
  stop ← np_getitem (indptr dataset) (i + 1);
  start ← np_getitem (indptr dataset) i;
  let series_length := int_sub dt stop start in
  lt ← as_scalar dt left_trim;
  rt ← as_scalar dt right_trim;
  let new_length := int_sub dt (int_sub dt series_length lt) rt in
  new_temporal ←
    setitem_rows new_temporal (Some acum) (Some (int_add dt acum new_length))
      (rows_slice (Some (int_add dt start lt))
                  (Some (int_sub dt stop rt)) (temporal dataset));
  let acum := int_add dt acum new_length in
  Ok (new_temporal, new_indptr ++ [acum], acum).

Definition trim_dataset (dataset : TimeSeriesDataset)
    (left_trim right_trim : Z) : result TimeSeriesDataset :=
  if (min_size dataset <=? left_trim + right_trim)%Z
  then Raise Exception
  else
    let len_temporal := Z.of_nat (nrows (temporal dataset)) in
    let col_temporal := Z.of_nat (ncols (temporal dataset)) in
    let total_trim := ((left_trim + right_trim) * n_groups dataset)%Z in
    new_temporal ← torch_zeros (len_temporal - total_trim) col_temporal;
    st ← for_range (n_groups dataset)
           (trim_step dataset left_trim right_trim)
           (new_temporal, [0%Z], 0%Z);
    let '(new_temporal, new_indptr, _) := st in
    TimeSeriesDataset_init new_temporal (temporal_cols dataset)
      (np_astype int32 new_indptr) int32
      (y_idx dataset) (static dataset) (static_cols dataset).

(** ** Reading a dataset as a list of series *)

(** Series [i]: [temporal[indptr[i] : indptr[i + 1]]]. *)
Definition series (d : TimeSeriesDataset) (i : nat) : list (list float32) :=
  match indptr d !! i, indptr d !! S i with
  | Some a, Some b => py_slice (Some a) (Some b) (mrows (temporal d))
  | _, _ => []
  end.

(** The running sums of the increments [incs], from [a]:
    [np.append(a, a + np.cumsum(incs))]. *)
Fixpoint offsets (a : Z) (incs : list Z) : list Z :=
  match incs with
  | [] => [a]
  | n :: tl => a :: offsets (a + n)%Z tl
  end.

Definition zsum (l : list Z) : Z := foldr Z.add 0%Z l.

Definition zlength {A} (l : list A) : Z := Z.of_nat (length l).

(** The fields that [__init__] derives from [indptr], for an [indptr]
    whose differences are the lengths of the series. *)
Record init_fields (d : TimeSeriesDataset) : Prop := {
  init_n_groups : n_groups d = (Z.of_nat (length (indptr d)) - 1)%Z;
  init_max_size : np_max (differences (indptr d)) = Ok (max_size d);
  init_min_size : np_min (differences (indptr d)) = Ok (min_size d)
}.

(** The same fields as [__init__] computes them: the differences are
    taken in the type of [indptr]. *)
Record init_computed (d : TimeSeriesDataset) : Prop := {
  comp_n_groups : n_groups d = (Z.of_nat (length (indptr d)) - 1)%Z;
  comp_max_size :
    np_max (np_diff (indptr_dtype d) (indptr d)) = Ok (max_size d);
  comp_min_size :
    np_min (np_diff (indptr_dtype d) (indptr d)) = Ok (min_size d)
}.

(** The invariant tying [indptr] to [temporal].  The last field is the
    typing of the array: its entries, which end at the number of rows,
    are values of its integer type. *)
Record indptr_invariant (d : TimeSeriesDataset) : Prop := {
  inv_length : Z.of_nat (length (indptr d)) = (n_groups d + 1)%Z;
  inv_first : head (indptr d) = Some 0%Z;
  inv_mono : forall i a b,
      indptr d !! i = Some a -> indptr d !! S i = Some b -> (a <= b)%Z;
  inv_last : last (indptr d) = Some (Z.of_nat (nrows (temporal d)));
  inv_series : forall i a b,
      indptr d !! i = Some a -> indptr d !! S i = Some b ->
      series d i = take (Z.to_nat (b - a)) (drop (Z.to_nat a) (mrows (temporal d)))
      /\ Z.of_nat (length (series d i)) = (b - a)%Z;
  inv_fits : (Z.of_nat (nrows (temporal d)) <= int_max (indptr_dtype d))%Z
}.

(** A dataset as the constructor builds it from consistent arguments. *)
Definition dataset_ok (d : TimeSeriesDataset) : Prop :=
  init_fields d /\ indptr_invariant d.

(** Removing the first [l] and the last [r] rows of a series. *)
Definition trimmed (l r : Z) (s : list (list float32)) : list (list float32) :=
  drop (Z.to_nat l) (take (length s - Z.to_nat r) s).

(** Cutting a list into consecutive pieces of the given lengths. *)
Fixpoint chunks {A} (lens : list nat) (l : list A) : list (list A) :=
  match lens with
  | [] => []
  | n :: tl => take n l :: chunks tl (drop n l)
  end.

(** The series of a dataset, cut along [indptr]. *)
Definition segments (d : TimeSeriesDataset) : list (list (list float32)) :=
  chunks (map Z.to_nat (differences (indptr d))) (mrows (temporal d)).

(** [t] has shape [(c, m)], its last [length s] columns are the rows of
    [s] transposed, and every earlier column is zero. *)
Definition left_padded (t : Matrix) (c m : nat) (s : list (list float32))
    : Prop :=
  nrows t = c /\ ncols t = m /\ mat_wf t
  /\ forall i j, i < c -> j < m ->
       mat_get t i j
       = if j <? m - length s then f32_zero
         else nth i (nth (j - (m - length s)) s []) f32_zero.

(** Every series has at least one row. *)
Definition nonempty_series (d : TimeSeriesDataset) : Prop :=
  Forall (fun n => (0 < n)%Z) (differences (indptr d)).

(** [static], when present, has a row for group [idx]. *)
Definition static_covers (d : TimeSeriesDataset) (idx : Z) : Prop :=
  match static d with
  | None => True
  | Some s => (idx < Z.of_nat (nrows s))%Z
  end.

(** ** Data frames *)

(** A row of a long-format frame: the series id, the timestamp, and the
    cells of the other columns by name.  A cell that is absent reads as
    NaN, as in pandas. *)
Record Row : Type := mkRow {
  row_id : Z;
  row_time : Z;
  row_vals : gmap string float32
}.

(** A frame: its rows and the names of its columns other than the id and
    time columns, in frame order.  The id and time columns are the ones
    the caller names with [id_col] and [time_col]; value columns are
    assumed not to reuse those two names. *)
Record DataFrame : Type := mkFrame {
  value_cols : list string;
  rows : list Row
}.

Definition row_get (r : Row) (c : string) : float32 :=
  default f32_nan (row_vals r !! c).

(** [ufp.assign_columns(df, col, v)]: set a whole column to [v], adding
    it after the existing ones when it is new. *)
Definition assign_columns (df : DataFrame) (col : string) (v : float32)
    : DataFrame :=
  {| value_cols := if decide (col ∈ value_cols df) then value_cols df
                   else value_cols df ++ [col];
     rows := map (fun r => {| row_id := row_id r; row_time := row_time r;
                              row_vals := <[col := v]> (row_vals r) |})
                 (rows df) |}.

(** [df[[id_col, time_col] + cols]] *)
Definition select_columns (df : DataFrame) (cols : list string)
    : result DataFrame :=
  if decide (Forall (fun c => c ∈ value_cols df) cols)
  then Ok {| value_cols := cols; rows := rows df |}
  else Raise KeyError.

(** Stable insertion sort by an integer key. *)
Fixpoint insert_by {A} (key : A -> Z) (x : A) (l : list A) : list A :=
  match l with
  | [] => [x]
  | y :: tl => if (key x <=? key y)%Z then x :: l
               else y :: insert_by key x tl
  end.

Definition sort_by {A} (key : A -> Z) (l : list A) : list A :=
  foldr (insert_by key) [] l.

(** The distinct values of a list, in increasing order. *)
Fixpoint insert_unique (x : Z) (l : list Z) : list Z :=
  match l with
  | [] => [x]
  | y :: tl => if (x <? y)%Z then x :: l
               else if (x =? y)%Z then l
               else y :: insert_unique x tl
  end.

Definition unique_sorted (l : list Z) : list Z := foldr insert_unique [] l.

(** The rows of series [u], in time order. *)
Definition group_rows {A} (id_of time_of : A -> Z) (l : list A) (u : Z)
    : list A :=
  sort_by time_of (filter (fun r => id_of r = u) l).

Definition frame_ids (df : DataFrame) : list Z :=
  unique_sorted (map row_id (rows df)).

(** The rows of the frame grouped by id (ids increasing), each group in
    time order. *)
Definition frame_groups (df : DataFrame) : list (list Row) :=
  map (group_rows row_id row_time (rows df)) (frame_ids df).

(** The value columns in the order of the processed array: the target
    first. *)
Definition data_cols (df : DataFrame) (target_col : string) : list string :=
  target_col :: filter (fun c => c ≠ target_col) (value_cols df).

Definition row_data (cols : list string) (r : Row) : list float32 :=
  map (row_get r) cols.

Record ProcessedDF : Type := mkProcessed {
  p_ids : list Z;
  p_times : list Z;
  p_data : Matrix;
  p_indptr : list Z;
  p_indptr_dtype : int_dtype;
  p_sort_idxs : option (list nat)
}.

(** The integer type of the offsets that [process_df] returns.  It is no
    part of the documented result; the model takes int32, the type that
    [trim_dataset] gives its own offsets, for a frame whose row count is
    a value of it, and int64 for a larger frame, so that the offsets are
    the documented positions in either case. *)
Definition offsets_dtype (n_rows : Z) : int_dtype :=
  if decide (n_rows <= int_max int32)%Z then int32 else int64.

(** [utilsforecast.processing.process_df], a function of the library the
    code builds on.  Modelled from its documented result: the ids in
    increasing order, the last timestamp of each id, the value columns
    (target first) of the rows ordered by id and time, the offsets of the
    ids in that array, and the permutation that orders the rows ([None]
    when they already are in order).  A frame without the target column is
    rejected; so is a frame of 2^63 rows or more, of which numpy cannot
    build the array [data]. *)
Definition process_df (df : DataFrame) (target_col : string)
    : result ProcessedDF :=
  if decide (int_max int64 < Z.of_nat (length (rows df)))%Z
  then Raise ValueError
  else if decide (target_col ∈ value_cols df) then
    let groups := frame_groups df in
    let cols := data_cols df target_col in
    let positions :=
      concat (map (group_rows (fun p => row_id p.2) (fun p => row_time p.2)
                              (zip (seq 0 (length (rows df))) (rows df)))
                  (frame_ids df)) in
    Ok {| p_ids := frame_ids df;
          p_times := map (fun g => default 0%Z (row_time <$> last g)) groups;
          p_data := {| ncols := length cols;
                       mrows := map (row_data cols) (concat groups) |};
          p_indptr := offsets 0 (map zlength groups);
          p_indptr_dtype := offsets_dtype (Z.of_nat (length (rows df)));
          p_sort_idxs :=
            if decide (positions.*1 = seq 0 (length (rows df))) then None
            else Some positions.*1 |}
  else Raise ValueError.

(** The static frame: one row per series, its id and its cells. *)
Record StaticFrame : Type := mkStatic {
  static_names : list string;
  static_rows : list (Z * gmap string float32)
}.

(** [np.append(a, b, axis=1)] *)
Definition np_append_axis1 (a b : Matrix) : result Matrix :=
  if decide (nrows a = nrows b)
  then Ok {| ncols := ncols a + ncols b;
             mrows := zip_with app (mrows a) (mrows b) |}
  else Raise ValueError.

Definition _ensure_available_mask (data : Matrix) (temporal_cols0 : list string)
    : result (Matrix * list string) :=
  if decide ("available_mask" ∉ temporal_cols0) then
    available_mask ← np_ones (Z.of_nat (nrows data)) 1;
    let temporal_cols1 := temporal_cols0 ++ ["available_mask"] in
    data ← np_append_axis1 data available_mask;
    Ok (data, temporal_cols1)
  else Ok (data, temporal_cols0).

Definition _extract_static_features (static_df : option StaticFrame)
    : option Matrix * option (list string) :=
  match static_df with
  | Some sdf =>
      let sorted := sort_by fst (static_rows sdf) in
      let static_cols0 := static_names sdf in
      (Some {| ncols := length static_cols0;
               mrows := map (fun r => map (fun c => default f32_nan (r.2 !! c))
                                          static_cols0) sorted |},
       Some static_cols0)
  | None => (None, None)
  end.

(** [from_df]: the dataset, the ids, the last dates and the sorted time
    column. *)
Definition from_df (df : DataFrame) (static_df : option StaticFrame)
    (target_col : string)
    : result (TimeSeriesDataset * list Z * list Z * list Z) :=
  let '(static0, static_cols0) := _extract_static_features static_df in
  p ← process_df df target_col;
  let temporal_cols0 := data_cols df target_col in
  (* [temporal = data.astype(np.float32)] is overwritten two lines later *)
  let indices := p_ids p in
  let dates := p_times p in
  '(temporal0, temporal_cols1) ←
     _ensure_available_mask (p_data p) temporal_cols0;
  dataset ← TimeSeriesDataset_init temporal0 temporal_cols1 (p_indptr p)
              (p_indptr_dtype p) 0 static0 static_cols0;
  let ds := map row_time (rows df) in
  let ds := match p_sort_idxs p with
            | Some idxs => map (fun i => nth i ds 0%Z) idxs
            | None => ds
            end in
  Ok (dataset, indices, dates, ds).

(** The body of the loop of [align]: a missing column is filled with
    NaN, and the mask column is set to 1. *)
Definition align_col (df : DataFrame) (col : string) : DataFrame :=
  let df := if decide (col ∉ value_cols df)
            then assign_columns df col f32_nan else df in
  if decide (col = "available_mask")
  then assign_columns df col f32_one else df.

(** [align]: bring a future frame to the columns of the dataset.  The
    shallow copy that protects the caller's frame has no effect on
    values. *)
Definition align (self : TimeSeriesDataset) (df : DataFrame)
    (target_col : string) : result TimeSeriesDataset :=
  let temporal_cols0 := temporal_cols self in
  let df := foldl align_col df temporal_cols0 in
  df ← select_columns df temporal_cols0;
  r ← from_df df None target_col;
  Ok r.1.1.1.

Definition update_dataset (mem : nat -> float32) (dataset : TimeSeriesDataset)
    (futr_df : DataFrame) (target_col : string) : result TimeSeriesDataset :=
  futr_dataset ← align dataset futr_df target_col;
  append mem dataset futr_dataset.

(** ** The loader's collation *)

(** [torch.stack(ts, 0)]: the tensors must have one shape. *)
Definition torch_stack (ts : list ndarray) : result ndarray :=
  match ts with
  | [] => Raise RuntimeError
  | t :: _ =>
      if forallb (fun x => bool_decide (shape x = shape t)) ts
      then Ok (Stacked (shape t) ts)
      else Raise RuntimeError
  end.

(** [t.unsqueeze(0)] *)
Definition unsqueeze0 (t : ndarray) : ndarray := Stacked (shape t) [t].

Fixpoint sequence {A} (l : list (result A)) : result (list A) :=
  match l with
  | [] => Ok []
  | r :: tl => x ← r; xs ← sequence tl; Ok (x :: xs)
  end.

Definition as_tensor (v : pyval) : result ndarray :=
  match v with
  | VTensor t => Ok t
  | _ => Raise TypeError
  end.

(** [x.numel()]: the number of cells of a tensor; another object has no
    such method. *)
Fixpoint shape_numel (s : list nat) : nat :=
  match s with
  | [] => 1
  | n :: tl => n * shape_numel tl
  end.

Definition numel (v : pyval) : result nat :=
  match v with
  | VTensor t => Ok (shape_numel (shape t))
  | _ => Raise AttributeError
  end.

(** The tensor branch of [_collate_fn]; [elem] is [batch[0]], and
    [worker] tells whether [torch.utils.data.get_worker_info()] is not
    [None], that is whether the call runs in a worker process.  There the
    cells of the batch are counted first, for the shared storage that
    [torch.stack] then writes to; the storage does not change the
    result. *)
Definition collate_tensors (worker : bool) (elem : ndarray)
    (batch : list pyval) : result ndarray :=
  if decide (length batch = 1) then Ok (unsqueeze0 elem)
  else
    _ ← (if worker then sequence (map numel batch) else Ok []);
    ts ← sequence (map as_tensor batch); torch_stack ts.

(** [d[key]] for an element of the batch: a tensor cannot be indexed by
    a string (IndexError), and another object cannot be subscripted. *)
Definition getkey (key : string) (v : pyval) : result leaf :=
  match v with
  | VMapping d => match d !! key with
                  | Some x => Ok x
                  | None => Raise KeyError
                  end
  | VTensor _ => Raise IndexError
  | VOther _ => Raise TypeError
  end.

(** The result of collation: a tensor or a dict. *)
Inductive collated : Set :=
| CTensor (t : ndarray)
| CDict (d : gmap string leaf).

(** [self.collate_fn([d[key] for d in batch])]: the recursive call on the
    values stored under one key.  These are never mappings, so the call
    ends in the tensor branch or in the final [TypeError]. *)
Definition collate_key (worker : bool) (key : string) (batch : list pyval)
    : result leaf :=
  vals ← sequence (map (getkey key) batch);
  match map leaf_to_pyval vals with
  | (VTensor elem :: _) as sub =>
      t ← collate_tensors worker elem sub; Ok (LTensor t)
  | VMapping _ :: _ => Raise TypeError
  | VOther _ :: _ => Raise TypeError
  | [] => Raise IndexError
  end.

Definition _collate_fn (worker : bool) (batch : list pyval)
    : result collated :=
  match batch with
  | [] => Raise IndexError
  | elem :: _ =>
      match elem with
      | VTensor t => r ← collate_tensors worker t batch; Ok (CTensor r)
      | VMapping _ =>
          elem_static ← getkey "static" elem;
          match elem_static with
          | LNone =>
              out_temporal ← collate_key worker "temporal" batch;
              out_temporal_cols ← getkey "temporal_cols" elem;
              out_y_idx ← getkey "y_idx" elem;
              Ok (CDict (<["temporal" := out_temporal]>
                         (<["temporal_cols" := out_temporal_cols]>
                         (<["y_idx" := out_y_idx]> ∅))))
          | _ =>
              out_static ← collate_key worker "static" batch;
              out_static_cols ← getkey "static_cols" elem;
              out_temporal ← collate_key worker "temporal" batch;
              out_temporal_cols ← getkey "temporal_cols" elem;
              out_y_idx ← getkey "y_idx" elem;
              Ok (CDict (<["static" := out_static]>
                         (<["static_cols" := out_static_cols]>
                         (<["temporal" := out_temporal]>
                         (<["temporal_cols" := out_temporal_cols]>
                         (<["y_idx" := out_y_idx]> ∅))))))
          end
      | VOther _ => Raise TypeError
      end
  end.

(** ** Objects in a store

    The methods above are written on values.  To speak of mutation and of
    object identity, the same methods are given here over a store that
    holds tensors, index arrays and dataset instances by address; a field
    of an instance holds the address of its tensor or array, so that two
    instances can share one. *)
Module Store.

Record DatasetObj : Set := mkObj {
  o_temporal : nat;
  o_temporal_cols : list string;
  o_indptr : nat;
  o_n_groups : Z;
  o_static : option nat;
  o_static_cols : option (list string);
  o_max_size : Z;
  o_min_size : Z;
  o_y_idx : Z;
  o_updated : bool
}.

(** An index array in the store: its integer type and its entries. *)
Record store : Set := mkStore {
  tensors : list Matrix;
  arrays : list (int_dtype * list Z);
  objects : list DatasetObj
}.

(** A computation on the store that can raise; the store survives the
    exception. *)
Definition M (A : Type) : Type := store -> result A * store.

Definition ret {A} (a : A) : M A := fun h => (Ok a, h).
Definition raise {A} (e : exn) : M A := fun h => (Raise e, h).
Definition bind {A B} (m : M A) (f : A -> M B) : M B := fun h =>
  match m h with
  | (Ok a, h') => f a h'
  | (Raise e, h') => (Raise e, h')
  end.
Definition lift {A} (r : result A) : M A := fun h => (r, h).

Notation "x <- m ;; k" := (bind m (fun x => k))
  (at level 100, m at next level, right associativity).

Definition new_tensor (m : Matrix) : M nat := fun h =>
  (Ok (length (tensors h)),
   {| tensors := tensors h ++ [m]; arrays := arrays h; objects := objects h |}).

Definition read_tensor (a : nat) : M Matrix := fun h =>
  match tensors h !! a with
  | Some m => (Ok m, h)
  | None => (Raise AttributeError, h)
  end.

Definition write_tensor (a : nat) (m : Matrix) : M unit := fun h =>
  (Ok tt, {| tensors := <[a := m]> (tensors h); arrays := arrays h;
             objects := objects h |}).

Definition new_array (a : int_dtype * list Z) : M nat := fun h =>
  (Ok (length (arrays h)),
   {| tensors := tensors h; arrays := arrays h ++ [a]; objects := objects h |}).

Definition read_array (a : nat) : M (int_dtype * list Z) := fun h =>
  match arrays h !! a with
  | Some x => (Ok x, h)
  | None => (Raise AttributeError, h)
  end.

Definition new_object (o : DatasetObj) : M nat := fun h =>
  (Ok (length (objects h)),
   {| tensors := tensors h; arrays := arrays h; objects := objects h ++ [o] |}).

Definition read_object (a : nat) : M DatasetObj := fun h =>
  match objects h !! a with
  | Some o => (Ok o, h)
  | None => (Raise AttributeError, h)
  end.

Fixpoint for_each {St} (body : Z -> St -> M St) (idxs : list nat) (s : St)
    : M St :=
  match idxs with
  | [] => ret s
  | i :: tl => s' <- body (Z.of_nat i) s;; for_each body tl s'
  end.

(** [_as_torch_copy]: a fresh tensor with the same contents. *)
Definition _as_torch_copy (x : nat) : M nat :=
  m <- read_tensor x;; new_tensor m.

(** The constructor: the instance holds a copy of [temporal], the
    [indptr] array it was given, and a copy of [static]. *)
Definition TimeSeriesDataset_init (temporal0 : nat)
    (temporal_cols0 : list string) (indptr0 : nat) (y_idx0 : Z)
    (static0 : option nat) (static_cols0 : option (list string)) : M nat :=
  temporal1 <- _as_torch_copy temporal0;;
  ip <- read_array indptr0;;
  let n_groups0 := (Z.of_nat (length ip.2) - 1)%Z in
  let sizes := np_diff ip.1 ip.2 in
  max_size0 <- lift (np_max sizes);;
  min_size0 <- lift (np_min sizes);;
  static1 <- match static0 with
             | Some s => s' <- _as_torch_copy s;; ret (Some s')
             | None => ret None
             end;;
  new_object {| o_temporal := temporal1;
                o_temporal_cols := temporal_cols0;
                o_indptr := indptr0;
                o_n_groups := n_groups0;
                o_static := static1;
                o_static_cols := static_cols0;
                o_max_size := max_size0;
                o_min_size := min_size0;
                o_y_idx := y_idx0;
                o_updated := false |}.

(** [dest[start:stop] = src[s0:s1]] between tensors of the store. *)
Definition copy_rows (dest : nat) (start stop : Z) (src : nat) (s0 s1 : Z)
    : M unit :=
  s <- read_tensor src;;
  t <- read_tensor dest;;
  t' <- lift (setitem_rows t (Some start) (Some stop)
                (rows_slice (Some s0) (Some s1) s));;
  write_tensor dest t'.

Definition append_step (self futr_dataset : DatasetObj) (new_indptr : nat)
    (new_temporal : nat) (i : Z) (_ : unit) : M unit :=
  ip <- read_array (o_indptr self);;
  cur_start <- lift (np_getitem ip.2 i);;
  cur_stop <- lift (np_getitem ip.2 (i + 1));;
  let curr_size := int_sub ip.1 cur_stop cur_start in
  fip <- read_array (o_indptr futr_dataset);;
  futr_start <- lift (np_getitem fip.2 i);;
  futr_stop <- lift (np_getitem fip.2 (i + 1));;
  nip <- read_array new_indptr;;
  new_start <- lift (np_getitem nip.2 i);;
  _ <- copy_rows new_temporal new_start
         (int_add (promote ip.1 fip.1) new_start curr_size)
         (o_temporal self) cur_start cur_stop;;
  new_stop <- lift (np_getitem nip.2 (i + 1));;
  copy_rows new_temporal (int_add (promote ip.1 fip.1) new_start curr_size)
    new_stop (o_temporal futr_dataset) futr_start futr_stop.

Definition append (mem : nat -> float32) (self_ref futr_ref : nat) : M nat :=
  self <- read_object self_ref;;
  futr_dataset <- read_object futr_ref;;
  ip <- read_array (o_indptr self);;
  fip <- read_array (o_indptr futr_dataset);;
  if decide (length ip.2 ≠ length fip.2) then raise ValueError
  else
    t <- read_tensor (o_temporal self);;
    ft <- read_tensor (o_temporal futr_dataset);;
    m <- lift (torch_empty mem (Z.of_nat (nrows t) + Z.of_nat (nrows ft))
                 (Z.of_nat (ncols t)));;
    new_temporal <- new_tensor m;;
    new_indptr <- new_array (promote ip.1 fip.1,
                             zip_with (int_add (promote ip.1 fip.1))
                                      ip.2 fip.2);;
    _ <- for_each (append_step self futr_dataset new_indptr new_temporal)
           (seq 0 (Z.to_nat (o_n_groups self))) tt;;
    TimeSeriesDataset_init new_temporal (o_temporal_cols self) new_indptr
      (o_y_idx self) (o_static self) (o_static_cols self).

(** The loop state of [trim_dataset] is the Python list [new_indptr] and
    the counter [acum]; [new_temporal] is written in the store. *)
Definition trim_step (dataset : DatasetObj) (left_trim right_trim : Z)
    (new_temporal : nat) (i : Z) (st : list Z * Z) : M (list Z * Z) :=
  let '(new_indptr, acum) := st in
  ip <- read_array (o_indptr dataset);;
  stop <- lift (np_getitem ip.2 (i + 1));;
  start <- lift (np_getitem ip.2 i);;
  let series_length := int_sub ip.1 stop start in
  lt <- lift (as_scalar ip.1 left_trim);;
  rt <- lift (as_scalar ip.1 right_trim);;
  let new_length := int_sub ip.1 (int_sub ip.1 series_length lt) rt in
  _ <- copy_rows new_temporal acum (int_add ip.1 acum new_length)
         (o_temporal dataset) (int_add ip.1 start lt) (int_sub ip.1 stop rt);;
  let acum := int_add ip.1 acum new_length in
  ret (new_indptr ++ [acum], acum).

Definition trim_dataset (dataset_ref : nat) (left_trim right_trim : Z)
    : M nat :=
  dataset <- read_object dataset_ref;;
  if (o_min_size dataset <=? left_trim + right_trim)%Z
  then raise Exception
  else
    t <- read_tensor (o_temporal dataset);;
    let total_trim := ((left_trim + right_trim) * o_n_groups dataset)%Z in
    m <- lift (torch_zeros (Z.of_nat (nrows t) - total_trim)
                 (Z.of_nat (ncols t)));;
    new_temporal <- new_tensor m;;
    st <- for_each (trim_step dataset left_trim right_trim new_temporal)
            (seq 0 (Z.to_nat (o_n_groups dataset))) ([0%Z], 0%Z);;
    new_indptr <- new_array (int32, np_astype int32 st.1);;
    TimeSeriesDataset_init new_temporal (o_temporal_cols dataset) new_indptr
      (o_y_idx dataset) (o_static dataset) (o_static_cols dataset).

(** The value of an instance: its fields with the tensors and arrays they
    point to. *)
Definition deref (h : store) (a : nat) : option TimeSeriesDataset :=
  o ← objects h !! a;
  t ← tensors h !! o_temporal o;
  ip ← arrays h !! o_indptr o;
  st ← match o_static o with
       | Some s => Some <$> tensors h !! s
       | None => Some None
       end;
  Some {| temporal := t;
          temporal_cols := o_temporal_cols o;
          indptr := ip.2;
          indptr_dtype := ip.1;
          n_groups := o_n_groups o;
          static := st;
          static_cols := o_static_cols o;
          max_size := o_max_size o;
          min_size := o_min_size o;
          y_idx := o_y_idx o;
          updated := o_updated o |}.

(** Every address used by [h] still holds in [h'] what it held in [h]. *)
Definition preserved (h h' : store) : Prop :=
  tensors h `prefix_of` tensors h'
  /\ arrays h `prefix_of` arrays h'
  /\ objects h `prefix_of` objects h'.

End Store.

(** The store after a run of the constructor. *)
Definition init_store (h : Store.store) (t : Matrix) (st : option Matrix)
    (o : Store.DatasetObj) : Store.store :=
  {| Store.tensors := Store.tensors h ++ [t] ++ option_list st;
     Store.arrays := Store.arrays h;
     Store.objects := Store.objects h ++ [o] |}.

Definition init_object (h : Store.store) (ipa : nat) (ip : list Z) cols y
    (sta : option nat) sc (mx mn : Z) : Store.DatasetObj :=
  {| Store.o_temporal := length (Store.tensors h);
     Store.o_temporal_cols := cols;
     Store.o_indptr := ipa;
     Store.o_n_groups := Z.of_nat (length ip) - 1;
     Store.o_static := match sta with
                       | Some _ => Some (S (length (Store.tensors h)))
                       | None => None
                       end;
     Store.o_static_cols := sc;
     Store.o_max_size := mx;
     Store.o_min_size := mn;
     Store.o_y_idx := y;
     Store.o_updated := false |}.

Definition static_at (h : Store.store) (sta : option nat) (st : option Matrix)
    : Prop :=
  match sta with
  | Some s => exists m, Store.tensors h !! s = Some m /\ st = Some m
  | None => st = None
  end.


(** The store [h] with the tensor at [a] replaced. *)
Definition with_tensor (h : Store.store) (a : nat) (m : Matrix) : Store.store :=
  {| Store.tensors := <[a := m]> (Store.tensors h);
     Store.arrays := Store.arrays h;
     Store.objects := Store.objects h |}.

Definition result_map {A B} (f : A -> B) (r : result A) : result B :=
  match r with
  | Ok a => Ok (f a)
  | Raise e => Raise e
  end.

(** The datasets that the three factories produce. *)
Inductive produced : TimeSeriesDataset -> Prop :=
| produced_from_df df static_df target_col d ids dates ds :
    from_df df static_df target_col = Ok (d, ids, dates, ds) -> produced d
| produced_append mem self futr d :
    produced self -> produced futr -> append mem self futr = Ok d ->
    produced d
| produced_trim dataset left_trim right_trim d :
    produced dataset -> trim_dataset dataset left_trim right_trim = Ok d ->
    produced d.

(** The datasets that the three factories produce while no dataset has
    more rows than an int32 offset can count ([2^31 - 1]): each dataset
    produced on the way, the result included, is within that bound. *)
Inductive produced_fits : TimeSeriesDataset -> Prop :=
| fits_from_df df static_df target_col d ids dates ds :
    from_df df static_df target_col = Ok (d, ids, dates, ds) ->
    (Z.of_nat (nrows (temporal d)) <= int_max int32)%Z ->
    produced_fits d
| fits_append mem self futr d :
    produced_fits self -> produced_fits futr ->
    append mem self futr = Ok d ->
    (Z.of_nat (nrows (temporal d)) <= int_max int32)%Z ->
    produced_fits d
| fits_trim dataset left_trim right_trim d :
    produced_fits dataset ->
    trim_dataset dataset left_trim right_trim = Ok d ->
    (Z.of_nat (nrows (temporal d)) <= int_max int32)%Z ->
    produced_fits d.

(** The dataset with its [updated] flag set to [b]. *)
Definition set_updated (b : bool) (d : TimeSeriesDataset) : TimeSeriesDataset :=
  {| temporal := temporal d; temporal_cols := temporal_cols d;
     indptr := indptr d; indptr_dtype := indptr_dtype d;
     n_groups := n_groups d; static := static d;
     static_cols := static_cols d; max_size := max_size d;
     min_size := min_size d; y_idx := y_idx d; updated := b |}.

(** [n] successive appends of [futr]. *)
Fixpoint append_times (mem : nat -> float32) (futr : TimeSeriesDataset)
    (n : nat) (d : TimeSeriesDataset) : result TimeSeriesDataset :=
  match n with
  | 0 => Ok d
  | S n => d' ← append mem d futr; append_times mem futr n d'
  end.

(** ** Splitting a frame at a time cutoff *)

Definition rows_until (c : Z) (df : DataFrame) : DataFrame :=
  {| value_cols := value_cols df;
     rows := filter (fun r => (row_time r <= c)%Z) (rows df) |}.

Definition rows_after (c : Z) (df : DataFrame) : DataFrame :=
  {| value_cols := value_cols df;
     rows := filter (fun r => (c < row_time r)%Z) (rows df) |}.

(** Every series of [df] has rows on both sides of the cutoff. *)
Definition series_on_both_sides (c : Z) (df : DataFrame) : Prop :=
  forall u, u ∈ map row_id (rows df) ->
    u ∈ map row_id (rows (rows_until c df))
    /\ u ∈ map row_id (rows (rows_after c df)).

(** Wherever the later part of [df] has an ['available_mask'] column, it
    holds 1. *)
Definition mask_is_one_after (c : Z) (df : DataFrame) : Prop :=
  "available_mask" ∈ value_cols df ->
  forall r, r ∈ rows df -> (c < row_time r)%Z ->
    row_get r "available_mask" = f32_one.

(** The row of [temporal] that [from_df] builds from a frame row: its
    value columns, and a final 1 when the frame has no mask column. *)
Definition temporal_row (cols : list string) (r : Row) : list float32 :=
  row_data cols r
  ++ (if decide ("available_mask" ∈ cols) then [] else [f32_one]).

Definition temporal_names (cols : list string) : list string :=
  cols ++ (if decide ("available_mask" ∈ cols) then [] else ["available_mask"]).

(** A row with its mask cell set to 1. *)
Definition mark_available (r : Row) : Row :=
  {| row_id := row_id r; row_time := row_time r;
     row_vals := <["available_mask" := f32_one]> (row_vals r) |}.

Definition mark_if (b : bool) (r : Row) : Row :=
  if b then mark_available r else r.

(** Strictly increasing lists. *)
Inductive increasing : list Z -> Prop :=
| increasing_nil : increasing []
| increasing_cons x l :
    Forall (fun y => (x < y)%Z) l -> increasing l -> increasing (x :: l).

(** ** Sample data *)

(** The float32 nearest to an integer. *)
Definition f32_of_Z (z : Z) : float32 := binary_normalize 24 128 z 0 false.

Definition sample_row (id time : Z) (cells : list (string * Z)) : Row :=
  {| row_id := id; row_time := time;
     row_vals := list_to_map (map (fun p => (p.1, f32_of_Z p.2)) cells) |}.

(** Two series of two rows each, one value column. *)
Definition sample_frame : DataFrame :=
  {| value_cols := ["y"];
     rows := [sample_row 1 1 [("y", 1%Z)]; sample_row 1 2 [("y", 2%Z)];
              sample_row 2 1 [("y", 3%Z)]; sample_row 2 2 [("y", 4%Z)]] |}.

(** The same series with an exogenous column. *)
Definition sample_frame_exog : DataFrame :=
  {| value_cols := ["y"; "x"];
     rows := [sample_row 1 1 [("y", 1%Z); ("x", 5%Z)];
              sample_row 1 2 [("y", 2%Z); ("x", 6%Z)];
              sample_row 2 1 [("y", 3%Z); ("x", 7%Z)];
              sample_row 2 2 [("y", 4%Z); ("x", 8%Z)]] |}.

(** One series whose mask is 0 at the later timestamp. *)
Definition sample_frame_masked : DataFrame :=
  {| value_cols := ["y"; "available_mask"];
     rows := [sample_row 1 1 [("y", 1%Z); ("available_mask", 1%Z)];
              sample_row 1 2 [("y", 2%Z); ("available_mask", 0%Z)]] |}.

(** Static features for the first series only. *)
Definition sample_static_short : StaticFrame :=
  {| static_names := ["s"];
     static_rows := [(1%Z, {["s" := f32_of_Z 9]})] |}.

Definition sample_matrix (c : nat) (cells : list (list Z)) : Matrix :=
  {| ncols := c; mrows := map (map f32_of_Z) cells |}.

(** [from_df(sample_frame)] *)
Definition sample_dataset : TimeSeriesDataset :=
  {| temporal := sample_matrix 2 [[1; 1]; [2; 1]; [3; 1]; [4; 1]]%Z;
     temporal_cols := ["y"; "available_mask"];
     indptr := [0; 2; 4]%Z;
     indptr_dtype := int32;
     n_groups := 2;
     static := None;
     static_cols := None;
     max_size := 2;
     min_size := 2;
     y_idx := 0;
     updated := false |}.

(** [from_df(sample_frame_exog)] *)
Definition sample_dataset_exog : TimeSeriesDataset :=
  {| temporal := sample_matrix 3 [[1; 5; 1]; [2; 6; 1]; [3; 7; 1]; [4; 8; 1]]%Z;
     temporal_cols := ["y"; "x"; "available_mask"];
     indptr := [0; 2; 4]%Z;
     indptr_dtype := int32;
     n_groups := 2;
     static := None;
     static_cols := None;
     max_size := 2;
     min_size := 2;
     y_idx := 0;
     updated := false |}.

(** [from_df(sample_frame, static_df=sample_static_short)] *)
Definition sample_dataset_short_static : TimeSeriesDataset :=
  {| temporal := sample_matrix 2 [[1; 1]; [2; 1]; [3; 1]; [4; 1]]%Z;
     temporal_cols := ["y"; "available_mask"];
     indptr := [0; 2; 4]%Z;
     indptr_dtype := int32;
     n_groups := 2;
     static := Some (sample_matrix 1 [[9]]%Z);
     static_cols := Some ["s"];
     max_size := 2;
     min_size := 2;
     y_idx := 0;
     updated := false |}.

(** What the constructor builds from three rows and offsets that speak
    of five. *)
Definition sample_dataset_loose : TimeSeriesDataset :=
  {| temporal := sample_matrix 1 [[1]; [2]; [3]]%Z;
     temporal_cols := ["y"];
     indptr := [0; 5]%Z;
     indptr_dtype := int32;
     n_groups := 1;
     static := None;
     static_cols := None;
     max_size := 5;
     min_size := 5;
     y_idx := 0;
     updated := false |}.

(** A frame of one series of [n] rows, at the times [0 .. n - 1]. *)
Definition long_frame (n : nat) : DataFrame :=
  {| value_cols := ["y"];
     rows := map (fun i => sample_row 1 (Z.of_nat i) [("y", 1%Z)])
                 (seq 0 n) |}.

(** The contents of freshly allocated memory in the samples. *)
Definition sample_mem : nat -> float32 := fun _ => f32_nan.

(** A store holding [sample_dataset] at address 0. *)
Definition sample_store : Store.store :=
  {| Store.tensors := [temporal sample_dataset];
     Store.arrays := [(int32, indptr sample_dataset)];
     Store.objects :=
       [{| Store.o_temporal := 0; Store.o_temporal_cols := ["y"; "available_mask"];
           Store.o_indptr := 0; Store.o_n_groups := 2;
           Store.o_static := None; Store.o_static_cols := None;
           Store.o_max_size := 2; Store.o_min_size := 2;
           Store.o_y_idx := 0; Store.o_updated := false |}] |}.

(** The item of [sample_dataset] for group [idx]. *)
Definition sample_item (idx : Z) : gmap string leaf :=
  match __getitem__ sample_dataset (IdxInt idx) with
  | Ok item => item
  | Raise _ => ∅
  end.

(** ** The parts of an item *)

(** The padded window that [__getitem__] builds for [idx]. *)
Definition getitem_temporal (self : TimeSeriesDataset) (idx : Z)
    : result Matrix :=
  let c := Z.of_nat (length (temporal_cols self)) in
  a ← np_getitem (indptr self) idx;
  b ← np_getitem (indptr self) (idx + 1);
  let ts := rows_slice (Some a) (Some b) (temporal self) in
  if decide ((c, max_size self) = (Z.of_nat (ncols ts), Z.of_nat (nrows ts)))
  then Ok (permute10 ts)
  else
    z ← torch_zeros c (max_size self);
    setitem_block z None (Some c) (Some (- Z.of_nat (nrows ts))%Z) None
                  (permute10 ts).

(** [None if self.static is None else self.static[idx, :]] *)
Definition getitem_static (self : TimeSeriesDataset) (idx : Z) : result leaf :=
  match static self with
  | None => Ok LNone
  | Some s => r ← tensor_row s idx; Ok (LTensor (Arr1 r))
  end.

(** The dict that [__getitem__] returns. *)
Definition make_item (self : TimeSeriesDataset) (item_temporal : Matrix)
    (item_static : leaf) : gmap string leaf :=
  <["temporal" := LTensor (Arr2 item_temporal)]>
  (<["temporal_cols" := LIndex (temporal_cols self)]>
  (<["static" := item_static]>
  (<["static_cols" := option_index (static_cols self)]>
  (<["y_idx" := LInt (y_idx self)]> ∅)))).

(** What the loader does with a batch of indices:
    [collate_fn([dataset[idx] for idx in batch])], in a worker process or
    in the main one. *)
Definition fetch (worker : bool) (dataset : TimeSeriesDataset)
    (batch : list Z) : result collated :=
  items ← sequence (map (fun idx => __getitem__ dataset (IdxInt idx)) batch);
  _collate_fn worker (map VMapping items).

(** ** The future frame after [align] *)

(** The cell of column [c] that [align] leaves in a row of the future
    frame [df]: 1 in the mask column, the frame's own cell in a column it
    has, NaN in a column it lacks. *)
Definition aligned_cell (df : DataFrame) (r : Row) (c : string) : float32 :=
  if decide (c = "available_mask") then f32_one
  else if decide (c ∈ value_cols df) then row_get r c
  else f32_nan.

Definition aligned_row (cols : list string) (df : DataFrame) (r : Row)
    : list float32 :=
  map (aligned_cell df r) cols.

(** ** The distributed data module *)

(** [_FilesDataset]: the parquet files of a partitioned dataset and the
    roles of their columns.  The id and time columns are the ones a [Row]
    carries as [row_id] and [row_time]. *)
Record _FilesDataset : Type := mkFiles {
  files : list string;
  fd_temporal_cols : list string;
  fd_static_cols : option (list string);
  fd_target_col : string;
  fd_min_size : Z
}.

(** [df.groupby(id_col, observed=True).head(1)]: the first row of every
    id, in frame order; [seen] holds the ids already met. *)
Fixpoint head_per_id (seen : list Z) (l : list Row) : list Row :=
  match l with
  | [] => []
  | r :: tl => if decide (row_id r ∈ seen) then head_per_id seen tl
               else r :: head_per_id (row_id r :: seen) tl
  end.

(** [df.drop(columns=cols)] *)
Definition drop_columns (df : DataFrame) (cols : list string)
    : result DataFrame :=
  if decide (Forall (fun c => c ∈ value_cols df) cols)
  then Ok {| value_cols := filter (fun c => c ∉ cols) (value_cols df);
             rows := rows df |}
  else Raise KeyError.

(** [_DistributedTimeSeriesDataModule.setup]; [read_parquet] is
    [pd.read_parquet] on the file system at hand and [rank] the value of
    [dist.get_rank()].  The result is the dataset assigned to
    [self.dataset]. *)
Definition setup (read_parquet : string -> result DataFrame) (rank : Z)
    (files_ds : _FilesDataset) : result TimeSeriesDataset :=
  path ← list_getitem (files files_ds) rank;
  df ← read_parquet path;
  '(static_df, df) ←
    match fd_static_cols files_ds with
    | Some static_cols0 =>
        sel ← select_columns df static_cols0;
        let static_df :=
          {| static_names := value_cols sel;
             static_rows := map (fun r => (row_id r, row_vals r))
                                (head_per_id [] (rows sel)) |} in
        df ← drop_columns df static_cols0;
        Ok (Some static_df, df)
    | None => Ok (None, df)
    end;
  r ← from_df df static_df (fd_target_col files_ds);
  Ok r.1.1.1.

(** ** Datasets on local files *)

(** A loop [for x in xs] whose body can raise. *)
Fixpoint for_in {A St} (body : A -> St -> result St) (xs : list A) (s : St)
    : result St :=
  match xs with
  | [] => Ok s
  | x :: tl => s' ← body x s; for_in body tl s'
  end.

(** The metadata of a parquet file, as [pyarrow.parquet.read_metadata]
    gives it: its row groups, each with its number of rows and its column
    chunks; of a chunk, the column name and the maximum recorded in its
    statistics ([None] when the chunk has no statistics). *)
Record ColumnChunkMetaData : Set := mkColumn {
  path_in_schema : string;
  statistics_max : option Z
}.

Record RowGroupMetaData : Set := mkRowGroup {
  num_rows : Z;
  rg_columns : list ColumnChunkMetaData
}.

Record FileMetaData : Set := mkMeta {
  row_groups : list RowGroupMetaData
}.

(** What the file system holds at a path: whether it is a directory, its
    final component ([Path(dir).name]), and the metadata of the files that
    [glob('*.parquet')] yields there, in the order it yields them. *)
Record DirEntry : Set := mkDir {
  is_dir : bool;
  dir_name : string;
  parquet_files : list FileMetaData
}.

(** [meta.row_group(i)] and [rg.column(i)]: out of range raises
    IndexError. *)
Definition row_group (meta : FileMetaData) (i : Z) : result RowGroupMetaData :=
  if (i <? 0)%Z then Raise IndexError
  else match row_groups meta !! Z.to_nat i with
       | Some rg => Ok rg
       | None => Raise IndexError
       end.

Definition column (rg : RowGroupMetaData) (i : nat)
    : result ColumnChunkMetaData :=
  match rg_columns rg !! i with
  | Some c => Ok c
  | None => Raise IndexError
  end.

(** [{rg.column(i).path_in_schema: i for i in range(rg.num_columns)}]: a
    name met again takes the later position. *)
Definition col2pos_of (rg : RowGroupMetaData) : gmap string nat :=
  foldl (fun m p => <[path_in_schema p.2 := p.1]> m) ∅
        (zip (seq 0 (length (rg_columns rg))) (rg_columns rg)).

(** [s.split(c)[-1]]: what follows the last [c] of [s], or [s] itself. *)
Fixpoint str_contains (c : Ascii.ascii) (s : string) : bool :=
  match s with
  | EmptyString => false
  | String a rest => if decide (a = c) then true else str_contains c rest
  end.

Fixpoint after_last (c : Ascii.ascii) (s : string) : string :=
  match s with
  | EmptyString => EmptyString
  | String a rest =>
      if str_contains c rest then after_last c rest
      else if decide (a = c) then rest else s
  end.

(** The character [=] (code 61). *)
Definition equals_sign : Ascii.ascii := Ascii.ascii_of_nat 61.

(** [min_size] starts as [float('inf')]. *)
Inductive size : Set :=
| Inf
| Fin (n : Z).

(** [min(total_rows, min_size)] *)
Definition size_min (total_rows : Z) (min_size0 : size) : size :=
  match min_size0 with
  | Inf => Fin total_rows
  | Fin m => Fin (Z.min total_rows m)
  end.

(** The variables of the scan: those of the whole loop and, in
    [last_time] and [total_rows], those of the directory at hand. *)
Record scan : Set := mkScan {
  sc_max_size : Z;
  sc_min_size : size;
  sc_last_times : list (option Z);
  sc_ids : list string;
  sc_expected_temporal : gset string;
  sc_available_mask_seen : bool;
  sc_last_time : option Z;
  sc_total_rows : Z
}.

Definition zsum_rows (meta : FileMetaData) : Z :=
  zsum (map num_rows (row_groups meta)).

(** The body of the loop over the files of a directory. *)
Definition scan_file (time_col : string) (meta : FileMetaData) (st : scan)
    : result scan :=
  rg ← row_group meta 0;
  let col2pos := col2pos_of rg in
  last_rg ← row_group meta (Z.of_nat (length (row_groups meta)) - 1);
  pos ← match col2pos !! time_col with
        | Some i => Ok i
        | None => Raise KeyError
        end;
  chunk ← column last_rg pos;
  last_time_file ← match statistics_max chunk with
                   | Some m => Ok m
                   | None => Raise AttributeError
                   end;
  let last_time := match sc_last_time st with
                   | Some t => Some (Z.max t last_time_file)
                   | None => Some last_time_file
                   end in
  let total_rows := (sc_total_rows st + zsum_rows meta)%Z in
  let missing_cols := sc_expected_temporal st ∖ dom col2pos in
  if decide (missing_cols ≠ ∅) then Raise ValueError
  else
    if decide ("available_mask" ∉ dom col2pos)
    then Ok {| sc_max_size := sc_max_size st; sc_min_size := sc_min_size st;
               sc_last_times := sc_last_times st; sc_ids := sc_ids st;
               sc_expected_temporal := sc_expected_temporal st;
               sc_available_mask_seen := false;
               sc_last_time := last_time; sc_total_rows := total_rows |}
    else if negb (sc_available_mask_seen st) then Raise ValueError
    else Ok {| sc_max_size := sc_max_size st; sc_min_size := sc_min_size st;
               sc_last_times := sc_last_times st; sc_ids := sc_ids st;
               sc_expected_temporal :=
                 sc_expected_temporal st ∪ {["available_mask"]};
               sc_available_mask_seen := sc_available_mask_seen st;
               sc_last_time := last_time; sc_total_rows := total_rows |}.

(** The body of the loop over the directories. *)
Definition scan_dir (fs : string -> DirEntry) (time_col : string)
    (dir : string) (st : scan) : result scan :=
  let dir_path := fs dir in
  if negb (is_dir dir_path) then Raise ValueError
  else
    let uid := after_last equals_sign (dir_name dir_path) in
    st ← for_in (scan_file time_col) (parquet_files dir_path)
           {| sc_max_size := sc_max_size st; sc_min_size := sc_min_size st;
              sc_last_times := sc_last_times st; sc_ids := sc_ids st;
              sc_expected_temporal := sc_expected_temporal st;
              sc_available_mask_seen := sc_available_mask_seen st;
              sc_last_time := None; sc_total_rows := 0 |};
    Ok {| sc_max_size := Z.max (sc_total_rows st) (sc_max_size st);
          sc_min_size := size_min (sc_total_rows st) (sc_min_size st);
          sc_last_times := sc_last_times st ++ [sc_last_time st];
          sc_ids := sc_ids st ++ [uid];
          sc_expected_temporal := sc_expected_temporal st;
          sc_available_mask_seen := sc_available_mask_seen st;
          sc_last_time := sc_last_time st;
          sc_total_rows := sc_total_rows st |}.

Record LocalFilesTimeSeriesDataset : Set := mkLocal {
  lf_files_ds : list string;
  lf_temporal_cols : list string;
  lf_last_times : list (option Z);
  lf_indices : list string;
  lf_n_groups : Z;
  lf_static : option Matrix;
  lf_static_cols : option (list string);
  lf_max_size : Z;
  lf_min_size : size;
  lf_y_idx : Z;
  lf_updated : bool
}.

(** [LocalFilesTimeSeriesDataset.__init__] with the base class's. *)
Definition LocalFilesTimeSeriesDataset_init (files_ds : list string)
    (temporal_cols0 : list string) (last_times : list (option Z))
    (indices : list string) (max_size0 : Z) (min_size0 : size) (y_idx0 : Z)
    (static0 : option Matrix) (static_cols0 : option (list string))
    : LocalFilesTimeSeriesDataset :=
  {| lf_files_ds := files_ds;
     lf_temporal_cols := temporal_cols0;
     lf_last_times := last_times;
     lf_indices := indices;
     lf_n_groups := Z.of_nat (length files_ds);
     lf_static := _as_torch_copy <$> static0;
     lf_static_cols := static_cols0;
     lf_max_size := max_size0;
     lf_min_size := min_size0;
     lf_y_idx := y_idx0;
     lf_updated := false |}.

(** [from_data_directories] on the file system [fs]. *)
Definition from_data_directories (fs : string -> DirEntry)
    (directories : list string) (static_df : option StaticFrame)
    (exogs : list string) (time_col target_col : string)
    : result LocalFilesTimeSeriesDataset :=
  let '(static0, static_cols0) := _extract_static_features static_df in
  st ← for_in (scan_dir fs time_col) directories
         {| sc_max_size := 0; sc_min_size := Inf;
            sc_last_times := []; sc_ids := [];
            sc_expected_temporal := {[target_col]} ∪ list_to_set exogs;
            sc_available_mask_seen := true;
            sc_last_time := None; sc_total_rows := 0 |};
  let exogs := if decide ("available_mask" ∈ sc_expected_temporal st)
               then "available_mask" :: exogs else exogs in
  let temporal_cols0 := target_col :: exogs in
  Ok (LocalFilesTimeSeriesDataset_init directories temporal_cols0
        (sc_last_times st) (sc_ids st) (sc_max_size st) (sc_min_size st) 0
        static0 static_cols0).

(** [LocalFilesTimeSeriesDataset.__getitem__]; [read_parquet path cols] is
    [pd.read_parquet(path, columns=cols).to_numpy()] on the file system at
    hand. *)
Definition local_getitem
    (read_parquet : string -> list string -> result Matrix)
    (self : LocalFilesTimeSeriesDataset) (idx : pyidx)
    : result (gmap string leaf) :=
  match idx with
  | IdxOther => Raise ValueError
  | IdxInt idx =>
      let temporal_cols0 := lf_temporal_cols self in
      path ← list_getitem (lf_files_ds self) idx;
      data ← read_parquet path temporal_cols0;
      '(data, temporal_cols1) ← _ensure_available_mask data temporal_cols0;
      let data := _as_torch_copy data in
      let c := Z.of_nat (length temporal_cols1) in
      temporal0 ← torch_zeros c (lf_max_size self);
      temporal0 ← setitem_block temporal0 None (Some c)
                    (Some (- Z.of_nat (nrows data))%Z) None (permute10 data);
      item_static ←
        match lf_static self with
        | None => Ok LNone
        | Some s => r ← tensor_row s idx; Ok (LTensor (Arr1 r))
        end;
      Ok (<["temporal" := LTensor (Arr2 temporal0)]>
          (<["temporal_cols" := LIndex temporal_cols1]>
          (<["static" := item_static]>
          (<["static_cols" := option_index (lf_static_cols self)]>
          (<["y_idx" := LInt (lf_y_idx self)]> ∅)))))
  end.

(** The files of the listed directories, in the order of the scan. *)
Definition listed_files (fs : string -> DirEntry) (directories : list string)
    : list FileMetaData :=
  concat (map (fun dir => parquet_files (fs dir)) directories).

(** The first row group of the file names a column [c]. *)
Definition has_column (c : string) (meta : FileMetaData) : Prop :=
  match row_groups meta with
  | rg :: _ => c ∈ map path_in_schema (rg_columns rg)
  | [] => False
  end.

#[export] Instance has_column_dec (c : string) (meta : FileMetaData) :
  Decision (has_column c meta) :=
  match row_groups meta as l
    return Decision (match l with
                     | rg :: _ => c ∈ map path_in_schema (rg_columns rg)
                     | [] => False
                     end)
  with
  | rg :: _ => decide (c ∈ map path_in_schema (rg_columns rg))
  | [] => right (fun H => H)
  end.

(** The rows of a directory: those of all row groups of all its files. *)
Definition dir_rows (fs : string -> DirEntry) (dir : string) : Z :=
  zsum (map zsum_rows (parquet_files (fs dir))).

(** What the scan knows about the mask column after the files [seen]:
    [expected] holds the columns [base] asked for and, once a file had the
    mask column, the mask column; [flag] is [available_mask_seen]. *)
Definition mask_invariant (time_col : string) (base : gset string)
    (seen : list FileMetaData) (expected : gset string) (flag : bool) : Prop :=
  base ⊆ expected
  /\ (forall c, c ∈ expected -> c ∈ base \/ c = "available_mask")
  /\ Forall (fun meta => has_column time_col meta
                         /\ forall c, c ∈ base -> has_column c meta) seen
  /\ if flag
     then Forall (has_column "available_mask") seen
          /\ ("available_mask" ∈ expected <-> seen <> [] \/ "available_mask" ∈ base)
     else seen <> []
          /\ Forall (fun meta => ~ has_column "available_mask" meta) seen
          /\ "available_mask" ∉ expected.

(** ** The loader's constructor and the data modules *)

(** The value of a keyword argument: a number, a flag, a collate function
    (by name), or something else. *)
Inductive kwarg : Set :=
| KInt (z : Z)
| KBool (b : bool)
| KCollate (name : string)
| KOther (repr : string).

(** [self._collate_fn] of a [TimeSeriesLoader]. *)
Definition own_collate_fn : kwarg := KCollate "TimeSeriesLoader._collate_fn".

(** A loader: the dataset and the keyword arguments that its base class
    was constructed with. *)
Record TimeSeriesLoader : Type := mkLoader {
  ld_dataset : TimeSeriesDataset;
  ld_kwargs : gmap string kwarg
}.

(** [DataLoader.__init__(self, dataset=dataset, **kwargs)] belongs to
    torch: it raises TypeError for a keyword it does not know and has
    checks on the values.  The model takes it as given: [Ok tt] when it
    accepts the arguments, the exception otherwise. *)
Definition DataLoader_init_t : Type :=
  TimeSeriesDataset -> gmap string kwarg -> result unit.

(** [TimeSeriesLoader.__init__(dataset, **kwargs)] *)
Definition TimeSeriesLoader_init (DataLoader_init : DataLoader_init_t)
    (dataset : TimeSeriesDataset) (kwargs : gmap string kwarg)
    : result TimeSeriesLoader :=
  let kwargs := if decide ("collate_fn" ∈ dom kwargs)
                then delete "collate_fn" kwargs else kwargs in
  let kwargs_ := {["collate_fn" := own_collate_fn]} ∪ kwargs in
  _ ← DataLoader_init dataset kwargs_;
  Ok {| ld_dataset := dataset; ld_kwargs := kwargs_ |}.

(** The call [TimeSeriesLoader(dataset, k1=v1, ..., **extra)]: a keyword
    that [extra] repeats, or a ['self'] or ['dataset'] in [extra], is a
    TypeError of the call itself, before the constructor runs. *)
Definition call_loader (DataLoader_init : DataLoader_init_t)
    (dataset : TimeSeriesDataset)
    (explicit : list (string * kwarg)) (extra : gmap string kwarg)
    : result TimeSeriesLoader :=
  if decide ("self" ∈ dom extra \/ "dataset" ∈ dom extra
             \/ Exists (fun p => p.1 ∈ dom extra) explicit)
  then Raise TypeError
  else TimeSeriesLoader_init DataLoader_init dataset
         (list_to_map explicit ∪ extra).

(** [TimeSeriesDataModule] and [_DistributedTimeSeriesDataModule]: the
    attributes their constructors set.  The second class does not run the
    constructor of the first: its [dataset] attribute does not exist
    until [setup]. *)
Record TimeSeriesDataModule : Type := mkModule {
  dm_dataset : option TimeSeriesDataset;
  dm_files_ds : option _FilesDataset;
  dm_batch_size : Z;
  dm_valid_batch_size : Z;
  dm_drop_last : bool;
  dm_shuffle_train : bool;
  dm_dataloaders_kwargs : gmap string kwarg
}.

Definition TimeSeriesDataModule_init (dataset : TimeSeriesDataset)
    (batch_size valid_batch_size : Z) (drop_last shuffle_train : bool)
    (dataloaders_kwargs : gmap string kwarg) : TimeSeriesDataModule :=
  {| dm_dataset := Some dataset; dm_files_ds := None;
     dm_batch_size := batch_size; dm_valid_batch_size := valid_batch_size;
     dm_drop_last := drop_last; dm_shuffle_train := shuffle_train;
     dm_dataloaders_kwargs := dataloaders_kwargs |}.

Definition _DistributedTimeSeriesDataModule_init (dataset : _FilesDataset)
    (batch_size valid_batch_size : Z) (drop_last shuffle_train : bool)
    (dataloaders_kwargs : gmap string kwarg) : TimeSeriesDataModule :=
  {| dm_dataset := None; dm_files_ds := Some dataset;
     dm_batch_size := batch_size; dm_valid_batch_size := valid_batch_size;
     dm_drop_last := drop_last; dm_shuffle_train := shuffle_train;
     dm_dataloaders_kwargs := dataloaders_kwargs |}.

(** Reading an attribute that may not have been set. *)
Definition getattr {A} (attr : option A) : result A :=
  match attr with
  | Some a => Ok a
  | None => Raise AttributeError
  end.

Definition train_dataloader (DataLoader_init : DataLoader_init_t)
    (self : TimeSeriesDataModule) : result TimeSeriesLoader :=
  dataset ← getattr (dm_dataset self);
  call_loader DataLoader_init dataset
    [("batch_size", KInt (dm_batch_size self));
     ("shuffle", KBool (dm_shuffle_train self));
     ("drop_last", KBool (dm_drop_last self))]
    (dm_dataloaders_kwargs self).

Definition val_dataloader (DataLoader_init : DataLoader_init_t)
    (self : TimeSeriesDataModule) : result TimeSeriesLoader :=
  dataset ← getattr (dm_dataset self);
  call_loader DataLoader_init dataset
    [("batch_size", KInt (dm_valid_batch_size self));
     ("shuffle", KBool false);
     ("drop_last", KBool (dm_drop_last self))]
    (dm_dataloaders_kwargs self).

Definition predict_dataloader (DataLoader_init : DataLoader_init_t)
    (self : TimeSeriesDataModule) : result TimeSeriesLoader :=
  dataset ← getattr (dm_dataset self);
  call_loader DataLoader_init dataset
    [("batch_size", KInt (dm_valid_batch_size self));
     ("shuffle", KBool false)]
    (dm_dataloaders_kwargs self).

(** [setup] as a method: it assigns [self.dataset]. *)
Definition module_setup (read_parquet : string -> result DataFrame) (rank : Z)
    (self : TimeSeriesDataModule) : result TimeSeriesDataModule :=
  files_ds ← getattr (dm_files_ds self);
  dataset ← setup read_parquet rank files_ds;
  Ok {| dm_dataset := Some dataset; dm_files_ds := dm_files_ds self;
        dm_batch_size := dm_batch_size self;
        dm_valid_batch_size := dm_valid_batch_size self;
        dm_drop_last := dm_drop_last self;
        dm_shuffle_train := dm_shuffle_train self;
        dm_dataloaders_kwargs := dm_dataloaders_kwargs self |}.


(** ** More sample data *)

(** Static features for both series of [sample_frame]. *)
Definition sample_static_full : StaticFrame :=
  {| static_names := ["s"];
     static_rows := [(1%Z, {["s" := f32_of_Z 9]});
                     (2%Z, {["s" := f32_of_Z 8]})] |}.

(** [from_df(sample_frame, static_df=sample_static_full)] *)
Definition sample_dataset_static : TimeSeriesDataset :=
  {| temporal := sample_matrix 2 [[1; 1]; [2; 1]; [3; 1]; [4; 1]]%Z;
     temporal_cols := ["y"; "available_mask"];
     indptr := [0; 2; 4]%Z;
     indptr_dtype := int32;
     n_groups := 2;
     static := Some (sample_matrix 1 [[9]; [8]]%Z);
     static_cols := Some ["s"];
     max_size := 2;
     min_size := 2;
     y_idx := 0;
     updated := false |}.

(** A series of four rows and a series of three rows. *)
Definition sample_frame_uneven : DataFrame :=
  {| value_cols := ["y"];
     rows := [sample_row 1 1 [("y", 1%Z)]; sample_row 1 2 [("y", 2%Z)];
              sample_row 1 3 [("y", 3%Z)]; sample_row 1 4 [("y", 4%Z)];
              sample_row 2 2 [("y", 5%Z)]; sample_row 2 3 [("y", 6%Z)];
              sample_row 2 4 [("y", 7%Z)]] |}.

(** [from_df(sample_frame_uneven)] *)
Definition sample_dataset_uneven : TimeSeriesDataset :=
  {| temporal := sample_matrix 2 [[1; 1]; [2; 1]; [3; 1]; [4; 1];
                                  [5; 1]; [6; 1]; [7; 1]]%Z;
     temporal_cols := ["y"; "available_mask"];
     indptr := [0; 4; 7]%Z;
     indptr_dtype := int32;
     n_groups := 2;
     static := None;
     static_cols := None;
     max_size := 4;
     min_size := 3;
     y_idx := 0;
     updated := false |}.

(** The rows of [sample_frame] in reverse order. *)
Definition sample_frame_reversed : DataFrame :=
  {| value_cols := ["y"];
     rows := [sample_row 2 2 [("y", 4%Z)]; sample_row 2 1 [("y", 3%Z)];
              sample_row 1 2 [("y", 2%Z)]; sample_row 1 1 [("y", 1%Z)]] |}.

(** A future frame for [sample_dataset]: one more row per series, with a
    column the dataset does not have. *)
Definition sample_future : DataFrame :=
  {| value_cols := ["y"; "x"];
     rows := [sample_row 2 3 [("y", 6%Z); ("x", 7%Z)];
              sample_row 1 3 [("y", 5%Z); ("x", 7%Z)]] |}.

(** A partition file with a static column, and the partitioned dataset
    made of it. *)
Definition sample_partition : DataFrame :=
  {| value_cols := ["y"; "s"];
     rows := [sample_row 1 1 [("y", 1%Z); ("s", 9%Z)];
              sample_row 1 2 [("y", 2%Z); ("s", 9%Z)];
              sample_row 2 1 [("y", 3%Z); ("s", 8%Z)];
              sample_row 2 2 [("y", 4%Z); ("s", 8%Z)]] |}.

Definition sample_files : _FilesDataset :=
  {| files := ["part-0.parquet"];
     fd_temporal_cols := ["y"];
     fd_static_cols := Some ["s"];
     fd_target_col := "y";
     fd_min_size := 2 |}.

(** A file system with that one file; any other path does not exist
    (FileNotFoundError, here the generic exception). *)
Definition sample_read_parquet (path : string) : result DataFrame :=
  if decide (path = "part-0.parquet") then Ok sample_partition
  else Raise Exception.

(** Two directories of one parquet file each, with columns [ds] and [y]:
    three rows for series [a], in two row groups, and one row for series
    [b]. *)
Definition sample_chunks (last_ds : Z) : list ColumnChunkMetaData :=
  [{| path_in_schema := "ds"; statistics_max := Some last_ds |};
   {| path_in_schema := "y"; statistics_max := None |}].

Definition sample_fs (path : string) : DirEntry :=
  if decide (path = "data/unique_id=a") then
    {| is_dir := true; dir_name := "unique_id=a";
       parquet_files :=
         [{| row_groups := [{| num_rows := 2; rg_columns := sample_chunks 2 |};
                            {| num_rows := 1; rg_columns := sample_chunks 3 |}]
          |}] |}
  else if decide (path = "data/unique_id=b") then
    {| is_dir := true; dir_name := "unique_id=b";
       parquet_files :=
         [{| row_groups := [{| num_rows := 1; rg_columns := sample_chunks 3 |}]
          |}] |}
  else {| is_dir := false; dir_name := path; parquet_files := [] |}.

Definition sample_directories : list string :=
  ["data/unique_id=a"; "data/unique_id=b"].

(** [from_data_directories(sample_directories)] *)
Definition sample_local : LocalFilesTimeSeriesDataset :=
  {| lf_files_ds := sample_directories;
     lf_temporal_cols := ["y"];
     lf_last_times := [Some 3%Z; Some 3%Z];
     lf_indices := ["a"; "b"];
     lf_n_groups := 2;
     lf_static := None;
     lf_static_cols := None;
     lf_max_size := 3;
     lf_min_size := Fin 1;
     lf_y_idx := 0;
     lf_updated := false |}.

(** The contents of the files of [sample_fs], whatever columns are asked
    for: the target column. *)
Definition sample_read_columns (path : string) (cols : list string)
    : result Matrix :=
  if decide (path = "data/unique_id=a")
  then Ok (sample_matrix 1 [[1]; [2]; [3]]%Z)
  else if decide (path = "data/unique_id=b")
  then Ok (sample_matrix 1 [[4]]%Z)
  else Raise Exception.

(** A data module on [sample_dataset] whose [dataloaders_kwargs] ask for
    two workers and for a collate function of their own, and the loader
    it gives for training. *)
Definition sample_kwargs : gmap string kwarg :=
  <["num_workers" := KInt 2]>
  (<["collate_fn" := KCollate "default_collate"]> ∅).

(** A [DataLoader.__init__] that knows the keywords of torch 2.0 and
    accepts every value. *)
Definition sample_DataLoader_init : DataLoader_init_t := fun _ kwargs =>
  if decide (Forall (fun k => k ∈ ["batch_size"; "shuffle"; "sampler";
                                   "batch_sampler"; "num_workers";
                                   "collate_fn"; "pin_memory"; "drop_last";
                                   "timeout"; "worker_init_fn";
                                   "multiprocessing_context"; "generator";
                                   "prefetch_factor"; "persistent_workers";
                                   "pin_memory_device"])
                    (map fst (map_to_list kwargs)))
  then Ok tt else Raise TypeError.

Definition sample_module : TimeSeriesDataModule :=
  TimeSeriesDataModule_init sample_dataset 32 1024 false true sample_kwargs.

Definition sample_loader : TimeSeriesLoader :=
  {| ld_dataset := sample_dataset;
     ld_kwargs := <["collate_fn" := own_collate_fn]>
                  (<["batch_size" := KInt 32]>
                  (<["shuffle" := KBool true]>
                  (<["drop_last" := KBool false]>
                  (<["num_workers" := KInt 2]> ∅)))) |}.

(** [sample_dataset_uneven.append(sample_dataset)] *)
Definition sample_dataset_appended : TimeSeriesDataset :=
  {| temporal := sample_matrix 2 [[1; 1]; [2; 1]; [3; 1]; [4; 1]; [1; 1];
                                  [2; 1]; [5; 1]; [6; 1]; [7; 1]; [3; 1];
                                  [4; 1]]%Z;
     temporal_cols := ["y"; "available_mask"];
     indptr := [0; 6; 11]%Z;
     indptr_dtype := int32;
     n_groups := 2;
     static := None;
     static_cols := None;
     max_size := 6;
     min_size := 5;
     y_idx := 0;
     updated := false |}.


(** * Properties *)

(** ** The result monad *)

Lemma bind_Ok {A B} (m : result A) (f : A -> result B) (b : B) :
  m ≫= f = Ok b -> exists a, m = Ok a /\ f a = Ok b.
Proof. destruct m as [a|e]; simpl; [eauto | discriminate]. Qed.

Lemma bind_Ok_l {A B} (a : A) (f : A -> result B) : Ok a ≫= f = f a.
Proof. reflexivity. Qed.

(** ** Fixed-width integers *)

Lemma int_max_int32 : int_max int32 = 2147483647%Z.
Proof. reflexivity. Qed.

Lemma int_min_int32 : int_min int32 = (-2147483648)%Z.
Proof. reflexivity. Qed.

Lemma int_max_int64 : int_max int64 = 9223372036854775807%Z.
Proof. reflexivity. Qed.

Lemma int_min_int64 : int_min int64 = (-9223372036854775808)%Z.
Proof. reflexivity. Qed.

Lemma int_modulus (dt : int_dtype) :
  (2 ^ int_bits dt = int_max dt - int_min dt + 1)%Z.
Proof. by destruct dt. Qed.

Lemma int_min_max (dt : int_dtype) : (int_min dt = - int_max dt - 1)%Z.
Proof. by destruct dt. Qed.

Lemma int_max_ge (dt : int_dtype) : (int_max int32 <= int_max dt)%Z.
Proof. destruct dt; [done|]. rewrite int_max_int32, int_max_int64. lia. Qed.

Lemma int_max_promote_l (a b : int_dtype) :
  (int_max a <= int_max (promote a b))%Z.
Proof. destruct a, b; simpl; rewrite ?int_max_int32, ?int_max_int64; lia. Qed.

Lemma int_max_promote_r (a b : int_dtype) :
  (int_max b <= int_max (promote a b))%Z.
Proof. destruct a, b; simpl; rewrite ?int_max_int32, ?int_max_int64; lia. Qed.

Lemma promote_idemp (a : int_dtype) : promote a a = a.
Proof. by destruct a. Qed.

Lemma promote_assoc (a b c : int_dtype) :
  promote (promote a b) c = promote a (promote b c).
Proof. by destruct a, b, c. Qed.

Lemma promote_l (a b : int_dtype) : promote (promote a b) a = promote a b.
Proof. by destruct a, b. Qed.

(** A value of the type is left alone. *)
Lemma wrap_fits (dt : int_dtype) (z : Z) : fits dt z -> wrap dt z = z.
Proof.
  unfold fits, wrap. intros H. pose proof (int_modulus dt) as Hm.
  rewrite Z.mod_small by lia. lia.
Qed.

Lemma wrap_range (dt : int_dtype) (z : Z) : fits dt (wrap dt z).
Proof.
  unfold fits, wrap. pose proof (int_modulus dt) as Hm.
  assert (0 < 2 ^ int_bits dt)%Z as Hpos by (by destruct dt).
  pose proof (Z.mod_pos_bound (z - int_min dt) _ Hpos). lia.
Qed.

Lemma wrap_small (dt : int_dtype) (z : Z) :
  (0 <= z <= int_max dt)%Z -> wrap dt z = z.
Proof.
  intros H. apply wrap_fits. unfold fits. rewrite int_min_max. lia.
Qed.

(** Wrapping commutes with sums and differences: an operation on wrapped
    operands wraps to what the operation on the integers wraps to. *)
Lemma wrap_add_l (dt : int_dtype) (a b : Z) :
  wrap dt (wrap dt a + b) = wrap dt (a + b).
Proof.
  unfold wrap. f_equal.
  replace ((a - int_min dt) mod 2 ^ int_bits dt + int_min dt + b - int_min dt)%Z
    with ((a - int_min dt) mod 2 ^ int_bits dt + b)%Z by lia.
  rewrite Zplus_mod_idemp_l. f_equal. lia.
Qed.

Lemma wrap_add_r (dt : int_dtype) (a b : Z) :
  wrap dt (a + wrap dt b) = wrap dt (a + b).
Proof. rewrite Z.add_comm, wrap_add_l. f_equal. lia. Qed.

Lemma wrap_sub_l (dt : int_dtype) (a b : Z) :
  wrap dt (wrap dt a - b) = wrap dt (a - b).
Proof.
  replace (wrap dt a - b)%Z with (wrap dt a + - b)%Z by lia.
  by rewrite wrap_add_l.
Qed.

Lemma wrap_idemp (dt : int_dtype) (z : Z) : wrap dt (wrap dt z) = wrap dt z.
Proof. apply wrap_fits, wrap_range. Qed.

(** Narrowing to int32 what was computed in any of the types gives what
    the integers narrow to. *)
Lemma wrap_narrow (dt : int_dtype) (z : Z) :
  wrap int32 (wrap dt z) = wrap int32 z.
Proof.
  destruct dt; [apply wrap_idemp|].
  unfold wrap. rewrite int_min_int32, int_min_int64.
  change (2 ^ int_bits int32)%Z with 4294967296%Z.
  change (2 ^ int_bits int64)%Z with 18446744073709551616%Z.
  pose proof (Z.div_mod (z - -9223372036854775808) 18446744073709551616)
    as Hq.
  set (q := ((z - -9223372036854775808) / 18446744073709551616)%Z) in *.
  f_equal.
  replace ((z - -9223372036854775808) mod 18446744073709551616
           + -9223372036854775808 - -2147483648)%Z
    with (z - -2147483648 + (- q * 4294967296) * 4294967296)%Z by lia.
  apply Z_mod_plus_full.
Qed.

Lemma as_scalar_Ok (dt : int_dtype) (p : Z) :
  fits dt p -> as_scalar dt p = Ok p.
Proof. intros H. unfold as_scalar. by rewrite decide_True. Qed.

Lemma as_scalar_inv (dt : int_dtype) (p q : Z) :
  as_scalar dt p = Ok q -> q = p /\ fits dt p.
Proof. unfold as_scalar. destruct (decide _); [|done]. by intros [= <-]. Qed.

(** ** Slices *)

Lemma slice_bounds_inside (n : nat) (a b : Z) :
  (0 <= a)%Z -> (a <= b)%Z -> (b <= Z.of_nat n)%Z ->
  slice_bounds (Some a) (Some b) n = (Z.to_nat a, Z.to_nat b).
Proof.
  intros Ha Hab Hb. unfold slice_bounds, norm_index.
  destruct (Z.ltb_spec a 0); [lia|]. destruct (Z.ltb_spec b 0); [lia|].
  f_equal; f_equal; lia.
Qed.

Lemma py_slice_inside {A} (l : list A) (a b : Z) :
  (0 <= a)%Z -> (a <= b)%Z -> (b <= Z.of_nat (length l))%Z ->
  py_slice (Some a) (Some b) l = take (Z.to_nat (b - a)) (drop (Z.to_nat a) l).
Proof.
  intros Ha Hab Hb. unfold py_slice. rewrite slice_bounds_inside by lia.
  f_equal. lia.
Qed.

Lemma py_slice_segment {A} (pre s post : list A) (a b : Z) :
  a = Z.of_nat (length pre) -> b = Z.of_nat (length pre + length s) ->
  py_slice (Some a) (Some b) (pre ++ s ++ post) = s.
Proof.
  intros -> ->. rewrite py_slice_inside; rewrite ?length_app; try lia.
  rewrite Nat2Z.id, drop_app_length.
  replace (Z.to_nat _) with (length s) by lia.
  by rewrite take_app_length.
Qed.

Lemma py_slice_trimmed {A} (pre s post : list A) (l r : Z) :
  (0 <= l)%Z -> (0 <= r)%Z -> (l + r <= Z.of_nat (length s))%Z ->
  py_slice (Some (Z.of_nat (length pre) + l)%Z)
           (Some (Z.of_nat (length pre + length s) - r)%Z)
           (pre ++ s ++ post)
  = drop (Z.to_nat l) (take (length s - Z.to_nat r) s).
Proof.
  intros Hl Hr Hlr. rewrite py_slice_inside; rewrite ?length_app; try lia.
  replace (Z.to_nat (Z.of_nat (length pre) + l)) with (length pre + Z.to_nat l) by lia.
  rewrite <- drop_drop, drop_app_length.
  replace (Z.to_nat _) with (length s - Z.to_nat r - Z.to_nat l) by lia.
  rewrite take_drop_commute.
  replace (Z.to_nat l + (length s - Z.to_nat r - Z.to_nat l)) with (length s - Z.to_nat r) by lia.
  f_equal. rewrite take_app_le by lia. done.
Qed.

Lemma np_getitem_lookup {A} (l : list A) (i : nat) (x : A) :
  l !! i = Some x -> np_getitem l (Z.of_nat i) = Ok x.
Proof.
  intros H. unfold np_getitem.
  destruct (Z.ltb_spec (Z.of_nat i) 0); [lia|].
  destruct (Z.ltb_spec (Z.of_nat i) 0); [lia|].
  by rewrite Nat2Z.id, H.
Qed.

Lemma np_getitem_lookup_succ {A} (l : list A) (i : nat) (x : A) :
  l !! S i = Some x -> np_getitem l (Z.of_nat i + 1) = Ok x.
Proof.
  intros H. replace (Z.of_nat i + 1)%Z with (Z.of_nat (S i)) by lia.
  by apply np_getitem_lookup.
Qed.

(** Where one of the two indexings returns, so does the other. *)
Lemma np_getitem_list {A} (l : list A) (i : Z) (x : A) :
  np_getitem l i = Ok x <-> list_getitem l i = Ok x.
Proof.
  unfold np_getitem, list_getitem.
  destruct (_ <? _)%Z; [done|].
  destruct (l !! _); [done|]. by destruct (decide _).
Qed.

(** ** Offsets and segments *)

Lemma length_offsets a incs : length (offsets a incs) = S (length incs).
Proof. revert a. induction incs; intros; simpl; auto. Qed.

Lemma head_offsets a incs : head (offsets a incs) = Some a.
Proof. by destruct incs. Qed.

Lemma offsets_cons a incs : offsets a incs = a :: tail (offsets a incs).
Proof. by destruct incs. Qed.

Lemma last_offsets a incs : last (offsets a incs) = Some (a + zsum incs)%Z.
Proof.
  revert a. induction incs as [|n tl IH]; intros a; simpl.
  - f_equal. lia.
  - rewrite last_cons, IH. f_equal. lia.
Qed.

Lemma differences_offsets a incs : differences (offsets a incs) = incs.
Proof.
  revert a. induction incs as [|n tl IH]; intros a; [done|].
  simpl. specialize (IH (a + n)%Z).
  rewrite (offsets_cons (a + n) tl) in *. rewrite IH. f_equal. lia.
Qed.

Lemma offsets_differences (l : list Z) (a : Z) :
  head l = Some a -> l = offsets a (differences l).
Proof.
  revert a. induction l as [|x tl IH]; intros a Hh; [done|].
  simpl in Hh. inversion Hh; subst x. destruct tl as [|y tl']; [done|].
  change (differences (a :: y :: tl')) with ((y - a)%Z :: differences (y :: tl')).
  simpl offsets. replace (a + (y - a))%Z with y by lia.
  f_equal. by apply IH.
Qed.

Lemma offsets_mono a incs i x y :
  Forall (fun n => (0 <= n)%Z) incs ->
  offsets a incs !! i = Some x -> offsets a incs !! S i = Some y -> (x <= y)%Z.
Proof.
  intros Hpos. revert a i. induction Hpos as [|n tl Hn Htl IH]; intros a i Hx Hy.
  - by destruct i.
  - destruct i as [|i]; simpl in *.
    + rewrite offsets_cons in Hy. simpl in Hy. inversion Hx; inversion Hy. lia.
    + by eapply IH.
Qed.

Lemma offsets_mono_inv a incs :
  (forall i x y, offsets a incs !! i = Some x ->
                 offsets a incs !! S i = Some y -> (x <= y)%Z) ->
  Forall (fun n => (0 <= n)%Z) incs.
Proof.
  revert a. induction incs as [|n tl IH]; intros a H; constructor.
  - specialize (H 0 a (a + n)%Z). simpl in H. rewrite offsets_cons in H.
    simpl in H. specialize (H eq_refl eq_refl). lia.
  - apply (IH (a + n)%Z). intros i x y Hx Hy. by apply (H (S i)).
Qed.

Lemma lookup_offsets_app (pre post : list Z) (a : Z) :
  offsets a (pre ++ post) !! length pre = Some (a + zsum pre)%Z.
Proof.
  revert a. induction pre as [|s pre IH]; intros a; simpl.
  - rewrite offsets_cons. simpl. f_equal; lia.
  - rewrite IH. f_equal. lia.
Qed.

Lemma lookup_offsets_segment (pre post : list Z) (n : Z) (a : Z) :
  offsets a (pre ++ n :: post) !! S (length pre) = Some (a + zsum pre + n)%Z.
Proof.
  pose proof (lookup_offsets_app (pre ++ [n]) post a) as H.
  rewrite <- app_assoc in H. simpl in H.
  rewrite length_app in H. simpl in H.
  replace (length pre + 1) with (S (length pre)) in H by lia.
  rewrite H. f_equal. unfold zsum. rewrite foldr_app. simpl.
  clear. induction pre; simpl; lia.
Qed.

Lemma zsum_app l1 l2 : zsum (l1 ++ l2) = (zsum l1 + zsum l2)%Z.
Proof. induction l1; simpl; lia. Qed.

Lemma zsum_lengths {A} (segs : list (list A)) :
  zsum (map zlength segs) = zlength (concat segs).
Proof.
  unfold zlength. induction segs as [|s tl IH]; simpl; [done|].
  rewrite length_app. lia.
Qed.

Lemma zsum_to_nat (l : list Z) :
  Forall (fun n => (0 <= n)%Z) l ->
  Z.of_nat (sum_list (map Z.to_nat l)) = zsum l.
Proof. induction 1; simpl; lia. Qed.

Lemma chunks_spec {A} (lens : list nat) (l : list A) :
  sum_list lens = length l ->
  concat (chunks lens l) = l /\ map length (chunks lens l) = lens.
Proof.
  revert l. induction lens as [|n tl IH]; intros l H; simpl in *.
  - split; [|done]. symmetry. by apply nil_length_inv.
  - destruct (IH (drop n l)) as [H1 H2].
    { rewrite length_drop. lia. }
    rewrite H1, H2, take_drop, length_take. split; [done|]. f_equal. lia.
Qed.

(** The invariant, read on the increments of [indptr]. *)
Lemma invariant_increments (d : TimeSeriesDataset) :
  indptr_invariant d ->
  indptr d = offsets 0 (differences (indptr d))
  /\ Forall (fun n => (0 <= n)%Z) (differences (indptr d))
  /\ zlength (differences (indptr d)) = n_groups d
  /\ zsum (differences (indptr d)) = Z.of_nat (nrows (temporal d)).
Proof.
  intros [Hlen Hfirst Hmono Hlast _].
  pose proof (offsets_differences _ _ Hfirst) as Hoff.
  split; [done|]. split; [|split].
  - apply (offsets_mono_inv 0). by rewrite <- Hoff.
  - rewrite Hoff, length_offsets in Hlen. unfold zlength. lia.
  - rewrite Hoff, last_offsets in Hlast. inversion Hlast. lia.
Qed.

(** A dataset that satisfies the invariant is the concatenation of its
    segments, and [indptr] holds their offsets. *)
Lemma invariant_segments (d : TimeSeriesDataset) :
  indptr_invariant d ->
  mrows (temporal d) = concat (segments d)
  /\ indptr d = offsets 0 (map zlength (segments d))
  /\ zlength (segments d) = n_groups d.
Proof.
  intros Hinv. destruct (invariant_increments d Hinv) as (Hoff & Hpos & Hn & Hsum).
  destruct (chunks_spec (map Z.to_nat (differences (indptr d))) (mrows (temporal d)))
    as [H1 H2].
  { apply Nat2Z.inj. rewrite zsum_to_nat by done. done. }
  unfold segments. rewrite H1. split; [done|].
  assert (map zlength (chunks (map Z.to_nat (differences (indptr d))) (mrows (temporal d)))
          = differences (indptr d)) as Hz.
  { unfold zlength. rewrite <- (map_map length Z.of_nat), H2, map_map.
    clear -Hpos. induction Hpos; simpl; [done|]. f_equal; [lia|done]. }
  rewrite Hz. split; [done|].
  rewrite <- Hn. unfold zlength. f_equal.
  rewrite <- (length_map zlength), Hz. done.
Qed.

Lemma series_of_segments (d : TimeSeriesDataset) (segs : list (list (list float32)))
    (i : nat) (s : list (list float32)) :
  mrows (temporal d) = concat segs ->
  indptr d = offsets 0 (map zlength segs) ->
  segs !! i = Some s ->
  series d i = s.
Proof.
  intros Ht Hi Hs. unfold series.
  pose proof (take_drop_middle _ _ _ Hs) as Hsplit.
  assert (length (map zlength (take i segs)) = i) as Hl.
  { rewrite length_map, length_take. apply lookup_lt_Some in Hs. lia. }
  rewrite Hi, Ht, <- Hsplit, map_app. simpl map.
  rewrite <- Hl at 1. rewrite lookup_offsets_app.
  rewrite <- Hl at 1. rewrite lookup_offsets_segment.
  rewrite concat_app. simpl. rewrite zsum_lengths. unfold zlength.
  apply py_slice_segment; lia.
Qed.

Lemma offsets_bounds a incs i x :
  Forall (fun n => (0 <= n)%Z) incs ->
  offsets a incs !! i = Some x -> (a <= x <= a + zsum incs)%Z.
Proof.
  intros Hpos. revert a i. induction Hpos as [|n tl Hn Htl IH]; intros a i Hx.
  - destruct i; simpl in *; [|done]. inversion Hx. lia.
  - destruct i as [|i]; simpl in *.
    + inversion Hx. assert (0 <= zsum tl)%Z; [|lia].
      clear -Htl. induction Htl; simpl; lia.
    + apply IH in Hx. lia.
Qed.

Lemma invariant_intro (d : TimeSeriesDataset) (incs : list Z) :
  indptr d = offsets 0 incs ->
  Forall (fun n => (0 <= n)%Z) incs ->
  n_groups d = zlength incs ->
  zsum incs = Z.of_nat (nrows (temporal d)) ->
  (Z.of_nat (nrows (temporal d)) <= int_max (indptr_dtype d))%Z ->
  indptr_invariant d.
Proof.
  intros Hoff Hpos Hn Hsum Hfits.
  assert (forall i a b, indptr d !! i = Some a -> indptr d !! S i = Some b ->
                        (0 <= a <= b)%Z /\ (b <= Z.of_nat (nrows (temporal d)))%Z)
    as Hb.
  { intros i a b Ha Hb. rewrite Hoff in Ha, Hb.
    pose proof (offsets_mono _ _ _ _ _ Hpos Ha Hb).
    pose proof (offsets_bounds _ _ _ _ Hpos Ha).
    pose proof (offsets_bounds _ _ _ _ Hpos Hb). lia. }
  split.
  - rewrite Hoff, length_offsets, Hn. unfold zlength. lia.
  - rewrite Hoff. apply head_offsets.
  - intros i a b Ha Hb'. destruct (Hb i a b Ha Hb'). lia.
  - rewrite Hoff, last_offsets. f_equal. lia.
  - intros i a b Ha Hb'. destruct (Hb i a b Ha Hb') as [H1 H2].
    unfold series. rewrite Ha, Hb'. unfold nrows in H2.
    rewrite py_slice_inside by lia. split; [done|].
    rewrite length_take, length_drop. lia.
  - done.
Qed.

(** ** Assignment to a slice of rows *)

Lemma norm_index_range n i : (0 <= n)%Z -> (0 <= norm_index n i <= n)%Z.
Proof. intros. unfold norm_index. destruct (Z.ltb_spec i 0); lia. Qed.

Lemma slice_bounds_range start stop n lo hi :
  slice_bounds start stop n = (lo, hi) -> lo <= n /\ hi <= n.
Proof.
  unfold slice_bounds. intros H. inversion H; subst; clear H.
  destruct start as [a|], stop as [b|];
    try pose proof (norm_index_range (Z.of_nat n) a ltac:(lia));
    try pose proof (norm_index_range (Z.of_nat n) b ltac:(lia)); lia.
Qed.

Lemma length_bcast {A} (k n : nat) (l : list A) :
  length l = k -> broadcastable k n = true -> length (bcast k n l) = n.
Proof.
  unfold broadcastable, bcast. intros Hl Hb.
  destruct (Nat.eqb_spec k n); [lia|]. simpl in Hb.
  apply Nat.eqb_eq in Hb. destruct l; simpl in *; [lia|].
  by rewrite length_replicate.
Qed.

Lemma setitem_rows_shape dest start stop src t :
  setitem_rows dest start stop src = Ok t ->
  nrows t = nrows dest /\ ncols t = ncols dest.
Proof.
  unfold setitem_rows. destruct (slice_bounds _ _ _) as [lo hi] eqn:E.
  apply slice_bounds_range in E.
  destruct (broadcastable (nrows src) (hi - lo)) eqn:B1; [|discriminate].
  destruct (broadcastable (ncols src) (ncols dest)) eqn:B2; [|discriminate].
  simpl. intros H. inversion H; subst; clear H. split; [|done].
  unfold nrows in *. simpl.
  rewrite !length_app, length_take, length_drop, length_bcast; [lia| |done].
  apply length_map.
Qed.

Lemma setitem_rows_exact dest src (before rest : list (list float32)) (a b : Z) :
  mrows dest = before ++ rest ->
  a = Z.of_nat (length before) ->
  b = (a + Z.of_nat (nrows src))%Z ->
  nrows src <= length rest ->
  ncols src = ncols dest ->
  setitem_rows dest (Some a) (Some b) src
  = Ok {| ncols := ncols dest;
          mrows := before ++ mrows src ++ drop (nrows src) rest |}.
Proof.
  intros Hrows -> -> Hle Hc. unfold setitem_rows, nrows in *.
  rewrite slice_bounds_inside; rewrite ?Hrows, ?length_app; try lia.
  replace (Z.to_nat _ - Z.to_nat _) with (length (mrows src)) by lia.
  unfold broadcastable. rewrite Hc, !Nat.eqb_refl. simpl.
  unfold bcast at 1. rewrite Nat.eqb_refl.
  rewrite Nat2Z.id. f_equal. f_equal.
  rewrite take_app_length. f_equal.
  rewrite drop_app_ge by lia.
  replace (map _ (mrows src)) with (mrows src).
  2:{ symmetry. erewrite map_ext; [apply map_id|].
      intros r. unfold bcast. by rewrite Nat.eqb_refl. }
  f_equal. f_equal. lia.
Qed.

(** ** The constructor *)

Lemma np_max_Ok (l : list Z) : l <> [] -> exists m, np_max l = Ok m.
Proof. destruct l; [done|]. simpl. eauto. Qed.

Lemma np_min_Ok (l : list Z) : l <> [] -> exists m, np_min l = Ok m.
Proof. destruct l; [done|]. simpl. eauto. Qed.

Lemma np_min_le (l : list Z) (m : Z) :
  np_min l = Ok m -> Forall (fun x => (m <= x)%Z) l.
Proof.
  destruct l as [|x tl]; [discriminate|]. simpl. intros H. inversion H; clear H.
  assert ((foldr Z.min x tl <= x)%Z
          /\ Forall (fun y => (foldr Z.min x tl <= y)%Z) tl) as [Hx Htl].
  { clear. induction tl as [|y tl [IH1 IH2]]; simpl; [split; [lia|constructor]|].
    split; [lia|]. constructor; [lia|].
    eapply Forall_impl; [apply IH2|]. simpl. intros. lia. }
  by constructor.
Qed.

(** The differences of entries between 0 and the largest value of the
    type do not wrap. *)
Lemma np_diff_exact (dt : int_dtype) (l : list Z) :
  Forall (fun z => (0 <= z <= int_max dt)%Z) l ->
  np_diff dt l = differences l.
Proof.
  unfold np_diff. intros H.
  induction H as [|x tl Hx Htl IH]; [done|].
  destruct tl as [|y tl']; [done|].
  change (differences (x :: y :: tl'))
    with ((y - x)%Z :: differences (y :: tl')).
  rewrite map_cons, IH. f_equal.
  inversion Htl; subst. apply wrap_fits. unfold fits.
  rewrite int_min_max. lia.
Qed.

Lemma length_differences (l : list Z) : length (differences l) = length l - 1.
Proof.
  induction l as [|x tl IH]; [done|]. destruct tl as [|y tl']; [done|].
  change (differences (x :: y :: tl')) with ((y - x)%Z :: differences (y :: tl')).
  simpl in *. lia.
Qed.

Lemma length_np_diff (dt : int_dtype) (l : list Z) :
  length (np_diff dt l) = length l - 1.
Proof. unfold np_diff. by rewrite length_map, length_differences. Qed.

Lemma init_Ok temporal0 cols indptr0 dt y st sc d :
  TimeSeriesDataset_init temporal0 cols indptr0 dt y st sc = Ok d ->
  temporal d = temporal0 /\ temporal_cols d = cols /\ indptr d = indptr0
  /\ y_idx d = y /\ static d = st /\ static_cols d = sc
  /\ updated d = false /\ indptr_dtype d = dt /\ init_computed d.
Proof.
  unfold TimeSeriesDataset_init. intros H.
  apply bind_Ok in H as (mx & Hmx & H). apply bind_Ok in H as (mn & Hmn & H).
  inversion H; subst; clear H. simpl.
  repeat split; try done. by destruct st.
Qed.

Lemma init_total temporal0 cols indptr0 dt y st sc :
  2 <= length indptr0 ->
  exists d, TimeSeriesDataset_init temporal0 cols indptr0 dt y st sc = Ok d.
Proof.
  intros H. unfold TimeSeriesDataset_init.
  destruct (np_max_Ok (np_diff dt indptr0)) as [mx ->].
  { intros E. apply (f_equal length) in E. rewrite length_np_diff in E.
    simpl in E. lia. }
  destruct (np_min_Ok (np_diff dt indptr0)) as [mn ->].
  { intros E. apply (f_equal length) in E. rewrite length_np_diff in E.
    simpl in E. lia. }
  simpl. eauto.
Qed.

(** For offsets between 0 and the largest value of their type, the
    computed fields are the lengths of the series. *)
Lemma init_computed_fields d :
  init_computed d ->
  Forall (fun z => (0 <= z <= int_max (indptr_dtype d))%Z) (indptr d) ->
  init_fields d.
Proof.
  intros [Hn Hmx Hmn] H. rewrite np_diff_exact in Hmx, Hmn by done.
  by split.
Qed.

Lemma init_fields_computed d :
  init_fields d ->
  Forall (fun z => (0 <= z <= int_max (indptr_dtype d))%Z) (indptr d) ->
  init_computed d.
Proof.
  intros [Hn Hmx Hmn] H. split; [done| |]; by rewrite np_diff_exact.
Qed.

Lemma init_fields_groups d : init_fields d -> (1 <= n_groups d)%Z.
Proof.
  intros [Hn Hmx _]. rewrite Hn.
  destruct (indptr d) as [|a [|b tl]]; simpl in *; try discriminate. lia.
Qed.

(** ** [trim_dataset] *)

Lemma np_getitem_nat_inv {A} (l : list A) (i : nat) (x : A) :
  np_getitem l (Z.of_nat i) = Ok x -> l !! i = Some x.
Proof.
  unfold np_getitem. destruct (Z.ltb_spec (Z.of_nat i) 0); [lia|].
  destruct (Z.ltb_spec (Z.of_nat i) 0); [lia|]. rewrite Nat2Z.id.
  destruct (l !! i); [|by destruct (decide _)]. by inversion 1.
Qed.

Lemma np_getitem_succ_inv {A} (l : list A) (i : nat) (x : A) :
  np_getitem l (Z.of_nat i + 1) = Ok x -> l !! S i = Some x.
Proof.
  replace (Z.of_nat i + 1)%Z with (Z.of_nat (S i)) by lia.
  apply np_getitem_nat_inv.
Qed.

Lemma differences_lookup (l : list Z) (i : nat) (a b : Z) :
  l !! i = Some a -> l !! S i = Some b -> differences l !! i = Some (b - a)%Z.
Proof.
  revert i. induction l as [|x tl IH]; intros i Ha Hb; [done|].
  destruct tl as [|y tl']; [done|].
  change (differences (x :: y :: tl')) with ((y - x)%Z :: differences (y :: tl')).
  destruct i as [|i]; simpl in *.
  - by inversion Ha; inversion Hb.
  - by apply IH.
Qed.

Lemma wrap_offsets (dt : int_dtype) (a : Z) (incs : list Z) :
  map (wrap dt) (offsets (wrap dt a) incs) = map (wrap dt) (offsets a incs).
Proof.
  revert a. induction incs as [|n tl IH]; intros a; simpl.
  - by rewrite wrap_idemp.
  - rewrite wrap_idemp. f_equal.
    rewrite <- (IH (wrap dt a + n)%Z), <- (IH (a + n)%Z).
    by rewrite wrap_add_l.
Qed.

(** The arithmetic of one round of the loop: its results are congruent
    to those on the integers. *)
Lemma trim_step_inv d l r i nt ip acum nt' ip' acum' :
  trim_step d l r i (nt, ip, acum) = Ok (nt', ip', acum') ->
  exists start stop,
    np_getitem (indptr d) (i + 1) = Ok stop
    /\ np_getitem (indptr d) i = Ok start
    /\ fits (indptr_dtype d) l /\ fits (indptr_dtype d) r
    /\ acum' = wrap (indptr_dtype d) (acum + (stop - start - l - r))
    /\ ip' = ip ++ [acum']
    /\ nrows nt' = nrows nt /\ ncols nt' = ncols nt.
Proof.
  unfold trim_step. intros H.
  apply bind_Ok in H as (stop & Hstop & H).
  apply bind_Ok in H as (start & Hstart & H).
  apply bind_Ok in H as (lt & Hlt & H).
  apply bind_Ok in H as (rt & Hrt & H).
  apply bind_Ok in H as (nt1 & Hset & H).
  apply as_scalar_inv in Hlt as [-> Hl]. apply as_scalar_inv in Hrt as [-> Hr].
  injection H as <- <- <-.
  apply setitem_rows_shape in Hset as [Hr' Hc'].
  exists start, stop. do 4 (split; [done|]). split; [|done].
  unfold int_add, int_sub.
  by rewrite (wrap_sub_l _ (stop - start) l), wrap_sub_l, wrap_add_r.
Qed.

(** Whenever the loop of [trim_dataset] completes, it leaves the shape of
    [new_temporal] alone and appends to [new_indptr] the running sums of
    the trimmed lengths, in the type of [indptr]. *)
Lemma trim_loop_indptr d l r n :
  forall k nt ip acum nt' ip' acum',
  for_each (trim_step d l r) (seq k n) (nt, ip, acum) = Ok (nt', ip', acum') ->
  let incs := map (fun s => (s - l - r)%Z) (take n (drop k (differences (indptr d)))) in
  nrows nt' = nrows nt /\ ncols nt' = ncols nt
  /\ ip' = ip ++ map (wrap (indptr_dtype d)) (tail (offsets acum incs))
  /\ length incs = n.
Proof.
  induction n as [|n IH]; intros k nt ip acum nt' ip' acum' H; simpl in H.
  - inversion H; subst. simpl. by rewrite app_nil_r.
  - apply bind_Ok in H as ([[nt1 ip1] acum1] & Hstep & H).
    apply trim_step_inv in Hstep
      as (start & stop & Hstop & Hstart & _ & _ & -> & -> & Hr & Hc).
    apply np_getitem_succ_inv in Hstop. apply np_getitem_nat_inv in Hstart.
    pose proof (differences_lookup _ _ _ _ Hstart Hstop) as Hd.
    apply IH in H as (H1 & H2 & H3 & H4). cbv zeta.
    rewrite (drop_S _ _ _ Hd). simpl.
    rewrite H4, H1, H2, Hr, Hc. repeat split; try done.
    rewrite H3, <- app_assoc. simpl. f_equal. f_equal.
    rewrite (offsets_cons (wrap _ _)), (offsets_cons (acum + _)).
    simpl tail.
    pose proof (wrap_offsets (indptr_dtype d) (acum + (stop - start - l - r))
                  (map (fun s => (s - l - r)%Z)
                       (take n (drop (S k) (differences (indptr d)))))) as Hw.
    rewrite (offsets_cons (wrap _ _)), (offsets_cons (acum + _)) in Hw.
    rewrite <- Hw. rewrite map_cons. by rewrite wrap_idemp.
Qed.

Lemma length_trimmed (l r : Z) (s : list (list float32)) :
  (0 <= l)%Z -> (0 <= r)%Z -> (l + r <= zlength s)%Z ->
  zlength (trimmed l r s) = (zlength s - l - r)%Z.
Proof.
  intros. unfold trimmed, zlength in *. rewrite length_drop, length_take. lia.
Qed.

(** One round of the loop where nothing overflows. *)
Lemma trim_step_exact d l r i nt ip acum start stop :
  np_getitem (indptr d) (i + 1) = Ok stop ->
  np_getitem (indptr d) i = Ok start ->
  (0 <= start)%Z -> (stop <= int_max (indptr_dtype d))%Z ->
  (0 <= l)%Z -> (0 <= r)%Z -> (l + r <= stop - start)%Z ->
  (0 <= acum)%Z ->
  (acum + (stop - start - l - r) <= int_max (indptr_dtype d))%Z ->
  trim_step d l r i (nt, ip, acum)
  = (new_temporal ←
       setitem_rows nt (Some acum) (Some (acum + (stop - start - l - r))%Z)
         (rows_slice (Some (start + l)%Z) (Some (stop - r)%Z) (temporal d));
     Ok (new_temporal, ip ++ [(acum + (stop - start - l - r))%Z],
         (acum + (stop - start - l - r))%Z)).
Proof.
  intros Hstop Hstart H0 Hmax Hl Hr Hlr Ha Hsum.
  unfold trim_step. rewrite Hstop, Hstart, !bind_Ok_l.
  rewrite !as_scalar_Ok by (unfold fits; rewrite int_min_max; lia).
  rewrite !bind_Ok_l. unfold int_add, int_sub.
  rewrite (wrap_small _ (stop - start)) by lia.
  rewrite (wrap_small _ (stop - start - l)) by lia.
  rewrite (wrap_small _ (stop - start - l - r)) by lia.
  rewrite (wrap_small _ (acum + _)) by lia.
  rewrite (wrap_small _ (start + l)) by lia.
  rewrite (wrap_small _ (stop - r)) by lia.
  done.
Qed.

(** With non-negative trims shorter than every series the loop completes
    and writes the trimmed series one after the other. *)
Lemma trim_loop_rows d l r (segs : list (list (list float32))) :
  mrows (temporal d) = concat segs ->
  indptr d = offsets 0 (map zlength segs) ->
  (Z.of_nat (nrows (temporal d)) <= int_max (indptr_dtype d))%Z ->
  (0 <= l)%Z -> (0 <= r)%Z ->
  forall post pre nt ip acum before rest,
  segs = pre ++ post ->
  Forall (fun s => (l + r <= zlength s)%Z) post ->
  mrows nt = before ++ rest ->
  (Z.of_nat (nrows nt) <= int_max (indptr_dtype d))%Z ->
  ncols nt = ncols (temporal d) ->
  acum = zlength before ->
  zlength rest = zsum (map (fun s => zlength (trimmed l r s)) post) ->
  exists nt' ip' acum',
    for_each (trim_step d l r) (seq (length pre) (length post)) (nt, ip, acum)
    = Ok (nt', ip', acum')
    /\ mrows nt' = before ++ concat (map (trimmed l r) post).
Proof.
  intros Ht Hi Hfit Hl Hr.
  induction post as [|s post IH];
    intros pre nt ip acum before rest Hsegs Hall Hnt Hfitn Hc Hacum Hrest.
  - simpl in *. exists nt, ip, acum. split; [done|].
    assert (rest = []) as -> by (apply nil_length_inv; unfold zlength in *; lia).
    done.
  - inversion Hall as [|? ? Hs Hpost]; subst.
    simpl length. simpl seq. cbn [for_each].
    assert (indptr d !! length pre = Some (zlength (concat pre))) as Ha.
    { rewrite Hi, map_app.
      rewrite <- (length_map zlength pre) at 1.
      rewrite lookup_offsets_app, zsum_lengths. f_equal; lia. }
    assert (indptr d !! S (length pre)
            = Some (zlength (concat pre) + zlength s)%Z) as Hb.
    { rewrite Hi, map_app. simpl map.
      rewrite <- (length_map zlength pre) at 1.
      rewrite lookup_offsets_segment, zsum_lengths. f_equal; lia. }
    pose proof (length_trimmed l r s Hl Hr Hs) as Hlen.
    simpl in Hrest.
    assert (0 <= zsum (map (fun s => zlength (trimmed l r s)) post))%Z as Hnn.
    { clear. induction post; simpl; unfold zlength in *; lia. }
    assert (zlength (concat pre) + zlength s
            <= Z.of_nat (nrows (temporal d)))%Z as Hle.
    { unfold nrows. rewrite Ht, concat_app. simpl.
      unfold zlength. rewrite !length_app. lia. }
    rewrite (trim_step_exact d l r _ nt ip _ _ _
               (np_getitem_lookup_succ _ _ _ Hb) (np_getitem_lookup _ _ _ Ha));
      [|unfold zlength; lia|lia|done|done|lia|unfold zlength; lia|].
    2:{ unfold nrows in Hfitn. rewrite Hnt, length_app in Hfitn.
        unfold zlength in *. lia. }
    assert (rows_slice (Some (zlength (concat pre) + l)%Z)
              (Some (zlength (concat pre) + zlength s - r)%Z) (temporal d)
            = {| ncols := ncols (temporal d); mrows := trimmed l r s |}) as ->.
    { unfold rows_slice. f_equal. rewrite Ht, concat_app. simpl.
      unfold zlength in *.
      replace (Z.of_nat (length (concat pre)) + Z.of_nat (length s) - r)%Z
        with (Z.of_nat (length (concat pre) + length s) - r)%Z by lia.
      by apply py_slice_trimmed. }
    rewrite (setitem_rows_exact nt _ before rest)
      by first [ exact Hnt | simpl; congruence
               | unfold nrows, zlength in *; simpl; lia ].
    rewrite bind_Ok_l. simpl nrows. simpl mrows.
    destruct (IH (pre ++ [s])
                {| ncols := ncols nt;
                   mrows := before ++ trimmed l r s
                            ++ drop (length (trimmed l r s)) rest |}
                (ip ++ [(zlength before + (zlength (concat pre) + zlength s
                                 - zlength (concat pre) - l - r))%Z])
                (zlength before + (zlength (concat pre) + zlength s
                         - zlength (concat pre) - l - r))%Z
                (before ++ trimmed l r s)
                (drop (length (trimmed l r s)) rest))
      as (nt' & ip' & acum' & Hrun & Hrows).
    + by rewrite <- app_assoc.
    + done.
    + simpl. by rewrite <- app_assoc.
    + unfold nrows in *. simpl. rewrite Hnt, length_app in Hfitn.
      rewrite !length_app, length_drop. unfold zlength in *. lia.
    + simpl. congruence.
    + unfold zlength in *. rewrite length_app. lia.
    + unfold zlength in *. rewrite length_drop. lia.
    + rewrite length_app in Hrun. simpl in Hrun.
      replace (length pre + 1) with (S (length pre)) in Hrun by lia.
      exists nt', ip', acum'. split; [exact Hrun|].
      rewrite Hrows. simpl. by rewrite <- app_assoc.
Qed.

Lemma full_Ok v r c :
  (0 <= r)%Z -> (0 <= c)%Z ->
  full v r c = Ok {| ncols := Z.to_nat c;
                     mrows := replicate (Z.to_nat r) (replicate (Z.to_nat c) v) |}.
Proof.
  intros. unfold full.
  destruct (Z.ltb_spec r 0); [lia|]. destruct (Z.ltb_spec c 0); [lia|]. done.
Qed.

Lemma full_Ok_inv v r c m :
  full v r c = Ok m ->
  (0 <= r)%Z /\ (0 <= c)%Z
  /\ m = {| ncols := Z.to_nat c;
            mrows := replicate (Z.to_nat r) (replicate (Z.to_nat c) v) |}.
Proof.
  unfold full. destruct (Z.ltb_spec r 0); [discriminate|].
  destruct (Z.ltb_spec c 0); [discriminate|]. simpl. by inversion 1.
Qed.

Lemma map_wrap_small (dt : int_dtype) (l : list Z) :
  Forall (fun z => (0 <= z <= int_max dt)%Z) l -> map (wrap dt) l = l.
Proof.
  induction 1 as [|z tl Hz _ IH]; [done|]. simpl.
  by rewrite IH, wrap_small.
Qed.

Lemma offsets_range (a : Z) (incs : list Z) :
  Forall (fun n => (0 <= n)%Z) incs ->
  Forall (fun z => (a <= z <= a + zsum incs)%Z) (offsets a incs).
Proof.
  intros Hpos. apply Forall_lookup. intros i x Hx.
  by apply (offsets_bounds a incs i).
Qed.

(** A dataset that satisfies the invariant has offsets between 0 and the
    largest value of their type. *)
Lemma invariant_range (d : TimeSeriesDataset) :
  indptr_invariant d ->
  Forall (fun z => (0 <= z <= int_max (indptr_dtype d))%Z) (indptr d).
Proof.
  intros Hinv. destruct (invariant_increments d Hinv) as (Hoff & Hpos & _ & Hsum).
  pose proof (inv_fits d Hinv) as Hfit.
  rewrite Hoff. eapply Forall_impl; [by apply offsets_range|].
  simpl. intros z Hz. lia.
Qed.

Lemma dataset_ok_computed (d : TimeSeriesDataset) :
  dataset_ok d -> init_computed d.
Proof.
  intros [Hinit Hinv]. apply init_fields_computed; [done|].
  by apply invariant_range.
Qed.

(** The three steps of [trim_dataset] once the guard is passed. *)
Lemma trim_dataset_unfold d l r :
  (l + r < min_size d)%Z ->
  trim_dataset d l r
  = (new_temporal ← torch_zeros
       (Z.of_nat (nrows (temporal d)) - (l + r) * n_groups d)
       (Z.of_nat (ncols (temporal d)));
     st ← for_each (trim_step d l r) (seq 0 (Z.to_nat (n_groups d)))
            (new_temporal, [0%Z], 0%Z);
     TimeSeriesDataset_init st.1.1 (temporal_cols d)
       (np_astype int32 st.1.2) int32
       (y_idx d) (static d) (static_cols d)).
Proof.
  intros H. unfold trim_dataset. destruct (Z.leb_spec (min_size d) (l + r)); [lia|].
  destruct (torch_zeros _ _) as [nt|]; [|done]. simpl. unfold for_range.
  destruct (for_each _ _ _) as [[[? ?] ?]|]; done.
Qed.

Lemma trim_dataset_guard d l r :
  (min_size d <= l + r)%Z -> trim_dataset d l r = Raise Exception.
Proof.
  intros H. unfold trim_dataset. by destruct (Z.leb_spec (min_size d) (l + r)); [|lia].
Qed.

(** Whatever the trims, a dataset returned by [trim_dataset] has as
    [indptr] the running sums of the trimmed lengths, narrowed to
    int32. *)
Lemma trim_dataset_shape d l r d' :
  dataset_ok d ->
  trim_dataset d l r = Ok d' ->
  (l + r < min_size d)%Z
  /\ indptr d'
     = map (wrap int32)
           (offsets 0 (map (fun s => (s - l - r)%Z) (differences (indptr d))))
  /\ Z.of_nat (nrows (temporal d'))
     = (Z.of_nat (nrows (temporal d)) - (l + r) * n_groups d)%Z
  /\ ncols (temporal d') = ncols (temporal d)
  /\ temporal_cols d' = temporal_cols d /\ y_idx d' = y_idx d
  /\ static d' = static d /\ static_cols d' = static_cols d
  /\ updated d' = false /\ indptr_dtype d' = int32 /\ init_computed d'.
Proof.
  intros [Hinit Hinv] H.
  destruct (Z.leb_spec (min_size d) (l + r)) as [Hg|Hg].
  { by rewrite trim_dataset_guard in H. }
  split; [done|]. rewrite trim_dataset_unfold in H by done.
  apply bind_Ok in H as (nt0 & Hz & H).
  apply bind_Ok in H as ([[nt' ip'] acum'] & Hloop & H). simpl in H.
  apply full_Ok_inv in Hz as (Hr & Hc & ->).
  apply trim_loop_indptr in Hloop as (H1 & H2 & H3 & H4).
  apply init_Ok in H as (Ht & Hcols & Hip & Hy & Hst & Hsc & Hup & Hdt & Hf).
  destruct (invariant_increments d Hinv) as (Hoff & Hpos & Hn & Hsum).
  rewrite drop_0, take_ge in H3.
  2:{ unfold zlength in Hn. lia. }
  rewrite Ht, Hip, H3, H1, H2.
  split.
  { unfold np_astype. rewrite (offsets_cons 0). simpl. f_equal.
    rewrite map_map. apply map_ext. intros z. apply wrap_narrow. }
  split. { unfold nrows in *. simpl. rewrite length_replicate. lia. }
  split. { simpl. lia. }
  done.
Qed.

Lemma zsum_shift (k : Z) (l : list Z) :
  zsum (map (fun s => (s - k)%Z) l) = (zsum l - k * zlength l)%Z.
Proof. unfold zlength. induction l; simpl length; simpl; lia. Qed.

(** When the trimmed dataset has a number of rows that is a value of
    int32, its [indptr] is the running sums themselves. *)
Lemma trim_dataset_exact d l r d' :
  dataset_ok d ->
  trim_dataset d l r = Ok d' ->
  (Z.of_nat (nrows (temporal d')) <= int_max int32)%Z ->
  indptr d' = offsets 0 (map (fun s => (s - l - r)%Z) (differences (indptr d)))
  /\ init_fields d'.
Proof.
  intros Hok H Hfit. pose proof Hok as [Hinit Hinv].
  apply trim_dataset_shape in H
    as (Hg & Hip & Hrows & Hcols & _ & _ & _ & _ & _ & Hdt & Hf); [|done].
  destruct (invariant_increments d Hinv) as (Hoff & Hpos & Hn & Hsum).
  assert (Forall (fun z => (0 <= z <= int_max int32)%Z)
            (offsets 0 (map (fun s => (s - l - r)%Z) (differences (indptr d)))))
    as Hrange.
  { eapply Forall_impl; [apply offsets_range|].
    - pose proof (np_min_le _ _ (init_min_size d Hinit)) as Hmin.
      eapply Forall_fmap, Forall_impl; [exact Hmin|].
      simpl. intros. lia.
    - simpl. intros z Hz.
      rewrite (map_ext _ (fun s => (s - (l + r))%Z)) in Hz by (intros; lia).
      rewrite zsum_shift in Hz. lia. }
  rewrite map_wrap_small in Hip by done. split; [done|].
  apply init_computed_fields; [done|]. by rewrite Hdt, Hip.
Qed.

Lemma trim_preserves_ok d l r d' :
  dataset_ok d -> trim_dataset d l r = Ok d' ->
  (Z.of_nat (nrows (temporal d')) <= int_max int32)%Z ->
  dataset_ok d'.
Proof.
  intros Hok H Hfit. pose proof Hok as [Hinit Hinv].
  destruct (trim_dataset_exact _ _ _ _ Hok H Hfit) as [Hip Hf].
  apply trim_dataset_shape in H
    as (Hg & _ & Hrows & Hcols & _ & _ & _ & _ & _ & Hdt & _); [|done].
  split; [done|].
  destruct (invariant_increments d Hinv) as (Hoff & Hpos & Hn & Hsum).
  apply (invariant_intro d' _ Hip).
  - pose proof (np_min_le _ _ (init_min_size d Hinit)) as Hmin.
    eapply Forall_fmap, Forall_impl; [exact Hmin|].
    simpl. intros. lia.
  - rewrite (init_n_groups d' Hf), Hip, length_offsets.
    unfold zlength. rewrite length_map. lia.
  - rewrite (map_ext _ (fun s => (s - (l + r))%Z)) by (intros; lia).
    rewrite zsum_shift. lia.
  - by rewrite Hdt.
Qed.

Lemma zsum_trimmed l r (segs : list (list (list float32))) :
  (0 <= l)%Z -> (0 <= r)%Z ->
  Forall (fun s => (l + r <= zlength s)%Z) segs ->
  map zlength (map (trimmed l r) segs)
  = map (fun s => (s - l - r)%Z) (map zlength segs).
Proof.
  intros Hl Hr H. induction H as [|s tl Hs Htl IH]; simpl; [done|].
  rewrite IH. f_equal. by apply length_trimmed.
Qed.

Lemma min_size_segments d :
  dataset_ok d ->
  Forall (fun s => (min_size d <= zlength s)%Z) (segments d).
Proof.
  intros [Hinit Hinv].
  destruct (invariant_segments d Hinv) as (Hrows & Hip & Hn).
  pose proof (np_min_le _ _ (init_min_size d Hinit)) as Hmin.
  rewrite Hip, differences_offsets in Hmin. by rewrite List.Forall_map in Hmin.
Qed.

(** The trimmed dataset, series by series: with non-negative trims below
    [min_size] the call returns, whatever the number of rows. *)
Lemma trim_dataset_segments d l r :
  dataset_ok d -> (0 <= l)%Z -> (0 <= r)%Z -> (l + r < min_size d)%Z ->
  exists d',
    trim_dataset d l r = Ok d'
    /\ mrows (temporal d') = concat (map (trimmed l r) (segments d))
    /\ indptr d'
       = map (wrap int32)
             (offsets 0 (map zlength (map (trimmed l r) (segments d)))).
Proof.
  intros Hok Hl Hr Hg. pose proof Hok as [Hinit Hinv].
  destruct (invariant_segments d Hinv) as (Hrows & Hip & Hn).
  assert (Forall (fun s => (l + r <= zlength s)%Z) (segments d)) as Hall.
  { eapply Forall_impl; [apply (min_size_segments d Hok)|]. simpl. intros. lia. }
  pose proof (zsum_trimmed l r _ Hl Hr Hall) as Hlens.
  assert (zsum (map (fun s => zlength (trimmed l r s)) (segments d))
          = (Z.of_nat (nrows (temporal d)) - (l + r) * n_groups d)%Z) as Hsum.
  { rewrite <- (map_map (trimmed l r) zlength), Hlens.
    rewrite (map_ext _ (fun s => (s - (l + r))%Z)) by (intros; lia).
    rewrite zsum_shift, zsum_lengths. unfold nrows, zlength in *.
    rewrite Hrows, length_map. lia. }
  assert (0 <= zsum (map (fun s => zlength (trimmed l r s)) (segments d)))%Z as Hnn.
  { clear. induction (segments d); simpl; unfold zlength in *; lia. }
  pose proof (inv_fits d Hinv) as Hfit.
  assert (0 <= (l + r) * n_groups d)%Z as Htrim.
  { pose proof (init_fields_groups d Hinit). nia. }
  rewrite trim_dataset_unfold by done. unfold torch_zeros.
  rewrite full_Ok by lia. rewrite bind_Ok_l.
  destruct (trim_loop_rows d l r (segments d) Hrows Hip Hfit Hl Hr (segments d) []
              {| ncols := Z.to_nat (Z.of_nat (ncols (temporal d)));
                 mrows := replicate
                   (Z.to_nat (Z.of_nat (nrows (temporal d)) - (l + r) * n_groups d))
                   (replicate (Z.to_nat (Z.of_nat (ncols (temporal d)))) f32_zero) |}
              [0%Z] 0%Z [] 
              (replicate
                   (Z.to_nat (Z.of_nat (nrows (temporal d)) - (l + r) * n_groups d))
                   (replicate (Z.to_nat (Z.of_nat (ncols (temporal d)))) f32_zero)))
    as (nt' & ip' & acum' & Hrun & Hnt'); try done.
  { unfold nrows. simpl. rewrite length_replicate. unfold nrows in Hfit. lia. }
  { simpl. lia. }
  { rewrite Hsum in *. unfold zlength. rewrite length_replicate. lia. }
  simpl length in Hrun.
  replace (Z.to_nat (n_groups d)) with (length (segments d))
    by (unfold zlength in Hn; lia).
  rewrite Hrun, bind_Ok_l. simpl.
  pose proof (trim_loop_indptr _ _ _ _ _ _ _ _ _ _ _ Hrun) as (_ & _ & Hip' & Hlen).
  cbv zeta in Hip', Hlen.
  rewrite drop_0, take_ge in Hip'
    by (rewrite Hip, differences_offsets, length_map; lia).
  destruct (init_total nt' (temporal_cols d) (np_astype int32 ip') int32
              (y_idx d) (static d) (static_cols d))
    as [d' Hd'].
  { unfold np_astype. rewrite length_map, Hip', length_app, length_map. simpl.
    rewrite (offsets_cons 0). simpl. rewrite length_map in Hlen.
    pose proof (init_fields_groups d Hinit).
    assert (length (tail (offsets 0 (map (fun s => (s - l - r)%Z)
                                        (differences (indptr d)))))
            = length (differences (indptr d))) as ->.
    { pose proof (length_offsets 0 (map (fun s => (s - l - r)%Z)
                                        (differences (indptr d)))) as Hlo.
      rewrite (offsets_cons 0) in Hlo. simpl in Hlo.
      rewrite length_map in Hlo. lia. }
    rewrite length_differences, (init_n_groups d Hinit) in *. lia. }
  exists d'. split; [done|].
  apply init_Ok in Hd' as (-> & _ & -> & _).
  split; [done|]. rewrite Hip', Hlens. unfold np_astype.
  rewrite (offsets_cons 0 (map _ (map zlength _))). simpl. f_equal.
  rewrite map_map. rewrite Hip, differences_offsets.
  apply map_ext. intros z. apply wrap_narrow.
Qed.

(** The exact [indptr] of the trimmed dataset when its rows do not
    outnumber the values of int32. *)
Lemma trim_dataset_segments_exact d l r :
  dataset_ok d -> (0 <= l)%Z -> (0 <= r)%Z -> (l + r < min_size d)%Z ->
  (Z.of_nat (nrows (temporal d)) - (l + r) * n_groups d <= int_max int32)%Z ->
  exists d',
    trim_dataset d l r = Ok d'
    /\ mrows (temporal d') = concat (map (trimmed l r) (segments d))
    /\ indptr d' = offsets 0 (map zlength (map (trimmed l r) (segments d)))
    /\ dataset_ok d'.
Proof.
  intros Hok Hl Hr Hg Hfit.
  destruct (trim_dataset_segments d l r Hok Hl Hr Hg) as (d' & Hrun & Hrows & Hip).
  exists d'. split; [done|]. split; [done|].
  pose proof (trim_dataset_shape _ _ _ _ Hok Hrun)
    as (_ & _ & Hn & _).
  assert (Z.of_nat (nrows (temporal d')) <= int_max int32)%Z as Hfit' by lia.
  split; [|by eapply trim_preserves_ok].
  destruct (trim_dataset_exact _ _ _ _ Hok Hrun Hfit') as [Hip' _].
  rewrite Hip'. f_equal.
  destruct Hok as [Hinit Hinv].
  destruct (invariant_segments d Hinv) as (_ & Hip0 & _).
  assert (Forall (fun s => (l + r <= zlength s)%Z) (segments d)) as Hall.
  { eapply Forall_impl; [apply (min_size_segments d (conj Hinit Hinv))|].
    simpl. intros. lia. }
  rewrite (zsum_trimmed l r _ Hl Hr Hall).
  by rewrite Hip0 at 1; rewrite differences_offsets.
Qed.

(** C3, as amended: on a consistent dataset ([dataset_ok], which the
    datasets of C4 satisfy), with non-negative trims whose sum is below
    [min_size] and a result whose number of rows is a value of int32 (the
    type [trim_dataset] gives the new [indptr]), [trim_dataset] returns a
    dataset with the same number of groups whose i-th series is the
    input's i-th series without its first [left_trim] and last
    [right_trim] rows, and whose row count is the input's minus
    [(left_trim + right_trim) * n_groups]. *)
Theorem trim_dataset_spec (d : TimeSeriesDataset) (left_trim right_trim : Z) :
  dataset_ok d ->
  (0 <= left_trim)%Z -> (0 <= right_trim)%Z ->
  (left_trim + right_trim < min_size d)%Z ->
  (Z.of_nat (nrows (temporal d)) - (left_trim + right_trim) * n_groups d
   <= int_max int32)%Z ->
  exists d',
    trim_dataset d left_trim right_trim = Ok d'
    /\ n_groups d' = n_groups d
    /\ (forall i : nat, (Z.of_nat i < n_groups d)%Z ->
          series d' i = trimmed left_trim right_trim (series d i))
    /\ Z.of_nat (nrows (temporal d'))
       = (Z.of_nat (nrows (temporal d))
          - (left_trim + right_trim) * n_groups d)%Z.
Proof.
  intros Hok Hl Hr Hg Hfit.
  destruct (trim_dataset_segments_exact d _ _ Hok Hl Hr Hg Hfit)
    as (d' & Hrun & Hrows & Hip & Hok').
  exists d'. split; [done|].
  pose proof (trim_dataset_shape _ _ _ _ Hok Hrun)
    as (_ & _ & Hn & _).
  destruct Hok' as [Hf _].
  destruct Hok as [Hinit Hinv].
  destruct (invariant_segments d Hinv) as (Hrows0 & Hip0 & Hn0).
  split; [|split; [|done]].
  - rewrite (init_n_groups d' Hf), (init_n_groups d Hinit), Hip, Hip0.
    by rewrite !length_offsets, !length_map.
  - intros i Hi.
    destruct (lookup_lt_is_Some_2 (segments d) i) as [s Hs].
    { unfold zlength in Hn0. lia. }
    rewrite (series_of_segments d _ i s Hrows0 Hip0 Hs).
    apply (series_of_segments d' _ i _ Hrows Hip).
    change (map (trimmed left_trim right_trim) (segments d))
      with (trimmed left_trim right_trim <$> segments d).
    by rewrite list_lookup_fmap, Hs.
Qed.

(** ** [append] *)

Lemma for_each_preserves {St} (P : St -> Prop) (body : Z -> St -> result St)
    (idxs : list nat) :
  (forall i s s', body i s = Ok s' -> P s -> P s') ->
  forall s s', for_each body idxs s = Ok s' -> P s -> P s'.
Proof.
  intros Hbody. induction idxs as [|i tl IH]; intros s s' H Hs; simpl in H.
  - by inversion H; subst.
  - apply bind_Ok in H as (s1 & H1 & H). eauto.
Qed.

Lemma append_step_shape self futr ip i nt nt' :
  append_step self futr ip i nt = Ok nt' ->
  nrows nt' = nrows nt /\ ncols nt' = ncols nt.
Proof.
  unfold append_step. intros H.
  do 5 (apply bind_Ok in H as (? & _ & H)).
  apply bind_Ok in H as (nt1 & H1 & H).
  apply bind_Ok in H as (? & _ & H).
  apply setitem_rows_shape in H1 as [? ?].
  apply setitem_rows_shape in H as [? ?]. split; congruence.
Qed.

Lemma torch_empty_Ok_inv mem r c m :
  torch_empty mem r c = Ok m ->
  (0 <= r)%Z /\ (0 <= c)%Z /\ nrows m = Z.to_nat r /\ ncols m = Z.to_nat c.
Proof.
  unfold torch_empty. destruct (Z.ltb_spec r 0); [discriminate|].
  destruct (Z.ltb_spec c 0); [discriminate|]. simpl. inversion 1; subst.
  unfold nrows. simpl. rewrite length_map, length_seq. auto.
Qed.

Lemma torch_empty_Ok mem r c :
  (0 <= r)%Z -> (0 <= c)%Z -> exists m, torch_empty mem r c = Ok m.
Proof.
  intros. unfold torch_empty.
  destruct (Z.ltb_spec r 0); [lia|]. destruct (Z.ltb_spec c 0); [lia|].
  simpl. eauto.
Qed.

Lemma append_unfold mem self futr :
  length (indptr self) = length (indptr futr) ->
  append mem self futr
  = (new_temporal ← torch_empty mem
       (Z.of_nat (nrows (temporal self)) + Z.of_nat (nrows (temporal futr)))
       (Z.of_nat (ncols (temporal self)));
     new_temporal ← for_each
       (append_step self futr
          (zip_with (int_add (promote (indptr_dtype self) (indptr_dtype futr)))
                    (indptr self) (indptr futr)))
       (seq 0 (Z.to_nat (n_groups self))) new_temporal;
     TimeSeriesDataset_init new_temporal (temporal_cols self)
       (zip_with (int_add (promote (indptr_dtype self) (indptr_dtype futr)))
                 (indptr self) (indptr futr))
       (promote (indptr_dtype self) (indptr_dtype futr))
       (y_idx self) (static self) (static_cols self)).
Proof. intros H. unfold append. by rewrite decide_False by (by intros ?). Qed.

Lemma append_size_mismatch mem self futr :
  length (indptr self) <> length (indptr futr) ->
  append mem self futr = Raise ValueError.
Proof. intros H. unfold append. by rewrite decide_True. Qed.

(** Whatever the column counts, a dataset returned by [append] has the
    [indptr] summed in the common type of the two and as many rows as
    both inputs together. *)
Lemma append_shape mem self futr d :
  append mem self futr = Ok d ->
  length (indptr self) = length (indptr futr)
  /\ indptr d
     = zip_with (int_add (promote (indptr_dtype self) (indptr_dtype futr)))
                (indptr self) (indptr futr)
  /\ nrows (temporal d) = nrows (temporal self) + nrows (temporal futr)
  /\ ncols (temporal d) = ncols (temporal self)
  /\ temporal_cols d = temporal_cols self /\ y_idx d = y_idx self
  /\ static d = static self /\ static_cols d = static_cols self
  /\ updated d = false
  /\ indptr_dtype d = promote (indptr_dtype self) (indptr_dtype futr)
  /\ init_computed d.
Proof.
  intros H.
  destruct (decide (length (indptr self) = length (indptr futr))) as [Hlen|Hlen].
  2:{ by rewrite append_size_mismatch in H. }
  split; [done|]. rewrite append_unfold in H by done.
  apply bind_Ok in H as (nt0 & H0 & H). apply bind_Ok in H as (nt' & Hloop & H).
  apply torch_empty_Ok_inv in H0 as (_ & _ & Hr & Hc).
  apply (for_each_preserves
           (fun nt => nrows nt = nrows nt0 /\ ncols nt = ncols nt0)) in Hloop
    as [Hr' Hc']; [| |done].
  2:{ intros i s s' Hs [? ?]. apply append_step_shape in Hs as [? ?].
      split; congruence. }
  apply init_Ok in H as (Ht & Hcols & Hip & Hy & Hst & Hsc & Hup & Hdt & Hf).
  rewrite Ht, Hr', Hc', Hr, Hc. split; [done|]. split; [lia|]. split; [lia|]. done.
Qed.

Lemma zip_offsets (i1 i2 : list Z) (a b : Z) :
  length i1 = length i2 ->
  zip_with Z.add (offsets a i1) (offsets b i2)
  = offsets (a + b) (zip_with Z.add i1 i2).
Proof.
  revert i2 a b. induction i1 as [|x i1 IH]; intros [|y i2] a b H;
    simpl in *; try done.
  rewrite IH by lia. do 2 f_equal. lia.
Qed.

Lemma zsum_zip (i1 i2 : list Z) :
  length i1 = length i2 ->
  zsum (zip_with Z.add i1 i2) = (zsum i1 + zsum i2)%Z.
Proof.
  revert i2. induction i1 as [|x i1 IH]; intros [|y i2] H; simpl in *; try done.
  rewrite IH by lia. lia.
Qed.

Lemma Forall_zip_nonneg (i1 i2 : list Z) :
  Forall (fun n => (0 <= n)%Z) i1 -> Forall (fun n => (0 <= n)%Z) i2 ->
  Forall (fun n => (0 <= n)%Z) (zip_with Z.add i1 i2).
Proof.
  intros H1. revert i2. induction H1 as [|x i1 Hx H1 IH]; intros i2 H2.
  - constructor.
  - destruct H2 as [|y i2 Hy H2]; simpl; constructor; [lia|auto].
Qed.

(** The sums of the offsets of two consistent datasets do not wrap when
    the rows of both together do not outnumber the values of the type. *)
Lemma zip_int_add_exact (dt : int_dtype) (self futr : TimeSeriesDataset) :
  indptr_invariant self -> indptr_invariant futr ->
  (Z.of_nat (nrows (temporal self)) + Z.of_nat (nrows (temporal futr))
   <= int_max dt)%Z ->
  zip_with (int_add dt) (indptr self) (indptr futr)
  = zip_with Z.add (indptr self) (indptr futr).
Proof.
  intros Hv1 Hv2 Hfit.
  destruct (invariant_increments _ Hv1) as (Hoff1 & Hpos1 & _ & Hsum1).
  destruct (invariant_increments _ Hv2) as (Hoff2 & Hpos2 & _ & Hsum2).
  pose proof (offsets_range 0 _ Hpos1) as Hr1. rewrite <- Hoff1 in Hr1.
  pose proof (offsets_range 0 _ Hpos2) as Hr2. rewrite <- Hoff2 in Hr2.
  apply list_eq. intros i. rewrite !lookup_zip_with.
  destruct (indptr self !! i) as [a|] eqn:Ea; [|done].
  destruct (indptr futr !! i) as [b|] eqn:Eb; [|done]. simpl. f_equal.
  rewrite Forall_lookup in Hr1, Hr2.
  specialize (Hr1 _ _ Ea). specialize (Hr2 _ _ Eb). simpl in *.
  unfold int_add. apply wrap_small. lia.
Qed.

(** When the rows of both inputs together do not outnumber the values of
    the type of the new [indptr], it is the element-wise sum. *)
Lemma append_exact mem self futr d :
  dataset_ok self -> dataset_ok futr ->
  append mem self futr = Ok d ->
  (Z.of_nat (nrows (temporal self)) + Z.of_nat (nrows (temporal futr))
   <= int_max (promote (indptr_dtype self) (indptr_dtype futr)))%Z ->
  indptr d = zip_with Z.add (indptr self) (indptr futr)
  /\ dataset_ok d.
Proof.
  intros [Hi1 Hv1] [Hi2 Hv2] H Hfit.
  apply append_shape in H
    as (Hlen & Hip & Hrows & _ & _ & _ & _ & _ & _ & Hdt & Hf).
  rewrite zip_int_add_exact in Hip by done. split; [done|].
  destruct (invariant_increments _ Hv1) as (Hoff1 & Hpos1 & Hn1 & Hsum1).
  destruct (invariant_increments _ Hv2) as (Hoff2 & Hpos2 & Hn2 & Hsum2).
  assert (length (differences (indptr self)) = length (differences (indptr futr))) as Hl.
  { rewrite !length_differences. lia. }
  rewrite Hoff1, Hoff2, zip_offsets in Hip by done.
  assert (indptr_invariant d) as Hv.
  { apply (invariant_intro d _ Hip).
    - by apply Forall_zip_nonneg.
    - rewrite (comp_n_groups d Hf), Hip, length_offsets. unfold zlength. lia.
    - rewrite zsum_zip by done. lia.
    - rewrite Hdt. lia. }
  split; [|done]. apply init_computed_fields; [done|].
  by apply invariant_range.
Qed.

Lemma append_preserves_ok mem self futr d :
  dataset_ok self -> dataset_ok futr ->
  append mem self futr = Ok d ->
  (Z.of_nat (nrows (temporal self)) + Z.of_nat (nrows (temporal futr))
   <= int_max (promote (indptr_dtype self) (indptr_dtype futr)))%Z ->
  dataset_ok d.
Proof. intros Hs Hf H Hfit. by destruct (append_exact _ _ _ _ Hs Hf H Hfit). Qed.

Lemma offsets_lookup_start {A} (pre post : list (list A)) :
  offsets 0 (map zlength (pre ++ post)) !! length pre
  = Some (zlength (concat pre)).
Proof.
  rewrite map_app. rewrite <- (length_map zlength pre) at 1.
  rewrite lookup_offsets_app, zsum_lengths. f_equal; lia.
Qed.

Lemma offsets_lookup_stop {A} (pre post : list (list A)) (s : list A) :
  offsets 0 (map zlength (pre ++ s :: post)) !! S (length pre)
  = Some (zlength (concat pre) + zlength s)%Z.
Proof.
  rewrite map_app. simpl map. rewrite <- (length_map zlength pre) at 1.
  rewrite lookup_offsets_segment, zsum_lengths. f_equal; lia.
Qed.

Lemma rows_slice_segment (m : Matrix) (pre post : list (list (list float32)))
    (s : list (list float32)) :
  mrows m = concat (pre ++ s :: post) ->
  rows_slice (Some (zlength (concat pre)))
             (Some (zlength (concat pre) + zlength s)%Z) m
  = {| ncols := ncols m; mrows := s |}.
Proof.
  intros H. unfold rows_slice. f_equal. rewrite H, concat_app. simpl.
  apply py_slice_segment; unfold zlength; lia.
Qed.

(** With equal column counts the loop of [append] writes, group after
    group, the rows of [self] followed by the rows of [futr_dataset]. *)
Lemma append_loop_rows self futr (segs1 segs2 : list (list (list float32))) :
  mrows (temporal self) = concat segs1 ->
  indptr self = offsets 0 (map zlength segs1) ->
  mrows (temporal futr) = concat segs2 ->
  indptr futr = offsets 0 (map zlength segs2) ->
  ncols (temporal self) = ncols (temporal futr) ->
  (Z.of_nat (nrows (temporal self)) <= int_max (indptr_dtype self))%Z ->
  (Z.of_nat (nrows (temporal self)) + Z.of_nat (nrows (temporal futr))
   <= int_max (promote (indptr_dtype self) (indptr_dtype futr)))%Z ->
  forall post1 post2 pre1 pre2 nt before rest,
  segs1 = pre1 ++ post1 -> segs2 = pre2 ++ post2 ->
  length pre1 = length pre2 -> length post1 = length post2 ->
  mrows nt = before ++ rest ->
  ncols nt = ncols (temporal self) ->
  zlength before = (zlength (concat pre1) + zlength (concat pre2))%Z ->
  zlength rest = (zlength (concat post1) + zlength (concat post2))%Z ->
  exists nt',
    for_each (append_step self futr
                (zip_with Z.add (indptr self) (indptr futr)))
             (seq (length pre1) (length post1)) nt = Ok nt'
    /\ mrows nt' = before ++ concat (zip_with app post1 post2).
Proof.
  intros Ht1 Hi1 Ht2 Hi2 Hcols Hfit1 Hfit.
  induction post1 as [|s1 post1 IH];
    intros post2 pre1 pre2 nt before rest Hs1 Hs2 Hpre Hpost Hnt Hc Hb Hr.
  - destruct post2; [|done]. simpl in *. exists nt. split; [done|].
    assert (rest = []) as ->
      by (apply nil_length_inv; unfold zlength in *; simpl in *; lia).
    done.
  - destruct post2 as [|s2 post2]; [done|]. simpl in Hpost.
    simpl length. simpl seq. simpl for_each.
    assert (indptr self !! length pre1 = Some (zlength (concat pre1))) as Ha1.
    { rewrite Hi1, Hs1. apply offsets_lookup_start. }
    assert (indptr self !! S (length pre1)
            = Some (zlength (concat pre1) + zlength s1)%Z) as Hb1.
    { rewrite Hi1, Hs1. apply offsets_lookup_stop. }
    assert (indptr futr !! length pre1 = Some (zlength (concat pre2))) as Ha2.
    { rewrite Hi2, Hs2, Hpre. apply offsets_lookup_start. }
    assert (indptr futr !! S (length pre1)
            = Some (zlength (concat pre2) + zlength s2)%Z) as Hb2.
    { rewrite Hi2, Hs2, Hpre. apply offsets_lookup_stop. }
    simpl in Hr. unfold zlength in Hr. rewrite !length_app in Hr.
    assert (append_step self futr (zip_with Z.add (indptr self) (indptr futr))
              (Z.of_nat (length pre1)) nt
            = Ok {| ncols := ncols nt;
                    mrows := (before ++ s1) ++ s2
                             ++ drop (length s2) (drop (length s1) rest) |})
      as Hstep.
    { unfold append_step.
      rewrite (np_getitem_lookup _ _ _ Ha1), (np_getitem_lookup_succ _ _ _ Hb1).
      rewrite (np_getitem_lookup _ _ _ Ha2), (np_getitem_lookup_succ _ _ _ Hb2).
      rewrite !bind_Ok_l.
      rewrite (np_getitem_lookup _ (length pre1)
                 (zlength (concat pre1) + zlength (concat pre2))%Z)
        by (by rewrite lookup_zip_with, Ha1, Ha2).
      rewrite (np_getitem_lookup_succ _ (length pre1)
                 (zlength (concat pre1) + zlength s1
                  + (zlength (concat pre2) + zlength s2))%Z)
        by (by rewrite lookup_zip_with, Hb1, Hb2).
      rewrite !bind_Ok_l.
      assert (zlength (concat pre1) + zlength s1
              <= Z.of_nat (nrows (temporal self)))%Z as Hle1.
      { unfold nrows. rewrite Ht1, Hs1, concat_app. simpl.
        unfold zlength. rewrite !length_app. lia. }
      assert (zlength (concat pre2) + zlength s2
              <= Z.of_nat (nrows (temporal futr)))%Z as Hle2.
      { unfold nrows. rewrite Ht2, Hs2, concat_app. simpl.
        unfold zlength. rewrite !length_app. lia. }
      unfold int_sub, int_add.
      rewrite (wrap_small _ (_ - _)) by (unfold zlength in *; lia).
      rewrite !(wrap_small _ (_ + _)) by (unfold zlength in *; lia).
      replace (zlength (concat pre1) + zlength s1 - zlength (concat pre1))%Z
        with (zlength s1) by lia.
      rewrite (rows_slice_segment (temporal self) pre1 post1 s1) by congruence.
      rewrite (rows_slice_segment (temporal futr) pre2 post2 s2) by congruence.
      rewrite (setitem_rows_exact nt _ before rest)
        by first [ exact Hnt | simpl; congruence
                 | unfold nrows, zlength in *; simpl; lia ].
      rewrite !bind_Ok_l. simpl mrows. simpl nrows.
      rewrite (setitem_rows_exact _ _ (before ++ s1) (drop (length s1) rest)).
      - done.
      - simpl. by rewrite <- app_assoc.
      - unfold zlength in *. rewrite length_app. lia.
      - unfold nrows, zlength in *. simpl. lia.
      - unfold nrows, zlength in *. simpl. rewrite length_drop. lia.
      - simpl. congruence. }
    rewrite Hstep, bind_Ok_l.
    destruct (IH post2 (pre1 ++ [s1]) (pre2 ++ [s2])
                {| ncols := ncols nt;
                   mrows := (before ++ s1) ++ s2
                            ++ drop (length s2) (drop (length s1) rest) |}
                (before ++ s1 ++ s2)
                (drop (length s2) (drop (length s1) rest)))
      as (nt' & Hrun & Hrows).
    + by rewrite <- app_assoc.
    + by rewrite <- app_assoc.
    + rewrite !length_app. simpl. lia.
    + lia.
    + simpl. by rewrite <- !app_assoc.
    + simpl. congruence.
    + unfold zlength in *. rewrite !concat_app, !length_app. simpl.
      rewrite !length_app. simpl. lia.
    + unfold zlength in *. rewrite !length_drop. lia.
    + rewrite length_app in Hrun. simpl in Hrun.
      replace (length pre1 + 1) with (S (length pre1)) in Hrun by lia.
      exists nt'. split; [exact Hrun|].
      rewrite Hrows. simpl. by rewrite <- !app_assoc.
Qed.

Lemma zlength_zip_app {A} (l1 l2 : list (list A)) :
  map zlength (zip_with app l1 l2)
  = zip_with Z.add (map zlength l1) (map zlength l2).
Proof.
  revert l2. induction l1 as [|x l1 IH]; intros [|y l2]; simpl; try done.
  rewrite IH. f_equal. unfold zlength. rewrite length_app. lia.
Qed.

(** The appended dataset, series by series. *)
Lemma append_segments mem self futr :
  dataset_ok self -> dataset_ok futr ->
  length (indptr self) = length (indptr futr) ->
  ncols (temporal self) = ncols (temporal futr) ->
  (Z.of_nat (nrows (temporal self)) + Z.of_nat (nrows (temporal futr))
   <= int_max (promote (indptr_dtype self) (indptr_dtype futr)))%Z ->
  exists d,
    append mem self futr = Ok d
    /\ mrows (temporal d) = concat (zip_with app (segments self) (segments futr))
    /\ indptr d
       = offsets 0 (map zlength (zip_with app (segments self) (segments futr))).
Proof.
  intros [Hi1 Hv1] [Hi2 Hv2] Hlen Hcols Hfit.
  destruct (invariant_segments _ Hv1) as (Hrows1 & Hip1 & Hn1).
  destruct (invariant_segments _ Hv2) as (Hrows2 & Hip2 & Hn2).
  assert (length (segments self) = length (segments futr)) as Hsegs.
  { rewrite (init_n_groups _ Hi1) in Hn1. rewrite (init_n_groups _ Hi2) in Hn2.
    unfold zlength in *. lia. }
  rewrite append_unfold by done.
  rewrite zip_int_add_exact by done.
  destruct (torch_empty_Ok mem
              (Z.of_nat (nrows (temporal self)) + Z.of_nat (nrows (temporal futr)))
              (Z.of_nat (ncols (temporal self)))) as [nt0 H0]; [lia..|].
  rewrite H0, bind_Ok_l.
  apply torch_empty_Ok_inv in H0 as (_ & _ & Hr0 & Hc0).
  destruct (append_loop_rows self futr _ _ Hrows1 Hip1 Hrows2 Hip2 Hcols
              (inv_fits _ Hv1) Hfit
              (segments self) (segments futr) [] [] nt0 [] (mrows nt0))
    as (nt' & Hrun & Hnt'); try done.
  { lia. }
  { unfold nrows, zlength in *. rewrite <- Hrows1, <- Hrows2. lia. }
  simpl length in Hrun.
  replace (Z.to_nat (n_groups self)) with (length (segments self))
    by (unfold zlength in Hn1; lia).
  rewrite Hrun, bind_Ok_l.
  destruct (init_total nt' (temporal_cols self)
              (zip_with Z.add (indptr self) (indptr futr))
              (promote (indptr_dtype self) (indptr_dtype futr))
              (y_idx self) (static self) (static_cols self)) as [d Hd].
  { rewrite length_zip_with, <- Hlen, Nat.min_id.
    pose proof (init_fields_groups _ Hi1).
    rewrite (init_n_groups _ Hi1) in *. lia. }
  exists d. split; [done|].
  apply init_Ok in Hd as (-> & _ & -> & _). split; [done|].
  rewrite zlength_zip_app, Hip1, Hip2.
  by rewrite zip_offsets by (by rewrite !length_map).
Qed.

Lemma segments_lookup_series d i s :
  indptr_invariant d -> segments d !! i = Some s -> series d i = s.
Proof.
  intros Hinv Hs. destruct (invariant_segments d Hinv) as (Hrows & Hip & _).
  by apply (series_of_segments d (segments d)).
Qed.

(** C2, as amended: for consistent datasets with the same [indptr] size
    and the same number of temporal columns, whose rows together do not
    outnumber the values of the integer type of the summed [indptr],
    [append] returns a dataset whose [indptr] is the element-wise sum and
    whose i-th series is the rows of [self]'s i-th series followed by
    those of [futr]'s; with different [indptr] sizes it raises
    ValueError. *)
Theorem append_spec (mem : nat -> float32) (self futr : TimeSeriesDataset) :
  dataset_ok self -> dataset_ok futr ->
  ncols (temporal self) = ncols (temporal futr) ->
  (length (indptr self) = length (indptr futr) ->
   (Z.of_nat (nrows (temporal self)) + Z.of_nat (nrows (temporal futr))
    <= int_max (promote (indptr_dtype self) (indptr_dtype futr)))%Z ->
   exists d,
     append mem self futr = Ok d
     /\ indptr d = zip_with Z.add (indptr self) (indptr futr)
     /\ forall i : nat, (Z.of_nat i < n_groups self)%Z ->
          series d i = series self i ++ series futr i)
  /\ (length (indptr self) <> length (indptr futr) ->
      append mem self futr = Raise ValueError).
Proof.
  intros Hok1 Hok2 Hcols. split; [|apply append_size_mismatch].
  intros Hlen Hfit.
  destruct (append_segments mem self futr Hok1 Hok2 Hlen Hcols Hfit)
    as (d & Hrun & Hrows & Hip).
  exists d. split; [done|].
  destruct (append_exact _ _ _ _ Hok1 Hok2 Hrun Hfit) as [Hsum _].
  split; [done|]. intros i Hi.
  destruct Hok1 as [Hi1 Hv1], Hok2 as [Hi2 Hv2].
  destruct (invariant_segments _ Hv1) as (_ & _ & Hn1).
  destruct (invariant_segments _ Hv2) as (_ & _ & Hn2).
  destruct (lookup_lt_is_Some_2 (segments self) i) as [s1 Hs1].
  { unfold zlength in Hn1. lia. }
  destruct (lookup_lt_is_Some_2 (segments futr) i) as [s2 Hs2].
  { rewrite (init_n_groups _ Hi1) in *. rewrite (init_n_groups _ Hi2) in Hn2.
    unfold zlength in *. lia. }
  rewrite (segments_lookup_series self i s1), (segments_lookup_series futr i s2)
    by done.
  apply (series_of_segments d _ i _ Hrows Hip).
  by rewrite lookup_zip_with, Hs1, Hs2.
Qed.

(** ** [__getitem__] *)

Lemma np_max_ge (l : list Z) (m : Z) :
  np_max l = Ok m -> Forall (fun x => (x <= m)%Z) l.
Proof.
  destruct l as [|x tl]; [discriminate|]. simpl. intros H. inversion H; clear H.
  assert ((x <= foldr Z.max x tl)%Z
          /\ Forall (fun y => (y <= foldr Z.max x tl)%Z) tl) as [Hx Htl].
  { clear. induction tl as [|y tl [IH1 IH2]]; simpl; [split; [lia|constructor]|].
    split; [lia|]. constructor; [lia|].
    eapply Forall_impl; [apply IH2|]. simpl. intros. lia. }
  by constructor.
Qed.

Lemma permute10_get (m : Matrix) (i j : nat) :
  i < ncols m -> j < nrows m ->
  mat_get (permute10 m) i j = nth i (nth j (mrows m) []) f32_zero.
Proof.
  intros Hi Hj. unfold mat_get, permute10, nrows in *. simpl.
  rewrite (nth_indep _ [] (map (fun r => nth 0 r f32_zero) (mrows m)))
    by (by rewrite length_map, length_seq).
  rewrite (map_nth (fun j => map (fun r => nth j r f32_zero) (mrows m)) (seq 0 (ncols m)) 0 i).
  rewrite seq_nth by done. simpl.
  rewrite (nth_indep _ f32_zero (nth i [] f32_zero)) by (by rewrite length_map).
  by rewrite (map_nth (fun r => nth i r f32_zero)).
Qed.

Lemma permute10_wf (m : Matrix) : mat_wf (permute10 m).
Proof.
  unfold mat_wf, permute10. simpl. apply List.Forall_map, Forall_forall.
  intros j _. apply length_map.
Qed.

Lemma slice_bounds_tail (n l : nat) :
  0 < l -> l <= n ->
  slice_bounds (Some (- Z.of_nat l)%Z) None n = (n - l, n).
Proof.
  intros H1 H2. unfold slice_bounds, norm_index.
  destruct (Z.ltb_spec (- Z.of_nat l) 0); [|lia]. f_equal; lia.
Qed.

Lemma slice_bounds_head (n : nat) :
  slice_bounds None (Some (Z.of_nat n)) n = (0, n).
Proof.
  unfold slice_bounds, norm_index.
  destruct (Z.ltb_spec (Z.of_nat n) 0); [lia|]. f_equal; lia.
Qed.

Lemma zip_with_splice_zeros (block : list (list float32)) (c m w : nat) :
  length block = c -> w <= m ->
  Forall (fun r => length r = w) block ->
  zip_with (splice (m - w)) block (replicate c (replicate m f32_zero))
  = map (fun r => replicate (m - w) f32_zero ++ r) block.
Proof.
  intros Hc Hw Hall. revert c Hc. induction Hall as [|r tl Hr Htl IH];
    intros c Hc; simpl in *; subst c; [done|].
  simpl. rewrite IH by done. f_equal. unfold splice.
  rewrite take_replicate, drop_replicate, Hr.
  replace (m - (m - w + w)) with 0 by lia. simpl. rewrite app_nil_r.
  f_equal. f_equal. lia.
Qed.

Lemma nth_replicate_same {A} (n j : nat) (x : A) : nth j (replicate n x) x = x.
Proof. revert j. induction n; intros [|j]; simpl; auto. Qed.

Lemma broadcastable_refl (n : nat) : broadcastable n n = true.
Proof. unfold broadcastable. destruct (Nat.eqb_spec n n); [done|lia]. Qed.

Lemma bcast_same {A} (n : nat) (l : list A) : bcast n n l = l.
Proof. unfold bcast. destruct (Nat.eqb_spec n n); [done|lia]. Qed.

(** The padded branch of [__getitem__]. *)
Lemma pad_left_spec (ts : Matrix) (c m : nat) :
  ncols ts = c -> 0 < nrows ts -> nrows ts <= m ->
  exists t,
    (z ← torch_zeros (Z.of_nat c) (Z.of_nat m);
     setitem_block z None (Some (Z.of_nat c))
       (Some (- Z.of_nat (nrows ts))%Z) None (permute10 ts)) = Ok t
    /\ left_padded t c m (mrows ts).
Proof.
  intros Hc Hpos Hle. unfold torch_zeros. rewrite full_Ok by lia.
  rewrite bind_Ok_l, !Nat2Z.id. unfold setitem_block.
  unfold nrows at 1. cbn [mrows ncols].
  rewrite length_replicate, slice_bounds_head, slice_bounds_tail by done.
  replace (m - (m - nrows ts)) with (nrows ts) by lia.
  rewrite Nat.sub_0_r. unfold nrows at 1. cbn [mrows ncols permute10].
  rewrite length_map, length_seq, Hc.
  rewrite !broadcastable_refl. cbn [andb].
  replace (nrows (permute10 ts)) with c by (unfold nrows; simpl; by rewrite length_map, length_seq).
  rewrite bcast_same.
  rewrite (map_ext (bcast (nrows ts) (nrows ts)) id), map_id
    by (intros; apply bcast_same).
  rewrite take_0, drop_0. cbn [app].
  rewrite take_replicate, drop_replicate, Nat.min_id, Nat.sub_diag.
  cbn [replicate]. rewrite app_nil_r.
  pose proof (permute10_wf ts) as Hwf. unfold mat_wf in Hwf. simpl in Hwf.
  rewrite Hc in *.
  rewrite zip_with_splice_zeros;
    [| by rewrite length_map, length_seq | done | done].
  eexists. split; [reflexivity|].
  unfold left_padded, nrows, mat_wf. simpl.
  rewrite !length_map, length_seq. repeat split; try done.
  - apply List.Forall_map, List.Forall_map, Forall_forall. intros j _.
    rewrite length_app, length_replicate, length_map. unfold nrows in *. lia.
  - intros i j Hi Hj. unfold mat_get. simpl.
    pose proof (permute10_get ts i) as Hget.
    unfold mat_get, permute10 in Hget. simpl in Hget.
    set (rows := map _ (seq 0 c)) in *.
    rewrite (nth_indep _ [] ((fun r => replicate (m - nrows ts) f32_zero ++ r) []))
      by (subst rows; by rewrite !length_map, length_seq).
    rewrite (map_nth (fun r => replicate (m - nrows ts) f32_zero ++ r)).
    unfold nrows in *.
    destruct (Nat.ltb_spec j (m - length (mrows ts))) as [Hlt|Hge].
    + rewrite app_nth1 by (by rewrite length_replicate).
      apply nth_replicate_same.
    + rewrite app_nth2; rewrite length_replicate; [|lia].
      rewrite Hc in Hget. apply Hget; lia.
Qed.

Lemma permute10_padded (ts : Matrix) :
  left_padded (permute10 ts) (ncols ts) (nrows ts) (mrows ts).
Proof.
  unfold left_padded. repeat split.
  - unfold nrows, permute10. simpl. by rewrite length_map, length_seq.
  - apply permute10_wf.
  - intros i j Hi Hj. unfold nrows in *. rewrite Nat.sub_diag. simpl.
    rewrite Nat.sub_0_r. by apply permute10_get.
Qed.

Lemma np_getitem_Ok {A} (l : list A) (i : Z) :
  (0 <= i < Z.of_nat (length l))%Z ->
  exists x, l !! Z.to_nat i = Some x /\ np_getitem l i = Ok x.
Proof.
  intros H. destruct (lookup_lt_is_Some_2 l (Z.to_nat i)) as [x Hx]; [lia|].
  exists x. split; [done|].
  rewrite <- (Z2Nat.id i) by lia. by apply np_getitem_lookup.
Qed.

(** The item built by [__getitem__] for a group of a consistent dataset. *)
Lemma getitem_item (d : TimeSeriesDataset) (idx : Z) :
  dataset_ok d ->
  ncols (temporal d) = length (temporal_cols d) ->
  nonempty_series d ->
  (0 <= idx < n_groups d)%Z ->
  static_covers d idx ->
  exists t st,
    __getitem__ d (IdxInt idx)
    = Ok (<["temporal" := LTensor (Arr2 t)]>
          (<["temporal_cols" := LIndex (temporal_cols d)]>
          (<["static" := st]>
          (<["static_cols" := option_index (static_cols d)]>
          (<["y_idx" := LInt (y_idx d)]> ∅)))))
    /\ left_padded t (length (temporal_cols d)) (Z.to_nat (max_size d))
                   (series d (Z.to_nat idx))
    /\ (st = LNone <-> static d = None)
    /\ exists a b, np_getitem (indptr d) idx = Ok a
                   /\ np_getitem (indptr d) (idx + 1) = Ok b
                   /\ zlength (series d (Z.to_nat idx)) = (b - a)%Z.
Proof.
  intros [Hinit Hinv] Hcols Hne Hidx Hst.
  pose proof (inv_length d Hinv) as Hlen.
  destruct (np_getitem_Ok (indptr d) idx) as (a & Ha & Hga); [lia|].
  destruct (np_getitem_Ok (indptr d) (idx + 1)) as (b & Hb & Hgb); [lia|].
  replace (Z.to_nat (idx + 1)) with (S (Z.to_nat idx)) in Hb by lia.
  destruct (inv_series d Hinv _ _ _ Ha Hb) as [Hser Hslen].
  pose proof (differences_lookup _ _ _ _ Ha Hb) as Hd.
  assert (0 < b - a <= max_size d)%Z as Hrange.
  { split.
    - eapply (Forall_lookup_1 _ _ _ _ Hne Hd).
    - eapply (Forall_lookup_1 _ _ _ _ (np_max_ge _ _ (init_max_size d Hinit)) Hd). }
  set (ts := rows_slice (Some a) (Some b) (temporal d)).
  assert (mrows ts = series d (Z.to_nat idx)) as Hts.
  { unfold ts, rows_slice, series. simpl. by rewrite Ha, Hb. }
  assert (ncols ts = length (temporal_cols d)) as Htc by done.
  assert (Z.of_nat (nrows ts) = (b - a)%Z) as Htr.
  { unfold nrows. by rewrite Hts. }
  assert (exists t,
    (if decide ((Z.of_nat (length (temporal_cols d)), max_size d)
                = (Z.of_nat (ncols ts), Z.of_nat (nrows ts)))
     then Ok (permute10 ts)
     else z ← torch_zeros (Z.of_nat (length (temporal_cols d))) (max_size d);
          setitem_block z None (Some (Z.of_nat (length (temporal_cols d))))
            (Some (- Z.of_nat (nrows ts))%Z) None (permute10 ts)) = Ok t
    /\ left_padded t (length (temporal_cols d)) (Z.to_nat (max_size d))
                   (mrows ts)) as (t & Ht & Hpad).
  { destruct (decide _) as [Heq|Hneq].
    - exists (permute10 ts). split; [done|]. inversion Heq as [[H1 H2]].
      rewrite H2, Nat2Z.id, <- Htc. apply permute10_padded.
    - replace (torch_zeros (Z.of_nat (length (temporal_cols d))) (max_size d))
        with (torch_zeros (Z.of_nat (length (temporal_cols d)))
                          (Z.of_nat (Z.to_nat (max_size d))))
        by (f_equal; lia).
      apply pad_left_spec; [done|lia|lia]. }
  assert (exists st,
    match static d with
    | None => Ok LNone
    | Some s => r ← tensor_row s idx; Ok (LTensor (Arr1 r))
    end = Ok st /\ (st = LNone <-> static d = None)) as (st & Hstat & Hnone).
  { unfold static_covers in Hst. destruct (static d) as [s|].
    - destruct (np_getitem_Ok (mrows s) idx) as (r & _ & Hr).
      { unfold nrows in Hst. lia. }
      apply np_getitem_list in Hr.
      unfold tensor_row. rewrite Hr. eexists. split; [reflexivity|].
      split; discriminate.
    - exists LNone. done. }
  exists t, st. split.
  { unfold __getitem__. rewrite Hga, Hgb, !bind_Ok_l. fold ts.
    rewrite Ht, bind_Ok_l, Hstat, bind_Ok_l. done. }
  split; [by rewrite <- Hts|]. split; [done|].
  exists a, b. unfold zlength. rewrite <- Hts. done.
Qed.

(** C1, as amended: for a consistent dataset with non-empty series whose
    [temporal] has [len(temporal_cols)] columns and whose [static], when
    present, has a row for [idx], [__getitem__(idx)] for
    [0 <= idx < n_groups] returns an item whose ['temporal'] entry has
    shape [(len(temporal_cols), max_size)], holds the transposed rows of
    series [idx] in its last [L = indptr[idx+1] - indptr[idx]] columns and
    is zero in every earlier column. *)
Theorem getitem_left_padded (d : TimeSeriesDataset) (idx : Z) :
  dataset_ok d ->
  ncols (temporal d) = length (temporal_cols d) ->
  nonempty_series d ->
  (0 <= idx < n_groups d)%Z ->
  static_covers d idx ->
  exists item t a b,
    __getitem__ d (IdxInt idx) = Ok item
    /\ item !! "temporal" = Some (LTensor (Arr2 t))
    /\ shape (Arr2 t) = [length (temporal_cols d); Z.to_nat (max_size d)]
    /\ np_getitem (indptr d) idx = Ok a
    /\ np_getitem (indptr d) (idx + 1) = Ok b
    /\ zlength (series d (Z.to_nat idx)) = (b - a)%Z
    /\ left_padded t (length (temporal_cols d)) (Z.to_nat (max_size d))
                   (series d (Z.to_nat idx)).
Proof.
  intros Hok Hcols Hne Hidx Hst.
  destruct (getitem_item d idx Hok Hcols Hne Hidx Hst)
    as (t & st & Hrun & Hpad & _ & a & b & Ha & Hb & Hlen).
  eexists _, t, a, b. split; [exact Hrun|].
  split; [apply lookup_insert_eq|].
  split; [|done].
  destruct Hpad as (Hr & Hc & _). simpl. by rewrite Hr, Hc.
Qed.

(** ** [_ensure_available_mask] and [__eq__] *)

Lemma zip_with_app_replicate {A} (l : list (list A)) (x : list A) :
  zip_with app l (replicate (length l) x) = map (fun r => r ++ x) l.
Proof. induction l; simpl; [done|]. by f_equal. Qed.

Lemma ensure_mask_present data cols :
  "available_mask" ∈ cols -> _ensure_available_mask data cols = Ok (data, cols).
Proof.
  intros H. unfold _ensure_available_mask.
  destruct (decide ("available_mask" ∉ cols)); [done|done].
Qed.

Lemma ensure_mask_absent data cols :
  "available_mask" ∉ cols ->
  _ensure_available_mask data cols
  = Ok ({| ncols := ncols data + 1;
           mrows := map (fun r => r ++ [f32_one]) (mrows data) |},
        cols ++ ["available_mask"]).
Proof.
  intros H. unfold _ensure_available_mask. rewrite decide_True by done.
  unfold np_ones. rewrite full_Ok by lia. rewrite bind_Ok_l.
  unfold np_append_axis1, nrows. simpl.
  rewrite length_replicate, Nat2Z.id, decide_True by done. simpl.
  by rewrite zip_with_app_replicate.
Qed.

Lemma from_df_Ok_inv df sdf target d ids dates ds :
  from_df df sdf target = Ok (d, ids, dates, ds) ->
  exists p data cols,
    process_df df target = Ok p
    /\ _ensure_available_mask (p_data p) (data_cols df target) = Ok (data, cols)
    /\ TimeSeriesDataset_init data cols (p_indptr p) (p_indptr_dtype p) 0
         (_extract_static_features sdf).1 (_extract_static_features sdf).2
       = Ok d.
Proof.
  unfold from_df. destruct (_extract_static_features sdf) as [st sc]. intros H.
  apply bind_Ok in H as (p & Hp & H).
  apply bind_Ok in H as ([data cols] & Hm & H).
  apply bind_Ok in H as (d' & Hd & H). inversion H; subst.
  by exists p, data, cols.
Qed.

(** C10: [_ensure_available_mask] leaves its arguments alone when the
    mask column is present and otherwise appends a last column of ones
    named ['available_mask']; applying it twice is applying it once; and
    every dataset built by [from_df] has the column. *)
Theorem ensure_available_mask_idempotent :
  (forall data cols,
      "available_mask" ∈ cols ->
      _ensure_available_mask data cols = Ok (data, cols))
  /\ (forall data cols,
      "available_mask" ∉ cols ->
      _ensure_available_mask data cols
      = Ok ({| ncols := ncols data + 1;
               mrows := map (fun r => r ++ [f32_one]) (mrows data) |},
            cols ++ ["available_mask"]))
  /\ (forall data cols,
      exists r, _ensure_available_mask data cols = Ok r
                /\ _ensure_available_mask r.1 r.2 = Ok r)
  /\ (forall df sdf target d ids dates ds,
      from_df df sdf target = Ok (d, ids, dates, ds) ->
      "available_mask" ∈ temporal_cols d).
Proof.
  split; [apply ensure_mask_present|]. split; [apply ensure_mask_absent|].
  assert (forall data cols r, _ensure_available_mask data cols = Ok r ->
                              "available_mask" ∈ r.2) as Hin.
  { intros data cols r.
    destruct (decide ("available_mask" ∈ cols)) as [H|H].
    - rewrite ensure_mask_present by done. by inversion 1.
    - rewrite ensure_mask_absent by done. inversion 1; subst. simpl.
      apply elem_of_app. right. by apply list_elem_of_singleton. }
  split.
  - intros data cols.
    destruct (decide ("available_mask" ∈ cols)) as [H|H].
    + eexists. split; [by apply ensure_mask_present|].
      by apply ensure_mask_present.
    + eexists. split; [by apply ensure_mask_absent|].
      apply ensure_mask_present. simpl.
      apply elem_of_app. right. by apply list_elem_of_singleton.
  - intros df sdf target d ids dates ds H.
    apply from_df_Ok_inv in H as (p & data & cols & _ & Hm & Hd).
    apply init_Ok in Hd as (_ & -> & _). by apply (Hin _ _ _ Hm).
Qed.

(** C8: [__eq__] between two datasets is always [False], also for
    [a == a]: a dataset has no ['data'] attribute, so the guard
    returns before any comparison. *)
Theorem eq_datasets_false (np_compare : TimeSeriesDataset -> pyobj -> bool)
    (a b : TimeSeriesDataset) :
  ("data" ∉ dataset_attrs)
  /\ hasattr (ObjDataset b) "data" = false
  /\ __eq__ np_compare a (ObjDataset b) = Ok false
  /\ __eq__ np_compare a (ObjDataset a) = Ok false.
Proof.
  split; [|done]. unfold dataset_attrs. intros H.
  repeat (apply elem_of_cons in H as [H|H]; [discriminate|]).
  by apply elem_of_nil in H.
Qed.

(** [__eq__] never answers [True] for an operand without ['data'], and
    raises for one that has both attributes. *)
Lemma eq_other_object np_compare (a : TimeSeriesDataset) (attrs : list string) :
  __eq__ np_compare a (ObjOther attrs)
  = if bool_decide ("data" ∈ attrs) && bool_decide ("indptr" ∈ attrs)
    then Raise AttributeError else Ok false.
Proof.
  unfold __eq__. simpl.
  destruct (bool_decide ("data" ∈ attrs)), (bool_decide ("indptr" ∈ attrs));
    done.
Qed.

(** ** Collation *)

Lemma setitem_block_shape dest r0 r1 c0 c1 src t :
  setitem_block dest r0 r1 c0 c1 src = Ok t ->
  nrows t = nrows dest /\ ncols t = ncols dest.
Proof.
  unfold setitem_block.
  destruct (slice_bounds r0 r1 _) as [rlo rhi] eqn:Er.
  destruct (slice_bounds c0 c1 _) as [clo chi] eqn:Ec.
  apply slice_bounds_range in Er.
  destruct (broadcastable (nrows src) (rhi - rlo)) eqn:B1; [|discriminate].
  destruct (broadcastable (ncols src) (chi - clo)) eqn:B2; [|discriminate].
  simpl. intros H. inversion H; subst; clear H. split; [|done].
  unfold nrows in *. simpl.
  rewrite !length_app, length_zip_with, !length_take, !length_drop, length_bcast;
    [lia| |done].
  apply length_map.
Qed.

(** Every item that [__getitem__] returns has the five keys, a
    ['temporal'] tensor of shape [(len(temporal_cols), max_size)] and,
    under ['static'], [None] or a row of [static]. *)
Lemma getitem_Ok_inv (d : TimeSeriesDataset) (idx : pyidx) item :
  __getitem__ d idx = Ok item ->
  exists t st,
    item = <["temporal" := LTensor (Arr2 t)]>
           (<["temporal_cols" := LIndex (temporal_cols d)]>
           (<["static" := st]>
           (<["static_cols" := option_index (static_cols d)]>
           (<["y_idx" := LInt (y_idx d)]> ∅))))
    /\ shape (Arr2 t) = [length (temporal_cols d); Z.to_nat (max_size d)]
    /\ match static d with
       | None => st = LNone
       | Some s => exists r, r ∈ mrows s /\ st = LTensor (Arr1 r)
       end.
Proof.
  destruct idx as [idx|]; [|discriminate]. unfold __getitem__. intros H.
  apply bind_Ok in H as (a & Ha & H). apply bind_Ok in H as (b & Hb & H).
  apply bind_Ok in H as (t & Ht & H). apply bind_Ok in H as (st & Hst & H).
  inversion H; subst; clear H. exists t, st. split; [done|]. split.
  - destruct (decide _) as [Heq|Hneq].
    + inversion Ht; subst. inversion Heq as [[H1 H2]]. simpl.
      unfold nrows at 1. simpl. rewrite length_map, length_seq.
      f_equal; [lia|]. f_equal. lia.
    + apply bind_Ok in Ht as (z & Hz & Ht).
      apply full_Ok_inv in Hz as (_ & _ & ->).
      apply setitem_block_shape in Ht as [Hr Hc]. cbn [shape].
      rewrite Hr, Hc. unfold nrows. simpl.
      rewrite length_replicate. f_equal. lia.
  - destruct (static d) as [s|]; [|by inversion Hst].
    apply bind_Ok in Hst as (r & Hr & Hst). inversion Hst; subst.
    exists r. split; [|done]. unfold tensor_row, list_getitem in Hr.
    destruct (_ <? 0)%Z; [discriminate|].
    destruct (mrows s !! _) eqn:E; [|discriminate]. inversion Hr; subst.
    by eapply list_elem_of_lookup_2.
Qed.

Lemma sequence_Ok {A B} (f : A -> result B) (l : list A) (l' : list B) :
  Forall2 (fun x y => f x = Ok y) l l' -> sequence (map f l) = Ok l'.
Proof. induction 1 as [|x y l l' H _ IH]; simpl; [done|]. by rewrite H, IH. Qed.

Lemma numel_tensors (ts : list ndarray) :
  exists ns, sequence (map numel (map VTensor ts)) = Ok ns.
Proof.
  induction ts as [|t ts [ns IH]]; simpl; [by eexists|].
  rewrite IH. by eexists.
Qed.

Lemma collate_tensors_stack worker (ts : list ndarray) (t0 : ndarray)
    (sh : list nat) :
  head ts = Some t0 -> Forall (fun t => shape t = sh) ts ->
  collate_tensors worker t0 (map VTensor ts) = Ok (Stacked sh ts).
Proof.
  intros Hh Hall. destruct ts as [|t ts]; [done|]. simpl in Hh.
  inversion Hh; subst t0. inversion Hall as [|? ? Ht Hts]; subst.
  unfold collate_tensors. destruct (decide _) as [H1|H1].
  - simpl in H1. destruct ts; [|done]. done.
  - destruct (numel_tensors (t :: ts)) as [ns Hns].
    transitivity (sequence (map as_tensor (map VTensor (t :: ts)))
                  ≫= torch_stack).
    { destruct worker; [|done]. by rewrite Hns. }
    rewrite (sequence_Ok as_tensor _ (t :: ts)).
    2:{ clear. induction (t :: ts); constructor; done. }
    rewrite bind_Ok_l. unfold torch_stack.
    replace (forallb _ _) with true; [done|].
    symmetry. apply forallb_forall. intros x Hx.
    apply bool_decide_eq_true.
    rewrite Forall_forall in Hall. rewrite (Hall x); [done|].
    by apply list_elem_of_In.
Qed.

Lemma collate_key_stack worker key (batch : list pyval) (ts : list ndarray)
    sh :
  ts <> [] ->
  Forall2 (fun v t => getkey key v = Ok (LTensor t)) batch ts ->
  Forall (fun t => shape t = sh) ts ->
  collate_key worker key batch = Ok (LTensor (Stacked sh ts)).
Proof.
  intros Hne H2 Hall. unfold collate_key.
  rewrite (sequence_Ok (getkey key) batch (map LTensor ts)).
  2:{ clear -H2. induction H2; constructor; done. }
  rewrite bind_Ok_l.
  assert (map leaf_to_pyval (map LTensor ts) = map VTensor ts) as ->.
  { clear. induction ts; simpl; [done|]. by f_equal. }
  destruct ts as [|t0 ts]; [done|]. cbn [map].
  change (VTensor t0 :: map VTensor ts) with (map VTensor (t0 :: ts)).
  by rewrite (collate_tensors_stack worker (t0 :: ts) t0 sh).
Qed.

Lemma items_temporals d (items : list (gmap string leaf)) :
  Forall (fun it => exists idx, __getitem__ d idx = Ok it) items ->
  exists temporals,
    Forall2 (fun it t => it !! "temporal" = Some (LTensor t)) items temporals
    /\ Forall (fun t => shape t = [length (temporal_cols d);
                                   Z.to_nat (max_size d)]) temporals
    /\ Forall (fun it => it !! "temporal_cols" = Some (LIndex (temporal_cols d))
                         /\ it !! "y_idx" = Some (LInt (y_idx d))
                         /\ it !! "static_cols"
                            = Some (option_index (static_cols d))) items.
Proof.
  induction 1 as [|it items [idx Hit] _ (ts & H2 & Hsh & Hk)].
  - exists []. repeat constructor.
  - apply getitem_Ok_inv in Hit as (t & st & -> & Ht & _).
    exists (Arr2 t :: ts). repeat constructor; done.
Qed.

Lemma items_statics d s (items : list (gmap string leaf)) :
  static d = Some s -> mat_wf s ->
  Forall (fun it => exists idx, __getitem__ d idx = Ok it) items ->
  exists statics,
    Forall2 (fun it t => it !! "static" = Some (LTensor t)) items statics
    /\ Forall (fun t => shape t = [ncols s]) statics.
Proof.
  intros Hs Hwf. induction 1 as [|it items [idx Hit] _ (ts & H2 & Hsh)].
  - exists []. repeat constructor.
  - apply getitem_Ok_inv in Hit as (t & st & -> & _ & Hst).
    rewrite Hs in Hst. destruct Hst as (r & Hr & ->).
    exists (Arr1 r :: ts). repeat constructor; try done. simpl.
    unfold mat_wf in Hwf. rewrite Forall_forall in Hwf.
    by rewrite (Hwf r Hr).
Qed.

Lemma items_no_static d (items : list (gmap string leaf)) :
  static d = None ->
  Forall (fun it => exists idx, __getitem__ d idx = Ok it) items ->
  Forall (fun it => it !! "static" = Some LNone) items.
Proof.
  intros Hs. induction 1 as [|it items [idx Hit] _ IH]; constructor; [|done].
  apply getitem_Ok_inv in Hit as (t & st & -> & _ & Hst).
  rewrite Hs in Hst. by subst.
Qed.

Lemma getkey_lookup key (it : gmap string leaf) (x : leaf) :
  it !! key = Some x -> getkey key (VMapping it) = Ok x.
Proof. intros H. simpl. by rewrite H. Qed.

Lemma Forall2_getkey key (items : list (gmap string leaf)) (ts : list ndarray) :
  Forall2 (fun it t => it !! key = Some (LTensor t)) items ts ->
  Forall2 (fun v t => getkey key v = Ok (LTensor t)) (map VMapping items) ts.
Proof.
  induction 1; simpl; constructor; [|done]. by apply getkey_lookup.
Qed.

(** C7: collating a non-empty batch of items of one dataset (whose
    [static], being a tensor, is rectangular) gives a dict
    whose ['temporal'] is the items' tensors stacked along a new first
    dimension, shape [(batch, C, max_size)], with ['temporal_cols'] and
    ['y_idx'] of the first item; ['static'] (stacked the same way) and
    ['static_cols'] are present exactly when the first item's ['static']
    is not [None]; a batch whose first element is neither a tensor nor a
    mapping raises TypeError.  This holds in a worker process and outside
    of one. *)
Theorem collate_fn_items (worker : bool) (d : TimeSeriesDataset)
    (first : gmap string leaf) (rest : list (gmap string leaf)) :
  (forall s, static d = Some s -> mat_wf s) ->
  Forall (fun it => exists idx, __getitem__ d idx = Ok it) (first :: rest) ->
  (exists out temporals,
     _collate_fn worker (map VMapping (first :: rest)) = Ok (CDict out)
     /\ Forall2 (fun it t => it !! "temporal" = Some (LTensor t))
                (first :: rest) temporals
     /\ out !! "temporal"
        = Some (LTensor (Stacked [length (temporal_cols d);
                                  Z.to_nat (max_size d)] temporals))
     /\ shape (Stacked [length (temporal_cols d); Z.to_nat (max_size d)]
                       temporals)
        = [length (first :: rest); length (temporal_cols d);
           Z.to_nat (max_size d)]
     /\ out !! "temporal_cols" = first !! "temporal_cols"
     /\ out !! "y_idx" = first !! "y_idx"
     /\ (first !! "static" = Some LNone ->
         out !! "static" = None /\ out !! "static_cols" = None)
     /\ (first !! "static" <> Some LNone ->
         exists sh statics,
           Forall2 (fun it t => it !! "static" = Some (LTensor t))
                   (first :: rest) statics
           /\ out !! "static" = Some (LTensor (Stacked sh statics))
           /\ out !! "static_cols" = first !! "static_cols"
           /\ is_Some (first !! "static_cols")))
  /\ (forall type_name tl,
        _collate_fn worker (VOther type_name :: tl) = Raise TypeError).
Proof.
  intros Hwf Hitems. split; [|done].
  destruct (items_temporals d _ Hitems) as (temporals & Ht2 & Htsh & Hkeys).
  assert (temporals <> []) as Hne by (inversion Ht2; done).
  pose proof (collate_key_stack worker "temporal" _ temporals _ Hne
                (Forall2_getkey _ _ _ Ht2) Htsh) as Hct.
  inversion Hkeys as [|? ? (Hc & Hy & Hsc) _]; subst.
  assert (length temporals = length (first :: rest)) as Hlen.
  { symmetry. by eapply Forall2_length. }
  destruct (static d) as [s|] eqn:Hs.
  - destruct (items_statics d s _ Hs (Hwf s eq_refl) Hitems)
      as (statics & Hs2 & Hssh).
    assert (statics <> []) as Hsne by (inversion Hs2; done).
    pose proof (collate_key_stack worker "static" _ statics _ Hsne
                  (Forall2_getkey _ _ _ Hs2) Hssh) as Hcs.
    inversion Hs2 as [|? t0 ? ? Hfirst _]; subst.
    eexists _, temporals. split.
    { unfold _collate_fn. cbn [map].
      rewrite (getkey_lookup _ _ _ Hfirst), bind_Ok_l. cbv beta iota.
      change (VMapping first :: map VMapping rest)
        with (map VMapping (first :: rest)).
      rewrite Hcs, Hct, !bind_Ok_l.
      rewrite (getkey_lookup _ _ _ Hsc), (getkey_lookup _ _ _ Hc),
        (getkey_lookup _ _ _ Hy), !bind_Ok_l. reflexivity. }
    split; [done|]. split; [done|]. split; [simpl; by rewrite Hlen|].
    split; [by rewrite Hc|]. split; [by rewrite Hy|].
    split; [intros H'; congruence|]. intros _.
    exists [ncols s], (t0 :: l'). split; [done|]. split; [done|].
    split; [by rewrite Hsc|]. rewrite Hsc. eauto.
  - pose proof (items_no_static d _ Hs Hitems) as Hnone.
    inversion Hnone as [|? ? Hfirst _]; subst.
    eexists _, temporals. split.
    { unfold _collate_fn. cbn [map].
      rewrite (getkey_lookup _ _ _ Hfirst), bind_Ok_l. cbv beta iota.
      change (VMapping first :: map VMapping rest)
        with (map VMapping (first :: rest)).
      rewrite Hct, !bind_Ok_l.
      rewrite (getkey_lookup _ _ _ Hc), (getkey_lookup _ _ _ Hy), !bind_Ok_l.
      reflexivity. }
    split; [done|]. split; [done|]. split; [simpl; by rewrite Hlen|].
    split; [by rewrite Hc|]. split; [by rewrite Hy|].
    split; [done|]. intros H'. congruence.
Qed.

(** ** The store: frames and simulation *)

Lemma preserved_refl h : Store.preserved h h.
Proof. by repeat split. Qed.

Lemma preserved_trans h1 h2 h3 :
  Store.preserved h1 h2 -> Store.preserved h2 h3 -> Store.preserved h1 h3.
Proof.
  intros (? & ? & ?) (? & ? & ?). repeat split; by etrans.
Qed.

Lemma prefix_insert_ge {A} (l1 l : list A) (a : nat) (x : A) :
  l1 `prefix_of` l -> length l1 <= a -> l1 `prefix_of` <[a := x]> l.
Proof.
  intros [k ->] Hle. rewrite insert_app_r_alt by done. by apply prefix_app_r.
Qed.

Lemma preserved_lookup_tensor h h' a m :
  Store.preserved h h' -> Store.tensors h !! a = Some m -> Store.tensors h' !! a = Some m.
Proof. intros (H & _) Ha. by eapply prefix_lookup_Some. Qed.

Lemma preserved_lookup_array h h' a x :
  Store.preserved h h' -> Store.arrays h !! a = Some x -> Store.arrays h' !! a = Some x.
Proof. intros (_ & H & _) Ha. by eapply prefix_lookup_Some. Qed.

Lemma preserved_lookup_object h h' a o :
  Store.preserved h h' -> Store.objects h !! a = Some o -> Store.objects h' !! a = Some o.
Proof. intros (_ & _ & H) Ha. by eapply prefix_lookup_Some. Qed.

(** An instance of [h] has the same value in every store that preserves
    [h]. *)
Lemma preserved_deref h h' a d :
  Store.preserved h h' -> Store.deref h a = Some d -> Store.deref h' a = Some d.
Proof.
  intros Hp. unfold Store.deref. intros H.
  destruct (Store.objects h !! a) as [o|] eqn:Ho; [|done]. simpl in H.
  rewrite (preserved_lookup_object _ _ _ _ Hp Ho). simpl.
  destruct (Store.tensors h !! Store.o_temporal o) as [t|] eqn:Ht; [|done]. simpl in H.
  rewrite (preserved_lookup_tensor _ _ _ _ Hp Ht). simpl.
  destruct (Store.arrays h !! Store.o_indptr o) as [ip|] eqn:Hip; [|done]. simpl in H.
  rewrite (preserved_lookup_array _ _ _ _ Hp Hip). simpl.
  destruct (Store.o_static o) as [s|]; [|done].
  destruct (Store.tensors h !! s) as [st|] eqn:Hst; [|done]. simpl in H.
  by rewrite (preserved_lookup_tensor _ _ _ _ Hp Hst).
Qed.

Lemma preserved_new_tensor h0 h m :
  Store.preserved h0 h ->
  Store.preserved h0 {| Store.tensors := Store.tensors h ++ [m]; Store.arrays := Store.arrays h;
                  Store.objects := Store.objects h |}.
Proof.
  intros (? & ? & ?). repeat split; simpl; try done. by apply prefix_app_r.
Qed.

Lemma preserved_new_array h0 h a :
  Store.preserved h0 h ->
  Store.preserved h0 {| Store.tensors := Store.tensors h; Store.arrays := Store.arrays h ++ [a];
                  Store.objects := Store.objects h |}.
Proof.
  intros (? & ? & ?). repeat split; simpl; try done. by apply prefix_app_r.
Qed.

Lemma preserved_write h0 h a m :
  Store.preserved h0 h -> length (Store.tensors h0) <= a ->
  Store.preserved h0 {| Store.tensors := <[a := m]> (Store.tensors h); Store.arrays := Store.arrays h;
                  Store.objects := Store.objects h |}.
Proof.
  intros (? & ? & ?) Hle. repeat split; simpl; try done.
  by apply prefix_insert_ge.
Qed.

(** [Store.copy_rows] into a tensor allocated after [h0], from a tensor of
    [h0]: the write of the source does what [setitem_rows] does on
    values. *)
Lemma copy_rows_run h0 h dest src (t s : Matrix) start stop s0 s1 :
  Store.preserved h0 h -> length (Store.tensors h0) <= dest ->
  Store.tensors h !! dest = Some t -> Store.tensors h0 !! src = Some s ->
  Store.copy_rows dest start stop src s0 s1 h
  = match setitem_rows t (Some start) (Some stop)
            (rows_slice (Some s0) (Some s1) s) with
    | Ok t' => (Ok tt, {| Store.tensors := <[dest := t']> (Store.tensors h);
                          Store.arrays := Store.arrays h; Store.objects := Store.objects h |})
    | Raise e => (Raise e, h)
    end.
Proof.
  intros Hp Hle Hd Hs. unfold Store.copy_rows, Store.bind, Store.read_tensor, Store.lift, Store.write_tensor.
  rewrite (preserved_lookup_tensor _ _ _ _ Hp Hs), Hd.
  by destruct (setitem_rows _ _ _ _).
Qed.


Lemma store_init_run (h : Store.store) (ta ipa : nat) (t : Matrix)
    (ip : list Z) dt cols y (sta : option nat) (st : option Matrix) sc :
  Store.tensors h !! ta = Some t ->
  Store.arrays h !! ipa = Some (dt, ip) ->
  static_at h sta st ->
  Store.TimeSeriesDataset_init ta cols ipa y sta sc h
  = match np_max (np_diff dt ip), np_min (np_diff dt ip) with
    | Ok mx, Ok mn =>
        (Ok (length (Store.objects h)),
         init_store h t st (init_object h ipa ip cols y sta sc mx mn))
    | Raise e, _ | Ok _, Raise e =>
        (Raise e, {| Store.tensors := Store.tensors h ++ [t];
                     Store.arrays := Store.arrays h;
                     Store.objects := Store.objects h |})
    end.
Proof.
  intros Ht Hip Hst.
  unfold Store.TimeSeriesDataset_init, Store._as_torch_copy, Store.bind,
    Store.read_tensor, Store.new_tensor, Store.read_array, Store.lift,
    Store.ret, Store.new_object, init_store, init_object.
  rewrite Ht. simpl. rewrite Hip. cbn [fst snd].
  destruct (np_max (np_diff dt ip)) as [mx|e]; [|done].
  destruct (np_min (np_diff dt ip)) as [mn|e]; [|done].
  destruct sta as [s|]; simpl in Hst.
  - destruct Hst as (m & Hm & ->).
    cbn [Store.tensors Store.arrays Store.objects].
    rewrite (lookup_app_l _ [t]) by (by eapply lookup_lt_Some).
    rewrite Hm. simpl. rewrite length_app. simpl.
    replace (length (Store.tensors h) + 1) with (S (length (Store.tensors h)))
      by lia.
    by rewrite <- app_assoc.
  - by subst st.
Qed.

(** What the constructor does in the store, against the constructor on
    values. *)
Lemma init_sim (h : Store.store) (ta ipa : nat) (t : Matrix) (ip : list Z)
    dt cols y (sta : option nat) (st : option Matrix) sc :
  Store.tensors h !! ta = Some t ->
  Store.arrays h !! ipa = Some (dt, ip) ->
  static_at h sta st ->
  exists h',
    Store.preserved h h'
    /\ Store.arrays h' = Store.arrays h
    /\ match TimeSeriesDataset_init t cols ip dt y st sc with
       | Ok d =>
           Store.TimeSeriesDataset_init ta cols ipa y sta sc h
           = (Ok (length (Store.objects h)), h')
           /\ Store.deref h' (length (Store.objects h)) = Some d
           /\ length (Store.objects h') = S (length (Store.objects h))
       | Raise e =>
           Store.TimeSeriesDataset_init ta cols ipa y sta sc h = (Raise e, h')
           /\ Store.objects h' = Store.objects h
       end.
Proof.
  intros Ht Hip Hst. rewrite (store_init_run h ta ipa t ip dt cols y sta st sc)
    by done.
  unfold TimeSeriesDataset_init.
  destruct (np_max (np_diff dt ip)) as [mx|e].
  2:{ eexists. split; [|split; [|split; reflexivity]]; [|done].
      apply preserved_new_tensor, preserved_refl. }
  destruct (np_min (np_diff dt ip)) as [mn|e].
  2:{ eexists. split; [|split; [|split; reflexivity]]; [|done].
      apply preserved_new_tensor, preserved_refl. }
  rewrite !bind_Ok_l. eexists. split; [|split; [|split; [reflexivity|split]]].
  - unfold init_store. repeat split; simpl; [|done|]; by apply prefix_app_r.
  - done.
  - unfold Store.deref, init_store, init_object. simpl.
    rewrite list_lookup_middle by done. simpl.
    rewrite list_lookup_middle by done. simpl. rewrite Hip. simpl.
    destruct sta as [s|]; simpl in Hst.
    + destruct Hst as (m & Hm & ->). simpl.
      change (Store.tensors h ++ t :: [m])
        with (Store.tensors h ++ [t] ++ [m]).
      rewrite app_assoc, list_lookup_middle
        by (rewrite length_app; simpl; lia).
      done.
    + by subst st.
  - unfold init_store. simpl. rewrite length_app. simpl. lia.
Qed.

Lemma with_tensor_facts h0 h a m t :
  Store.preserved h0 h -> length (Store.tensors h0) <= a ->
  Store.tensors h !! a = Some t ->
  Store.preserved h0 (with_tensor h a m)
  /\ Store.tensors (with_tensor h a m) !! a = Some m
  /\ Store.objects (with_tensor h a m) = Store.objects h
  /\ Store.arrays (with_tensor h a m) = Store.arrays h
  /\ length (Store.tensors (with_tensor h a m)) = length (Store.tensors h).
Proof.
  intros Hp Hle Ht. split; [by apply preserved_write|].
  unfold with_tensor. simpl. split; [|by rewrite length_insert].
  apply list_lookup_insert_eq. by eapply lookup_lt_Some.
Qed.

(** One turn of the loop of [trim_dataset] in the store does what the
    loop body does on values, writing only the new tensor. *)
Lemma store_trim_step_run h0 h (o : Store.DatasetObj) (d : TimeSeriesDataset)
    l r nta i nt ip acum :
  Store.tensors h0 !! Store.o_temporal o = Some (temporal d) ->
  Store.arrays h0 !! Store.o_indptr o = Some (indptr_dtype d, indptr d) ->
  length (Store.tensors h0) <= nta ->
  Store.preserved h0 h ->
  Store.tensors h !! nta = Some nt ->
  Store.trim_step o l r nta i (ip, acum) h
  = match trim_step d l r i (nt, ip, acum) with
    | Ok (nt', ip', acum') => (Ok (ip', acum'), with_tensor h nta nt')
    | Raise e => (Raise e, h)
    end.
Proof.
  intros Ht Hip Hle Hp Hnt. unfold Store.trim_step, trim_step.
  unfold Store.bind at 1, Store.read_array at 1.
  rewrite (preserved_lookup_array _ _ _ _ Hp Hip). cbn [fst snd].
  unfold Store.bind at 1, Store.lift at 1.
  destruct (np_getitem (indptr d) (i + 1)) as [stop|e]; [|done].
  unfold Store.bind at 1, Store.lift at 1.
  destruct (np_getitem (indptr d) i) as [start|e]; [|done].
  unfold Store.bind at 1, Store.lift at 1.
  destruct (as_scalar (indptr_dtype d) l) as [lt|e]; [|done].
  unfold Store.bind at 1, Store.lift at 1.
  destruct (as_scalar (indptr_dtype d) r) as [rt|e]; [|done].
  rewrite !bind_Ok_l. unfold Store.bind at 1.
  rewrite (copy_rows_run h0 h nta _ nt (temporal d)) by done.
  destruct (setitem_rows _ _ _ _) as [nt'|e]; [|done].
  done.
Qed.

Lemma store_trim_loop h0 (o : Store.DatasetObj) (d : TimeSeriesDataset)
    l r nta :
  Store.tensors h0 !! Store.o_temporal o = Some (temporal d) ->
  Store.arrays h0 !! Store.o_indptr o = Some (indptr_dtype d, indptr d) ->
  length (Store.tensors h0) <= nta ->
  forall idxs h nt ip acum,
  Store.preserved h0 h ->
  Store.tensors h !! nta = Some nt ->
  exists h',
    Store.preserved h0 h'
    /\ Store.objects h' = Store.objects h
    /\ Store.arrays h' = Store.arrays h
    /\ length (Store.tensors h') = length (Store.tensors h)
    /\ Store.for_each (Store.trim_step o l r nta) idxs (ip, acum) h
       = (result_map (fun st => (st.1.2, st.2))
            (for_each (trim_step d l r) idxs (nt, ip, acum)), h')
    /\ forall st, for_each (trim_step d l r) idxs (nt, ip, acum) = Ok st ->
                  Store.tensors h' !! nta = Some st.1.1.
Proof.
  intros Ht Hip Hle. induction idxs as [|i idxs IH]; intros h nt ip acum Hp Hnt.
  - exists h. simpl. unfold Store.ret. do 5 (split; [done|]).
    intros st Hst. by inversion Hst.
  - cbn [Store.for_each for_each]. unfold Store.bind at 1.
    rewrite (store_trim_step_run h0 h o d l r nta _ nt) by done.
    destruct (trim_step d l r (Z.of_nat i) (nt, ip, acum))
      as [[[nt1 ip1] acum1]|e].
    + destruct (with_tensor_facts h0 h nta nt1 nt Hp Hle Hnt)
        as (Hp1 & Hnt1 & Ho1 & Ha1 & Hl1).
      destruct (IH _ nt1 ip1 acum1 Hp1 Hnt1)
        as (h' & Hp' & Ho' & Ha' & Hl' & Hrun & Hfin).
      exists h'. rewrite bind_Ok_l.
      split; [done|]. split; [congruence|]. split; [congruence|].
      split; [congruence|]. done.
    + exists h. simpl. do 5 (split; [done|]). intros st Hst. discriminate.
Qed.

Lemma deref_inv h ref d :
  Store.deref h ref = Some d ->
  exists o,
    Store.objects h !! ref = Some o
    /\ Store.tensors h !! Store.o_temporal o = Some (temporal d)
    /\ Store.arrays h !! Store.o_indptr o = Some (indptr_dtype d, indptr d)
    /\ static_at h (Store.o_static o) (static d)
    /\ temporal_cols d = Store.o_temporal_cols o
    /\ n_groups d = Store.o_n_groups o
    /\ static_cols d = Store.o_static_cols o
    /\ max_size d = Store.o_max_size o
    /\ min_size d = Store.o_min_size o
    /\ y_idx d = Store.o_y_idx o
    /\ updated d = Store.o_updated o.
Proof.
  unfold Store.deref. intros H.
  destruct (Store.objects h !! ref) as [o|]; [|done]. simpl in H.
  destruct (Store.tensors h !! Store.o_temporal o) as [t|] eqn:Ht; [|done].
  simpl in H.
  destruct (Store.arrays h !! Store.o_indptr o) as [[dt ip]|] eqn:Hip; [|done].
  simpl in H. exists o. unfold static_at.
  destruct (Store.o_static o) as [s|].
  - destruct (Store.tensors h !! s) as [m|] eqn:Hs; [|done]. simpl in H.
    injection H as <-. simpl. do 3 (split; [done|]).
    split; [by exists m|]. done.
  - simpl in H. injection H as <-. simpl. done.
Qed.

Lemma static_at_preserved h h' sta st :
  Store.preserved h h' -> static_at h sta st -> static_at h' sta st.
Proof.
  intros Hp. unfold static_at. destruct sta as [s|]; [|done].
  intros (m & Hm & ->). exists m. split; [|done].
  by eapply preserved_lookup_tensor.
Qed.

(** [trim_dataset] in the store against [trim_dataset] on values: same
    outcome, the input untouched, and an instance allocated only on
    success. *)
Lemma trim_sim h ref d l r :
  Store.deref h ref = Some d ->
  exists h',
    Store.preserved h h'
    /\ Store.trim_dataset ref l r h
       = (result_map (fun _ => length (Store.objects h)) (trim_dataset d l r),
          h')
    /\ (forall d', trim_dataset d l r = Ok d' ->
          Store.deref h' (length (Store.objects h)) = Some d'
          /\ length (Store.objects h') = S (length (Store.objects h)))
    /\ (forall e, trim_dataset d l r = Raise e ->
          Store.objects h' = Store.objects h)
    /\ ((min_size d <= l + r)%Z -> h' = h).
Proof.
  intros Hd.
  destruct (deref_inv _ _ _ Hd)
    as (o & Ho & Ht & Hip & Hst & Hcols & Hn & Hsc & Hmx & Hmn & Hy & Hup).
  unfold Store.trim_dataset. unfold Store.bind at 1, Store.read_object at 1.
  rewrite Ho, <- Hmn.
  destruct (Z.leb_spec (min_size d) (l + r)) as [Hg|Hg].
  { rewrite trim_dataset_guard by done. exists h. unfold Store.raise. simpl.
    split; [apply preserved_refl|]. repeat split; try done. }
  rewrite trim_dataset_unfold by done.
  unfold Store.bind at 1, Store.read_tensor at 1. rewrite Ht.
  unfold Store.bind at 1, Store.lift at 1. rewrite <- Hn.
  destruct (torch_zeros _ _) as [m|e] eqn:Hz.
  2:{ exists h. simpl. split; [apply preserved_refl|].
      repeat split; try done. }
  rewrite bind_Ok_l.
  unfold Store.bind at 1, Store.new_tensor at 1.
  set (h1 := {| Store.tensors := Store.tensors h ++ [m];
                Store.arrays := Store.arrays h;
                Store.objects := Store.objects h |}).
  assert (Store.preserved h h1) as Hp1
    by apply preserved_new_tensor, preserved_refl.
  assert (Store.tensors h1 !! length (Store.tensors h) = Some m) as Hm
    by (by apply list_lookup_middle).
  destruct (store_trim_loop h o d l r (length (Store.tensors h)) Ht Hip
              (le_n _) (seq 0 (Z.to_nat (n_groups d))) h1 m [0%Z] 0%Z Hp1 Hm)
    as (h2 & Hp2 & Ho2 & Ha2 & Hl2 & Hrun & Hfin).
  unfold Store.bind at 1. rewrite Hrun.
  destruct (for_each _ _ _) as [[[nt' ip'] acum']|e] eqn:Hloop.
  2:{ exists h2. simpl. split; [done|]. split; [done|].
      split; [done|]. split; [|intros ?; lia]. intros _ _. by rewrite Ho2. }
  specialize (Hfin _ eq_refl). simpl in Hfin. simpl result_map.
  rewrite bind_Ok_l. cbn [fst snd].
  unfold Store.bind at 1, Store.new_array at 1.
  set (h3 := {| Store.tensors := Store.tensors h2;
                Store.arrays := Store.arrays h2 ++ [(int32, np_astype int32 ip')];
                Store.objects := Store.objects h2 |}).
  assert (Store.preserved h2 h3) as Hp3
    by apply preserved_new_array, preserved_refl.
  assert (Store.preserved h h3) as Hp03 by (by eapply preserved_trans).
  destruct (init_sim h3 (length (Store.tensors h)) (length (Store.arrays h2))
              nt' (np_astype int32 ip') int32 (Store.o_temporal_cols o)
              (Store.o_y_idx o)
              (Store.o_static o) (static d) (Store.o_static_cols o))
    as (h4 & Hp4 & Ha4 & Hinit).
  { done. }
  { simpl. by apply list_lookup_middle. }
  { by eapply static_at_preserved. }
  rewrite <- Hcols, <- Hy, <- Hsc in *.
  exists h4. split; [by eapply preserved_trans|].
  assert (Store.objects h3 = Store.objects h) as Ho3 by (simpl; by rewrite Ho2).
  rewrite Ho3 in Hinit.
  destruct (TimeSeriesDataset_init nt' _ _ _ _ _ _) as [d'|e].
  - destruct Hinit as (Hrun' & Hderef & Hlen). simpl.
    split; [done|]. split; [|split; [done|intros ?; lia]].
    intros d'' Hd''. inversion Hd''; subst. done.
  - destruct Hinit as (Hrun' & Hobj). simpl.
    split; [done|]. split; [done|]. split; [|intros ?; lia].
    intros _ _. congruence.
Qed.

(** One turn of the loop of [append] in the store. *)
Lemma store_append_step h0 h (so fo : Store.DatasetObj)
    (s f : TimeSeriesDataset) nipa ndt nip nta i nt :
  Store.tensors h0 !! Store.o_temporal so = Some (temporal s) ->
  Store.arrays h0 !! Store.o_indptr so = Some (indptr_dtype s, indptr s) ->
  Store.tensors h0 !! Store.o_temporal fo = Some (temporal f) ->
  Store.arrays h0 !! Store.o_indptr fo = Some (indptr_dtype f, indptr f) ->
  length (Store.tensors h0) <= nta ->
  Store.preserved h0 h ->
  Store.tensors h !! nta = Some nt ->
  Store.arrays h !! nipa = Some (ndt, nip) ->
  exists h',
    Store.preserved h0 h'
    /\ Store.objects h' = Store.objects h
    /\ Store.arrays h' = Store.arrays h
    /\ length (Store.tensors h') = length (Store.tensors h)
    /\ is_Some (Store.tensors h' !! nta)
    /\ Store.append_step so fo nipa nta i tt h
       = (result_map (fun _ => tt) (append_step s f nip i nt), h')
    /\ forall nt', append_step s f nip i nt = Ok nt' ->
                   Store.tensors h' !! nta = Some nt'.
Proof.
  intros Hts Hips Htf Hipf Hle Hp Hnt Hnip.
  unfold Store.append_step, append_step.
  unfold Store.bind at 1, Store.read_array at 1.
  rewrite (preserved_lookup_array _ _ _ _ Hp Hips). cbn [fst snd].
  unfold Store.bind at 1, Store.lift at 1.
  destruct (np_getitem (indptr s) i) as [cur_start|e];
    [|exists h; simpl; by eauto 10].
  unfold Store.bind at 1, Store.lift at 1.
  destruct (np_getitem (indptr s) (i + 1)) as [cur_stop|e];
    [|exists h; simpl; by eauto 10].
  unfold Store.bind at 1, Store.read_array at 1.
  rewrite (preserved_lookup_array _ _ _ _ Hp Hipf). cbn [fst snd].
  unfold Store.bind at 1, Store.lift at 1.
  destruct (np_getitem (indptr f) i) as [futr_start|e];
    [|exists h; simpl; by eauto 10].
  unfold Store.bind at 1, Store.lift at 1.
  destruct (np_getitem (indptr f) (i + 1)) as [futr_stop|e];
    [|exists h; simpl; by eauto 10].
  unfold Store.bind at 1, Store.read_array at 1. rewrite Hnip. cbn [fst snd].
  unfold Store.bind at 1, Store.lift at 1.
  destruct (np_getitem nip i) as [new_start|e];
    [|exists h; simpl; by eauto 10].
  rewrite !bind_Ok_l. unfold Store.bind at 1.
  rewrite (copy_rows_run h0 h nta _ nt (temporal s)) by done.
  destruct (setitem_rows nt _ _ _) as [nt1|e];
    [|exists h; simpl; by eauto 10].
  destruct (with_tensor_facts h0 h nta nt1 nt Hp Hle Hnt)
    as (Hp1 & Hnt1 & Ho1 & Ha1 & Hl1).
  rewrite bind_Ok_l.
  unfold Store.bind at 1, Store.lift at 1.
  destruct (np_getitem nip (i + 1)) as [new_stop|e];
    [|exists (with_tensor h nta nt1); simpl; by eauto 10].
  rewrite bind_Ok_l.
  rewrite (copy_rows_run h0 _ nta _ nt1 (temporal f)) by done.
  destruct (setitem_rows nt1 _ _ _) as [nt2|e];
    [|exists (with_tensor h nta nt1); simpl; by eauto 10].
  destruct (with_tensor_facts h0 _ nta nt2 nt1 Hp1 Hle Hnt1)
    as (Hp2 & Hnt2 & Ho2 & Ha2 & Hl2).
  exists (with_tensor (with_tensor h nta nt1) nta nt2).
  split; [done|]. split; [by rewrite Ho2|]. split; [by rewrite Ha2|].
  split; [by rewrite Hl2|]. split; [by eauto|]. split; [done|].
  intros nt' H. by inversion H; subst.
Qed.

Lemma store_append_loop h0 (so fo : Store.DatasetObj)
    (s f : TimeSeriesDataset) nipa ndt nip nta :
  Store.tensors h0 !! Store.o_temporal so = Some (temporal s) ->
  Store.arrays h0 !! Store.o_indptr so = Some (indptr_dtype s, indptr s) ->
  Store.tensors h0 !! Store.o_temporal fo = Some (temporal f) ->
  Store.arrays h0 !! Store.o_indptr fo = Some (indptr_dtype f, indptr f) ->
  length (Store.tensors h0) <= nta ->
  forall idxs h nt,
  Store.preserved h0 h ->
  Store.tensors h !! nta = Some nt ->
  Store.arrays h !! nipa = Some (ndt, nip) ->
  exists h',
    Store.preserved h0 h'
    /\ Store.objects h' = Store.objects h
    /\ Store.arrays h' = Store.arrays h
    /\ length (Store.tensors h') = length (Store.tensors h)
    /\ Store.for_each (Store.append_step so fo nipa nta) idxs tt h
       = (result_map (fun _ => tt) (for_each (append_step s f nip) idxs nt), h')
    /\ forall nt', for_each (append_step s f nip) idxs nt = Ok nt' ->
                   Store.tensors h' !! nta = Some nt'.
Proof.
  intros Hts Hips Htf Hipf Hle.
  induction idxs as [|i idxs IH]; intros h nt Hp Hnt Hnip.
  - exists h. simpl. unfold Store.ret. do 5 (split; [done|]).
    intros nt' H. by inversion H; subst.
  - cbn [Store.for_each for_each]. unfold Store.bind at 1.
    destruct (store_append_step h0 h so fo s f nipa ndt nip nta (Z.of_nat i) nt)
      as (h1 & Hp1 & Ho1 & Ha1 & Hl1 & _ & Hrun & Hfin); try done.
    rewrite Hrun.
    destruct (append_step s f nip (Z.of_nat i) nt) as [nt1|e].
    + specialize (Hfin _ eq_refl). simpl result_map. cbv iota. rewrite bind_Ok_l.
      destruct (IH h1 nt1 Hp1 Hfin) as (h' & Hp' & Ho' & Ha' & Hl' & Hrun' & Hfin').
      { by rewrite Ha1. }
      exists h'. split; [done|]. split; [congruence|]. split; [congruence|].
      split; [congruence|]. done.
    + exists h1. simpl. do 5 (split; [done|]). intros nt' H. discriminate.
Qed.

(** [append] in the store against [append] on values. *)
Lemma append_sim mem h sref fref s f :
  Store.deref h sref = Some s ->
  Store.deref h fref = Some f ->
  exists h',
    Store.preserved h h'
    /\ Store.append mem sref fref h
       = (result_map (fun _ => length (Store.objects h)) (append mem s f), h')
    /\ (forall d', append mem s f = Ok d' ->
          Store.deref h' (length (Store.objects h)) = Some d'
          /\ length (Store.objects h') = S (length (Store.objects h)))
    /\ (forall e, append mem s f = Raise e ->
          Store.objects h' = Store.objects h).
Proof.
  intros Hs Hf.
  destruct (deref_inv _ _ _ Hs)
    as (so & Hso & Hts & Hips & Hsts & Hcols & Hn & Hsc & _ & _ & Hy & _).
  destruct (deref_inv _ _ _ Hf) as (fo & Hfo & Htf & Hipf & _).
  unfold Store.append.
  unfold Store.bind at 1, Store.read_object at 1. rewrite Hso.
  unfold Store.bind at 1, Store.read_object at 1. rewrite Hfo.
  unfold Store.bind at 1, Store.read_array at 1. rewrite Hips.
  unfold Store.bind at 1, Store.read_array at 1. rewrite Hipf. cbn [fst snd].
  destruct (decide (length (indptr s) ≠ length (indptr f))) as [Hne|Heq].
  { rewrite append_size_mismatch by done. exists h. unfold Store.raise. simpl.
    split; [apply preserved_refl|]. repeat split; try done. }
  rewrite append_unfold by (by destruct (decide (length (indptr s) = length (indptr f)))).
  unfold Store.bind at 1, Store.read_tensor at 1. rewrite Hts.
  unfold Store.bind at 1, Store.read_tensor at 1. rewrite Htf.
  unfold Store.bind at 1, Store.lift at 1.
  destruct (torch_empty _ _ _) as [m|e] eqn:Hz.
  2:{ exists h. simpl. split; [apply preserved_refl|].
      repeat split; try done. }
  rewrite bind_Ok_l.
  unfold Store.bind at 1, Store.new_tensor at 1.
  unfold Store.bind at 1, Store.new_array at 1.
  cbn [Store.tensors Store.arrays Store.objects].
  set (h1 := {| Store.tensors := Store.tensors h ++ [m];
                Store.arrays := Store.arrays h
                                ++ [(promote (indptr_dtype s) (indptr_dtype f),
                                     zip_with
                                       (int_add (promote (indptr_dtype s)
                                                         (indptr_dtype f)))
                                       (indptr s) (indptr f))];
                Store.objects := Store.objects h |}).
  assert (Store.preserved h h1) as Hp1.
  { repeat split; simpl; try done; by apply prefix_app_r. }
  assert (Store.tensors h1 !! length (Store.tensors h) = Some m) as Hm
    by (by apply list_lookup_middle).
  assert (Store.arrays h1 !! length (Store.arrays h)
          = Some (promote (indptr_dtype s) (indptr_dtype f),
                  zip_with (int_add (promote (indptr_dtype s)
                                             (indptr_dtype f)))
                           (indptr s) (indptr f))) as Hnip
    by (by apply list_lookup_middle).
  destruct (store_append_loop h so fo s f (length (Store.arrays h)) _ _
              (length (Store.tensors h)) Hts Hips Htf Hipf (le_n _)
              (seq 0 (Z.to_nat (n_groups s))) h1 m Hp1 Hm Hnip)
    as (h2 & Hp2 & Ho2 & Ha2 & Hl2 & Hrun & Hfin).
  unfold Store.bind at 1. rewrite <- Hn, Hrun.
  destruct (for_each _ _ _) as [nt'|e] eqn:Hloop.
  2:{ exists h2. simpl. split; [done|]. split; [done|].
      split; [done|]. intros _ _. by rewrite Ho2. }
  specialize (Hfin _ eq_refl). simpl result_map. cbv iota.
  rewrite bind_Ok_l.
  destruct (init_sim h2 (length (Store.tensors h)) (length (Store.arrays h))
              nt' (zip_with (int_add (promote (indptr_dtype s)
                                              (indptr_dtype f)))
                            (indptr s) (indptr f))
              (promote (indptr_dtype s) (indptr_dtype f))
              (Store.o_temporal_cols so) (Store.o_y_idx so)
              (Store.o_static so) (static s) (Store.o_static_cols so))
    as (h4 & Hp4 & Ha4 & Hinit).
  { done. }
  { by rewrite Ha2. }
  { by eapply static_at_preserved. }
  rewrite <- Hcols, <- Hy, <- Hsc in *.
  exists h4. split; [by eapply preserved_trans|].
  assert (Store.objects h2 = Store.objects h) as Ho3 by (by rewrite Ho2).
  rewrite Ho3 in Hinit.
  destruct (TimeSeriesDataset_init nt' _ _ _ _ _ _) as [d'|e].
  - destruct Hinit as (Hrun' & Hderef & Hlen). simpl.
    split; [done|]. split; [|done].
    intros d'' Hd''. inversion Hd''; subst. done.
  - destruct Hinit as (Hrun' & Hobj). simpl.
    split; [done|]. split; [done|]. intros _ _. congruence.
Qed.

(** ** Sorting and grouping *)

Lemma insert_by_app_le {A} (key : A -> Z) (c : Z) (x : A) (l1 l2 : list A) :
  (key x <= c)%Z -> Forall (fun y => (c < key y)%Z) l2 ->
  insert_by key x (l1 ++ l2) = insert_by key x l1 ++ l2.
Proof.
  intros Hx Hl2. induction l1 as [|y l1 IH]; simpl.
  - destruct l2 as [|z l2]; [done|]. inversion Hl2; subst. simpl.
    destruct (Z.leb_spec (key x) (key z)); [done|lia].
  - destruct (key x <=? key y)%Z; [done|]. by rewrite IH.
Qed.

Lemma insert_by_app_gt {A} (key : A -> Z) (c : Z) (x : A) (l1 l2 : list A) :
  (c < key x)%Z -> Forall (fun y => (key y <= c)%Z) l1 ->
  insert_by key x (l1 ++ l2) = l1 ++ insert_by key x l2.
Proof.
  intros Hx Hl1. induction Hl1 as [|y l1 Hy Hl1 IH]; simpl; [done|].
  destruct (Z.leb_spec (key x) (key y)); [lia|]. by rewrite IH.
Qed.

Lemma insert_by_Forall {A} (key : A -> Z) (P : A -> Prop) (x : A) (l : list A) :
  P x -> Forall P l -> Forall P (insert_by key x l).
Proof.
  intros Hx Hl. induction Hl as [|y l Hy Hl IH]; simpl.
  - by constructor.
  - destruct (key x <=? key y)%Z.
    + constructor; [done|]. by constructor.
    + by constructor.
Qed.

Lemma sort_by_Forall {A} (key : A -> Z) (P : A -> Prop) (l : list A) :
  Forall P l -> Forall P (sort_by key l).
Proof.
  induction 1; simpl; [constructor|]. by apply insert_by_Forall.
Qed.

(** Sorting by time splits at any cutoff: the rows up to the cutoff,
    sorted, then the later rows, sorted. *)
Lemma sort_by_split {A} (key : A -> Z) (c : Z) (l : list A) :
  sort_by key l
  = sort_by key (filter (fun x => (key x <= c)%Z) l)
    ++ sort_by key (filter (fun x => (c < key x)%Z) l).
Proof.
  induction l as [|x l IH]; [done|].
  rewrite !filter_cons. simpl. rewrite IH.
  destruct (decide (key x <= c)%Z) as [Hx|Hx].
  - rewrite decide_False by lia. simpl.
    apply (insert_by_app_le key c); [done|].
    apply sort_by_Forall, Forall_forall. intros y Hy.
    by apply list_elem_of_filter in Hy as [? _].
  - rewrite decide_True by lia. simpl.
    apply (insert_by_app_gt key c); [lia|].
    apply sort_by_Forall, Forall_forall. intros y Hy.
    by apply list_elem_of_filter in Hy as [? _].
Qed.

Lemma insert_by_map {A B} (f : A -> B) (key : A -> Z) (key' : B -> Z) x l :
  (forall y, key' (f y) = key y) ->
  insert_by key' (f x) (map f l) = map f (insert_by key x l).
Proof.
  intros Hk. induction l as [|y l IH]; simpl; [done|].
  rewrite !Hk. destruct (key x <=? key y)%Z; simpl; [done|]. by rewrite IH.
Qed.

Lemma sort_by_map {A B} (f : A -> B) (key : A -> Z) (key' : B -> Z) l :
  (forall y, key' (f y) = key y) ->
  sort_by key' (map f l) = map f (sort_by key l).
Proof.
  intros Hk. induction l as [|x l IH]; simpl; [done|].
  rewrite IH. by apply insert_by_map.
Qed.

Lemma length_insert_by {A} (key : A -> Z) x (l : list A) :
  length (insert_by key x l) = S (length l).
Proof.
  induction l as [|y l IH]; simpl; [done|].
  destruct (key x <=? key y)%Z; simpl; [done|]. by rewrite IH.
Qed.

Lemma length_sort_by {A} (key : A -> Z) (l : list A) :
  length (sort_by key l) = length l.
Proof. induction l; simpl; [done|]. by rewrite length_insert_by, IHl. Qed.

(** [unique_sorted] depends only on the set of values. *)
Lemma elem_of_insert_unique x y l :
  y ∈ insert_unique x l <-> y = x \/ y ∈ l.
Proof.
  induction l as [|z l IH]; simpl.
  - rewrite list_elem_of_singleton. set_solver.
  - destruct (Z.ltb_spec x z); [set_solver|].
    destruct (Z.eqb_spec x z); [set_solver|].
    rewrite !elem_of_cons, IH. tauto.
Qed.

Lemma elem_of_unique_sorted y l : y ∈ unique_sorted l <-> y ∈ l.
Proof.
  induction l as [|x l IH]; simpl; [done|].
  rewrite elem_of_insert_unique, IH. set_solver.
Qed.


Lemma insert_unique_increasing x l :
  increasing l -> increasing (insert_unique x l).
Proof.
  induction 1 as [|z l Hz Hl IH]; simpl.
  - repeat constructor.
  - destruct (Z.ltb_spec x z).
    + constructor; [|by constructor]. constructor; [done|].
      eapply Forall_impl; [exact Hz|]. simpl. intros. lia.
    + destruct (Z.eqb_spec x z); [by constructor|].
      constructor; [|done]. apply Forall_forall. intros y Hy.
      apply elem_of_insert_unique in Hy as [->|Hy]; [lia|].
      rewrite Forall_forall in Hz. by apply Hz.
Qed.

Lemma unique_sorted_increasing l : increasing (unique_sorted l).
Proof.
  induction l; simpl; [constructor|]. by apply insert_unique_increasing.
Qed.

Lemma increasing_ext l l' :
  increasing l -> increasing l' -> (forall x, x ∈ l <-> x ∈ l') -> l = l'.
Proof.
  intros Hl. revert l'. induction Hl as [|x l Hx Hl IH]; intros l' Hl' Hext.
  - destruct l' as [|y l']; [done|]. exfalso.
    apply (not_elem_of_nil y), Hext. by left.
  - destruct Hl' as [|y l' Hy Hl'].
    { exfalso. apply (not_elem_of_nil x), Hext. by left. }
    rewrite Forall_forall in Hx, Hy.
    assert (x = y) as ->.
    { assert (x ∈ y :: l') as H1 by (apply Hext; by left).
      assert (y ∈ x :: l) as H2 by (apply Hext; by left).
      apply elem_of_cons in H1 as [?|H1]; [done|].
      apply elem_of_cons in H2 as [?|H2]; [done|].
      specialize (Hx _ H2). specialize (Hy _ H1). lia. }
    f_equal. apply IH; [done|]. intros z. split; intros Hz.
    + assert (z ∈ y :: l') as H1 by (apply Hext; by right).
      apply elem_of_cons in H1 as [->|H1]; [|done].
      specialize (Hx _ Hz). lia.
    + assert (z ∈ y :: l) as H1 by (apply Hext; by right).
      apply elem_of_cons in H1 as [->|H1]; [|done].
      specialize (Hy _ Hz). lia.
Qed.

Lemma unique_sorted_ext l l' :
  (forall x, x ∈ l <-> x ∈ l') -> unique_sorted l = unique_sorted l'.
Proof.
  intros H. apply increasing_ext; try apply unique_sorted_increasing.
  intros x. by rewrite !elem_of_unique_sorted.
Qed.

Lemma elem_of_map_In {A B} (f : A -> B) (l : list A) (y : B) :
  y ∈ map f l <-> exists x, y = f x /\ x ∈ l.
Proof.
  change (map f l) with (f <$> l). apply list_elem_of_fmap.
Qed.

Lemma frame_ids_until c df :
  series_on_both_sides c df -> frame_ids (rows_until c df) = frame_ids df.
Proof.
  intros H. apply unique_sorted_ext. intros u. split.
  - intros Hu. apply elem_of_map_In in Hu as (r & -> & Hr).
    apply list_elem_of_filter in Hr as [_ Hr].
    apply elem_of_map_In. eauto.
  - intros Hu. by apply H.
Qed.

Lemma frame_ids_after c df :
  series_on_both_sides c df -> frame_ids (rows_after c df) = frame_ids df.
Proof.
  intros H. apply unique_sorted_ext. intros u. split.
  - intros Hu. apply elem_of_map_In in Hu as (r & -> & Hr).
    apply list_elem_of_filter in Hr as [_ Hr].
    apply elem_of_map_In. eauto.
  - intros Hu. by apply H.
Qed.

(** The rows of one series: those up to the cutoff, then the later
    ones. *)
Lemma group_rows_split c df u :
  group_rows row_id row_time (rows df) u
  = group_rows row_id row_time (rows (rows_until c df)) u
    ++ group_rows row_id row_time (rows (rows_after c df)) u.
Proof.
  unfold group_rows, rows_until, rows_after. simpl.
  rewrite (sort_by_split row_time c).
  rewrite !list_filter_filter. f_equal; f_equal; apply list_filter_iff;
    intros r; tauto.
Qed.

Lemma filter_map_comm {A B} (f : A -> B) (P : B -> Prop) (Q : A -> Prop)
    `{forall x, Decision (P x)} `{forall x, Decision (Q x)} (l : list A) :
  (forall x, P (f x) <-> Q x) ->
  filter P (map f l) = map f (filter Q l).
Proof.
  intros HPQ. induction l as [|x l IH]; [done|]. simpl.
  rewrite !filter_cons.
  destruct (decide (P (f x))) as [Hp|Hp], (decide (Q x)) as [Hq|Hq];
    simpl; rewrite ?IH; try done.
  - by apply HPQ in Hp.
  - by apply HPQ in Hq.
Qed.

Lemma group_rows_map (f : Row -> Row) (l : list Row) (u : Z) :
  (forall r, row_id (f r) = row_id r) ->
  (forall r, row_time (f r) = row_time r) ->
  group_rows row_id row_time (map f l) u
  = map f (group_rows row_id row_time l u).
Proof.
  intros Hid Ht. unfold group_rows.
  rewrite (filter_map_comm f _ (fun r => row_id r = u)).
  - by apply sort_by_map.
  - intros r. by rewrite Hid.
Qed.

(** The groups of a frame hold each of its rows once. *)
Lemma increasing_count (us : list Z) (x : Z) :
  increasing us -> x ∈ us -> length (filter (fun u => x = u) us) = 1.
Proof.
  induction 1 as [|u us Hlt Hinc IH]; intros Hin;
    [by apply elem_of_nil in Hin|].
  rewrite filter_cons. destruct (decide (x = u)) as [->|Hne].
  - simpl. f_equal. clear IH Hin Hinc.
    induction Hlt as [|y us Hy _ IH]; [done|].
    rewrite filter_cons. destruct (decide (u = y)); [lia|done].
  - apply IH. apply elem_of_cons in Hin as [?|?]; done.
Qed.

Lemma groups_length_cons {A} (id_of : A -> Z) (us : list Z) (r : A)
    (l : list A) :
  length (concat (map (fun u => filter (fun x => id_of x = u) (r :: l)) us))
  = length (filter (fun u => id_of r = u) us)
    + length (concat (map (fun u => filter (fun x => id_of x = u) l) us)).
Proof.
  induction us as [|u us IH]; [done|].
  cbn [map concat]. rewrite !length_app, IH, (filter_cons _ u us).
  rewrite (filter_cons _ r l).
  destruct (decide (id_of r = u)); simpl; lia.
Qed.

Lemma groups_length {A} (id_of : A -> Z) (us : list Z) (l : list A) :
  increasing us -> Forall (fun r => id_of r ∈ us) l ->
  length (concat (map (fun u => filter (fun x => id_of x = u) l) us))
  = length l.
Proof.
  intros Hinc. induction 1 as [|r l Hr _ IH].
  - clear Hinc. induction us; [done|]. exact IHus.
  - rewrite groups_length_cons, IH, (increasing_count us _ Hinc Hr). done.
Qed.

Lemma frame_groups_length df :
  length (concat (frame_groups df)) = length (rows df).
Proof.
  unfold frame_groups.
  rewrite <- (groups_length row_id (frame_ids df) (rows df)).
  - induction (frame_ids df) as [|u us IH]; [done|].
    cbn [map concat]. rewrite !length_app, IH. f_equal.
    unfold group_rows. apply length_sort_by.
  - apply unique_sorted_increasing.
  - apply Forall_forall. intros r Hr. unfold frame_ids.
    apply elem_of_unique_sorted, elem_of_map_In. by exists r.
Qed.

(** ** The factories and the invariant *)

Lemma process_df_Ok_inv df target p :
  process_df df target = Ok p ->
  target ∈ value_cols df
  /\ p_indptr p = offsets 0 (map zlength (frame_groups df))
  /\ p_data p = {| ncols := length (data_cols df target);
                   mrows := map (row_data (data_cols df target))
                                (concat (frame_groups df)) |}
  /\ p_ids p = frame_ids df
  /\ p_indptr_dtype p = offsets_dtype (Z.of_nat (length (rows df)))
  /\ (Z.of_nat (length (rows df)) <= int_max int64)%Z.
Proof.
  unfold process_df. destruct (decide _) as [Hbig|Hbig]; [discriminate|].
  destruct (decide _); [|discriminate].
  inversion 1. repeat split; try done. lia.
Qed.

Lemma offsets_dtype_fits (n : Z) :
  (n <= int_max int64)%Z -> (n <= int_max (offsets_dtype n))%Z.
Proof. intros H. unfold offsets_dtype. by destruct (decide _). Qed.

Lemma ensure_mask_nrows data cols data' cols' :
  _ensure_available_mask data cols = Ok (data', cols') ->
  nrows data' = nrows data.
Proof.
  destruct (decide ("available_mask" ∈ cols)) as [H|H].
  - rewrite ensure_mask_present by done. by inversion 1.
  - rewrite ensure_mask_absent by done. inversion 1; subst.
    unfold nrows. simpl. apply length_map.
Qed.

Lemma zlength_nonneg {A} (l : list (list A)) :
  Forall (fun n => (0 <= n)%Z) (map zlength l).
Proof. apply List.Forall_map, Forall_forall. intros. unfold zlength. lia. Qed.

Lemma from_df_ok df sdf target d ids dates ds :
  from_df df sdf target = Ok (d, ids, dates, ds) -> dataset_ok d.
Proof.
  intros H. apply from_df_Ok_inv in H as (p & data & cols & Hp & Hm & Hd).
  apply process_df_Ok_inv in Hp as (_ & Hip & Hdata & _ & Hdt & Hsize).
  apply ensure_mask_nrows in Hm.
  apply init_Ok in Hd as (Ht & _ & Hi & _ & _ & _ & _ & Hdt' & Hf).
  rewrite Hip in Hi.
  assert (nrows (temporal d) = length (rows df)) as Hrows.
  { rewrite Ht, Hm, Hdata. unfold nrows. simpl.
    by rewrite length_map, frame_groups_length. }
  assert (Z.of_nat (nrows (temporal d)) <= int_max (indptr_dtype d))%Z
    as Hfit.
  { rewrite Hdt', Hdt, Hrows. by apply offsets_dtype_fits. }
  assert (Forall (fun z => 0 <= z <= int_max (indptr_dtype d))%Z (indptr d))
    as Hrange.
  { rewrite Hi. eapply Forall_impl; [apply offsets_range|].
    - apply zlength_nonneg.
    - simpl. intros z Hz. rewrite zsum_lengths in Hz. unfold zlength in Hz.
      rewrite frame_groups_length, <- Hrows in Hz. lia. }
  assert (init_fields d) as Hfields by (by apply init_computed_fields).
  split; [done|].
  apply (invariant_intro d _ Hi).
  - apply zlength_nonneg.
  - rewrite (init_n_groups d Hfields), Hi, length_offsets. unfold zlength. lia.
  - rewrite zsum_lengths, Hrows. unfold zlength.
    by rewrite frame_groups_length.
  - done.
Qed.

Lemma produced_fits_produced d : produced_fits d -> produced d.
Proof.
  induction 1 as [df sdf target d ids dates ds H _
                 | mem s f d _ IHs _ IHf H _
                 | d0 l r d _ IH H _].
  - exact (produced_from_df _ _ _ _ _ _ _ H).
  - exact (produced_append mem s f d IHs IHf H).
  - exact (produced_trim d0 l r d IH H).
Qed.

Lemma produced_ok d : produced_fits d -> dataset_ok d.
Proof.
  induction 1 as [df sdf target d ids dates ds H _
                 | mem s f d _ IHs _ IHf H Hfit
                 | d0 l r d _ IH H Hfit].
  - by eapply from_df_ok.
  - apply (append_preserves_ok _ _ _ _ IHs IHf H).
    pose proof (append_shape _ _ _ _ H) as (_ & _ & Hrows & _).
    etrans; [|apply int_max_ge]. lia.
  - exact (trim_preserves_ok _ _ _ _ IH H Hfit).
Qed.

(** C4, as amended: every dataset produced by [from_df], [append] or
    [trim_dataset], while each dataset produced on the way, the result
    included, has at most [2^31 - 1] rows, satisfies the [indptr]
    invariant: [indptr] has [n_groups + 1] entries, starts at 0, is
    non-decreasing, ends at the number of rows of [temporal], and series
    [i] is exactly the rows from [indptr[i]] (inclusive) to
    [indptr[i + 1]] (exclusive). *)
Theorem produced_indptr_invariant (d : TimeSeriesDataset) :
  produced_fits d ->
  zlength (indptr d) = (n_groups d + 1)%Z
  /\ head (indptr d) = Some 0%Z
  /\ (forall i a b, indptr d !! i = Some a -> indptr d !! S i = Some b ->
                    (a <= b)%Z)
  /\ last (indptr d) = Some (Z.of_nat (nrows (temporal d)))
  /\ (forall i a b, indptr d !! i = Some a -> indptr d !! S i = Some b ->
        series d i = take (Z.to_nat (b - a))
                          (drop (Z.to_nat a) (mrows (temporal d)))
        /\ zlength (series d i) = (b - a)%Z)
  /\ mrows (temporal d)
     = concat (map (series d) (seq 0 (Z.to_nat (n_groups d)))).
Proof.
  intros H. apply produced_ok in H as [Hinit Hinv].
  split; [exact (inv_length d Hinv)|]. split; [exact (inv_first d Hinv)|].
  split; [exact (inv_mono d Hinv)|]. split; [exact (inv_last d Hinv)|].
  split; [exact (inv_series d Hinv)|].
  destruct (invariant_segments d Hinv) as (Hrows & Hip & Hn).
  rewrite Hrows at 1. f_equal.
  apply list_eq. intros i.
  change (map (series d) (seq 0 (Z.to_nat (n_groups d))))
    with (series d <$> seq 0 (Z.to_nat (n_groups d))).
  rewrite list_lookup_fmap.
  destruct (decide (i < length (segments d))) as [Hi|Hi].
  - destruct (lookup_lt_is_Some_2 (segments d) i Hi) as [s Hs].
    rewrite Hs, lookup_seq_lt by (unfold zlength in Hn; lia). simpl.
    f_equal. symmetry. by apply (series_of_segments d (segments d)).
  - rewrite lookup_ge_None_2 by lia.
    rewrite lookup_seq_ge by (unfold zlength in Hn; lia). done.
Qed.

(** ** Raising and mutation *)

Lemma result_map_raises {A B} (f : A -> B) (r : result A) :
  raises (result_map f r) <-> raises r.
Proof.
  unfold raises. destruct r as [a|e]; simpl.
  - split; intros [e H]; discriminate.
  - split; intros _; eauto.
Qed.

Lemma trim_raises_iff_guard d l r :
  dataset_ok d -> (0 <= l)%Z -> (0 <= r)%Z ->
  raises (trim_dataset d l r) <-> (min_size d <= l + r)%Z.
Proof.
  intros Hok Hl Hr. split.
  - intros [e He].
    destruct (Z.leb_spec (min_size d) (l + r)) as [Hg|Hg]; [done|].
    destruct (trim_dataset_segments d l r Hok Hl Hr Hg) as (d' & Hd' & _).
    congruence.
  - intros Hg. exists Exception. by apply trim_dataset_guard.
Qed.

(** C6, as amended: with non-negative trims on a consistent dataset,
    [trim_dataset] raises exactly when [min_size <= left_trim +
    right_trim], and then the store is left as it was; with any trims,
    a call that raises allocates no dataset and leaves every existing
    dataset, the input included, unchanged. *)
Theorem trim_dataset_raises (h : Store.store) (ref : nat)
    (d : TimeSeriesDataset) (left_trim right_trim : Z) :
  Store.deref h ref = Some d ->
  (dataset_ok d -> (0 <= left_trim)%Z -> (0 <= right_trim)%Z ->
   (raises (Store.trim_dataset ref left_trim right_trim h).1
    <-> (min_size d <= left_trim + right_trim)%Z)
   /\ (raises (Store.trim_dataset ref left_trim right_trim h).1 ->
       (Store.trim_dataset ref left_trim right_trim h).2 = h))
  /\ (raises (Store.trim_dataset ref left_trim right_trim h).1 ->
      Store.objects (Store.trim_dataset ref left_trim right_trim h).2
      = Store.objects h
      /\ forall a d0, Store.deref h a = Some d0 ->
           Store.deref (Store.trim_dataset ref left_trim right_trim h).2 a
           = Some d0).
Proof.
  intros Hd.
  destruct (trim_sim h ref d left_trim right_trim Hd)
    as (h' & Hp & Hrun & _ & Hraise & Hguard).
  rewrite Hrun. simpl. rewrite result_map_raises. split.
  - intros Hok Hl Hr. pose proof (trim_raises_iff_guard d _ _ Hok Hl Hr) as Hiff.
    split; [done|]. intros H. apply Hguard. by apply Hiff.
  - intros [e He]. split; [by eapply Hraise|].
    intros a d0 Ha. by eapply preserved_deref.
Qed.

Lemma append_ignores_updated mem s f b :
  append mem (set_updated b s) f = append mem s f
  /\ append mem s (set_updated b f) = append mem s f.
Proof. done. Qed.

Lemma trim_ignores_updated d l r b :
  trim_dataset (set_updated b d) l r = trim_dataset d l r.
Proof. done. Qed.

Lemma promote_r (a b : int_dtype) : promote (promote a b) b = promote a b.
Proof. by destruct a, b. Qed.

Lemma append_times_total mem futr n :
  forall d,
  dataset_ok d -> dataset_ok futr ->
  length (indptr d) = length (indptr futr) ->
  ncols (temporal d) = ncols (temporal futr) ->
  (Z.of_nat (nrows (temporal d))
   + Z.of_nat n * Z.of_nat (nrows (temporal futr))
   <= int_max (promote (indptr_dtype d) (indptr_dtype futr)))%Z ->
  exists d', append_times mem futr n d = Ok d'.
Proof.
  induction n as [|n IH]; intros d Hok Hokf Hlen Hcols Hfit.
  - by exists d.
  - assert (Z.of_nat (nrows (temporal d)) + Z.of_nat (nrows (temporal futr))
            <= int_max (promote (indptr_dtype d) (indptr_dtype futr)))%Z
      as Hfit1 by nia.
    simpl. destruct (append_segments mem d futr Hok Hokf Hlen Hcols Hfit1)
      as (d1 & Hd1 & _).
    rewrite Hd1, bind_Ok_l.
    pose proof (append_preserves_ok _ _ _ _ Hok Hokf Hd1 Hfit1) as Hok1.
    pose proof (append_shape _ _ _ _ Hd1)
      as (_ & Hip & Hrows & Hc & _ & _ & _ & _ & _ & Hdt & _).
    apply (IH d1 Hok1 Hokf).
    + rewrite Hip, length_zip_with. lia.
    + congruence.
    + rewrite Hdt, promote_r, Hrows. nia.
Qed.

(** C9, as amended: [append] and [trim_dataset] leave every existing
    dataset, their inputs included, with all its fields unchanged, and
    return a fresh object; the [updated] flag is neither read nor set,
    so that [append] of a consistent [futr] with the same [indptr] size
    and columns can be applied to a consistent dataset [n] times, for
    every [n] for which the rows of the dataset and [n] times those of
    [futr] are at most the largest value of the integer type of the
    summed [indptr]. *)
Theorem append_trim_do_not_mutate :
  (forall mem h sref fref s f,
      Store.deref h sref = Some s -> Store.deref h fref = Some f ->
      (forall a d, Store.deref h a = Some d ->
                   Store.deref (Store.append mem sref fref h).2 a = Some d)
      /\ forall o, (Store.append mem sref fref h).1 = Ok o ->
           Store.objects h !! o = None /\ o <> sref /\ o <> fref
           /\ exists d', Store.deref (Store.append mem sref fref h).2 o = Some d'
                         /\ append mem s f = Ok d' /\ updated d' = false)
  /\ (forall h ref d left_trim right_trim,
      Store.deref h ref = Some d ->
      (forall a d0, Store.deref h a = Some d0 ->
         Store.deref (Store.trim_dataset ref left_trim right_trim h).2 a
         = Some d0)
      /\ forall o, (Store.trim_dataset ref left_trim right_trim h).1 = Ok o ->
           Store.objects h !! o = None /\ o <> ref
           /\ exists d',
                Store.deref (Store.trim_dataset ref left_trim right_trim h).2 o
                = Some d'
                /\ trim_dataset d left_trim right_trim = Ok d'
                /\ updated d' = false)
  /\ (forall mem s f b,
      append mem (set_updated b s) f = append mem s f
      /\ append mem s (set_updated b f) = append mem s f)
  /\ (forall d left_trim right_trim b,
      trim_dataset (set_updated b d) left_trim right_trim
      = trim_dataset d left_trim right_trim)
  /\ (forall mem d futr n,
      dataset_ok d -> dataset_ok futr ->
      length (indptr d) = length (indptr futr) ->
      ncols (temporal d) = ncols (temporal futr) ->
      (Z.of_nat (nrows (temporal d))
       + Z.of_nat n * Z.of_nat (nrows (temporal futr))
       <= int_max (promote (indptr_dtype d) (indptr_dtype futr)))%Z ->
      exists d', append_times mem futr n d = Ok d').
Proof.
  split; [|split; [|split; [|split]]].
  - intros mem h sref fref s f Hs Hf.
    destruct (append_sim mem h sref fref s f Hs Hf)
      as (h' & Hp & Hrun & Hok & _).
    rewrite Hrun. simpl. split.
    + intros a d Ha. by eapply preserved_deref.
    + intros o Ho. destruct (append mem s f) as [d'|e] eqn:Hd'; [|done].
      simpl in Ho. injection Ho as <-.
      destruct (Hok d' eq_refl) as [Hderef _].
      assert (Store.objects h !! length (Store.objects h) = None) as Hnone
        by (by apply lookup_ge_None_2).
      split; [done|].
      destruct (deref_inv _ _ _ Hs) as (so & Hso & _).
      destruct (deref_inv _ _ _ Hf) as (fo & Hfo & _).
      split; [intros Heq; rewrite Heq in Hnone; congruence|].
      split; [intros Heq; rewrite Heq in Hnone; congruence|].
      exists d'. split; [done|]. split; [done|].
      by apply append_shape in Hd' as (_ & _ & _ & _ & _ & _ & _ & _ & ? & _).
  - intros h ref d l r Hd.
    destruct (trim_sim h ref d l r Hd) as (h' & Hp & Hrun & Hok & _).
    rewrite Hrun. simpl. split.
    + intros a d0 Ha. by eapply preserved_deref.
    + intros o Ho. destruct (trim_dataset d l r) as [d'|e] eqn:Hd'; [|done].
      simpl in Ho. injection Ho as <-.
      destruct (Hok d' eq_refl) as [Hderef _].
      assert (Store.objects h !! length (Store.objects h) = None) as Hnone
        by (by apply lookup_ge_None_2).
      split; [done|].
      destruct (deref_inv _ _ _ Hd) as (so & Hso & _).
      split; [intros Heq; rewrite Heq in Hnone; congruence|].
      exists d'. split; [done|]. split; [done|].
      unfold trim_dataset in Hd'.
      destruct (_ <=? _)%Z; [discriminate|].
      apply bind_Ok in Hd' as (? & _ & Hd'). apply bind_Ok in Hd' as ([[? ?] ?] & _ & Hd').
      by apply init_Ok in Hd' as (_ & _ & _ & _ & _ & _ & ? & _).
  - intros. apply append_ignores_updated.
  - intros. apply trim_ignores_updated.
  - intros mem d futr n Hok Hokf Hlen Hcols Hfit.
    exact (append_times_total mem futr n d Hok Hokf Hlen Hcols Hfit).
Qed.

(** ** [from_df] and [align] in closed form *)

Lemma frame_groups_nonempty df : rows df <> [] -> frame_groups df <> [].
Proof.
  intros H. unfold frame_groups, frame_ids.
  destruct (rows df) as [|r l]; [done|].
  assert (row_id r ∈ unique_sorted (map row_id (r :: l))) as Hin.
  { apply elem_of_unique_sorted. by left. }
  destruct (unique_sorted _); [by apply not_elem_of_nil in Hin|done].
Qed.

Lemma ensure_mask_run (cols : list string) (l : list Row) :
  _ensure_available_mask
    {| ncols := length cols; mrows := map (row_data cols) l |} cols
  = Ok ({| ncols := length (temporal_names cols);
           mrows := map (temporal_row cols) l |}, temporal_names cols).
Proof.
  unfold temporal_names, temporal_row.
  destruct (decide ("available_mask" ∈ cols)) as [H|H].
  - rewrite ensure_mask_present by done. rewrite !app_nil_r.
    do 3 f_equal. apply map_ext. intros. by rewrite app_nil_r.
  - rewrite ensure_mask_absent by done. simpl. rewrite length_app. simpl.
    by rewrite map_map.
Qed.

(** [from_df] on a frame that has rows and the target column. *)
Lemma from_df_run df sdf target :
  target ∈ value_cols df -> rows df <> [] ->
  (Z.of_nat (length (rows df)) <= int_max int64)%Z ->
  exists d ids dates ds,
    from_df df sdf target = Ok (d, ids, dates, ds)
    /\ temporal d
       = {| ncols := length (temporal_names (data_cols df target));
            mrows := map (temporal_row (data_cols df target))
                         (concat (frame_groups df)) |}
    /\ indptr d = offsets 0 (map zlength (frame_groups df))
    /\ temporal_cols d = temporal_names (data_cols df target)
    /\ static d = (_extract_static_features sdf).1
    /\ static_cols d = (_extract_static_features sdf).2
    /\ y_idx d = 0%Z
    /\ indptr_dtype d = offsets_dtype (Z.of_nat (length (rows df)))
    /\ nrows (temporal d) = length (rows df).
Proof.
  intros Ht Hne Hsize. unfold from_df.
  destruct (_extract_static_features sdf) as [st sc] eqn:Hs.
  unfold process_df. rewrite decide_False by lia.
  rewrite decide_True by done. rewrite bind_Ok_l.
  cbn [p_data p_indptr p_indptr_dtype p_ids p_times p_sort_idxs].
  rewrite ensure_mask_run, bind_Ok_l.
  destruct (init_total
              {| ncols := length (temporal_names (data_cols df target));
                 mrows := map (temporal_row (data_cols df target))
                              (concat (frame_groups df)) |}
              (temporal_names (data_cols df target))
              (offsets 0 (map zlength (frame_groups df)))
              (offsets_dtype (Z.of_nat (length (rows df)))) 0 st sc)
    as [d Hd].
  { rewrite length_offsets, length_map.
    pose proof (frame_groups_nonempty df Hne).
    destruct (frame_groups df); [done|simpl; lia]. }
  rewrite Hd, bind_Ok_l.
  apply init_Ok in Hd as (H1 & H2 & H3 & H4 & H5 & H6 & _ & H7 & _).
  eexists d, _, _, _. split; [reflexivity|]. simpl.
  do 7 (split; [done|]). rewrite H1. unfold nrows. simpl.
  by rewrite length_map, frame_groups_length.
Qed.

Lemma length_rows_split c df :
  length (rows (rows_until c df)) + length (rows (rows_after c df))
  = length (rows df).
Proof.
  unfold rows_until, rows_after. simpl.
  induction (rows df) as [|r l IH]; [done|].
  rewrite !filter_cons.
  destruct (decide (row_time r <= c)%Z), (decide (c < row_time r)%Z);
    simpl; lia.
Qed.

Lemma mark_available_idemp r : mark_available (mark_available r) = mark_available r.
Proof. unfold mark_available. simpl. by rewrite insert_insert_eq. Qed.

Lemma row_get_mark r c :
  row_get (mark_available r) c
  = if decide (c = "available_mask") then f32_one else row_get r c.
Proof.
  unfold row_get, mark_available. simpl. destruct (decide _) as [->|Hc].
  - by rewrite lookup_insert_eq.
  - by rewrite lookup_insert_ne.
Qed.

(** The loop of [align]: the frame keeps its columns, gains every column
    it is asked for, and a mask column visited is set to 1. *)
Lemma align_loop (rows0 : list Row) (vc0 : list string) (cs : list string) :
  forall (seen : list string) (b : bool) (df : DataFrame),
  rows df = map (mark_if b) rows0 ->
  (forall c, c ∈ vc0 \/ c ∈ seen -> c ∈ value_cols df) ->
  ("available_mask" ∈ seen -> b = true) ->
  (forall c, c ∈ cs -> c ∈ vc0 \/ c = "available_mask") ->
  exists b',
    rows (foldl align_col df cs)
    = map (mark_if b') rows0
    /\ (forall c, c ∈ vc0 \/ c ∈ seen \/ c ∈ cs ->
                  c ∈ value_cols (foldl align_col df cs))
    /\ ("available_mask" ∈ seen \/ "available_mask" ∈ cs -> b' = true).
Proof.
  induction cs as [|c cs IH]; intros seen b df Hrows Hcols Hb Hcs.
  - exists b. simpl. split; [done|]. split.
    + intros c [?|[?|Hc]]; [by apply Hcols; left|by apply Hcols; right|].
      by apply not_elem_of_nil in Hc.
    + intros [?|Hc]; [by apply Hb|]. by apply not_elem_of_nil in Hc.
  - simpl.
    assert (exists b1,
      rows (align_col df c) = map (mark_if b1) rows0
      /\ (forall x, x ∈ vc0 \/ x ∈ c :: seen -> x ∈ value_cols (align_col df c))
      /\ ("available_mask" ∈ c :: seen -> b1 = true)) as (b1 & H1 & H2 & H3).
    { unfold align_col.
      destruct (decide (c ∉ value_cols df)) as [Hnew|Hold].
      - assert (c = "available_mask") as ->.
        { destruct (Hcs c) as [Hc|Hc]; [by left| |done].
          exfalso. apply Hnew, Hcols. by left. }
        rewrite decide_True by done. exists true.
        unfold assign_columns. cbn [rows value_cols].
        split; [|split; [|done]].
        + rewrite Hrows, !map_map. apply map_ext. intros r.
          destruct b; unfold mark_if, mark_available; simpl; f_equal;
            by rewrite !insert_insert_eq.
        + intros x Hx. rewrite decide_True.
          2:{ rewrite decide_False by done. apply elem_of_app. right.
              by apply list_elem_of_singleton. }
          rewrite decide_False by done. apply elem_of_app.
          destruct Hx as [Hx|Hx]; [left; apply Hcols; by left|].
          apply elem_of_cons in Hx as [->|Hx];
            [right; by apply list_elem_of_singleton|].
          left. apply Hcols. by right.
      - apply dec_stable in Hold.
        destruct (decide (c = "available_mask")) as [->|Hc].
        + exists true. unfold assign_columns. cbn [rows value_cols].
          rewrite decide_True by done. split; [|split; [|done]].
          * rewrite Hrows, !map_map. apply map_ext. intros r.
            destruct b; unfold mark_if, mark_available; simpl; f_equal;
              by rewrite ?insert_insert_eq.
          * intros x [Hx|Hx]; [apply Hcols; by left|].
            apply elem_of_cons in Hx as [->|Hx]; [done|].
            apply Hcols. by right.
        + exists b. split; [done|]. split.
          * intros x [Hx|Hx]; [apply Hcols; by left|].
            apply elem_of_cons in Hx as [->|Hx]; [done|].
            apply Hcols. by right.
          * intros Hm. apply elem_of_cons in Hm as [?|Hm]; [done|].
            by apply Hb. }
    destruct (IH (c :: seen) b1 (align_col df c) H1 H2 H3)
      as (b' & H1' & H2' & H3').
    { intros x Hx. apply Hcs. by right. }
    exists b'. split; [done|]. split.
    + intros x [Hx|[Hx|Hx]]; apply H2'.
      * by left.
      * right. left. by right.
      * apply elem_of_cons in Hx as [->|Hx]; [right; left; by left|].
        right. by right.
    + intros [Hm|Hm]; apply H3'.
      * left. by right.
      * apply elem_of_cons in Hm as [Hm|Hm]; [left; rewrite Hm; by left|].
        by right.
Qed.

Lemma mask_in_temporal_names cols : "available_mask" ∈ temporal_names cols.
Proof.
  unfold temporal_names. destruct (decide _).
  - by rewrite app_nil_r.
  - apply elem_of_app. right. by apply list_elem_of_singleton.
Qed.

Lemma temporal_names_fixed cols :
  "available_mask" ∈ cols -> temporal_names cols = cols.
Proof.
  intros H. unfold temporal_names. rewrite decide_True by done.
  apply app_nil_r.
Qed.

Lemma temporal_row_fixed cols r :
  "available_mask" ∈ cols -> temporal_row cols r = row_data cols r.
Proof.
  intros H. unfold temporal_row. rewrite decide_True by done.
  apply app_nil_r.
Qed.

Lemma data_cols_subset df target c :
  target ∈ value_cols df -> c ∈ data_cols df target -> c ∈ value_cols df.
Proof.
  intros Ht Hc. unfold data_cols in Hc.
  apply elem_of_cons in Hc as [->|Hc]; [done|].
  by apply list_elem_of_filter in Hc as [_ ?].
Qed.

Lemma data_cols_fixed df target rows' :
  data_cols {| value_cols := temporal_names (data_cols df target);
               rows := rows' |} target
  = temporal_names (data_cols df target).
Proof.
  unfold data_cols at 1. cbn [value_cols]. unfold temporal_names.
  rewrite filter_app. unfold data_cols at 1.
  rewrite filter_cons_False by (intros H; by apply H).
  rewrite list_filter_filter.
  rewrite (list_filter_iff _ (fun c => c ≠ target)) by (intros; tauto).
  change (target :: filter (fun c => c ≠ target) (value_cols df))
    with (data_cols df target).
  destruct (decide ("available_mask" ∈ data_cols df target)) as [H|H].
  - by rewrite filter_nil.
  - rewrite filter_cons_True; [done|]. intros Heq. apply H. rewrite Heq. by left.
Qed.

Lemma align_run d1 df2 target :
  temporal_cols d1 = temporal_names (data_cols df2 target) ->
  target ∈ value_cols df2 ->
  align d1 df2 target
  = (r ← from_df {| value_cols := temporal_names (data_cols df2 target);
                    rows := map mark_available (rows df2) |} None target;
     Ok r.1.1.1).
Proof.
  intros Htc Ht. unfold align. rewrite Htc.
  destruct (align_loop (rows df2) (value_cols df2)
              (temporal_names (data_cols df2 target)) [] false df2)
    as (b' & Hrows & Hcols & Hb).
  { unfold mark_if. by rewrite map_id. }
  { intros c [Hc|Hc]; [done|]. by apply not_elem_of_nil in Hc. }
  { intros Hc. by apply not_elem_of_nil in Hc. }
  { intros c Hc. unfold temporal_names in Hc.
    apply elem_of_app in Hc as [Hc|Hc].
    - left. by eapply data_cols_subset.
    - destruct (decide _); [by apply not_elem_of_nil in Hc|].
      right. by apply list_elem_of_singleton in Hc. }
  rewrite Hb in Hrows by (right; apply mask_in_temporal_names).
  unfold select_columns. rewrite decide_True.
  2:{ apply Forall_forall. intros c Hc. apply Hcols. by right; right. }
  rewrite bind_Ok_l, Hrows. done.
Qed.

Lemma frame_groups_mark vc vc' (l : list Row) :
  frame_groups {| value_cols := vc; rows := map mark_available l |}
  = map (map mark_available) (frame_groups {| value_cols := vc'; rows := l |}).
Proof.
  unfold frame_groups, frame_ids. cbn [rows].
  rewrite map_map. cbn [mark_available row_id].
  rewrite map_map. apply map_ext. intros u. by apply group_rows_map.
Qed.

Lemma chunks_concat {A} (segs : list (list A)) :
  chunks (map length segs) (concat segs) = segs.
Proof.
  induction segs as [|s segs IH]; simpl; [done|].
  by rewrite take_app_length, drop_app_length, IH.
Qed.

Lemma segments_of_concat d (segs : list (list (list float32))) :
  mrows (temporal d) = concat segs ->
  indptr d = offsets 0 (map zlength segs) ->
  segments d = segs.
Proof.
  intros Hr Hi. unfold segments. rewrite Hr, Hi, differences_offsets.
  rewrite map_map. unfold zlength.
  rewrite (map_ext _ length) by (intros; lia). apply chunks_concat.
Qed.

Lemma concat_map_map {A B} (f : A -> B) (l : list (list A)) :
  concat (map (map f) l) = map f (concat l).
Proof. induction l; simpl; [done|]. by rewrite map_app, IHl. Qed.

Lemma map_ext_elem {A B} (f g : A -> B) (l : list A) :
  (forall x, x ∈ l -> f x = g x) -> map f l = map g l.
Proof.
  intros H. apply map_ext_in. intros x Hx. apply H. by apply list_elem_of_In.
Qed.

Lemma temporal_row_mark cols r :
  ("available_mask" ∈ cols -> row_get r "available_mask" = f32_one) ->
  temporal_row (temporal_names cols) (mark_available r) = temporal_row cols r.
Proof.
  intros H. rewrite temporal_row_fixed by apply mask_in_temporal_names.
  unfold temporal_names, temporal_row, row_data.
  destruct (decide ("available_mask" ∈ cols)) as [Hin|Hin].
  - rewrite !app_nil_r. apply map_ext_elem. intros c Hc.
    rewrite row_get_mark. destruct (decide _) as [->|]; [|done].
    symmetry. by apply H.
  - rewrite map_app. simpl. rewrite row_get_mark, decide_True by done.
    f_equal. apply map_ext_elem. intros c Hc.
    rewrite row_get_mark, decide_False; [done|]. by intros ->.
Qed.

Lemma group_rows_elem {A} (id_of time_of : A -> Z) (l : list A) u x :
  x ∈ group_rows id_of time_of l u -> x ∈ l.
Proof.
  intros Hx. unfold group_rows in Hx.
  assert (Forall (fun y => y ∈ l) (sort_by time_of (filter (fun r => id_of r = u) l)))
    as Hall.
  { apply sort_by_Forall, Forall_forall. intros y Hy.
    by apply list_elem_of_filter in Hy as [_ ?]. }
  rewrite Forall_forall in Hall. by apply Hall.
Qed.

Lemma zip_with_map_same {A B C D} (f : B -> C -> D) (g1 : A -> B) (g2 : A -> C)
    (l : list A) :
  zip_with f (map g1 l) (map g2 l) = map (fun x => f (g1 x) (g2 x)) l.
Proof. induction l; simpl; [done|]. by f_equal. Qed.

Lemma rows_nonempty_both c df :
  rows df <> [] -> series_on_both_sides c df ->
  rows (rows_until c df) <> [] /\ rows (rows_after c df) <> [].
Proof.
  intros Hne Hboth. destruct (rows df) as [|r l] eqn:E; [done|].
  destruct (Hboth (row_id r)) as [H1 H2].
  { rewrite E. by left. }
  split; intros Hnil.
  - rewrite Hnil in H1. by apply not_elem_of_nil in H1.
  - rewrite Hnil in H2. by apply not_elem_of_nil in H2.
Qed.

(** C5, as amended: split a frame that has rows (at most [2^31 - 1] of
    them) and the target column at a time cutoff so that every series has
    rows on both sides; if the later part holds 1 in its
    ['available_mask'] column (or the frame has no such column), then
    [from_df] on the earlier part followed by [update_dataset] with the
    later part gives the [temporal], [indptr] and [max_size] of [from_df]
    on the whole frame. *)
Theorem update_dataset_roundtrip (mem : nat -> float32) (df : DataFrame)
    (sdf : option StaticFrame) (target : string) (c : Z) :
  target ∈ value_cols df ->
  rows df <> [] ->
  (Z.of_nat (length (rows df)) <= int_max int32)%Z ->
  series_on_both_sides c df ->
  mask_is_one_after c df ->
  exists d1 ids1 dates1 ds1 d dfull ids dates ds,
    from_df (rows_until c df) sdf target = Ok (d1, ids1, dates1, ds1)
    /\ update_dataset mem d1 (rows_after c df) target = Ok d
    /\ from_df df sdf target = Ok (dfull, ids, dates, ds)
    /\ temporal d = temporal dfull
    /\ indptr d = indptr dfull
    /\ max_size d = max_size dfull.
Proof.
  intros Ht Hne Hsize Hboth Hmask.
  destruct (rows_nonempty_both c df Hne Hboth) as [Hne1 Hne2].
  pose proof (length_rows_split c df) as Hsplit.
  pose proof int_max_int32 as H32. pose proof int_max_int64 as H64.
  set (cols0 := data_cols df target).
  destruct (from_df_run (rows_until c df) sdf target Ht Hne1)
    as (d1 & ids1 & dates1 & ds1 & Hd1 & Ht1 & Hi1 & Hc1 & _ & _ & _
        & Hdt1 & Hn1); [lia|].
  destruct (from_df_run df sdf target Ht Hne)
    as (dfull & ids & dates & ds & Hdf & Htf & Hif & _); [lia|].
  change (data_cols (rows_until c df) target) with cols0 in *.
  fold cols0 in Htf.
  set (A := {| value_cols := temporal_names cols0;
               rows := map mark_available (rows (rows_after c df)) |}).
  destruct (from_df_run A None target)
    as (fu & ? & ? & ? & Hfu & Htu & Hiu & _ & _ & _ & _ & Hdtu & Hnu).
  { cbn [A value_cols]. unfold temporal_names. apply elem_of_app. left.
    by left. }
  { cbn [A rows]. intros Hnil. apply Hne2. by apply map_eq_nil in Hnil. }
  { cbn [A rows]. rewrite length_map. lia. }
  cbn [A rows] in Hdtu, Hnu. rewrite length_map in Hdtu, Hnu.
  assert (Z.of_nat (nrows (temporal d1)) + Z.of_nat (nrows (temporal fu))
          <= int_max (promote (indptr_dtype d1) (indptr_dtype fu)))%Z
    as Hfit.
  { rewrite Hn1, Hnu. etrans; [|apply int_max_promote_l].
    etrans; [|apply int_max_ge]. lia. }
  assert (data_cols A target = temporal_names cols0) as HcA
    by apply data_cols_fixed.
  rewrite HcA in Htu.
  rewrite (temporal_names_fixed (temporal_names cols0)) in Htu
    by apply mask_in_temporal_names.
  assert (frame_groups A
          = map (map mark_available) (frame_groups (rows_after c df))) as HgA
    by apply frame_groups_mark.
  rewrite HgA in Htu, Hiu.
  (* the three frames have the same ids *)
  pose proof (frame_ids_until c df Hboth) as Hids1.
  pose proof (frame_ids_after c df Hboth) as Hids2.
  unfold frame_groups in Ht1, Hi1, Htu, Hiu, Htf, Hif.
  rewrite Hids1 in Ht1, Hi1. rewrite Hids2 in Htu, Hiu.
  set (G := group_rows row_id row_time (rows df)) in *.
  set (G1 := group_rows row_id row_time (rows (rows_until c df))) in *.
  set (G2 := group_rows row_id row_time (rows (rows_after c df))) in *.
  (* the segments of the two parts *)
  set (segs1 := map (fun u => map (temporal_row cols0) (G1 u)) (frame_ids df)).
  set (segs2 := map (fun u => map (temporal_row cols0) (G2 u)) (frame_ids df)).
  assert (mrows (temporal d1) = concat segs1) as Hr1.
  { rewrite Ht1. cbn [mrows]. unfold segs1.
    rewrite <- (map_map G1 (map (temporal_row cols0))).
    by rewrite concat_map_map. }
  assert (indptr d1 = offsets 0 (map zlength segs1)) as Hip1.
  { rewrite Hi1. unfold segs1. rewrite !map_map. f_equal.
    apply map_ext. intros u. unfold zlength. by rewrite length_map. }
  assert (mrows (temporal fu) = concat segs2) as Hr2.
  { rewrite Htu. cbn [mrows]. unfold segs2.
    rewrite <- (map_map G2 (map (temporal_row cols0))).
    rewrite concat_map_map, <- !concat_map_map, !map_map.
    f_equal. apply map_ext. intros u. rewrite map_map.
    apply map_ext_elem. intros r Hr. apply temporal_row_mark.
    intros Hin. apply group_rows_elem in Hr.
    apply list_elem_of_filter in Hr as [Hlt Hr].
    apply Hmask; [|done|done].
    by apply (data_cols_subset df target). }
  assert (indptr fu = offsets 0 (map zlength segs2)) as Hip2.
  { rewrite Hiu. unfold segs2. rewrite !map_map. f_equal.
    apply map_ext. intros u. unfold zlength. by rewrite !length_map. }
  pose proof (from_df_ok _ _ _ _ _ _ _ Hd1) as Hok1.
  pose proof (from_df_ok _ _ _ _ _ _ _ Hfu) as Hok2.
  destruct (append_segments mem d1 fu Hok1 Hok2) as (d & Hd & Hrd & Hid).
  { rewrite Hip1, Hip2, !length_offsets. unfold segs1, segs2.
    by rewrite !length_map. }
  { by rewrite Ht1, Htu. }
  { done. }
  rewrite (segments_of_concat d1 segs1), (segments_of_concat fu segs2)
    in Hrd, Hid by done.
  assert (zip_with app segs1 segs2
          = map (map (temporal_row cols0)) (map G (frame_ids df))) as Hzip.
  { unfold segs1, segs2. rewrite zip_with_map_same, map_map.
    apply map_ext. intros u. rewrite <- map_app. f_equal.
    symmetry. apply group_rows_split. }
  rewrite Hzip in Hrd, Hid.
  exists d1, ids1, dates1, ds1, d, dfull, ids, dates, ds.
  split; [done|]. split.
  { unfold update_dataset. rewrite align_run; [|by rewrite Hc1|done].
    change (from_df _ None target) with (from_df A None target).
    rewrite Hfu, !bind_Ok_l. done. }
  split; [done|].
  pose proof (append_shape _ _ _ _ Hd)
    as (_ & _ & _ & Hnc & _ & _ & _ & _ & _ & Hfd).
  assert (indptr d = indptr dfull) as Hieq.
  { rewrite Hid, Hif. f_equal. rewrite map_map. apply map_ext. intros g.
    unfold zlength. by rewrite length_map. }
  split; [|split; [done|]].
  - destruct (temporal d) as [nc rw] eqn:Etd. simpl in *.
    rewrite Htf. f_equal.
    + rewrite Hnc, Ht1. done.
    + rewrite Hrd. apply concat_map_map.
  - pose proof (from_df_ok _ _ _ _ _ _ _ Hdf) as [Hff _].
    destruct (append_exact _ _ _ _ Hok1 Hok2 Hd Hfit) as [_ [Hfd' _]].
    pose proof (init_max_size d Hfd') as Hm1.
    pose proof (init_max_size dfull Hff) as Hm2.
    rewrite Hieq in Hm1. congruence.
Qed.

Lemma from_df_aligned df sdf target d ids dates ds :
  from_df df sdf target = Ok (d, ids, dates, ds) ->
  ncols (temporal d) = length (temporal_cols d).
Proof.
  intros H. apply from_df_Ok_inv in H as (p & data & cols & Hp & Hm & Hd).
  apply process_df_Ok_inv in Hp as (_ & _ & Hdata & _).
  apply init_Ok in Hd as (-> & -> & _).
  rewrite Hdata, ensure_mask_run in Hm. inversion Hm; subst. done.
Qed.

Lemma produced_aligned d :
  produced_fits d -> ncols (temporal d) = length (temporal_cols d).
Proof.
  induction 1 as [df sdf target d ids dates ds H _
                 | mem s f d _ IHs _ IHf H _
                 | d0 l r d Hd0 IH H _].
  - by eapply from_df_aligned.
  - apply append_shape in H as (_ & _ & _ & -> & -> & _). done.
  - apply trim_dataset_shape in H as (_ & _ & _ & -> & -> & _);
      [done|by apply produced_ok].
Qed.

(** ** Worked examples *)

Lemma sample_from_df :
  from_df sample_frame None "y"
  = Ok (sample_dataset, [1; 2]%Z, [2; 2]%Z, [1; 2; 1; 2]%Z).
Proof. vm_compute. reflexivity. Qed.

Lemma sample_from_df_exog :
  from_df sample_frame_exog None "y"
  = Ok (sample_dataset_exog, [1; 2]%Z, [2; 2]%Z, [1; 2; 1; 2]%Z).
Proof. vm_compute. reflexivity. Qed.

Lemma sample_from_df_short_static :
  from_df sample_frame (Some sample_static_short) "y"
  = Ok (sample_dataset_short_static, [1; 2]%Z, [2; 2]%Z, [1; 2; 1; 2]%Z).
Proof. vm_compute. reflexivity. Qed.

Lemma sample_dataset_ok : dataset_ok sample_dataset.
Proof. exact (from_df_ok _ _ _ _ _ _ _ sample_from_df). Qed.

Lemma sample_nonempty_series : nonempty_series sample_dataset.
Proof. unfold nonempty_series. simpl. repeat constructor. Qed.

Lemma sample_on_both_sides (df : DataFrame) (c : Z) (ids : list Z) :
  map row_id (rows df) = ids ->
  Forall (fun u => u ∈ map row_id (rows (rows_until c df))
                   /\ u ∈ map row_id (rows (rows_after c df))) ids ->
  series_on_both_sides c df.
Proof.
  intros <- H u Hu. rewrite Forall_forall in H. by apply H.
Qed.

(** C1 at the first group of the sample: the item is the series itself,
    transposed. *)
Lemma getitem_left_padded_witness :
  exists item t a b,
    __getitem__ sample_dataset (IdxInt 0) = Ok item
    /\ item !! "temporal" = Some (LTensor (Arr2 t))
    /\ shape (Arr2 t) = [length (temporal_cols sample_dataset);
                         Z.to_nat (max_size sample_dataset)]
    /\ np_getitem (indptr sample_dataset) 0 = Ok a
    /\ np_getitem (indptr sample_dataset) (0 + 1) = Ok b
    /\ zlength (series sample_dataset (Z.to_nat 0)) = (b - a)%Z
    /\ left_padded t (length (temporal_cols sample_dataset))
                   (Z.to_nat (max_size sample_dataset))
                   (series sample_dataset (Z.to_nat 0)).
Proof.
  apply (getitem_left_padded sample_dataset 0).
  - exact sample_dataset_ok.
  - reflexivity.
  - exact sample_nonempty_series.
  - simpl. lia.
  - exact I.
Defined.

(** The item of a dataset whose static frame misses a series: group 1
    has no static row to read. *)
Lemma getitem_short_static_counterexample :
  from_df sample_frame (Some sample_static_short) "y"
  = Ok (sample_dataset_short_static, [1; 2]%Z, [2; 2]%Z, [1; 2; 1; 2]%Z)
  /\ nonempty_series sample_dataset_short_static
  /\ (0 <= 1 < n_groups sample_dataset_short_static)%Z
  /\ __getitem__ sample_dataset_short_static (IdxInt 1) = Raise IndexError.
Proof.
  split; [exact sample_from_df_short_static|].
  split; [unfold nonempty_series; simpl; repeat constructor|].
  split; [simpl; lia|]. vm_compute. reflexivity.
Qed.

(** C2 on the sample appended to itself. *)
Lemma append_spec_witness :
  exists d,
    append sample_mem sample_dataset sample_dataset = Ok d
    /\ indptr d = zip_with Z.add (indptr sample_dataset) (indptr sample_dataset)
    /\ forall i : nat, (Z.of_nat i < n_groups sample_dataset)%Z ->
         series d i = series sample_dataset i ++ series sample_dataset i.
Proof.
  destruct (append_spec sample_mem sample_dataset sample_dataset
              sample_dataset_ok sample_dataset_ok eq_refl) as [Hsame _].
  apply (Hsame eq_refl). vm_compute. discriminate.
Defined.

(** Two datasets with the same groups but two and three temporal
    columns: the copy of the future rows does not fit. *)
Lemma append_columns_counterexample :
  from_df sample_frame None "y"
  = Ok (sample_dataset, [1; 2]%Z, [2; 2]%Z, [1; 2; 1; 2]%Z)
  /\ from_df sample_frame_exog None "y"
     = Ok (sample_dataset_exog, [1; 2]%Z, [2; 2]%Z, [1; 2; 1; 2]%Z)
  /\ length (indptr sample_dataset) = length (indptr sample_dataset_exog)
  /\ append sample_mem sample_dataset sample_dataset_exog = Raise RuntimeError.
Proof.
  split; [exact sample_from_df|]. split; [exact sample_from_df_exog|].
  split; [reflexivity|]. vm_compute. reflexivity.
Qed.

(** C3 on the sample, trimming one row on the left. *)
Lemma trim_dataset_spec_witness :
  exists d',
    trim_dataset sample_dataset 1 0 = Ok d'
    /\ n_groups d' = n_groups sample_dataset
    /\ (forall i : nat, (Z.of_nat i < n_groups sample_dataset)%Z ->
          series d' i = trimmed 1 0 (series sample_dataset i))
    /\ Z.of_nat (nrows (temporal d'))
       = (Z.of_nat (nrows (temporal sample_dataset))
          - (1 + 0) * n_groups sample_dataset)%Z.
Proof.
  apply (trim_dataset_spec sample_dataset 1 0).
  - exact sample_dataset_ok.
  - lia.
  - lia.
  - simpl. lia.
  - vm_compute. discriminate.
Defined.

(** A dataset as the constructor accepts it, with three rows under
    offsets [0, 5]: the trims pass the guard, and the copy of the four
    rows the offsets promise fails. *)
Lemma trim_loose_counterexample :
  TimeSeriesDataset_init (sample_matrix 1 [[1]; [2]; [3]]%Z) ["y"] [0; 5]%Z
    int32 0 None None
  = Ok sample_dataset_loose
  /\ (0 <= 0)%Z /\ (0 <= 1)%Z
  /\ (0 + 1 < min_size sample_dataset_loose)%Z
  /\ trim_dataset sample_dataset_loose 0 1 = Raise RuntimeError.
Proof.
  split; [vm_compute; reflexivity|]. split; [lia|]. split; [lia|].
  split; [simpl; lia|]. vm_compute. reflexivity.
Qed.

(** C4 on the sample. *)
Lemma produced_indptr_invariant_witness :
  zlength (indptr sample_dataset) = (n_groups sample_dataset + 1)%Z
  /\ head (indptr sample_dataset) = Some 0%Z
  /\ (forall i a b, indptr sample_dataset !! i = Some a ->
                    indptr sample_dataset !! S i = Some b -> (a <= b)%Z)
  /\ last (indptr sample_dataset)
     = Some (Z.of_nat (nrows (temporal sample_dataset)))
  /\ (forall i a b, indptr sample_dataset !! i = Some a ->
                    indptr sample_dataset !! S i = Some b ->
        series sample_dataset i
        = take (Z.to_nat (b - a))
               (drop (Z.to_nat a) (mrows (temporal sample_dataset)))
        /\ zlength (series sample_dataset i) = (b - a)%Z)
  /\ mrows (temporal sample_dataset)
     = concat (map (series sample_dataset)
                   (seq 0 (Z.to_nat (n_groups sample_dataset)))).
Proof.
  apply (produced_indptr_invariant sample_dataset).
  apply (fits_from_df _ _ _ _ _ _ _ sample_from_df).
  vm_compute. discriminate.
Defined.

(** C5 on the sample, split after the first timestamp. *)
Lemma update_dataset_roundtrip_witness :
  exists d1 ids1 dates1 ds1 d dfull ids dates ds,
    from_df (rows_until 1 sample_frame) None "y" = Ok (d1, ids1, dates1, ds1)
    /\ update_dataset sample_mem d1 (rows_after 1 sample_frame) "y" = Ok d
    /\ from_df sample_frame None "y" = Ok (dfull, ids, dates, ds)
    /\ temporal d = temporal dfull
    /\ indptr d = indptr dfull
    /\ max_size d = max_size dfull.
Proof.
  apply (update_dataset_roundtrip sample_mem sample_frame None "y" 1).
  - vm_compute. by left.
  - discriminate.
  - vm_compute. discriminate.
  - apply (sample_on_both_sides _ _ [1; 1; 2; 2]%Z); [reflexivity|].
    repeat constructor; vm_compute; set_solver.
  - intros Hin. exfalso. vm_compute in Hin. set_solver.
Defined.

(** A frame of the repository's own tests: the mask is 0 in the later
    rows.  [update_dataset] writes 1 there, [from_df] keeps the 0. *)
Lemma update_dataset_mask_counterexample :
  "y" ∈ value_cols sample_frame_masked
  /\ series_on_both_sides 1 sample_frame_masked
  /\ exists d1 d dfull,
       from_df (rows_until 1 sample_frame_masked) None "y"
       = Ok (d1, [1%Z], [1%Z], [1%Z])
       /\ update_dataset sample_mem d1 (rows_after 1 sample_frame_masked) "y"
          = Ok d
       /\ from_df sample_frame_masked None "y"
          = Ok (dfull, [1%Z], [2%Z], [1; 2]%Z)
       /\ temporal d = sample_matrix 2 [[1; 1]; [2; 1]]%Z
       /\ temporal dfull = sample_matrix 2 [[1; 1]; [2; 0]]%Z
       /\ temporal d <> temporal dfull.
Proof.
  split; [vm_compute; by left|]. split.
  { apply (sample_on_both_sides _ _ [1; 1]%Z); [reflexivity|].
    repeat constructor; vm_compute; set_solver. }
  eexists _, _, _. split; [vm_compute; reflexivity|].
  split; [vm_compute; reflexivity|]. split; [vm_compute; reflexivity|].
  split; [vm_compute; reflexivity|]. split; [vm_compute; reflexivity|].
  vm_compute. discriminate.
Qed.

Lemma sample_store_deref : Store.deref sample_store 0 = Some sample_dataset.
Proof. vm_compute. reflexivity. Qed.

(** C6 in the sample store, trimming three rows from series of two:
    the call raises and the store is the one it started from. *)
Lemma trim_dataset_raises_witness :
  (raises (Store.trim_dataset 0 2 1 sample_store).1
   <-> (min_size sample_dataset <= 2 + 1)%Z)
  /\ raises (Store.trim_dataset 0 2 1 sample_store).1
  /\ (Store.trim_dataset 0 2 1 sample_store).2 = sample_store
  /\ Store.objects (Store.trim_dataset 0 2 1 sample_store).2
     = Store.objects sample_store
  /\ forall a d0, Store.deref sample_store a = Some d0 ->
       Store.deref (Store.trim_dataset 0 2 1 sample_store).2 a = Some d0.
Proof.
  destruct (trim_dataset_raises sample_store 0 sample_dataset 2 1
              sample_store_deref) as [Hguarded Hany].
  destruct (Hguarded sample_dataset_ok ltac:(lia) ltac:(lia))
    as [Hiff Hstore].
  assert (Hr : raises (Store.trim_dataset 0 2 1 sample_store).1).
  { apply Hiff. simpl. lia. }
  split; [exact Hiff|]. split; [exact Hr|].
  split; [exact (Hstore Hr)|]. exact (Hany Hr).
Defined.

(** A negative left trim passes the guard and then fails in the copy,
    on values and in the store. *)
Lemma trim_negative_counterexample :
  from_df sample_frame None "y"
  = Ok (sample_dataset, [1; 2]%Z, [2; 2]%Z, [1; 2; 1; 2]%Z)
  /\ ~ (min_size sample_dataset <= -2 + 0)%Z
  /\ trim_dataset sample_dataset (-2) 0 = Raise RuntimeError
  /\ (Store.trim_dataset 0 (-2) 0 sample_store).1 = Raise RuntimeError.
Proof.
  split; [exact sample_from_df|]. split; [simpl; lia|].
  split; vm_compute; reflexivity.
Qed.

(** C7 on the two items of the sample, which has no static features. *)
Lemma collate_fn_items_witness :
  exists out temporals,
    _collate_fn false (map VMapping (sample_item 0 :: [sample_item 1]))
    = Ok (CDict out)
    /\ Forall2 (fun it t => it !! "temporal" = Some (LTensor t))
               (sample_item 0 :: [sample_item 1]) temporals
    /\ out !! "temporal"
       = Some (LTensor (Stacked [length (temporal_cols sample_dataset);
                                 Z.to_nat (max_size sample_dataset)]
                                temporals))
    /\ shape (Stacked [length (temporal_cols sample_dataset);
                       Z.to_nat (max_size sample_dataset)] temporals)
       = [length (sample_item 0 :: [sample_item 1]);
          length (temporal_cols sample_dataset);
          Z.to_nat (max_size sample_dataset)]
    /\ out !! "temporal_cols" = sample_item 0 !! "temporal_cols"
    /\ out !! "y_idx" = sample_item 0 !! "y_idx"
    /\ out !! "static" = None
    /\ out !! "static_cols" = None.
Proof.
  destruct (collate_fn_items false sample_dataset (sample_item 0)
              [sample_item 1])
    as [(out & temporals & Hrun & Hitems & Htemporal & Hshape & Hcols
         & Hy & Hnone & _) _].
  - intros s Hs. discriminate.
  - repeat constructor.
    + exists (IdxInt 0). vm_compute. reflexivity.
    + exists (IdxInt 1). vm_compute. reflexivity.
  - exists out, temporals.
    do 6 (split; [assumption|]). apply Hnone. vm_compute. reflexivity.
Defined.

(** C9 in the sample store: the sample appended to itself and trimmed. *)
Lemma append_trim_do_not_mutate_witness :
  Store.deref (Store.append sample_mem 0 0 sample_store).2 0
  = Some sample_dataset
  /\ Store.deref (Store.trim_dataset 0 1 0 sample_store).2 0
     = Some sample_dataset
  /\ (Store.append sample_mem 0 0 sample_store).1 = Ok 1
  /\ (Store.trim_dataset 0 1 0 sample_store).1 = Ok 1
  /\ exists d', append_times sample_mem sample_dataset 3 sample_dataset = Ok d'.
Proof.
  destruct append_trim_do_not_mutate as (Happ & Htrim & _ & _ & Htimes).
  destruct (Happ sample_mem sample_store 0 0 sample_dataset sample_dataset
              sample_store_deref sample_store_deref) as [Ha _].
  destruct (Htrim sample_store 0 sample_dataset 1%Z 0%Z sample_store_deref)
    as [Ht _].
  split; [exact (Ha 0 sample_dataset sample_store_deref)|].
  split; [exact (Ht 0 sample_dataset sample_store_deref)|].
  split; [vm_compute; reflexivity|]. split; [vm_compute; reflexivity|].
  apply (Htimes sample_mem sample_dataset sample_dataset 3).
  - exact sample_dataset_ok.
  - exact sample_dataset_ok.
  - reflexivity.
  - reflexivity.
  - vm_compute. discriminate.
Defined.

(** C10 on the value column of the sample. *)
Lemma ensure_available_mask_idempotent_witness :
  _ensure_available_mask (sample_matrix 1 [[1]; [2]]%Z) ["y"]
  = Ok (sample_matrix 2 [[1; 1]; [2; 1]]%Z, ["y"; "available_mask"])
  /\ _ensure_available_mask (sample_matrix 2 [[1; 1]; [2; 1]]%Z)
                            ["y"; "available_mask"]
     = Ok (sample_matrix 2 [[1; 1]; [2; 1]]%Z, ["y"; "available_mask"])
  /\ "available_mask" ∈ temporal_cols sample_dataset.
Proof.
  destruct ensure_available_mask_idempotent as (Hin & Hout & _ & Hdf).
  split.
  { rewrite (Hout (sample_matrix 1 [[1]; [2]]%Z) ["y"]).
    - vm_compute. reflexivity.
    - vm_compute. set_solver. }
  split.
  { apply (Hin (sample_matrix 2 [[1; 1]; [2; 1]]%Z) ["y"; "available_mask"]).
    set_solver. }
  exact (Hdf _ _ _ _ _ _ _ sample_from_df).
Defined.

(** ** Sizes of the produced datasets *)

Lemma np_max_elem (l : list Z) (m : Z) : np_max l = Ok m -> m ∈ l.
Proof.
  destruct l as [|x tl]; [discriminate|]. simpl. intros [= <-].
  induction tl as [|y tl IH]; simpl; [by left|].
  destruct (Z.max_spec y (foldr Z.max x tl)) as [[_ ->]|[_ ->]].
  - apply elem_of_cons in IH as [->|IH]; [by left|by do 2 right].
  - right. by left.
Qed.

Lemma np_min_elem (l : list Z) (m : Z) : np_min l = Ok m -> m ∈ l.
Proof.
  destruct l as [|x tl]; [discriminate|]. simpl. intros [= <-].
  induction tl as [|y tl IH]; simpl; [by left|].
  destruct (Z.min_spec y (foldr Z.min x tl)) as [[_ ->]|[_ ->]].
  - right. by left.
  - apply elem_of_cons in IH as [->|IH]; [by left|by do 2 right].
Qed.

Lemma np_min_shift (k : Z) (l : list Z) :
  np_min (map (fun s => (s - k)%Z) l) = result_map (fun m => (m - k)%Z) (np_min l).
Proof.
  destruct l as [|x tl]; [done|]. simpl. f_equal.
  induction tl as [|y tl IH]; simpl; [done|]. rewrite IH. lia.
Qed.

Lemma np_max_shift (k : Z) (l : list Z) :
  np_max (map (fun s => (s - k)%Z) l) = result_map (fun m => (m - k)%Z) (np_max l).
Proof.
  destruct l as [|x tl]; [done|]. simpl. f_equal.
  induction tl as [|y tl IH]; simpl; [done|]. rewrite IH. lia.
Qed.

(** The length of series [i] is the [i]-th difference of [indptr]. *)
Lemma series_length_diff d (i : nat) :
  indptr_invariant d -> (Z.of_nat i < n_groups d)%Z ->
  differences (indptr d) !! i = Some (zlength (series d i)).
Proof.
  intros Hinv Hi. pose proof (inv_length d Hinv) as Hlen.
  destruct (lookup_lt_is_Some_2 (indptr d) i) as [a Ha]; [lia|].
  destruct (lookup_lt_is_Some_2 (indptr d) (S i)) as [b Hb]; [lia|].
  destruct (inv_series d Hinv i a b Ha Hb) as [_ Hl].
  unfold zlength. rewrite Hl. by apply differences_lookup.
Qed.

Lemma diff_is_series d (x : Z) :
  indptr_invariant d -> x ∈ differences (indptr d) ->
  exists i : nat, (Z.of_nat i < n_groups d)%Z /\ zlength (series d i) = x.
Proof.
  intros Hinv Hx. apply list_elem_of_lookup in Hx as [i Hi].
  pose proof (lookup_lt_Some _ _ _ Hi) as Hlt.
  rewrite length_differences in Hlt. pose proof (inv_length d Hinv) as Hlen.
  exists i. split; [lia|].
  rewrite series_length_diff in Hi by (done || lia). by inversion Hi.
Qed.

(** Every series of a frame has a row. *)
Lemma frame_groups_rows df :
  Forall (fun g => g <> []) (frame_groups df).
Proof.
  unfold frame_groups. apply List.Forall_map, Forall_forall. intros u Hu.
  unfold frame_ids in Hu. apply (proj1 (elem_of_unique_sorted _ _)) in Hu.
  apply elem_of_map_In in Hu as (r & -> & Hr).
  unfold group_rows. intros Hnil.
  apply (f_equal length) in Hnil. rewrite length_sort_by in Hnil.
  assert (r ∈ filter (fun r0 => row_id r0 = row_id r) (rows df)) as Hin.
  { by apply list_elem_of_filter. }
  destruct (filter _ _); [by apply not_elem_of_nil in Hin|done].
Qed.

Lemma zip_with_add_diff (l1 l2 : list Z) :
  differences (zip_with Z.add l1 l2) = zip_with Z.add (differences l1) (differences l2).
Proof.
  revert l2. induction l1 as [|x [|y tl] IH]; intros [|a [|b tl2]]; try done.
  specialize (IH (b :: tl2)). simpl in *. rewrite IH. f_equal. lia.
Qed.

Lemma from_df_nonempty df sdf target d ids dates ds :
  from_df df sdf target = Ok (d, ids, dates, ds) -> nonempty_series d.
Proof.
  unfold nonempty_series. intros H.
  apply from_df_Ok_inv in H as (p & data & cols & Hp & Hm & Hd).
  apply process_df_Ok_inv in Hp as (_ & Hip & _ & _).
  apply init_Ok in Hd as (_ & _ & -> & _).
  rewrite Hip, differences_offsets. apply List.Forall_map.
  eapply Forall_impl; [apply frame_groups_rows|].
  intros [|x g] Hg; [done|]. unfold zlength. simpl. lia.
Qed.

Lemma produced_nonempty d : produced_fits d -> nonempty_series d.
Proof.
  induction 1 as [df sdf target d ids dates ds H _
                 | mem s f d Hs IHs Hf IHf H Hfit
                 | d0 l r d Hd0 IH H Hfit].
  - by eapply from_df_nonempty.
  - unfold nonempty_series in *.
    pose proof (produced_ok _ Hs) as Hoks.
    pose proof (produced_ok _ Hf) as Hokf.
    assert (Z.of_nat (nrows (temporal s)) + Z.of_nat (nrows (temporal f))
            <= int_max (promote (indptr_dtype s) (indptr_dtype f)))%Z
      as Hsum.
    { pose proof (append_shape _ _ _ _ H) as (_ & _ & Hrows & _).
      etrans; [|apply int_max_ge]. lia. }
    destruct (append_exact _ _ _ _ Hoks Hokf H Hsum) as [-> _].
    rewrite zip_with_add_diff.
    destruct Hokf as [_ Hinvf].
    destruct (invariant_increments _ Hinvf) as (_ & Hpos & _).
    revert IHs Hpos. generalize (differences (indptr s)), (differences (indptr f)).
    induction l as [|x l IHl]; intros [|y l'] H1 H2; simpl; try done.
    inversion H1; inversion H2; subst. constructor; [lia|by apply IHl].
  - unfold nonempty_series in *.
    pose proof (produced_ok _ Hd0) as Hok. pose proof Hok as [Hinit _].
    destruct (trim_dataset_exact _ _ _ _ Hok H Hfit) as [-> _].
    apply trim_dataset_shape in H as (Hg & _); [|done].
    rewrite differences_offsets. apply List.Forall_map.
    pose proof (np_min_le _ _ (init_min_size d0 Hinit)) as Hmin.
    eapply Forall_impl; [exact Hmin|]. simpl. intros. lia.
Qed.

(** Sizes of a consistent dataset. *)
Lemma dataset_sizes d :
  dataset_ok d ->
  (1 <= n_groups d)%Z
  /\ (min_size d <= max_size d)%Z
  /\ (forall i : nat, (Z.of_nat i < n_groups d)%Z ->
        (min_size d <= zlength (series d i) <= max_size d)%Z)
  /\ (exists i : nat, (Z.of_nat i < n_groups d)%Z
                      /\ zlength (series d i) = min_size d)
  /\ (exists i : nat, (Z.of_nat i < n_groups d)%Z
                      /\ zlength (series d i) = max_size d).
Proof.
  intros [Hinit Hinv].
  pose proof (np_min_le _ _ (init_min_size d Hinit)) as Hmin.
  pose proof (np_max_ge _ _ (init_max_size d Hinit)) as Hmax.
  pose proof (np_min_elem _ _ (init_min_size d Hinit)) as Hmin_in.
  pose proof (np_max_elem _ _ (init_max_size d Hinit)) as Hmax_in.
  rewrite Forall_forall in Hmin, Hmax.
  split; [by apply init_fields_groups|].
  split; [by apply Hmax|].
  split.
  { intros i Hi. pose proof (series_length_diff d i Hinv Hi) as Hs.
    apply list_elem_of_lookup_2 in Hs. split; [by apply Hmin|by apply Hmax]. }
  split; by apply diff_is_series.
Qed.

(** X1: every dataset that [from_df], [append] or [trim_dataset]
    produce, while each dataset produced on the way has at most
    [2^31 - 1] rows ([produced_fits]), has at least one group and no
    empty series, and its [min_size] and [max_size] are the lengths of
    its shortest and of its longest series. *)
Theorem produced_sizes (d : TimeSeriesDataset) :
  produced_fits d ->
  (1 <= n_groups d)%Z
  /\ (1 <= min_size d <= max_size d)%Z
  /\ (forall i : nat, (Z.of_nat i < n_groups d)%Z ->
        (min_size d <= zlength (series d i) <= max_size d)%Z)
  /\ (exists i : nat, (Z.of_nat i < n_groups d)%Z
                      /\ zlength (series d i) = min_size d)
  /\ (exists i : nat, (Z.of_nat i < n_groups d)%Z
                      /\ zlength (series d i) = max_size d).
Proof.
  intros H. pose proof (produced_ok d H) as Hok.
  destruct (dataset_sizes d Hok) as (Hn & Hle & Hall & Hlo & Hhi).
  split; [done|]. split; [|done].
  split; [|done].
  pose proof (produced_nonempty d H) as Hne. unfold nonempty_series in Hne.
  rewrite Forall_forall in Hne. destruct Hok as [Hinit _].
  pose proof (np_min_elem _ _ (init_min_size d Hinit)) as Hin.
  apply Hne in Hin. lia.
Qed.

(** ** Trimming: sizes, composition, identity *)

(** A dataset is determined by what the constructor is given. *)
Lemma dataset_eq (d1 d2 : TimeSeriesDataset) :
  init_fields d1 -> init_fields d2 ->
  temporal d1 = temporal d2 -> temporal_cols d1 = temporal_cols d2 ->
  indptr d1 = indptr d2 -> indptr_dtype d1 = indptr_dtype d2 ->
  y_idx d1 = y_idx d2 ->
  static d1 = static d2 -> static_cols d1 = static_cols d2 ->
  updated d1 = updated d2 ->
  d1 = d2.
Proof.
  intros [Hn1 Hx1 Hm1] [Hn2 Hx2 Hm2] Ht Hc Hi Hdt Hy Hs Hsc Hu.
  destruct d1, d2; simpl in *; subst.
  rewrite Hx1 in Hx2. rewrite Hm1 in Hm2. congruence.
Qed.

Lemma matrix_eq (m1 m2 : Matrix) :
  ncols m1 = ncols m2 -> mrows m1 = mrows m2 -> m1 = m2.
Proof. destruct m1, m2; simpl; congruence. Qed.

Lemma trim_dataset_min_max d l r d' :
  dataset_ok d -> trim_dataset d l r = Ok d' ->
  (Z.of_nat (nrows (temporal d')) <= int_max int32)%Z ->
  min_size d' = (min_size d - (l + r))%Z
  /\ max_size d' = (max_size d - (l + r))%Z.
Proof.
  intros Hok H Hfit. pose proof Hok as [Hinit _].
  destruct (trim_dataset_exact _ _ _ _ Hok H Hfit) as [Hip Hf].
  pose proof (init_min_size d' Hf) as Hmin.
  pose proof (init_max_size d' Hf) as Hmax.
  rewrite Hip, differences_offsets in Hmin, Hmax.
  rewrite (map_ext _ (fun s => (s - (l + r))%Z)) in Hmin, Hmax by (intros; lia).
  rewrite np_min_shift, (init_min_size d Hinit) in Hmin.
  rewrite np_max_shift, (init_max_size d Hinit) in Hmax.
  simpl in *. split; congruence.
Qed.

(** The segments of a trimmed dataset. *)
Lemma trim_dataset_run d l r :
  dataset_ok d -> (0 <= l)%Z -> (0 <= r)%Z -> (l + r < min_size d)%Z ->
  (Z.of_nat (nrows (temporal d)) - (l + r) * n_groups d <= int_max int32)%Z ->
  exists d',
    trim_dataset d l r = Ok d'
    /\ dataset_ok d'
    /\ segments d' = map (trimmed l r) (segments d)
    /\ ncols (temporal d') = ncols (temporal d)
    /\ temporal_cols d' = temporal_cols d /\ y_idx d' = y_idx d
    /\ static d' = static d /\ static_cols d' = static_cols d
    /\ updated d' = false
    /\ min_size d' = (min_size d - (l + r))%Z
    /\ max_size d' = (max_size d - (l + r))%Z
    /\ indptr_dtype d' = int32
    /\ Z.of_nat (nrows (temporal d'))
       = (Z.of_nat (nrows (temporal d)) - (l + r) * n_groups d)%Z
    /\ n_groups d' = n_groups d.
Proof.
  intros Hok Hl Hr Hg Hfit.
  destruct (trim_dataset_segments_exact d _ _ Hok Hl Hr Hg Hfit)
    as (d' & Hrun & Hrows & Hip & Hok').
  exists d'. split; [done|]. split; [done|].
  split; [by apply segments_of_concat|].
  pose proof (trim_dataset_shape _ _ _ _ Hok Hrun)
    as (_ & _ & Hn & Hc & Htc & Hy & Hs & Hsc & Hu & Hdt & _).
  destruct (trim_dataset_min_max d _ _ d' Hok Hrun) as [Hmin Hmax]; [lia|].
  do 9 (split; [done|]). split; [done|].
  destruct Hok as [Hi Hv], Hok' as [Hi' Hv'].
  destruct (invariant_segments d Hv) as (_ & Hip0 & _).
  rewrite (init_n_groups d' Hi'), (init_n_groups d Hi), Hip, Hip0.
  by rewrite !length_offsets, !length_map.
Qed.

(** X2: on a consistent dataset, with non-negative trims below
    [min_size] and a result of at most [2^31 - 1] rows, a trim lowers
    [min_size] and [max_size] by exactly [left_trim + right_trim] and
    keeps the columns, the static features and [y_idx] of its input. *)
Theorem trim_dataset_sizes (d : TimeSeriesDataset) (left_trim right_trim : Z) :
  dataset_ok d ->
  (0 <= left_trim)%Z -> (0 <= right_trim)%Z ->
  (left_trim + right_trim < min_size d)%Z ->
  (Z.of_nat (nrows (temporal d)) - (left_trim + right_trim) * n_groups d
   <= int_max int32)%Z ->
  exists d',
    trim_dataset d left_trim right_trim = Ok d'
    /\ min_size d' = (min_size d - (left_trim + right_trim))%Z
    /\ max_size d' = (max_size d - (left_trim + right_trim))%Z
    /\ ncols (temporal d') = ncols (temporal d)
    /\ temporal_cols d' = temporal_cols d
    /\ static d' = static d /\ static_cols d' = static_cols d
    /\ y_idx d' = y_idx d.
Proof.
  intros Hok Hl Hr Hg Hfit.
  destruct (trim_dataset_run d _ _ Hok Hl Hr Hg Hfit)
    as (d' & Hrun & _ & _ & Hc & Htc & Hy & Hs & Hsc & _ & Hmin & Hmax & _).
  exists d'. done.
Qed.

Lemma trimmed_trimmed (l1 r1 l2 r2 : Z) (s : list (list float32)) :
  (0 <= l1)%Z -> (0 <= r1)%Z -> (0 <= l2)%Z -> (0 <= r2)%Z ->
  (l1 + r1 + l2 + r2 <= zlength s)%Z ->
  trimmed l2 r2 (trimmed l1 r1 s) = trimmed (l1 + l2) (r1 + r2) s.
Proof.
  intros H1 H2 H3 H4 Hlen. unfold trimmed, zlength in *.
  rewrite length_drop, length_take.
  rewrite take_drop_commute, drop_drop, take_take.
  f_equal; [lia|]. f_equal. lia.
Qed.

Lemma trimmed_zero (s : list (list float32)) : trimmed 0 0 s = s.
Proof.
  unfold trimmed. simpl. rewrite drop_0, Nat.sub_0_r. by apply take_ge.
Qed.

(** A dataset from its segments. *)
Lemma dataset_eq_segments (d1 d2 : TimeSeriesDataset) :
  dataset_ok d1 -> dataset_ok d2 ->
  segments d1 = segments d2 ->
  ncols (temporal d1) = ncols (temporal d2) ->
  temporal_cols d1 = temporal_cols d2 -> y_idx d1 = y_idx d2 ->
  static d1 = static d2 -> static_cols d1 = static_cols d2 ->
  updated d1 = updated d2 ->
  indptr_dtype d1 = indptr_dtype d2 ->
  d1 = d2.
Proof.
  intros [Hi1 Hv1] [Hi2 Hv2] Hseg Hc Htc Hy Hs Hsc Hu Hdt.
  destruct (invariant_segments d1 Hv1) as (Hr1 & Hp1 & _).
  destruct (invariant_segments d2 Hv2) as (Hr2 & Hp2 & _).
  apply dataset_eq; try done.
  - apply matrix_eq; [done|]. by rewrite Hr1, Hr2, Hseg.
  - by rewrite Hp1, Hp2, Hseg.
Qed.

(** X3: on a consistent dataset, with non-negative trims and at most
    [2^31 - 1] rows left by the first trim, two trims in a row are one
    trim by the sums: the same dataset, or the same exception when the
    series are too short. *)
Theorem trim_dataset_compose (d : TimeSeriesDataset) (l1 r1 l2 r2 : Z) :
  dataset_ok d ->
  (0 <= l1)%Z -> (0 <= r1)%Z -> (0 <= l2)%Z -> (0 <= r2)%Z ->
  (Z.of_nat (nrows (temporal d)) - (l1 + r1) * n_groups d
   <= int_max int32)%Z ->
  (d1 ← trim_dataset d l1 r1; trim_dataset d1 l2 r2)
  = trim_dataset d (l1 + l2) (r1 + r2).
Proof.
  intros Hok Hl1 Hr1 Hl2 Hr2 Hfit.
  pose proof (init_fields_groups d (proj1 Hok)) as Hn.
  destruct (Z.le_gt_cases (min_size d) (l1 + r1)) as [Hg1|Hg1].
  { rewrite (trim_dataset_guard d l1 r1) by done.
    rewrite (trim_dataset_guard d (l1 + l2) (r1 + r2)) by lia. done. }
  destruct (trim_dataset_run d l1 r1 Hok Hl1 Hr1 Hg1 Hfit)
    as (d1 & Hrun1 & Hok1 & Hseg1 & Hc1 & Htc1 & Hy1 & Hs1 & Hsc1 & Hu1
        & Hmin1 & _ & Hdt1 & Hrows1 & Hn1).
  rewrite Hrun1, bind_Ok_l.
  destruct (Z.le_gt_cases (min_size d) (l1 + l2 + (r1 + r2))) as [Hg|Hg].
  { rewrite (trim_dataset_guard d1 l2 r2) by lia.
    by rewrite (trim_dataset_guard d (l1 + l2) (r1 + r2)). }
  destruct (trim_dataset_run d1 l2 r2 Hok1 Hl2 Hr2 ltac:(lia))
    as (d2 & Hrun2 & Hok2 & Hseg2 & Hc2 & Htc2 & Hy2 & Hs2 & Hsc2 & Hu2
        & _ & _ & Hdt2 & _).
  { rewrite Hrows1, Hn1. nia. }
  destruct (trim_dataset_run d (l1 + l2) (r1 + r2) Hok ltac:(lia) ltac:(lia) Hg)
    as (d3 & Hrun3 & Hok3 & Hseg3 & Hc3 & Htc3 & Hy3 & Hs3 & Hsc3 & Hu3
        & _ & _ & Hdt3 & _).
  { nia. }
  rewrite Hrun2, Hrun3. f_equal.
  apply dataset_eq_segments; try congruence.
  rewrite Hseg2, Hseg1, Hseg3, map_map.
  apply map_ext_elem. intros s Hs.
  pose proof (min_size_segments d Hok) as Hall.
  rewrite Forall_forall in Hall. specialize (Hall s Hs).
  apply trimmed_trimmed; lia.
Qed.

Lemma produced_updated d : produced d -> updated d = false.
Proof.
  induction 1 as [df sdf target d ids dates ds H
                 | mem s f d _ _ _ _ H
                 | d0 l r d Hd0 _ H].
  - apply from_df_Ok_inv in H as (p & data & cols & _ & _ & Hd).
    by apply init_Ok in Hd as (_ & _ & _ & _ & _ & _ & Hu & _).
  - by apply append_shape in H as (_ & _ & _ & _ & _ & _ & _ & _ & Hu & _).
  - unfold trim_dataset in H. destruct (_ <=? _)%Z; [discriminate|].
    apply bind_Ok in H as (? & _ & H).
    apply bind_Ok in H as ([[? ?] ?] & _ & H).
    by apply init_Ok in H as (_ & _ & _ & _ & _ & _ & ? & _).
Qed.

Lemma from_df_dtype df sdf target d ids dates ds :
  from_df df sdf target = Ok (d, ids, dates, ds) ->
  (Z.of_nat (nrows (temporal d)) <= int_max int32)%Z ->
  indptr_dtype d = int32.
Proof.
  intros H Hsmall.
  apply from_df_Ok_inv in H as (p & data & cols & Hp & Hm & Hd).
  apply process_df_Ok_inv in Hp as (_ & _ & Hdata & _ & Hdt & _).
  apply ensure_mask_nrows in Hm.
  apply init_Ok in Hd as (Ht & _ & _ & _ & _ & _ & _ & -> & _).
  rewrite Hdt. unfold offsets_dtype. rewrite decide_True; [done|].
  rewrite Ht, Hm, Hdata in Hsmall. unfold nrows in Hsmall. simpl in Hsmall.
  by rewrite length_map, frame_groups_length in Hsmall.
Qed.

(** The datasets of [produced_fits] have few rows and offsets of type
    int32. *)
Lemma produced_fits_small d :
  produced_fits d ->
  (Z.of_nat (nrows (temporal d)) <= int_max int32)%Z
  /\ indptr_dtype d = int32.
Proof.
  induction 1 as [df sdf target d ids dates ds H Hfit
                 | mem s f d Hs [_ IHs] Hf [_ IHf] H Hfit
                 | d0 l r d Hd0 _ H Hfit]; (split; [done|]).
  - by eapply from_df_dtype.
  - apply append_shape in H
      as (_ & _ & _ & _ & _ & _ & _ & _ & _ & -> & _).
    by rewrite IHs, IHf.
  - apply trim_dataset_shape in H
      as (_ & _ & _ & _ & _ & _ & _ & _ & _ & -> & _);
      [done|by apply produced_ok].
Qed.

(** Trimming nothing from a consistent int32 dataset without empty
    series returns an equal dataset. *)
Lemma trim_zero_same d :
  dataset_ok d -> nonempty_series d -> updated d = false ->
  indptr_dtype d = int32 ->
  trim_dataset d 0 0 = Ok d.
Proof.
  intros Hok Hne Hup Hdt.
  assert (0 + 0 < min_size d)%Z as Hg.
  { destruct Hok as [Hinit _].
    pose proof (np_min_elem _ _ (init_min_size d Hinit)) as Hin.
    unfold nonempty_series in Hne. rewrite Forall_forall in Hne.
    apply Hne in Hin. lia. }
  destruct (trim_dataset_run d 0 0 Hok ltac:(lia) ltac:(lia) Hg)
    as (d' & Hrun & Hok' & Hseg & Hc & Htc & Hy & Hs & Hsc & Hu & _ & _
        & Hdt' & _).
  { destruct Hok as [_ Hinv]. pose proof (inv_fits d Hinv) as Hfit.
    rewrite Hdt in Hfit. lia. }
  rewrite Hrun. f_equal.
  apply dataset_eq_segments; try done.
  - rewrite Hseg. rewrite <- (map_id (segments d)) at 2.
    apply map_ext. apply trimmed_zero.
  - congruence.
  - congruence.
Qed.

(** X4: trimming nothing from a dataset of [produced_fits] returns an
    equal dataset. *)
Theorem trim_dataset_zero (d : TimeSeriesDataset) :
  produced_fits d -> trim_dataset d 0 0 = Ok d.
Proof.
  intros H. apply trim_zero_same.
  - by apply produced_ok.
  - by apply produced_nonempty.
  - by apply produced_updated, produced_fits_produced.
  - by apply produced_fits_small.
Qed.

(** ** Appending: memory, associativity, and undoing it by a trim *)

Lemma append_run mem s f :
  dataset_ok s -> dataset_ok f ->
  length (indptr s) = length (indptr f) ->
  ncols (temporal s) = ncols (temporal f) ->
  (Z.of_nat (nrows (temporal s)) + Z.of_nat (nrows (temporal f))
   <= int_max (promote (indptr_dtype s) (indptr_dtype f)))%Z ->
  exists d,
    append mem s f = Ok d
    /\ dataset_ok d
    /\ segments d = zip_with app (segments s) (segments f)
    /\ length (indptr d) = length (indptr s)
    /\ ncols (temporal d) = ncols (temporal s)
    /\ temporal_cols d = temporal_cols s /\ y_idx d = y_idx s
    /\ static d = static s /\ static_cols d = static_cols s
    /\ updated d = false
    /\ indptr_dtype d = promote (indptr_dtype s) (indptr_dtype f)
    /\ nrows (temporal d) = nrows (temporal s) + nrows (temporal f).
Proof.
  intros Hs Hf Hlen Hcols Hfit.
  destruct (append_segments mem s f Hs Hf Hlen Hcols Hfit)
    as (d & Hrun & Hrows & Hip).
  exists d. split; [done|].
  split; [exact (append_preserves_ok _ _ _ _ Hs Hf Hrun Hfit)|].
  split; [by apply segments_of_concat|].
  apply append_shape in Hrun
    as (_ & Hi & Hr & Hc & Htc & Hy & Hst & Hsc & Hu & Hdt & _).
  split; [|done]. rewrite Hi, length_zip_with. lia.
Qed.

Lemma segments_length d :
  indptr_invariant d -> length (segments d) = length (indptr d) - 1.
Proof.
  intros Hinv. destruct (invariant_segments d Hinv) as (_ & Hip & _).
  apply (f_equal length) in Hip. rewrite length_offsets, length_map in Hip. lia.
Qed.

(** X5: for consistent datasets with the same number of columns whose
    rows together are at most the largest value of the integer type of
    the summed [indptr], the rows that [append] allocates with
    [torch.empty] are all overwritten: the result does not depend on
    what the fresh memory held. *)
Theorem append_overwrites_memory (mem mem' : nat -> float32)
    (self futr : TimeSeriesDataset) :
  dataset_ok self -> dataset_ok futr ->
  ncols (temporal self) = ncols (temporal futr) ->
  (Z.of_nat (nrows (temporal self)) + Z.of_nat (nrows (temporal futr))
   <= int_max (promote (indptr_dtype self) (indptr_dtype futr)))%Z ->
  append mem self futr = append mem' self futr.
Proof.
  intros Hs Hf Hcols Hfit.
  destruct (decide (length (indptr self) = length (indptr futr))) as [Hlen|Hlen].
  - destruct (append_run mem self futr Hs Hf Hlen Hcols Hfit)
      as (d & Hrun & Hok & Hseg & _ & Hc & Htc & Hy & Hst & Hsc & Hu & Hdt & _).
    destruct (append_run mem' self futr Hs Hf Hlen Hcols Hfit)
      as (d' & Hrun' & Hok' & Hseg' & _ & Hc' & Htc' & Hy' & Hst' & Hsc' & Hu'
          & Hdt' & _).
    rewrite Hrun, Hrun'. f_equal. apply dataset_eq_segments; congruence.
  - by rewrite !append_size_mismatch.
Qed.

Lemma zip_with_app_assoc {A} (l1 l2 l3 : list (list A)) :
  zip_with app (zip_with app l1 l2) l3
  = zip_with app l1 (zip_with app l2 l3).
Proof.
  revert l2 l3. induction l1 as [|x l1 IH]; intros [|y l2] [|z l3]; simpl;
    try done.
  by rewrite IH, (assoc_L (++)).
Qed.

(** X6: [append] is associative on consistent datasets with the same
    [indptr] size and columns that have at most [2^31 - 1] rows
    together: appending [b] and then [c] to [a] gives the dataset that
    appending [b.append(c)] to [a] gives. *)
Theorem append_assoc (mem : nat -> float32) (a b c : TimeSeriesDataset) :
  dataset_ok a -> dataset_ok b -> dataset_ok c ->
  length (indptr a) = length (indptr b) ->
  length (indptr b) = length (indptr c) ->
  ncols (temporal a) = ncols (temporal b) ->
  ncols (temporal b) = ncols (temporal c) ->
  (Z.of_nat (nrows (temporal a)) + Z.of_nat (nrows (temporal b))
   + Z.of_nat (nrows (temporal c)) <= int_max int32)%Z ->
  exists d,
    (ab ← append mem a b; append mem ab c) = Ok d
    /\ (bc ← append mem b c; append mem a bc) = Ok d.
Proof.
  intros Ha Hb Hc Hlab Hlbc Hcab Hcbc Hfit.
  assert (forall dt, int_max int32 <= int_max dt)%Z as Hge
    by apply int_max_ge.
  destruct (append_run mem a b Ha Hb Hlab Hcab)
    as (ab & Hrab & Hokab & Hsegab & Hlenab & Hcolab & Htc1 & Hy1 & Hst1
        & Hsc1 & _ & Hdtab & Hnab).
  { etrans; [|apply Hge]. lia. }
  destruct (append_run mem b c Hb Hc Hlbc Hcbc)
    as (bc & Hrbc & Hokbc & Hsegbc & Hlenbc & Hcolbc & _ & _ & _ & _ & _
        & Hdtbc & Hnbc).
  { etrans; [|apply Hge]. lia. }
  destruct (append_run mem ab c Hokab Hc ltac:(congruence) ltac:(congruence))
    as (d & Hrd & Hokd & Hsegd & _ & Hcold & Htcd & Hyd & Hstd & Hscd & Hud
        & Hdtd & _).
  { etrans; [|apply Hge]. lia. }
  destruct (append_run mem a bc Ha Hokbc ltac:(congruence) ltac:(congruence))
    as (d' & Hrd' & Hokd' & Hsegd' & _ & Hcold' & Htcd' & Hyd' & Hstd'
        & Hscd' & Hud' & Hdtd' & _).
  { etrans; [|apply Hge]. lia. }
  exists d. rewrite Hrab, Hrbc, !bind_Ok_l. split; [done|].
  rewrite Hrd'. f_equal. apply dataset_eq_segments; try congruence.
  - by rewrite Hsegd', Hsegd, Hsegab, Hsegbc, zip_with_app_assoc.
  - by rewrite Hdtd', Hdtd, Hdtab, Hdtbc, promote_assoc.
Qed.

Lemma trimmed_app_right (k : Z) (s1 s2 : list (list float32)) :
  zlength s2 = k -> trimmed 0 k (s1 ++ s2) = s1.
Proof.
  unfold trimmed, zlength. intros <-. simpl. rewrite drop_0, Nat2Z.id.
  rewrite length_app. replace (length s1 + length s2 - length s2)
    with (length s1) by lia.
  by rewrite take_app_length.
Qed.

(** X7: for a consistent [self] with offsets of type int32 and a
    consistent [futr] whose series all have [k] rows, the rows of both
    being at most the largest value of the integer type of the summed
    [indptr]: appending [futr] and then trimming [k] rows on the right
    gives back [self]. *)
Theorem append_then_trim (mem : nat -> float32)
    (self futr : TimeSeriesDataset) (k : Z) :
  dataset_ok self -> dataset_ok futr ->
  length (indptr self) = length (indptr futr) ->
  ncols (temporal self) = ncols (temporal futr) ->
  Forall (fun n => n = k) (differences (indptr futr)) ->
  (0 < min_size self)%Z ->
  indptr_dtype self = int32 ->
  (Z.of_nat (nrows (temporal self)) + Z.of_nat (nrows (temporal futr))
   <= int_max (promote (indptr_dtype self) (indptr_dtype futr)))%Z ->
  (d ← append mem self futr; trim_dataset d 0 k) = Ok (set_updated false self).
Proof.
  intros Hs Hf Hlen Hcols Hk Hpos Hdt Hfit.
  destruct (append_run mem self futr Hs Hf Hlen Hcols Hfit)
    as (d & Hrun & Hok & Hseg & _ & Hc & Htc & Hy & Hst & Hsc & _).
  rewrite Hrun, bind_Ok_l.
  pose proof Hs as [His Hvs]. pose proof Hf as [Hif Hvf].
  destruct (invariant_segments self Hvs) as (Hrs & Hips & _).
  destruct (invariant_segments futr Hvf) as (_ & Hipf & _).
  rewrite Hipf, differences_offsets, List.Forall_map in Hk.
  assert (length (segments self) = length (segments futr)) as Hsl.
  { rewrite !segments_length by done. lia. }
  assert (0 <= k)%Z as Hk0.
  { destruct (segments futr) as [|s0 tl] eqn:E.
    - pose proof (init_fields_groups futr Hif).
      pose proof (segments_length futr Hvf) as Hl. rewrite E in Hl.
      rewrite (init_n_groups futr Hif) in *. simpl in Hl. lia.
    - inversion Hk; subst. unfold zlength. lia. }
  assert (Forall (fun s => (min_size self + k <= zlength s)%Z) (segments d))
    as Hall.
  { rewrite Hseg. pose proof (min_size_segments self Hs) as Hms.
    revert Hms Hk Hsl. generalize (segments self), (segments futr).
    induction l as [|x l IH]; intros [|y l'] H1 H2 H3; simpl; try done.
    inversion H1; inversion H2; subst. constructor; [|apply IH; auto].
    unfold zlength in *. rewrite length_app. lia. }
  assert (min_size self + k <= min_size d)%Z as Hmin.
  { destruct Hok as [Hid Hvd].
    pose proof (np_min_elem _ _ (init_min_size d Hid)) as Hin.
    destruct (invariant_segments d Hvd) as (_ & Hipd & _).
    rewrite Hipd, differences_offsets in Hin.
    apply elem_of_map_In in Hin as (s & -> & Hin).
    rewrite Forall_forall in Hall. by apply Hall. }
  assert (map (trimmed 0 k) (segments d) = segments self) as Hback.
  { rewrite Hseg. clear -Hk Hsl.
    revert Hk Hsl. generalize (segments self), (segments futr).
    induction l as [|x l IH]; intros [|y l'] H2 H3; simpl; try done.
    inversion H2; subst. f_equal; [by apply trimmed_app_right|].
    apply IH; auto. }
  destruct (trim_dataset_segments d 0 k Hok ltac:(lia) Hk0 ltac:(lia))
    as (d0 & Hrun0 & Hrows0 & _).
  pose proof (trim_dataset_shape _ _ _ _ Hok Hrun0) as (_ & _ & Hn0 & _).
  rewrite Hback, <- Hrs in Hrows0.
  destruct (trim_dataset_run d 0 k Hok ltac:(lia) Hk0 ltac:(lia))
    as (d' & Hrun' & Hok' & Hseg' & Hc' & Htc' & Hy' & Hst' & Hsc' & Hu'
        & _ & _ & Hdt' & _).
  { rewrite <- Hn0. unfold nrows. rewrite Hrows0.
    pose proof (inv_fits self Hvs) as Hfs. rewrite Hdt in Hfs. exact Hfs. }
  rewrite Hrun'. f_equal.
  apply dataset_eq_segments; try (simpl; congruence).
  - destruct Hs as [[] []]. split; split; done.
  - change (segments (set_updated false self)) with (segments self).
    by rewrite Hseg', Hback.
Qed.

(** ** Items: index range, negative indices, the mask under padding *)

Lemma getitem_parts (d : TimeSeriesDataset) (idx : Z) :
  __getitem__ d (IdxInt idx)
  = (t ← getitem_temporal d idx; st ← getitem_static d idx;
     Ok (make_item d t st)).
Proof.
  unfold __getitem__, getitem_temporal, getitem_static, make_item.
  destruct (np_getitem (indptr d) idx) as [a|e]; [|done].
  destruct (np_getitem (indptr d) (idx + 1)) as [b|e]; [|done].
  rewrite !bind_Ok_l. done.
Qed.

Lemma np_getitem_neg {A} (l : list A) (i : Z) :
  (- Z.of_nat (length l) <= i < 0)%Z ->
  np_getitem l i = np_getitem l (i + Z.of_nat (length l)).
Proof.
  intros Hi. unfold np_getitem.
  destruct (Z.ltb_spec i 0) as [_|?]; [|lia].
  destruct (Z.ltb_spec (i + Z.of_nat (length l)) 0) as [?|_]; [lia|].
  destruct (Z.ltb_spec (i + Z.of_nat (length l)) 0) as [?|_]; [lia|].
  destruct (lookup_lt_is_Some_2 l (Z.to_nat (i + Z.of_nat (length l))))
    as [x ->]; [lia|done].
Qed.

Lemma np_getitem_out {A} (l : list A) (i : Z) :
  (Z.of_nat (length l) <= i \/ i < - Z.of_nat (length l))%Z ->
  ~ (2 ^ 63 <= i < 2 ^ 64)%Z ->
  np_getitem l i = Raise IndexError.
Proof.
  intros Hi Hsmall. unfold np_getitem.
  destruct (Z.ltb_spec i 0) as [?|?].
  - destruct (Z.ltb_spec (i + Z.of_nat (length l)) 0) as [?|?]; [done|lia].
  - destruct (Z.ltb_spec i 0) as [?|?]; [lia|].
    rewrite lookup_ge_None_2 by lia. by rewrite decide_False.
Qed.

Lemma np_getitem_overflow {A} (l : list A) (i : Z) :
  (Z.of_nat (length l) <= i)%Z -> (2 ^ 63 <= i < 2 ^ 64)%Z ->
  np_getitem l i = Raise OverflowError.
Proof.
  intros Hi Hbig. unfold np_getitem.
  destruct (Z.ltb_spec i 0) as [?|?]; [lia|].
  destruct (Z.ltb_spec i 0) as [?|?]; [lia|].
  rewrite lookup_ge_None_2 by lia. by rewrite decide_True.
Qed.

Lemma list_getitem_neg {A} (l : list A) (i : Z) :
  (- Z.of_nat (length l) <= i < 0)%Z ->
  list_getitem l i = list_getitem l (i + Z.of_nat (length l)).
Proof.
  intros Hi. unfold list_getitem.
  destruct (Z.ltb_spec i 0) as [_|?]; [|lia].
  destruct (Z.ltb_spec (i + Z.of_nat (length l)) 0) as [?|_]; [lia|].
  destruct (Z.ltb_spec (i + Z.of_nat (length l)) 0) as [?|_]; [lia|].
  done.
Qed.

Lemma zlength_le_zsum (l : list Z) :
  Forall (fun n => (0 < n)%Z) l -> (zlength l <= zsum l)%Z.
Proof.
  unfold zlength. induction 1 as [|x l Hx _ IH]; simpl; [lia|]. lia.
Qed.

(** A consistent dataset without empty series has at most as many groups
    as rows, fewer than [2^63]. *)
Lemma n_groups_le_rows d :
  dataset_ok d -> nonempty_series d ->
  (n_groups d <= Z.of_nat (nrows (temporal d)))%Z
  /\ (n_groups d < 2 ^ 63)%Z.
Proof.
  intros [_ Hinv] Hne.
  destruct (invariant_increments d Hinv) as (_ & _ & Hn & Hsum).
  pose proof (zlength_le_zsum _ Hne) as Hle.
  pose proof (inv_fits d Hinv) as Hfit.
  assert (int_max (indptr_dtype d) < 2 ^ 63)%Z.
  { destruct (indptr_dtype d); [rewrite int_max_int32|rewrite int_max_int64];
      lia. }
  lia.
Qed.

Lemma np_getitem_last (l : list Z) (x : Z) :
  last l = Some x -> np_getitem l (-1) = Ok x.
Proof.
  intros Hl. rewrite last_lookup in Hl. unfold np_getitem.
  destruct l as [|y l]; [done|]. simpl length in *.
  destruct (Z.ltb_spec (-1) 0) as [_|?]; [|lia].
  destruct (Z.ltb_spec (-1 + Z.of_nat (S (length l))) 0) as [?|_]; [lia|].
  replace (Z.to_nat (-1 + Z.of_nat (S (length l)))) with (pred (S (length l)))
    by lia.
  by rewrite Hl.
Qed.

Lemma np_getitem_head (l : list Z) (x : Z) :
  head l = Some x -> np_getitem l 0 = Ok x.
Proof. destruct l; [done|]. by intros [= ->]. Qed.

Lemma getitem_temporal_neg (d : TimeSeriesDataset) (idx : Z) :
  Z.of_nat (length (indptr d)) = (n_groups d + 1)%Z ->
  (- (n_groups d + 1) <= idx <= -2)%Z ->
  getitem_temporal d idx = getitem_temporal d (idx + n_groups d + 1).
Proof.
  intros Hlen Hneg. unfold getitem_temporal.
  rewrite (np_getitem_neg (indptr d) idx) by lia.
  rewrite (np_getitem_neg (indptr d) (idx + 1)) by lia.
  replace (idx + Z.of_nat (length (indptr d)))%Z
    with (idx + n_groups d + 1)%Z by lia.
  replace (idx + 1 + Z.of_nat (length (indptr d)))%Z
    with (idx + n_groups d + 1 + 1)%Z by lia.
  done.
Qed.

Lemma getitem_parts_Ok (d : TimeSeriesDataset) (idx : Z) item :
  __getitem__ d (IdxInt idx) = Ok item ->
  exists t st, getitem_temporal d idx = Ok t /\ getitem_static d idx = Ok st
               /\ item = make_item d t st.
Proof.
  rewrite getitem_parts. intros H.
  apply bind_Ok in H as (t & Ht & H). apply bind_Ok in H as (st & Hst & H).
  exists t, st. by inversion H.
Qed.

Lemma make_item_temporal d t st :
  make_item d t st !! "temporal" = Some (LTensor (Arr2 t)).
Proof. unfold make_item. by rewrite lookup_insert_eq. Qed.

Lemma make_item_static d t st : make_item d t st !! "static" = Some st.
Proof.
  unfold make_item.
  rewrite lookup_insert_ne, lookup_insert_ne, lookup_insert_eq; done.
Qed.

(** X8: on a dataset of [produced_fits] (produced by the factories, with
    at most [2^31 - 1] rows on the way), [__getitem__] raises IndexError
    for [n_groups <= idx < 2^63 - 1] and for
    [-2^63 <= idx < -(n_groups + 1)], raises OverflowError for
    [2^63 <= idx < 2^64], raises RuntimeError for [idx = -1], and for the
    other negative indices returns the temporal window of series
    [idx + n_groups + 1]: [-2] is the last series, not [-1]. *)
Theorem getitem_index_range (d : TimeSeriesDataset) (idx : Z) :
  produced_fits d ->
  ((n_groups d <= idx < 2 ^ 63 - 1
    \/ - 2 ^ 63 <= idx < - (n_groups d + 1))%Z ->
   __getitem__ d (IdxInt idx) = Raise IndexError)
  /\ ((2 ^ 63 <= idx < 2 ^ 64)%Z ->
      __getitem__ d (IdxInt idx) = Raise OverflowError)
  /\ __getitem__ d (IdxInt (-1)) = Raise RuntimeError
  /\ ((- (n_groups d + 1) <= idx <= -2)%Z ->
      getitem_temporal d idx = getitem_temporal d (idx + n_groups d + 1)
      /\ (static d = None ->
          __getitem__ d (IdxInt idx)
          = __getitem__ d (IdxInt (idx + n_groups d + 1)))).
Proof.
  intros Hp. pose proof (produced_ok d Hp) as Hok.
  pose proof Hok as [Hinit Hinv]. pose proof (inv_length d Hinv) as Hlen.
  destruct (dataset_sizes d Hok) as (Hn & _).
  destruct (n_groups_le_rows d Hok (produced_nonempty d Hp)) as [_ Hbig].
  split; [|split; [|split]].
  - intros Hout. unfold __getitem__.
    destruct (decide (idx = n_groups d)) as [->|Hne].
    + destruct (np_getitem_Ok (indptr d) (n_groups d)) as (a & _ & Ha); [lia|].
      rewrite Ha, bind_Ok_l, (np_getitem_out (indptr d) (n_groups d + 1)) by lia.
      done.
    + rewrite (np_getitem_out (indptr d) idx) by lia. done.
  - intros Hover. unfold __getitem__.
    rewrite (np_getitem_overflow (indptr d) idx) by lia. done.
  - rewrite getitem_parts. unfold getitem_temporal.
    rewrite (np_getitem_last _ _ (inv_last d Hinv)), bind_Ok_l.
    change (-1 + 1)%Z with 0%Z.
    rewrite (np_getitem_head _ _ (inv_first d Hinv)), bind_Ok_l.
    cbv zeta.
    assert (nrows (rows_slice (Some (Z.of_nat (nrows (temporal d)))) (Some 0%Z)
                              (temporal d)) = 0) as Hrows.
    { unfold nrows, rows_slice, py_slice, slice_bounds, norm_index. simpl.
      destruct (Z.ltb_spec (Z.of_nat (length (mrows (temporal d)))) 0); [lia|].
      rewrite length_take, length_drop. lia. }
    pose proof (produced_nonempty d Hp) as Hne.
    assert (1 <= max_size d)%Z as Hmax.
    { pose proof (np_max_elem _ _ (init_max_size d Hinit)) as Hin.
      unfold nonempty_series in Hne. rewrite Forall_forall in Hne.
      apply Hne in Hin. lia. }
    destruct (decide _) as [Heq|_].
    { inversion Heq as [[H1 H2]]. rewrite Hrows in H2. lia. }
    unfold torch_zeros. rewrite full_Ok by lia. rewrite bind_Ok_l.
    unfold setitem_block.
    destruct (slice_bounds None _ _) as [rlo rhi].
    rewrite Hrows. change (- Z.of_nat 0)%Z with 0%Z.
    unfold slice_bounds at 1. cbn [ncols]. unfold norm_index.
    destruct (Z.ltb_spec 0 0); [lia|].
    replace (Z.min 0 (Z.of_nat (Z.to_nat (max_size d)))) with 0%Z by lia.
    cbn [permute10 ncols]. rewrite Hrows.
    replace (Z.to_nat (Z.of_nat (Z.to_nat (max_size d))) - Z.to_nat 0)
      with (Z.to_nat (max_size d)) by lia.
    assert (broadcastable 0 (Z.to_nat (max_size d)) = false) as ->.
    { unfold broadcastable.
      destruct (Nat.eqb_spec 0 (Z.to_nat (max_size d))); [lia|done]. }
    by rewrite andb_false_r.
  - intros Hneg.
    pose proof (getitem_temporal_neg d idx Hlen Hneg) as Ht.
    split; [done|]. intros Hst.
    rewrite !getitem_parts, Ht. unfold getitem_static. by rewrite Hst.
Qed.

(** X9: on a dataset of [produced_fits] with static features, a negative
    index pairs the temporal window
    of one series with the static row of the series before it:
    [temporal] is read at [idx + n_groups + 1], [static] at
    [idx + n_groups]. *)
Theorem getitem_negative_static (d : TimeSeriesDataset) (s : Matrix) (idx : Z) :
  produced_fits d ->
  static d = Some s -> Z.of_nat (nrows s) = n_groups d ->
  (- n_groups d <= idx <= -2)%Z ->
  exists item item_t item_s,
    __getitem__ d (IdxInt idx) = Ok item
    /\ __getitem__ d (IdxInt (idx + n_groups d + 1)) = Ok item_t
    /\ __getitem__ d (IdxInt (idx + n_groups d)) = Ok item_s
    /\ item !! "temporal" = item_t !! "temporal"
    /\ item !! "static" = item_s !! "static".
Proof.
  intros Hp Hs Hrows Hneg. pose proof (produced_ok d Hp) as Hok.
  pose proof Hok as [_ Hinv]. pose proof (inv_length d Hinv) as Hlen.
  pose proof (produced_aligned d Hp) as Hal.
  pose proof (produced_nonempty d Hp) as Hne.
  destruct (getitem_item d (idx + n_groups d + 1) Hok Hal Hne)
    as (t1 & s1 & Hrun1 & _); [lia|unfold static_covers; rewrite Hs; lia|].
  destruct (getitem_item d (idx + n_groups d) Hok Hal Hne)
    as (t2 & s2 & Hrun2 & _); [lia|unfold static_covers; rewrite Hs; lia|].
  destruct (getitem_parts_Ok _ _ _ Hrun1) as (t1' & s1' & Ht1 & Hs1 & E1).
  destruct (getitem_parts_Ok _ _ _ Hrun2) as (t2' & s2' & Ht2 & Hs2 & E2).
  exists (make_item d t1' s2'), (make_item d t1' s1'), (make_item d t2' s2').
  split.
  { rewrite getitem_parts, (getitem_temporal_neg d idx Hlen) by lia.
    rewrite Ht1, bind_Ok_l.
    assert (getitem_static d idx = getitem_static d (idx + n_groups d)) as ->.
    { unfold getitem_static. rewrite Hs. unfold tensor_row.
      rewrite (list_getitem_neg (mrows s) idx) by (unfold nrows in Hrows; lia).
      unfold nrows in Hrows. by rewrite Hrows. }
    by rewrite Hs2. }
  split; [by rewrite Hrun1, E1|]. split; [by rewrite Hrun2, E2|].
  by rewrite !make_item_temporal, !make_item_static.
Qed.

(** The item of a valid index, part by part. *)
Lemma getitem_explicit (d : TimeSeriesDataset) (idx : Z) :
  dataset_ok d ->
  ncols (temporal d) = length (temporal_cols d) ->
  nonempty_series d ->
  (0 <= idx < n_groups d)%Z ->
  static_covers d idx ->
  exists t st,
    __getitem__ d (IdxInt idx) = Ok (make_item d t st)
    /\ left_padded t (length (temporal_cols d)) (Z.to_nat (max_size d))
                   (series d (Z.to_nat idx))
    /\ match static d with
       | None => st = LNone
       | Some s => exists r, mrows s !! Z.to_nat idx = Some r
                             /\ st = LTensor (Arr1 r)
       end.
Proof.
  intros Hok Hal Hne Hidx Hcov.
  destruct (getitem_item d idx Hok Hal Hne Hidx Hcov)
    as (t & st & Hrun & Hpad & _).
  exists t, st. split; [done|]. split; [done|].
  destruct (getitem_parts_Ok _ _ _ Hrun) as (t' & st' & _ & Hst & E).
  change (make_item d t st = make_item d t' st') in E.
  apply (f_equal (fun m => m !! "static")) in E.
  rewrite !make_item_static in E. inversion E; subst st'. clear E.
  unfold getitem_static in Hst. destruct (static d) as [s|]; [|by inversion Hst].
  apply bind_Ok in Hst as (r & Hr & Hst). inversion Hst; subst.
  exists r. split; [|done]. unfold tensor_row in Hr.
  apply np_getitem_list in Hr.
  rewrite <- (Z2Nat.id idx) in Hr by lia. by apply np_getitem_nat_inv.
Qed.

Lemma series_rows d (i : nat) : series d i ⊆ mrows (temporal d).
Proof.
  unfold series. destruct (indptr d !! i); [|apply list_subseteq_nil].
  destruct (indptr d !! S i); [|apply list_subseteq_nil].
  unfold py_slice. destruct (slice_bounds _ _ _) as [lo hi].
  etrans; [apply subseteq_take|apply subseteq_drop].
Qed.

Lemma nth_snoc_last {A} (l : list A) (n : nat) (x y : A) :
  n = length l -> nth n (l ++ [x]) y = x.
Proof. intros ->. apply nth_middle. Qed.

(** X10: in an item of a dataset built by [from_df] from a frame without
    mask column, the last row of ['temporal'] is the availability mask:
    0 on the padding and 1 on the observed columns. *)
Theorem getitem_mask_marks_padding (df : DataFrame) (sdf : option StaticFrame)
    (target : string) (d : TimeSeriesDataset) (ids dates ds : list Z)
    (idx : Z) :
  from_df df sdf target = Ok (d, ids, dates, ds) ->
  "available_mask" ∉ value_cols df ->
  (0 <= idx < n_groups d)%Z ->
  static_covers d idx ->
  exists item t,
    __getitem__ d (IdxInt idx) = Ok item
    /\ item !! "temporal" = Some (LTensor (Arr2 t))
    /\ last (temporal_cols d) = Some "available_mask"
    /\ forall j : nat, (Z.of_nat j < max_size d)%Z ->
         mat_get t (length (temporal_cols d) - 1) j
         = if (Z.of_nat j <? max_size d - zlength (series d (Z.to_nat idx)))%Z
           then f32_zero else f32_one.
Proof.
  intros Hdf Hmask Hidx Hcov.
  pose proof (from_df_ok _ _ _ _ _ _ _ Hdf) as Hok.
  destruct (getitem_explicit d idx Hok (from_df_aligned _ _ _ _ _ _ _ Hdf)
              (from_df_nonempty _ _ _ _ _ _ _ Hdf) Hidx Hcov)
    as (t & st & Hrun & Hpad & _).
  exists (make_item d t st), t. split; [done|].
  split; [apply make_item_temporal|].
  apply from_df_Ok_inv in Hdf as (p & data & cols & Hproc & Hm & Hd).
  apply process_df_Ok_inv in Hproc as (Htarget & _ & Hdata & _).
  assert ("available_mask" ∉ data_cols df target) as Hnot.
  { intros Hin. apply Hmask. by eapply data_cols_subset. }
  rewrite ensure_mask_absent in Hm by done.
  injection Hm as Hd1 Hd2; subst data cols.
  apply init_Ok in Hd as (Ht & Hc0 & _).
  assert (temporal_cols d = data_cols df target ++ ["available_mask"]) as Hc
    by exact Hc0.
  clear Hc0.
  split; [by rewrite Hc, last_snoc|].
  intros j Hj. destruct Hpad as (_ & _ & _ & Hget).
  destruct (dataset_sizes d Hok) as (_ & _ & Hall & _).
  specialize (Hall (Z.to_nat idx) ltac:(lia)). unfold zlength in *.
  rewrite Hget; [|rewrite Hc, length_app; simpl; lia|lia].
  destruct (Nat.ltb_spec j (Z.to_nat (max_size d)
                            - length (series d (Z.to_nat idx))));
    destruct (Z.ltb_spec (Z.of_nat j)
                (max_size d - Z.of_nat (length (series d (Z.to_nat idx)))));
    try lia; [done|].
  set (k := j - (Z.to_nat (max_size d) - length (series d (Z.to_nat idx)))).
  destruct (lookup_lt_is_Some_2 (series d (Z.to_nat idx)) k) as [row Hrow];
    [unfold k; lia|].
  rewrite (nth_lookup_Some _ _ _ _ Hrow).
  apply list_elem_of_lookup_2, series_rows in Hrow.
  rewrite Ht, Hdata in Hrow. simpl in Hrow.
  apply elem_of_map_In in Hrow as (x & -> & Hx).
  apply elem_of_map_In in Hx as (r & -> & _).
  rewrite Hc, length_app. apply nth_snoc_last.
  unfold row_data. rewrite length_map. simpl. lia.
Qed.

Lemma make_item_temporal_cols d t st :
  make_item d t st !! "temporal_cols" = Some (LIndex (temporal_cols d)).
Proof.
  unfold make_item. rewrite lookup_insert_ne, lookup_insert_eq; done.
Qed.

Lemma make_item_static_cols d t st :
  make_item d t st !! "static_cols" = Some (option_index (static_cols d)).
Proof.
  unfold make_item.
  do 3 (rewrite lookup_insert_ne by done). by rewrite lookup_insert_eq.
Qed.

Lemma make_item_y_idx d t st :
  make_item d t st !! "y_idx" = Some (LInt (y_idx d)).
Proof.
  unfold make_item.
  do 4 (rewrite lookup_insert_ne by done). by rewrite lookup_insert_eq.
Qed.

Lemma Forall2_getkey_temporal d (ts : list Matrix) (sts : list leaf) :
  length ts = length sts ->
  Forall2 (fun v t => getkey "temporal" v = Ok (LTensor t))
          (map VMapping (zip_with (make_item d) ts sts)) (map Arr2 ts).
Proof.
  revert sts. induction ts as [|t ts IH]; intros [|st sts] Hlen;
    cbn [map zip_with length] in *; try done; constructor; [|apply IH; lia].
  apply getkey_lookup, make_item_temporal.
Qed.

Lemma Forall2_getkey_static d (ts : list Matrix) (rs : list (list float32)) :
  length ts = length rs ->
  Forall2 (fun v t => getkey "static" v = Ok (LTensor t))
          (map VMapping (zip_with (make_item d) ts
                           (map (fun r => LTensor (Arr1 r)) rs)))
          (map Arr1 rs).
Proof.
  revert rs. induction ts as [|t ts IH]; intros [|r rs] Hlen;
    cbn [map zip_with length] in *; try done; constructor; [|apply IH; lia].
  apply getkey_lookup, make_item_static.
Qed.

Lemma omap_static_rows (rs : list (list float32)) :
  omap (fun st => match st with LTensor x => Some x | _ => None end)
       (map (fun r => LTensor (Arr1 r)) rs)
  = map Arr1 rs.
Proof. induction rs as [|r rs IH]; simpl; [done|]. f_equal. exact IH. Qed.

(** Collating items given part by part. *)
Lemma collate_made_items worker (d : TimeSeriesDataset) (c m : nat)
    (ts : list Matrix) (sts : list leaf) :
  ts <> [] -> length ts = length sts ->
  Forall (fun t => nrows t = c /\ ncols t = m) ts ->
  match static d with
  | None => Forall (fun st => st = LNone) sts
  | Some s => exists rs, sts = map (fun r => LTensor (Arr1 r)) rs
                         /\ Forall (fun r => length r = ncols s) rs
  end ->
  _collate_fn worker (map VMapping (zip_with (make_item d) ts sts))
  = Ok (CDict
      (match static d with
       | None =>
           <["temporal" := LTensor (Stacked [c; m] (map Arr2 ts))]>
           (<["temporal_cols" := LIndex (temporal_cols d)]>
           (<["y_idx" := LInt (y_idx d)]> ∅))
       | Some s =>
           <["static" := LTensor (Stacked [ncols s]
                (omap (fun st => match st with
                                 | LTensor x => Some x | _ => None end) sts))]>
           (<["static_cols" := option_index (static_cols d)]>
           (<["temporal" := LTensor (Stacked [c; m] (map Arr2 ts))]>
           (<["temporal_cols" := LIndex (temporal_cols d)]>
           (<["y_idx" := LInt (y_idx d)]> ∅))))
       end)).
Proof.
  intros Hne Hlen Hsh Hst.
  set (items := zip_with (make_item d) ts sts).
  assert (Forall2 (fun v t => getkey "temporal" v = Ok (LTensor t))
                  (map VMapping items) (map Arr2 ts)) as Htemp.
  { by apply Forall2_getkey_temporal. }
  assert (collate_key worker "temporal" (map VMapping items)
          = Ok (LTensor (Stacked [c; m] (map Arr2 ts)))) as Hct.
  { apply collate_key_stack; [by destruct ts|done|].
    apply List.Forall_map. eapply Forall_impl; [exact Hsh|].
    intros t [H1 H2]. simpl. by rewrite H1, H2. }
  destruct ts as [|t0 ts]; [done|]. destruct sts as [|st0 sts]; [done|].
  unfold _collate_fn. fold items. cbn [map items zip_with].
  change (VMapping (make_item d t0 st0)
          :: map VMapping (zip_with (make_item d) ts sts))
    with (map VMapping items).
  cbn [getkey]. rewrite make_item_static. rewrite bind_Ok_l.
  destruct (static d) as [s|] eqn:Hs.
  - destruct Hst as (rs & Hrs & Hwf).
    destruct rs as [|r0 rs]; [done|]. inversion Hrs; subst st0 sts.
    cbv iota.
    assert (collate_key worker "static" (map VMapping items)
            = Ok (LTensor (Stacked [ncols s] (map Arr1 (r0 :: rs))))) as Hcs.
    { apply collate_key_stack; [done| |].
      - apply (Forall2_getkey_static d (t0 :: ts) (r0 :: rs)).
        simpl in Hlen |- *. rewrite length_map in Hlen. lia.
      - apply List.Forall_map. eapply Forall_impl; [exact Hwf|].
        intros r Hr. simpl. by rewrite Hr. }
    rewrite Hcs, Hct, !bind_Ok_l.
    rewrite make_item_static_cols, make_item_temporal_cols, make_item_y_idx,
      !bind_Ok_l.
    replace (omap _ _) with (map Arr1 (r0 :: rs)).
    2:{ symmetry. apply (omap_static_rows (r0 :: rs)). }
    done.
  - inversion Hst; subst. cbv iota.
    rewrite Hct, !bind_Ok_l.
    rewrite make_item_temporal_cols, make_item_y_idx, !bind_Ok_l. done.
Qed.

Lemma items_of_batch (d : TimeSeriesDataset) (batch : list Z) :
  dataset_ok d ->
  ncols (temporal d) = length (temporal_cols d) ->
  nonempty_series d ->
  Forall (fun idx => (0 <= idx < n_groups d)%Z /\ static_covers d idx) batch ->
  exists ts sts,
    sequence (map (fun idx => __getitem__ d (IdxInt idx)) batch)
    = Ok (zip_with (make_item d) ts sts)
    /\ length ts = length batch /\ length sts = length batch
    /\ Forall2 (fun idx t =>
                  left_padded t (length (temporal_cols d))
                              (Z.to_nat (max_size d))
                              (series d (Z.to_nat idx))) batch ts
    /\ match static d with
       | None => Forall (fun st => st = LNone) sts
       | Some s =>
           exists rs, sts = map (fun r => LTensor (Arr1 r)) rs
                      /\ Forall2 (fun idx r => mrows s !! Z.to_nat idx = Some r)
                                 batch rs
       end.
Proof.
  intros Hok Hal Hne. induction 1 as [|idx batch [Hidx Hcov] _ IH].
  { exists [], []. repeat split; try done. destruct (static d); [|done].
    exists []. by split. }
  destruct IH as (ts & sts & Hseq & Hl1 & Hl2 & Hpad & Hst).
  destruct (getitem_explicit d idx Hok Hal Hne Hidx Hcov)
    as (t & st & Hrun & Hp & Hs).
  exists (t :: ts), (st :: sts). cbn [map sequence].
  rewrite Hrun, bind_Ok_l, Hseq, bind_Ok_l.
  split; [done|]. split; [simpl; lia|]. split; [simpl; lia|].
  split; [by constructor|].
  destruct (static d) as [s|].
  - destruct Hst as (rs & -> & Hrs). destruct Hs as (r & Hr & ->).
    exists (r :: rs). split; [done|]. by constructor.
  - subst st. by constructor.
Qed.

(** X11: for a dataset of [produced_fits] whose static tensor (if any)
    has one well-formed row per group, a non-empty batch of valid indices
    is fetched and collated without error, in a worker process or in the
    main one: ['temporal'] stacks the left-padded windows of the
    requested series in batch order, and ['static'] their static rows. *)
Theorem fetch_batch (worker : bool) (d : TimeSeriesDataset)
    (batch : list Z) :
  produced_fits d ->
  (forall s, static d = Some s ->
             mat_wf s /\ Z.of_nat (nrows s) = n_groups d) ->
  batch <> [] ->
  Forall (fun idx => (0 <= idx < n_groups d)%Z) batch ->
  exists out temporals,
    fetch worker d batch = Ok (CDict out)
    /\ out !! "temporal"
       = Some (LTensor (Stacked [length (temporal_cols d);
                                 Z.to_nat (max_size d)]
                                (map Arr2 temporals)))
    /\ Forall2 (fun idx t =>
                  left_padded t (length (temporal_cols d))
                              (Z.to_nat (max_size d))
                              (series d (Z.to_nat idx))) batch temporals
    /\ out !! "temporal_cols" = Some (LIndex (temporal_cols d))
    /\ out !! "y_idx" = Some (LInt (y_idx d))
    /\ match static d with
       | None => out !! "static" = None /\ out !! "static_cols" = None
       | Some s =>
           exists rs,
             out !! "static"
             = Some (LTensor (Stacked [ncols s] (map Arr1 rs)))
             /\ Forall2 (fun idx r => mrows s !! Z.to_nat idx = Some r)
                        batch rs
             /\ out !! "static_cols" = Some (option_index (static_cols d))
       end.
Proof.
  intros Hp Hstatic Hne Hidx. pose proof (produced_ok d Hp) as Hok.
  destruct (items_of_batch d batch Hok (produced_aligned d Hp)
              (produced_nonempty d Hp)) as (ts & sts & Hseq & Hl1 & Hl2 & Hpad & Hst).
  { eapply Forall_impl; [exact Hidx|]. intros idx Hi. simpl in Hi.
    split; [done|].
    unfold static_covers. destruct (static d) as [s|] eqn:Hs; [|done].
    destruct (Hstatic s eq_refl) as [_ Hn]. lia. }
  assert (ts <> []) as Hts by (destruct ts, batch; done).
  assert (Forall (fun t => nrows t = length (temporal_cols d)
                           /\ ncols t = Z.to_nat (max_size d)) ts) as Hsh.
  { clear -Hpad. induction Hpad as [|? ? ? ? (H1 & H2 & _) _ IH];
      constructor; done. }
  pose proof (collate_made_items worker d _ _ ts sts Hts
                (eq_trans Hl1 (eq_sym Hl2)) Hsh) as Hcol.
  unfold fetch. rewrite Hseq, bind_Ok_l.
  destruct (static d) as [s|] eqn:Hs.
  - destruct Hst as (rs & -> & Hrs). destruct (Hstatic s eq_refl) as [Hwf _].
    rewrite Hcol.
    2:{ exists rs. split; [done|]. clear -Hrs Hwf.
        induction Hrs as [|idx r ? ? Hr _ IH]; constructor; [|done].
        unfold mat_wf in Hwf. rewrite Forall_forall in Hwf.
        apply Hwf. by eapply list_elem_of_lookup_2. }
    eexists _, ts. split; [reflexivity|].
    rewrite omap_static_rows.
    split; [by rewrite lookup_insert_ne, lookup_insert_ne, lookup_insert_eq|].
    split; [done|].
    split.
    { do 3 (rewrite lookup_insert_ne by done). by rewrite lookup_insert_eq. }
    split.
    { do 4 (rewrite lookup_insert_ne by done). by rewrite lookup_insert_eq. }
    exists rs. split; [by rewrite lookup_insert_eq|]. split; [done|].
    rewrite lookup_insert_ne by done. by rewrite lookup_insert_eq.
  - rewrite Hcol by done.
    eexists _, ts. split; [reflexivity|].
    split; [by rewrite lookup_insert_eq|]. split; [done|].
    split; [rewrite lookup_insert_ne by done; by rewrite lookup_insert_eq|].
    split.
    { do 2 (rewrite lookup_insert_ne by done). by rewrite lookup_insert_eq. }
    split; by do 3 (rewrite lookup_insert_ne by done).
Qed.

(** ** [align] and [update_dataset] on any future frame *)

Lemma row_get_insert (r : Row) (c x : string) (v : float32) :
  row_get {| row_id := row_id r; row_time := row_time r;
             row_vals := <[c := v]> (row_vals r) |} x
  = if decide (x = c) then v else row_get r x.
Proof.
  unfold row_get. cbn [row_vals]. destruct (decide (x = c)) as [->|Hx].
  - by rewrite lookup_insert_eq.
  - by rewrite lookup_insert_ne.
Qed.

(** One round of the loop of [align]. *)
Lemma align_col_step (df : DataFrame) (c : string) :
  exists f : Row -> Row,
    rows (align_col df c) = map f (rows df)
    /\ (forall r, row_id (f r) = row_id r /\ row_time (f r) = row_time r)
    /\ (forall r x, row_get (f r) x
                    = if decide (x = c) then aligned_cell df r c
                      else row_get r x)
    /\ (forall x, x ∈ value_cols (align_col df c)
                  <-> x ∈ value_cols df \/ x = c).
Proof.
  unfold align_col, aligned_cell.
  destruct (decide (c ∉ value_cols df)) as [Hnew|Hold].
  - destruct (decide (c = "available_mask")) as [Hc|Hc].
    + eexists (fun r => {| row_id := row_id r; row_time := row_time r;
                           row_vals := <[c := f32_one]>
                                         (<[c := f32_nan]> (row_vals r)) |}).
      unfold assign_columns. cbn [rows value_cols].
      split; [by rewrite map_map|]. split; [done|]. split.
      * intros r x. unfold row_get. cbn [row_vals].
        destruct (decide (x = c)) as [->|Hx].
        -- by rewrite lookup_insert_eq.
        -- by rewrite !lookup_insert_ne.
      * intros x. rewrite (decide_False (P := c ∈ value_cols df)) by done.
        rewrite decide_True
          by (apply elem_of_app; right; by apply list_elem_of_singleton).
        rewrite elem_of_app, list_elem_of_singleton. done.
    + eexists (fun r => {| row_id := row_id r; row_time := row_time r;
                           row_vals := <[c := f32_nan]> (row_vals r) |}).
      unfold assign_columns. cbn [rows value_cols].
      split; [done|]. split; [done|]. split.
      * intros r x. rewrite row_get_insert.
        destruct (decide (x = c)); [|done].
        by rewrite (decide_False (P := c ∈ value_cols df)).
      * intros x. rewrite (decide_False (P := c ∈ value_cols df)) by done.
        rewrite elem_of_app, list_elem_of_singleton. done.
  - apply dec_stable in Hold.
    destruct (decide (c = "available_mask")) as [Hc|Hc].
    + eexists (fun r => {| row_id := row_id r; row_time := row_time r;
                           row_vals := <[c := f32_one]> (row_vals r) |}).
      unfold assign_columns. cbn [rows value_cols].
      split; [done|]. split; [done|]. split.
      * intros r x. by rewrite row_get_insert.
      * intros x. rewrite decide_True by done.
        split; [by left|]. intros [?| ->]; done.
    + exists (fun r => r). split; [by rewrite map_id|]. split; [done|]. split.
      * intros r x. destruct (decide (x = c)) as [->|]; [|done].
        by rewrite decide_True.
      * intros x. split; [by left|]. intros [?| ->]; done.
Qed.

(** The whole loop. *)
Lemma align_fold (cs : list string) :
  forall df : DataFrame,
  exists F : Row -> Row,
    rows (foldl align_col df cs) = map F (rows df)
    /\ (forall r, row_id (F r) = row_id r /\ row_time (F r) = row_time r)
    /\ (forall r x, row_get (F r) x
                    = if decide (x ∈ cs) then aligned_cell df r x
                      else row_get r x)
    /\ (forall x, x ∈ value_cols (foldl align_col df cs)
                  <-> x ∈ value_cols df \/ x ∈ cs).
Proof.
  induction cs as [|c cs IH]; intros df.
  { exists (fun r => r). simpl. split; [by rewrite map_id|]. split; [done|].
    split.
    - done.
    - intros x. split; [by left|]. intros [?|H]; [done|].
      by apply not_elem_of_nil in H. }
  destruct (align_col_step df c) as (f & Hf & Hfid & Hfget & Hfcols).
  destruct (IH (align_col df c)) as (F1 & HF & HFid & HFget & HFcols).
  exists (fun r => F1 (f r)). cbn [foldl].
  split; [by rewrite HF, Hf, map_map|].
  split.
  { intros r. destruct (HFid (f r)) as [-> ->]. apply Hfid. }
  split.
  - intros r x. rewrite HFget.
    destruct (decide (x ∈ cs)) as [Hin|Hnin].
    + rewrite decide_True by (by right).
      unfold aligned_cell. destruct (decide (x = "available_mask")); [done|].
      rewrite Hfget. destruct (decide (x = c)) as [->|Hx].
      * rewrite decide_True by (apply Hfcols; by right).
        unfold aligned_cell. by rewrite decide_False.
      * destruct (decide (x ∈ value_cols df)) as [Hv|Hv].
        -- rewrite decide_True; [done|]. apply Hfcols. by left.
        -- rewrite decide_False; [done|]. intros H.
           apply Hfcols in H as [?|?]; done.
    + rewrite Hfget. destruct (decide (x = c)) as [->|Hx].
      * rewrite decide_True; [done|]. by left.
      * rewrite decide_False; [done|]. intros H.
        apply elem_of_cons in H as [?|?]; done.
  - intros x. rewrite HFcols, Hfcols, elem_of_cons. tauto.
Qed.

Lemma frame_groups_map (F : Row -> Row) vc vc' (l : list Row) :
  (forall r, row_id (F r) = row_id r /\ row_time (F r) = row_time r) ->
  frame_groups {| value_cols := vc; rows := map F l |}
  = map (map F) (frame_groups {| value_cols := vc'; rows := l |}).
Proof.
  intros HF. unfold frame_groups, frame_ids. cbn [rows].
  rewrite map_map.
  rewrite (map_ext (fun x => row_id (F x)) row_id) by (intros; apply HF).
  rewrite map_map. apply map_ext. intros u.
  apply group_rows_map; intros; apply HF.
Qed.

Lemma filter_all {A} (P : A -> Prop) `{forall x, Decision (P x)} (l : list A) :
  (forall x, x ∈ l -> P x) -> filter P l = l.
Proof.
  induction l as [|x l IH]; intros Hall; [done|].
  rewrite filter_cons_True by (apply Hall; by left).
  f_equal. apply IH. intros y Hy. apply Hall. by right.
Qed.

(** [align] in closed form: the dataset of the future frame, with the
    columns of [self] in the order of [self]. *)
Lemma align_general (d : TimeSeriesDataset) (df : DataFrame)
    (target : string) (rest : list string) :
  temporal_cols d = target :: rest -> target ∉ rest ->
  "available_mask" ∈ rest ->
  rows df <> [] ->
  (Z.of_nat (length (rows df)) <= int_max int64)%Z ->
  exists fd,
    align d df target = Ok fd
    /\ dataset_ok fd
    /\ ncols (temporal fd) = length (temporal_cols d)
    /\ temporal_cols fd = temporal_cols d
    /\ segments fd
       = map (map (aligned_row (temporal_cols d) df)) (frame_groups df)
    /\ nrows (temporal fd) = length (rows df).
Proof.
  intros Hcols Htarget Hmask Hrows Hsize.
  destruct (align_fold (temporal_cols d) df) as (F & HF & HFid & HFget & HFcols).
  set (A := {| value_cols := temporal_cols d; rows := map F (rows df) |}).
  assert ("available_mask" ∈ temporal_cols d) as Hm.
  { rewrite Hcols. by right. }
  assert (data_cols A target = temporal_cols d) as Hdc.
  { unfold data_cols, A. cbn [value_cols]. rewrite Hcols.
    rewrite filter_cons_False by (intros H; by apply H).
    f_equal. apply filter_all. intros x Hx ->. done. }
  destruct (from_df_run A None target)
    as (fd & ids & dates & ds & Hrun & Ht & Hip & Htc & _ & _ & _ & _ & Hnr).
  { unfold A. cbn [value_cols]. rewrite Hcols. by left. }
  { unfold A. cbn [rows]. destruct (rows df); done. }
  { unfold A. cbn [rows]. by rewrite length_map. }
  unfold A in Hnr. cbn [rows] in Hnr. rewrite length_map in Hnr.
  rewrite Hdc, temporal_names_fixed in Ht, Htc by done.
  exists fd. split.
  { unfold align. unfold select_columns. rewrite decide_True.
    2:{ apply Forall_forall. intros c Hc. apply HFcols. by right. }
    rewrite bind_Ok_l, HF. fold A. by rewrite Hrun, bind_Ok_l. }
  split; [by eapply from_df_ok|].
  split; [by rewrite Ht|]. split; [done|]. split; [|done].
  assert (frame_groups A = map (map F) (frame_groups df)) as Hg.
  { unfold A. destruct df as [vc rw]. by apply frame_groups_map. }
  apply segments_of_concat.
  - rewrite Ht. cbn [mrows]. rewrite Hg, !concat_map_map, map_map.
    apply map_ext. intros r. rewrite temporal_row_fixed by done.
    unfold row_data, aligned_row. apply map_ext_elem. intros c Hc.
    rewrite HFget. by rewrite decide_True.
  - rewrite Hip, Hg, !map_map. f_equal. apply map_ext. intros g.
    unfold zlength. by rewrite !length_map.
Qed.

(** X12: [update_dataset] on a consistent dataset whose first column is
    the target and that has a mask column, and any non-empty future
    frame, the rows of both being at most [2^31 - 1]: it raises
    ValueError when the frame has another number of series than the
    dataset; otherwise the rows of the i-th id of the frame (ids
    increasing, rows by time) are appended to series [i], in the columns
    of the dataset, with 1 in the mask column, NaN in the columns the frame
    lacks, and the other columns of the frame dropped. *)
Theorem update_dataset_spec (mem : nat -> float32) (d : TimeSeriesDataset)
    (futr_df : DataFrame) (target : string) (rest : list string) :
  dataset_ok d ->
  ncols (temporal d) = length (temporal_cols d) ->
  temporal_cols d = target :: rest -> target ∉ rest ->
  "available_mask" ∈ rest ->
  rows futr_df <> [] ->
  (Z.of_nat (nrows (temporal d)) + Z.of_nat (length (rows futr_df))
   <= int_max int32)%Z ->
  (zlength (frame_ids futr_df) <> n_groups d ->
   update_dataset mem d futr_df target = Raise ValueError)
  /\ (zlength (frame_ids futr_df) = n_groups d ->
      exists d',
        update_dataset mem d futr_df target = Ok d'
        /\ temporal_cols d' = temporal_cols d
        /\ n_groups d' = n_groups d
        /\ forall (i : nat) (g : list Row),
             frame_groups futr_df !! i = Some g ->
             series d' i
             = series d i ++ map (aligned_row (temporal_cols d) futr_df) g).
Proof.
  intros Hok Hal Hcols Htarget Hmask Hrows Hfit.
  pose proof (int_max_ge int64) as H64.
  destruct (align_general d futr_df target rest Hcols Htarget Hmask Hrows)
    as (fd & Hrun & Hokf & Hnc & Htc & Hseg & Hnr); [lia|].
  pose proof Hok as [Hinit Hinv]. pose proof Hokf as [Hinitf Hinvf].
  pose proof (segments_length fd Hinvf) as Hlenf.
  rewrite Hseg, length_map in Hlenf.
  assert (length (frame_groups futr_df) = length (frame_ids futr_df)) as Hgl.
  { unfold frame_groups. by rewrite length_map. }
  pose proof (inv_length d Hinv) as Hld.
  pose proof (inv_length fd Hinvf) as Hlf.
  pose proof (init_fields_groups fd Hinitf) as Hnf.
  unfold update_dataset. rewrite Hrun, bind_Ok_l. unfold zlength. split.
  - intros Hne. apply append_size_mismatch. lia.
  - intros Heq.
    destruct (append_run mem d fd Hok Hokf ltac:(lia) ltac:(congruence))
      as (d' & Hrun' & Hok' & Hseg' & Hlen' & _ & Htc' & _).
    { rewrite Hnr. etrans; [exact Hfit|apply int_max_ge]. }
    exists d'. split; [done|]. split; [done|].
    destruct Hok' as [Hinit' Hinv'].
    split.
    { rewrite (init_n_groups d' Hinit'), (init_n_groups d Hinit). lia. }
    intros i g Hg.
    assert (is_Some (segments d !! i)) as [s Hs].
    { apply lookup_lt_is_Some_2. rewrite segments_length by done.
      apply lookup_lt_Some in Hg. lia. }
    rewrite (segments_lookup_series d i s Hinv Hs).
    apply segments_lookup_series; [done|].
    rewrite Hseg', Hseg. rewrite lookup_zip_with, Hs. cbn.
    change (map (map (aligned_row (temporal_cols d) futr_df))
                (frame_groups futr_df))
      with (map (aligned_row (temporal_cols d) futr_df)
              <$> frame_groups futr_df).
    by rewrite list_lookup_fmap, Hg.
Qed.

(** ** The distributed data module: one static row per series *)

Lemma insert_by_increasing {A} (key : A -> Z) (x : A) (l : list A) :
  increasing (map key l) -> key x ∉ map key l ->
  increasing (map key (insert_by key x l)).
Proof.
  induction l as [|y l IH]; intros Hinc Hx; simpl.
  { constructor; [constructor|constructor]. }
  inversion Hinc as [|? ? Hall Hl]; subst.
  assert (key x <> key y) as Hne.
  { intros E. apply Hx. rewrite E. by left. }
  destruct (Z.leb_spec (key x) (key y)) as [Hle|Hgt]; simpl.
  - constructor; [|done]. constructor; [lia|].
    eapply Forall_impl; [exact Hall|]. simpl. intros. lia.
  - constructor.
    + apply List.Forall_map.
      rewrite List.Forall_map in Hall. by apply insert_by_Forall.
    + apply IH; [done|]. intros H. apply Hx. by right.
Qed.

Lemma elem_of_insert_by {A} (key : A -> Z) (x y : A) (l : list A) :
  y ∈ insert_by key x l <-> y = x \/ y ∈ l.
Proof.
  induction l as [|z l IH]; simpl.
  - rewrite list_elem_of_singleton. split; [by left|].
    intros [?|H]; [done|by apply not_elem_of_nil in H].
  - destruct (Z.leb_spec (key x) (key z)).
    + by rewrite elem_of_cons.
    + rewrite !elem_of_cons, IH. tauto.
Qed.

Lemma elem_of_sort_by {A} (key : A -> Z) (y : A) (l : list A) :
  y ∈ sort_by key l <-> y ∈ l.
Proof.
  induction l as [|x l IH]; simpl; [done|].
  unfold sort_by in IH. by rewrite elem_of_insert_by, IH, elem_of_cons.
Qed.

Lemma sort_by_increasing {A} (key : A -> Z) (l : list A) :
  NoDup (map key l) -> increasing (map key (sort_by key l)).
Proof.
  induction l as [|x l IH]; intros Hnd; simpl; [constructor|].
  inversion Hnd as [|? ? Hx Hl]; subst.
  apply insert_by_increasing; [by apply IH|].
  intros H. apply Hx. apply elem_of_map_In in H as (y & Hy & Hin).
  apply elem_of_map_In. exists y. split; [done|].
  by apply (elem_of_sort_by key).
Qed.

(** The first rows of the ids not yet seen. *)
Lemma head_per_id_spec (l : list Row) :
  forall seen,
  NoDup (map row_id (head_per_id seen l))
  /\ (forall u, u ∈ map row_id (head_per_id seen l)
                <-> u ∈ map row_id l /\ u ∉ seen)
  /\ (forall r, r ∈ head_per_id seen l ->
        head (filter (fun r0 => row_id r0 = row_id r) l) = Some r).
Proof.
  induction l as [|r l IH]; intros seen; cbn [head_per_id map].
  { split; [constructor|]. split.
    - intros u. split; [intros H; by apply not_elem_of_nil in H|].
      intros [H _]. by apply not_elem_of_nil in H.
    - intros r H. by apply not_elem_of_nil in H. }
  destruct (decide (row_id r ∈ seen)) as [Hs|Hs].
  - destruct (IH seen) as (Hnd & Hmem & Hfirst).
    split; [done|]. split.
    + intros u. rewrite Hmem, elem_of_cons. split; [tauto|].
      intros [[->|H] Hn]; [done|tauto].
    + intros r0 Hr0.
      assert (row_id r0 ∉ seen) as Hn.
      { apply (Hmem (row_id r0)). apply elem_of_map_In. by exists r0. }
      rewrite filter_cons_False by (intros E; rewrite E in Hs; done).
      by apply Hfirst.
  - destruct (IH (row_id r :: seen)) as (Hnd & Hmem & Hfirst).
    cbn [map]. split.
    { constructor; [|done]. intros H. apply Hmem in H as [_ H].
      apply H. by left. }
    split.
    + intros u. rewrite !elem_of_cons, Hmem, elem_of_cons.
      split.
      * intros [->|[H1 H2]]; [split; [by left|done]|].
        split; [by right|]. intros H. apply H2. by right.
      * intros [[->|H1] H2]; [by left|].
        destruct (decide (u = row_id r)) as [->|Hne]; [by left|].
        right. split; [done|]. intros [?|?]; done.
    + intros r0 Hr0. apply elem_of_cons in Hr0 as [->|Hr0].
      * by rewrite filter_cons_True.
      * assert (row_id r0 <> row_id r) as Hne.
        { intros E. 
          assert (row_id r0 ∈ map row_id (head_per_id (row_id r :: seen) l))
            as H by (apply elem_of_map_In; by exists r0).
          apply Hmem in H as [_ H]. apply H. rewrite E. by left. }
        rewrite filter_cons_False by (intros E; by rewrite E in Hne).
        by apply Hfirst.
Qed.

(** Sorted by id, the first rows are in the order of the ids of the
    frame. *)
Lemma head_per_id_sorted (l : list Row) :
  map row_id (sort_by row_id (head_per_id [] l))
  = unique_sorted (map row_id l).
Proof.
  destruct (head_per_id_spec l []) as (Hnd & Hmem & _).
  apply increasing_ext.
  - apply sort_by_increasing, Hnd.
  - apply unique_sorted_increasing.
  - intros u. rewrite elem_of_unique_sorted.
    transitivity (u ∈ map row_id (head_per_id [] l)).
    + rewrite !elem_of_map_In. split; intros (r & E & Hr); exists r;
        (split; [done|]); by apply (elem_of_sort_by row_id).
    + rewrite Hmem. split; [tauto|]. intros H. split; [done|].
      apply not_elem_of_nil.
Qed.

(** X13: the dataset that [setup] builds from a file with static columns
    has exactly one static row per series, in the order of the series:
    row [i] holds the static columns of the first row of the [i]-th id.
    Every index below [n_groups] therefore has its item. *)
Theorem setup_static_rows (read_parquet : string -> result DataFrame)
    (rank : Z) (files_ds : _FilesDataset) (path : string) (df : DataFrame)
    (static_cols0 : list string) (d : TimeSeriesDataset) :
  list_getitem (files files_ds) rank = Ok path ->
  read_parquet path = Ok df ->
  fd_static_cols files_ds = Some static_cols0 ->
  setup read_parquet rank files_ds = Ok d ->
  exists s,
    static d = Some s /\ static_cols d = Some static_cols0
    /\ Z.of_nat (nrows s) = n_groups d /\ mat_wf s
    /\ (forall (i : nat) (u : Z),
          frame_ids df !! i = Some u ->
          exists r,
            head (filter (fun r0 => row_id r0 = u) (rows df)) = Some r
            /\ mrows s !! i = Some (map (row_get r) static_cols0))
    /\ (forall idx, (0 <= idx < n_groups d)%Z ->
          exists item, __getitem__ d (IdxInt idx) = Ok item).
Proof.
  intros Hpath Hread Hsc Hrun. unfold setup in Hrun.
  rewrite Hpath, bind_Ok_l, Hread, bind_Ok_l, Hsc in Hrun.
  unfold select_columns, drop_columns in Hrun.
  destruct (decide (Forall _ static_cols0)) as [Hall|]; [|discriminate].
  rewrite !bind_Ok_l in Hrun. cbn [value_cols rows] in Hrun.
  apply bind_Ok in Hrun as ([[[d0 ids] dates] ds] & Hdf & Hret).
  injection Hret as ->.
  pose proof (from_df_ok _ _ _ _ _ _ _ Hdf) as Hok.
  pose proof (from_df_aligned _ _ _ _ _ _ _ Hdf) as Hal.
  pose proof (from_df_nonempty _ _ _ _ _ _ _ Hdf) as Hne.
  pose proof Hok as [Hinit Hinv].
  apply from_df_Ok_inv in Hdf as (p & data & cols & Hproc & _ & Hd).
  apply process_df_Ok_inv in Hproc as (_ & Hip & _ & _).
  apply init_Ok in Hd as (_ & _ & Hi & _ & Hst & Hstc & _).
  cbn [_extract_static_features fst snd static_names static_rows] in Hst, Hstc.
  set (L := sort_by row_id (head_per_id [] (rows df))).
  rewrite (sort_by_map (fun r => (row_id r, row_vals r)) row_id fst) in Hst
    by done.
  fold L in Hst. rewrite map_map in Hst. cbn [snd] in Hst.
  pose proof (head_per_id_sorted (rows df)) as Hids. fold L in Hids.
  change (unique_sorted (map row_id (rows df))) with (frame_ids df) in Hids.
  assert (length (frame_groups
            {| value_cols := filter (fun c => c ∉ static_cols0) (value_cols df);
               rows := rows df |}) = length (frame_ids df)) as Hgl.
  { unfold frame_groups. by rewrite length_map. }
  eexists. split; [exact Hst|]. split; [done|].
  assert (Z.of_nat (length L) = n_groups d) as Hn.
  { rewrite (init_n_groups d Hinit), Hi, Hip, length_offsets, length_map, Hgl.
    rewrite <- Hids, length_map. lia. }
  split; [unfold nrows; cbn [mrows]; by rewrite length_map|].
  split.
  { unfold mat_wf. cbn [ncols mrows]. apply List.Forall_map, Forall_forall.
    intros r _. by rewrite length_map. }
  split.
  - intros i u Hu. rewrite <- Hids in Hu.
    change (map row_id L) with (row_id <$> L) in Hu.
    rewrite list_lookup_fmap in Hu.
    destruct (L !! i) as [r|] eqn:Hr; [|done]. injection Hu as <-.
    exists r. split.
    + destruct (head_per_id_spec (rows df) []) as (_ & _ & Hfirst).
      apply Hfirst. apply (elem_of_sort_by row_id).
      by eapply list_elem_of_lookup_2.
    + cbn [mrows].
      change (map ?f L) with (f <$> L). by rewrite list_lookup_fmap, Hr.
  - intros idx Hidx.
    destruct (getitem_item d idx Hok Hal Hne Hidx) as (t & st & Hitem & _).
    { unfold static_covers. rewrite Hst. unfold nrows. cbn [mrows].
      rewrite length_map. lia. }
    eauto.
Qed.

(** ** Datasets on local files: the scan of the directories *)

Lemma for_in_invariant {A St} (body : A -> St -> result St)
    (I : list A -> St -> Prop) :
  (forall done x s s', I done s -> body x s = Ok s' -> I (done ++ [x]) s') ->
  forall xs done s s',
  I done s -> for_in body xs s = Ok s' -> I (done ++ xs) s'.
Proof.
  intros Hstep. induction xs as [|x xs IH]; intros done s s' HI Hrun.
  - simpl in Hrun. injection Hrun as <-. by rewrite app_nil_r.
  - simpl in Hrun. apply bind_Ok in Hrun as (s1 & H1 & Hrun).
    rewrite (cons_middle x done xs), (assoc_L (++)).
    eapply IH; [|exact Hrun]. by eapply Hstep.
Qed.

Lemma dom_col2pos (rg : RowGroupMetaData) (c : string) :
  c ∈ dom (col2pos_of rg) <-> c ∈ map path_in_schema (rg_columns rg).
Proof.
  unfold col2pos_of.
  assert (forall (l : list ColumnChunkMetaData) (k : nat) (m : gmap string nat),
    c ∈ dom (foldl (fun m p => <[path_in_schema p.2 := p.1]> m) m
               (zip (seq k (length l)) l))
    <-> c ∈ dom m \/ c ∈ map path_in_schema l) as H.
  { induction l as [|x l IH]; intros k m; simpl.
    - split; [by left|]. intros [?|H]; [done|by apply not_elem_of_nil in H].
    - rewrite IH, dom_insert, elem_of_union, elem_of_singleton, elem_of_cons.
      tauto. }
  rewrite H, dom_empty. split; [|by right].
  intros [Hc|?]; [|done]. by apply elem_of_empty in Hc.
Qed.

Lemma row_group_head (meta : FileMetaData) (rg : RowGroupMetaData) :
  row_group meta 0 = Ok rg -> head (row_groups meta) = Some rg.
Proof.
  unfold row_group. simpl. destruct (row_groups meta) as [|x l]; [done|].
  simpl. by intros [= ->].
Qed.

Lemma has_column_dom (c : string) (meta : FileMetaData) rg :
  row_group meta 0 = Ok rg ->
  has_column c meta <-> c ∈ dom (col2pos_of rg).
Proof.
  intros H. apply row_group_head in H. unfold has_column.
  destruct (row_groups meta) as [|x l]; [done|]. injection H as ->.
  by rewrite dom_col2pos.
Qed.

(** One file of the scan. *)
Lemma scan_file_Ok (time_col : string) (meta : FileMetaData) (st st' : scan) :
  scan_file time_col meta st = Ok st' ->
  has_column time_col meta
  /\ (forall c, c ∈ sc_expected_temporal st -> has_column c meta)
  /\ sc_total_rows st' = (sc_total_rows st + zsum_rows meta)%Z
  /\ sc_max_size st' = sc_max_size st /\ sc_min_size st' = sc_min_size st
  /\ sc_last_times st' = sc_last_times st /\ sc_ids st' = sc_ids st
  /\ (if decide (has_column "available_mask" meta)
      then sc_available_mask_seen st = true
           /\ sc_available_mask_seen st' = true
           /\ sc_expected_temporal st'
              = sc_expected_temporal st ∪ {["available_mask"]}
      else sc_available_mask_seen st' = false
           /\ sc_expected_temporal st' = sc_expected_temporal st).
Proof.
  unfold scan_file. intros H.
  apply bind_Ok in H as (rg & Hrg & H).
  apply bind_Ok in H as (last_rg & _ & H).
  apply bind_Ok in H as (pos & Hpos & H).
  apply bind_Ok in H as (chunk & _ & H).
  apply bind_Ok in H as (ltf & _ & H).
  destruct (decide (_ ≠ ∅)) as [|Hmiss]; [done|].
  apply dec_stable in Hmiss.
  pose proof (has_column_dom "available_mask" meta rg Hrg) as Hm.
  split.
  { apply (has_column_dom _ _ _ Hrg), elem_of_dom.
    destruct (col2pos_of rg !! time_col); [eauto|done]. }
  split.
  { intros c Hc. apply (has_column_dom _ _ _ Hrg).
    destruct (decide (c ∈ dom (col2pos_of rg))) as [|Hn]; [done|].
    exfalso. assert (c ∈ sc_expected_temporal st ∖ dom (col2pos_of rg)) as Hin
      by set_solver.
    rewrite Hmiss in Hin. by apply elem_of_empty in Hin. }
  destruct (decide ("available_mask" ∉ dom (col2pos_of rg))) as [Hno|Hyes].
  - injection H as <-. cbn. rewrite decide_False by (by rewrite Hm). done.
  - apply dec_stable in Hyes.
    destruct (sc_available_mask_seen st) eqn:Hseen; [|done].
    injection H as <-. cbn. rewrite decide_True by (by rewrite Hm). done.
Qed.

Lemma scan_file_mask (time_col : string) (base : gset string)
    (seen : list FileMetaData) (meta : FileMetaData) (st st' : scan) :
  mask_invariant time_col base seen (sc_expected_temporal st)
                 (sc_available_mask_seen st) ->
  scan_file time_col meta st = Ok st' ->
  mask_invariant time_col base (seen ++ [meta]) (sc_expected_temporal st')
                 (sc_available_mask_seen st').
Proof.
  intros (Hbase & Hexp & Hcols & Hflag) Hrun.
  apply scan_file_Ok in Hrun
    as (Htime & Hhas & _ & _ & _ & _ & _ & Hmask).
  assert (Forall (fun meta0 => has_column time_col meta0
                    /\ forall c, c ∈ base -> has_column c meta0)
                 (seen ++ [meta])) as Hcols'.
  { apply Forall_app. split; [done|]. constructor; [|constructor].
    split; [done|]. intros c Hc. apply Hhas. set_solver. }
  destruct (decide (has_column "available_mask" meta)) as [Hm|Hm].
  - destruct Hmask as (Hs & -> & ->). rewrite Hs in Hflag.
    destruct Hflag as [Hall Hiff].
    split; [set_solver|]. split; [set_solver|]. split; [done|].
    split.
    + apply Forall_app. split; [done|]. by constructor.
    + split; [intros _; left; by destruct seen|set_solver].
  - destruct Hmask as (-> & ->).
    split; [done|]. split; [done|]. split; [done|].
    split; [by destruct seen|].
    assert ("available_mask" ∉ sc_expected_temporal st) as Hnot.
    { intros Hin. by apply Hm, Hhas. }
    split; [|done].
    apply Forall_app. split; [|by constructor].
    destruct (sc_available_mask_seen st).
    + destruct Hflag as [Hall Hiff].
      destruct seen as [|x seen]; [constructor|].
      exfalso. apply Hnot, Hiff. by left.
    + by destruct Hflag as (_ & Hall & _).
Qed.

(** The files of one directory. *)
Lemma scan_files_run (time_col : string) (base : gset string)
    (fls : list FileMetaData) :
  forall (seen : list FileMetaData) (st st' : scan),
  mask_invariant time_col base seen (sc_expected_temporal st)
                 (sc_available_mask_seen st) ->
  for_in (scan_file time_col) fls st = Ok st' ->
  mask_invariant time_col base (seen ++ fls) (sc_expected_temporal st')
                 (sc_available_mask_seen st')
  /\ sc_total_rows st' = (sc_total_rows st + zsum (map zsum_rows fls))%Z
  /\ sc_max_size st' = sc_max_size st /\ sc_min_size st' = sc_min_size st
  /\ sc_last_times st' = sc_last_times st /\ sc_ids st' = sc_ids st.
Proof.
  induction fls as [|meta fls IH]; intros seen st st' Hinv Hrun.
  - simpl in Hrun. injection Hrun as <-. rewrite app_nil_r. simpl.
    split; [done|]. split; [lia|done].
  - simpl in Hrun. apply bind_Ok in Hrun as (s1 & H1 & Hrun).
    pose proof (scan_file_mask _ _ _ _ _ _ Hinv H1) as Hinv1.
    apply scan_file_Ok in H1 as (_ & _ & Ht & Hmx & Hmn & Hlt & Hid & _).
    destruct (IH _ _ _ Hinv1 Hrun) as (Hinv' & Ht' & Hmx' & Hmn' & Hlt' & Hid').
    rewrite (cons_middle meta seen fls), (assoc_L (++)).
    split; [done|]. simpl. split; [lia|]. repeat split; congruence.
Qed.

(** One directory. *)
Lemma scan_dir_Ok (fs : string -> DirEntry) (time_col : string)
    (base : gset string) (seen : list FileMetaData) (dir : string)
    (st st' : scan) :
  mask_invariant time_col base seen (sc_expected_temporal st)
                 (sc_available_mask_seen st) ->
  scan_dir fs time_col dir st = Ok st' ->
  is_dir (fs dir) = true
  /\ mask_invariant time_col base (seen ++ parquet_files (fs dir))
                    (sc_expected_temporal st') (sc_available_mask_seen st')
  /\ sc_max_size st' = Z.max (dir_rows fs dir) (sc_max_size st)
  /\ sc_min_size st' = size_min (dir_rows fs dir) (sc_min_size st)
  /\ sc_ids st' = sc_ids st ++ [after_last equals_sign (dir_name (fs dir))]
  /\ length (sc_last_times st') = S (length (sc_last_times st)).
Proof.
  intros Hinv Hrun. unfold scan_dir in Hrun.
  destruct (is_dir (fs dir)); [|done]. cbn [negb] in Hrun.
  apply bind_Ok in Hrun as (s1 & H1 & Hrun). injection Hrun as <-.
  apply (scan_files_run time_col base _ seen) in H1
    as (Hinv' & Ht & Hmx & Hmn & Hlt & Hid); [|done].
  cbn in *. split; [done|]. split; [done|].
  unfold dir_rows. rewrite Ht, Hmx, Hmn, Hid, Hlt, length_app. simpl.
  repeat split; try done; lia.
Qed.

Lemma listed_files_snoc fs (dirs : list string) (dir : string) :
  listed_files fs (dirs ++ [dir])
  = listed_files fs dirs ++ parquet_files (fs dir).
Proof.
  unfold listed_files. rewrite map_app, concat_app. simpl.
  by rewrite app_nil_r.
Qed.

(** The whole scan. *)
Lemma scan_dirs_run (fs : string -> DirEntry) (time_col : string)
    (base : gset string) (dirs : list string) (st : scan) :
  for_in (scan_dir fs time_col) dirs
    {| sc_max_size := 0; sc_min_size := Inf; sc_last_times := [];
       sc_ids := []; sc_expected_temporal := base;
       sc_available_mask_seen := true; sc_last_time := None;
       sc_total_rows := 0 |} = Ok st ->
  Forall (fun dir => is_dir (fs dir) = true) dirs
  /\ mask_invariant time_col base (listed_files fs dirs)
                    (sc_expected_temporal st) (sc_available_mask_seen st)
  /\ sc_ids st = map (fun dir => after_last equals_sign (dir_name (fs dir))) dirs
  /\ length (sc_last_times st) = length dirs
  /\ Forall (fun dir => (dir_rows fs dir <= sc_max_size st)%Z) dirs
  /\ (sc_max_size st = 0%Z
      \/ exists dir, dir ∈ dirs /\ sc_max_size st = dir_rows fs dir)
  /\ match sc_min_size st with
     | Inf => dirs = []
     | Fin m => (exists dir, dir ∈ dirs /\ m = dir_rows fs dir)
                /\ Forall (fun dir => (m <= dir_rows fs dir)%Z) dirs
     end.
Proof.
  intros Hrun.
  apply (for_in_invariant (scan_dir fs time_col)
    (fun dirs st =>
       Forall (fun dir => is_dir (fs dir) = true) dirs
       /\ mask_invariant time_col base (listed_files fs dirs)
            (sc_expected_temporal st) (sc_available_mask_seen st)
       /\ sc_ids st
          = map (fun dir => after_last equals_sign (dir_name (fs dir))) dirs
       /\ length (sc_last_times st) = length dirs
       /\ Forall (fun dir => (dir_rows fs dir <= sc_max_size st)%Z) dirs
       /\ (sc_max_size st = 0%Z
           \/ exists dir, dir ∈ dirs /\ sc_max_size st = dir_rows fs dir)
       /\ match sc_min_size st with
          | Inf => dirs = []
          | Fin m => (exists dir, dir ∈ dirs /\ m = dir_rows fs dir)
                     /\ Forall (fun dir => (m <= dir_rows fs dir)%Z) dirs
          end) ) with (xs := dirs) (done := []) in Hrun; [done| |].
  - clear. intros done dir s s' (Hd & Hinv & Hids & Hlt & Hmax & Hmaxin & Hmin) Hrun.
    apply (scan_dir_Ok fs time_col base _ _ _ _ Hinv) in Hrun
      as (Hdir & Hinv' & Hmx & Hmn & Hid & Hl).
    split; [apply Forall_app; split; [done|by constructor]|].
    split; [by rewrite listed_files_snoc|].
    split; [by rewrite Hid, Hids, map_app|].
    split; [rewrite Hl, Hlt, length_app; simpl; lia|].
    split.
    { apply Forall_app. split.
      - eapply Forall_impl; [exact Hmax|]. simpl. intros. lia.
      - constructor; [lia|constructor]. }
    split.
    { rewrite Hmx.
      destruct (Z.max_spec (dir_rows fs dir) (sc_max_size s)) as [[_ ->]|[_ ->]].
      - destruct Hmaxin as [?|(x & Hx & ?)]; [by left|].
        right. exists x. split; [|done]. apply elem_of_app. by left.
      - right. exists dir. split; [|done]. apply elem_of_app. right. by left. }
    rewrite Hmn. destruct (sc_min_size s) as [|m]; simpl.
    + subst done. split; [exists dir; split; [by left|done]|].
      constructor; [lia|constructor].
    + destruct Hmin as [(x & Hx & Hm) Hall]. split.
      * destruct (Z.min_spec (dir_rows fs dir) m) as [[_ ->]|[_ ->]].
        -- exists dir. split; [|done]. apply elem_of_app. right. by left.
        -- exists x. split; [|done]. apply elem_of_app. by left.
      * apply Forall_app. split.
        -- eapply Forall_impl; [exact Hall|]. simpl. intros. lia.
        -- constructor; [lia|constructor].
  - split; [constructor|]. split.
    { unfold mask_invariant, listed_files. simpl.
      split; [done|]. split; [by left|]. split; [constructor|].
      split; [constructor|]. split; [by right|]. intros [?|?]; done. }
    split; [done|]. split; [done|]. split; [constructor|]. split; [by left|].
    done.
Qed.

Lemma after_last_no_sep (c : Ascii.ascii) (s : string) :
  str_contains c (after_last c s) = false.
Proof.
  induction s as [|a rest IH]; [done|]. cbn [after_last].
  destruct (str_contains c rest) eqn:Hrest; [done|].
  destruct (decide (a = c)) as [->|Hne]; [done|].
  cbn [str_contains]. by rewrite decide_False.
Qed.

(** X14: when [from_data_directories] returns, every listed path is a
    directory and every parquet file in them has the time column, the
    target and the exogenous columns; the files agree on the mask column:
    either all have it, and it is the second temporal column, or none
    has it, and the temporal columns are the target and the exogenous
    ones. *)
Theorem from_data_directories_columns (fs : string -> DirEntry)
    (directories : list string) (static_df : option StaticFrame)
    (exogs : list string) (time_col target_col : string)
    (ds : LocalFilesTimeSeriesDataset) :
  from_data_directories fs directories static_df exogs time_col target_col
  = Ok ds ->
  target_col <> "available_mask" -> "available_mask" ∉ exogs ->
  Forall (fun dir => is_dir (fs dir) = true) directories
  /\ Forall (fun meta => has_column time_col meta
                         /\ has_column target_col meta
                         /\ Forall (fun c => has_column c meta) exogs)
            (listed_files fs directories)
  /\ ((listed_files fs directories <> []
       /\ Forall (has_column "available_mask") (listed_files fs directories)
       /\ lf_temporal_cols ds = target_col :: "available_mask" :: exogs)
      \/ (Forall (fun meta => ~ has_column "available_mask" meta)
                 (listed_files fs directories)
          /\ lf_temporal_cols ds = target_col :: exogs)).
Proof.
  unfold from_data_directories.
  destruct (_extract_static_features static_df) as [st0 sc0].
  intros Hrun Htarget Hexogs.
  apply bind_Ok in Hrun as (st & Hscan & Hret). injection Hret as <-.
  apply scan_dirs_run in Hscan as (Hdirs & Hinv & _).
  destruct Hinv as (Hbase & Hexp & Hcols & Hflag).
  assert ("available_mask" ∉ ({[target_col]} ∪ list_to_set exogs : gset string))
    as Hnot.
  { rewrite elem_of_union, elem_of_singleton, elem_of_list_to_set.
    intros [?|?]; done. }
  split; [done|]. split.
  { eapply Forall_impl; [exact Hcols|]. intros meta [Ht Hb]. simpl in *.
    split; [done|]. split; [apply Hb; set_solver|].
    apply Forall_forall. intros c Hc. apply Hb.
    apply elem_of_union. right. by apply elem_of_list_to_set. }
  cbn [lf_temporal_cols LocalFilesTimeSeriesDataset_init].
  destruct (sc_available_mask_seen st).
  - destruct Hflag as [Hall Hiff].
    destruct (decide ("available_mask" ∈ sc_expected_temporal st)) as [Hin|Hin].
    + left. apply Hiff in Hin as [Hne|?]; done.
    + right. split; [|done].
      destruct (listed_files fs directories) as [|x l]; [constructor|].
      exfalso. apply Hin, Hiff. by left.
  - destruct Hflag as (_ & Hall & Hin). right.
    by rewrite decide_False.
Qed.

(** X15: the dataset that [from_data_directories] returns has one group
    per directory; its ids are what follows the last [=] of the directory
    names; [max_size] bounds the rows of every directory and is the rows
    of one of them (or 0); [min_size] is the rows of the smallest
    directory, and stays infinite only when no directory is listed. *)
Theorem from_data_directories_sizes (fs : string -> DirEntry)
    (directories : list string) (static_df : option StaticFrame)
    (exogs : list string) (time_col target_col : string)
    (ds : LocalFilesTimeSeriesDataset) :
  from_data_directories fs directories static_df exogs time_col target_col
  = Ok ds ->
  lf_files_ds ds = directories
  /\ lf_n_groups ds = Z.of_nat (length directories)
  /\ lf_indices ds
     = map (fun dir => after_last equals_sign (dir_name (fs dir))) directories
  /\ Forall (fun uid => str_contains equals_sign uid = false) (lf_indices ds)
  /\ length (lf_last_times ds) = length directories
  /\ Forall (fun dir => (dir_rows fs dir <= lf_max_size ds)%Z) directories
  /\ (lf_max_size ds = 0%Z
      \/ exists dir, dir ∈ directories /\ lf_max_size ds = dir_rows fs dir)
  /\ match lf_min_size ds with
     | Inf => directories = []
     | Fin m =>
         (exists dir, dir ∈ directories /\ m = dir_rows fs dir)
         /\ Forall (fun dir => (m <= dir_rows fs dir)%Z) directories
         /\ (m <= lf_max_size ds)%Z
     end.
Proof.
  unfold from_data_directories.
  destruct (_extract_static_features static_df) as [st0 sc0].
  intros Hrun.
  apply bind_Ok in Hrun as (st & Hscan & Hret). injection Hret as <-.
  apply scan_dirs_run in Hscan as (_ & _ & Hids & Hlt & Hmax & Hmaxin & Hmin).
  cbn. split; [done|]. split; [done|]. split; [done|].
  split.
  { rewrite Hids. apply List.Forall_map, Forall_forall. intros dir _.
    apply after_last_no_sep. }
  split; [done|]. split; [done|]. split; [done|].
  destruct (sc_min_size st) as [|m]; [done|].
  destruct Hmin as [(dir & Hdir & ->) Hall].
  split; [eauto|]. split; [done|].
  rewrite Forall_forall in Hmax. by apply Hmax.
Qed.

Lemma np_getitem_in_range {A} (l : list A) (i : Z) :
  (- Z.of_nat (length l) <= i < Z.of_nat (length l))%Z ->
  exists x, np_getitem l i = Ok x.
Proof.
  intros Hi. destruct (Z.ltb_spec i 0).
  - rewrite np_getitem_neg by lia.
    destruct (np_getitem_Ok l (i + Z.of_nat (length l))) as (x & _ & Hx);
      [lia|eauto].
  - destruct (np_getitem_Ok l i) as (x & _ & Hx); [lia|eauto].
Qed.

(** X16: [LocalFilesTimeSeriesDataset.__getitem__] on a file that holds
    between 1 and [max_size] rows returns the rows transposed and
    left-padded with zeros to [max_size] columns, after the mask column
    was added when the dataset has none; a file with no row, or with more
    rows than [max_size], raises RuntimeError. *)
Theorem local_getitem_padded
    (read_parquet : string -> list string -> result Matrix)
    (self : LocalFilesTimeSeriesDataset) (idx : Z) (path : string)
    (data : Matrix) :
  list_getitem (lf_files_ds self) idx = Ok path ->
  read_parquet path (lf_temporal_cols self) = Ok data ->
  ncols data = length (lf_temporal_cols self) ->
  ((0 < Z.of_nat (nrows data) <= lf_max_size self)%Z ->
   (forall s, lf_static self = Some s ->
              (- Z.of_nat (nrows s) <= idx < Z.of_nat (nrows s))%Z) ->
   exists item t data1 cols1,
     _ensure_available_mask data (lf_temporal_cols self) = Ok (data1, cols1)
     /\ local_getitem read_parquet self (IdxInt idx) = Ok item
     /\ item !! "temporal" = Some (LTensor (Arr2 t))
     /\ item !! "temporal_cols" = Some (LIndex cols1)
     /\ left_padded t (length cols1) (Z.to_nat (lf_max_size self))
                    (mrows data1))
  /\ ((nrows data = 0 /\ (0 < lf_max_size self)%Z
       \/ (lf_max_size self < Z.of_nat (nrows data))%Z /\ 2 <= nrows data) ->
      local_getitem read_parquet self (IdxInt idx) = Raise RuntimeError).
Proof.
  intros Hpath Hread Hcols.
  assert (exists data1 cols1,
    _ensure_available_mask data (lf_temporal_cols self) = Ok (data1, cols1)
    /\ ncols data1 = length cols1 /\ nrows data1 = nrows data)
    as (data1 & cols1 & Hmask & Hc1 & Hr1).
  { destruct (decide ("available_mask" ∈ lf_temporal_cols self)) as [H|H].
    - rewrite ensure_mask_present by done. eauto.
    - rewrite ensure_mask_absent by done. eexists _, _. split; [done|].
      cbn [ncols]. rewrite length_app. simpl. split; [lia|].
      unfold nrows. cbn [mrows]. by rewrite length_map. }
  unfold local_getitem. rewrite Hpath, bind_Ok_l, Hread, bind_Ok_l, Hmask.
  rewrite bind_Ok_l. unfold _as_torch_copy. split.
  - intros Hrows Hstatic.
    destruct (pad_left_spec data1 (length cols1) (Z.to_nat (lf_max_size self)))
      as (t & Ht & Hpad); [done|lia|lia|].
    rewrite Z2Nat.id in Ht by lia.
    assert (exists st, match lf_static self with
                       | None => Ok LNone
                       | Some s => r ← tensor_row s idx; Ok (LTensor (Arr1 r))
                       end = Ok st) as [st Hst].
    { destruct (lf_static self) as [s|]; [|eauto].
      destruct (np_getitem_in_range (mrows s) idx) as [r Hr].
      { apply (Hstatic s eq_refl). }
      apply np_getitem_list in Hr.
      unfold tensor_row. rewrite Hr. eauto. }
    eexists _, t, data1, cols1. split; [done|]. split.
    { apply bind_Ok in Ht as (z & Hz & Ht). rewrite Hz, bind_Ok_l, Ht, bind_Ok_l.
      rewrite Hst, bind_Ok_l. reflexivity. }
    split; [by rewrite lookup_insert_eq|]. split; [|done].
    rewrite lookup_insert_ne by done. by rewrite lookup_insert_eq.
  - intros Hbad. unfold torch_zeros, full.
    destruct ((Z.of_nat (length cols1) <? 0)%Z || (lf_max_size self <? 0)%Z)
      eqn:Hneg; [done|].
    apply orb_false_elim in Hneg as [_ Hm]. apply Z.ltb_ge in Hm.
    rewrite bind_Ok_l. unfold setitem_block.
    destruct (slice_bounds None _ _) as [rlo rhi].
    cbn [ncols nrows mrows permute10].
    assert (slice_bounds (Some (- Z.of_nat (nrows data1))%Z) None
              (Z.to_nat (lf_max_size self))
            = (0, Z.to_nat (lf_max_size self))) as ->.
    { unfold slice_bounds, norm_index. rewrite Hr1.
      destruct (Z.ltb_spec (- Z.of_nat (nrows data)) 0).
      - f_equal; lia.
      - f_equal; lia. }
    assert (broadcastable (nrows data1)
              (Z.to_nat (lf_max_size self) - 0) = false) as ->.
    { rewrite Hr1. unfold broadcastable.
      destruct (Nat.eqb_spec (nrows data) (Z.to_nat (lf_max_size self) - 0));
        destruct (Nat.eqb_spec (nrows data) 1); try done; lia. }
    by rewrite andb_false_r.
Qed.

(** ** The constructor on degenerate input; sizes after [append] *)

(** X17: the constructor checks nothing but the number of groups: it
    raises ValueError (from the maximum of an empty array) exactly when
    [indptr] has fewer than two entries, and returns a dataset for every
    other input, whether or not [indptr] fits [temporal]; every
    difference of neighbouring entries, computed in the integer type of
    [indptr], then lies between [min_size] and [max_size]. *)
Theorem init_requires_group (temporal0 : Matrix) (cols : list string)
    (indptr0 : list Z) (dt : int_dtype) (y : Z) (st : option Matrix)
    (sc : option (list string)) :
  (length indptr0 < 2 <->
   TimeSeriesDataset_init temporal0 cols indptr0 dt y st sc
   = Raise ValueError)
  /\ (2 <= length indptr0 <->
      exists d, TimeSeriesDataset_init temporal0 cols indptr0 dt y st sc = Ok d
                /\ n_groups d = (Z.of_nat (length indptr0) - 1)%Z
                /\ (forall i a b, indptr0 !! i = Some a ->
                                  indptr0 !! S i = Some b ->
                                  (min_size d <= int_sub dt b a
                                   <= max_size d)%Z)).
Proof.
  assert (length indptr0 < 2 ->
          TimeSeriesDataset_init temporal0 cols indptr0 dt y st sc
          = Raise ValueError) as Hlt.
  { intros H. destruct indptr0 as [|a [|b tl]]; simpl in H; try lia; done. }
  split.
  - split; [done|]. intros Hr.
    destruct (Nat.lt_ge_cases (length indptr0) 2) as [|Hge]; [done|].
    destruct (init_total temporal0 cols indptr0 dt y st sc Hge) as [d Hd].
    congruence.
  - split.
    + intros Hge.
      destruct (init_total temporal0 cols indptr0 dt y st sc Hge) as [d Hd].
      exists d. split; [done|].
      apply init_Ok in Hd
        as (_ & _ & Hip & _ & _ & _ & _ & Hdt & [Hn Hmax Hmin]).
      rewrite Hip in Hn, Hmax, Hmin. rewrite Hdt in Hmax, Hmin.
      split; [done|]. intros i a b Ha Hb.
      assert (np_diff dt indptr0 !! i = Some (int_sub dt b a)) as Hdiff.
      { unfold np_diff. change (map ?f ?l) with (f <$> l).
        by rewrite list_lookup_fmap, (differences_lookup _ _ _ _ Ha Hb). }
      apply list_elem_of_lookup_2 in Hdiff.
      pose proof (np_max_ge _ _ Hmax) as Hge'.
      pose proof (np_min_le _ _ Hmin) as Hle'.
      rewrite Forall_forall in Hge', Hle'.
      specialize (Hge' _ Hdiff). specialize (Hle' _ Hdiff). simpl in *. lia.
    + intros (d & Hd & _).
      destruct (Nat.lt_ge_cases (length indptr0) 2) as [Hl|]; [|done].
      rewrite (Hlt Hl) in Hd. done.
Qed.

(** X18: after [append] of consistent datasets whose rows together are
    at most the largest value of the integer type of the summed
    [indptr], every series has the rows of both inputs together,
    whatever the columns: the number of groups is that of [self],
    [min_size] is at least and [max_size] at most the sum of the inputs',
    and columns, static features and [y_idx] are those of [self]. *)
Theorem append_sizes (mem : nat -> float32)
    (self futr d : TimeSeriesDataset) :
  dataset_ok self -> dataset_ok futr ->
  (Z.of_nat (nrows (temporal self)) + Z.of_nat (nrows (temporal futr))
   <= int_max (promote (indptr_dtype self) (indptr_dtype futr)))%Z ->
  append mem self futr = Ok d ->
  n_groups d = n_groups self
  /\ (forall i : nat, (Z.of_nat i < n_groups self)%Z ->
        zlength (series d i)
        = (zlength (series self i) + zlength (series futr i))%Z)
  /\ (min_size self + min_size futr <= min_size d)%Z
  /\ (max_size d <= max_size self + max_size futr)%Z
  /\ temporal_cols d = temporal_cols self
  /\ static d = static self /\ static_cols d = static_cols self
  /\ y_idx d = y_idx self.
Proof.
  intros Hs Hf Hfit Hrun.
  destruct (append_exact _ _ _ _ Hs Hf Hrun Hfit) as [Hip Hd].
  apply append_shape in Hrun
    as (Hlen & _ & _ & _ & Htc & Hy & Hst & Hsc & _ & _).
  destruct Hs as [His Hvs], Hf as [Hif Hvf], Hd as [Hid Hvd].
  assert (n_groups d = n_groups self) as Hn.
  { rewrite (init_n_groups d Hid), (init_n_groups self His), Hip.
    rewrite length_zip_with. lia. }
  assert (n_groups futr = n_groups self) as Hnf.
  { rewrite (init_n_groups futr Hif), (init_n_groups self His). lia. }
  pose proof (zip_with_add_diff (indptr self) (indptr futr)) as Hdiff.
  rewrite <- Hip in Hdiff.
  pose proof (np_min_le _ _ (init_min_size self His)) as Hmins.
  pose proof (np_min_le _ _ (init_min_size futr Hif)) as Hminf.
  pose proof (np_max_ge _ _ (init_max_size self His)) as Hmaxs.
  pose proof (np_max_ge _ _ (init_max_size futr Hif)) as Hmaxf.
  rewrite Forall_forall in Hmins, Hminf, Hmaxs, Hmaxf.
  split; [done|]. split.
  { intros i Hi.
    pose proof (series_length_diff d i Hvd ltac:(lia)) as H1.
    pose proof (series_length_diff self i Hvs Hi) as H2.
    pose proof (series_length_diff futr i Hvf ltac:(lia)) as H3.
    rewrite Hdiff, lookup_zip_with, H2, H3 in H1. simpl in H1. congruence. }
  split.
  { pose proof (np_min_elem _ _ (init_min_size d Hid)) as Hin.
    rewrite Hdiff in Hin.
    apply elem_of_zip_with in Hin as (a & b & -> & Ha & Hb).
    specialize (Hmins a Ha). specialize (Hminf b Hb). lia. }
  split.
  { pose proof (np_max_elem _ _ (init_max_size d Hid)) as Hin.
    rewrite Hdiff in Hin.
    apply elem_of_zip_with in Hin as (a & b & -> & Ha & Hb).
    specialize (Hmaxs a Ha). specialize (Hmaxf b Hb). lia. }
  done.
Qed.

(** ** Collating tensors *)

Lemma sequence_raise {A B} (f : A -> result B) (e : exn) (l : list A) :
  Forall (fun x => is_Some (match f x with Ok y => Some y | _ => None end)
                   \/ f x = Raise e) l ->
  Exists (fun x => f x = Raise e) l ->
  sequence (map f l) = Raise e.
Proof.
  induction l as [|x l IH]; intros Hall Hex; [by inversion Hex|].
  inversion Hall as [|? ? Hx Hl]; subst. simpl.
  destruct Hx as [[y Hy]|Hx].
  - destruct (f x) as [y'|] eqn:E; [|done]. rewrite bind_Ok_l.
    inversion Hex as [? ? Hbad|? ? Hrest]; subst; [congruence|].
    by rewrite IH.
  - by rewrite Hx.
Qed.

Lemma numel_raise (rest : list pyval) :
  Exists (fun v => as_tensor v = Raise TypeError) rest ->
  Forall (fun v => is_Some (match numel v with Ok y => Some y | _ => None end)
                   \/ numel v = Raise AttributeError) rest
  /\ Exists (fun v => numel v = Raise AttributeError) rest.
Proof.
  intros Hex. split.
  - apply Forall_forall. intros v _. destruct v; simpl; eauto.
  - eapply Exists_impl; [exact Hex|]. intros v Hv. by destruct v.
Qed.

(** X19: [_collate_fn] on tensors, in a worker process or in the main
    one: a batch of tensors of one shape becomes their stack, with the
    batch size as new first dimension, a batch of one tensor included;
    tensors of different shapes raise RuntimeError; an empty batch raises
    IndexError; something that is no tensor after a first tensor raises
    TypeError in the main process and AttributeError in a worker. *)
Theorem collate_fn_tensors (worker : bool) (t0 : ndarray)
    (ts : list ndarray) :
  _collate_fn worker [] = Raise IndexError
  /\ (Forall (fun t => shape t = shape t0) ts ->
      _collate_fn worker (map VTensor (t0 :: ts))
      = Ok (CTensor (Stacked (shape t0) (t0 :: ts)))
      /\ shape (Stacked (shape t0) (t0 :: ts)) = S (length ts) :: shape t0)
  /\ (~ Forall (fun t => shape t = shape t0) ts ->
      _collate_fn worker (map VTensor (t0 :: ts)) = Raise RuntimeError)
  /\ (forall rest : list pyval,
        Exists (fun v => as_tensor v = Raise TypeError) rest ->
        _collate_fn false (VTensor t0 :: rest) = Raise TypeError
        /\ _collate_fn true (VTensor t0 :: rest) = Raise AttributeError).
Proof.
  split; [done|]. split; [|split].
  - intros Hall. split; [|done]. cbn [_collate_fn map].
    change (VTensor t0 :: map VTensor ts) with (map VTensor (t0 :: ts)).
    rewrite (collate_tensors_stack worker (t0 :: ts) t0 (shape t0));
      [done|done|].
    by constructor.
  - intros Hnot. cbn [_collate_fn map]. unfold collate_tensors.
    destruct (decide _) as [H1|H1].
    { simpl in H1. destruct ts; [|done]. exfalso. apply Hnot. constructor. }
    change (VTensor t0 :: map VTensor ts) with (map VTensor (t0 :: ts)).
    destruct (numel_tensors (t0 :: ts)) as [ns Hns].
    assert ((if worker then sequence (map numel (map VTensor (t0 :: ts)))
             else Ok []) = Ok (if worker then ns else [])) as ->
      by (by destruct worker).
    rewrite bind_Ok_l.
    rewrite (sequence_Ok as_tensor _ (t0 :: ts)).
    2:{ clear. induction (t0 :: ts); constructor; done. }
    rewrite bind_Ok_l. unfold torch_stack.
    destruct (forallb _ _) eqn:E; [|done].
    exfalso. apply Hnot. apply Forall_forall. intros x Hx.
    rewrite forallb_forall in E.
    specialize (E x (proj1 (list_elem_of_In _ _) (list_elem_of_further _ _ _ Hx))).
    by apply bool_decide_eq_true in E.
  - intros rest Hex. cbn [_collate_fn]. unfold collate_tensors.
    destruct (decide _) as [H1|H1].
    { simpl in H1. destruct rest; [by inversion Hex|done]. }
    split.
    + rewrite bind_Ok_l. cbn [map sequence as_tensor]. rewrite bind_Ok_l.
      rewrite (sequence_raise as_tensor TypeError); [done| |done].
      apply Forall_forall. intros v _. destruct v; simpl; eauto.
    + destruct (numel_raise rest Hex) as [Hall Hex'].
      cbn [map sequence numel]. rewrite bind_Ok_l.
      by rewrite (sequence_raise numel AttributeError).
Qed.

(** ** The loaders of the data modules *)

(** The constructor of the loader does not need its test: with or
    without the [pop], the keyword arguments are the same. *)
Lemma loader_kwargs_pop (kwargs : gmap string kwarg) :
  {["collate_fn" := own_collate_fn]}
  ∪ (if decide ("collate_fn" ∈ dom kwargs)
     then delete "collate_fn" kwargs else kwargs)
  = <["collate_fn" := own_collate_fn]> kwargs.
Proof.
  apply map_eq. intros k. destruct (decide (k = "collate_fn")) as [->|Hk].
  - rewrite lookup_insert_eq. apply lookup_union_Some_l, lookup_singleton_eq.
  - rewrite lookup_insert_ne by done.
    rewrite lookup_union_r by (by apply lookup_singleton_ne).
    destruct (decide _); [|done]. by apply lookup_delete_ne.
Qed.

Lemma loader_init_run DataLoader_init dataset (kwargs : gmap string kwarg) :
  TimeSeriesLoader_init DataLoader_init dataset kwargs
  = (_ ← DataLoader_init dataset (<["collate_fn" := own_collate_fn]> kwargs);
     Ok {| ld_dataset := dataset;
           ld_kwargs := <["collate_fn" := own_collate_fn]> kwargs |}).
Proof. unfold TimeSeriesLoader_init. by rewrite loader_kwargs_pop. Qed.

Lemma loader_init_Ok DataLoader_init dataset (kwargs : gmap string kwarg) ld :
  TimeSeriesLoader_init DataLoader_init dataset kwargs = Ok ld ->
  ld_dataset ld = dataset
  /\ ld_kwargs ld = <["collate_fn" := own_collate_fn]> kwargs.
Proof.
  rewrite loader_init_run. intros H. apply bind_Ok in H as (u & _ & H).
  by injection H as <-.
Qed.

Lemma call_loader_Ok DataLoader_init dataset explicit
    (extra : gmap string kwarg) ld :
  call_loader DataLoader_init dataset explicit extra = Ok ld ->
  ("dataset" ∉ dom extra)
  /\ Forall (fun p => p.1 ∉ dom extra) explicit
  /\ ld_dataset ld = dataset
  /\ ld_kwargs ld
     = <["collate_fn" := own_collate_fn]> (list_to_map explicit ∪ extra).
Proof.
  unfold call_loader. destruct (decide _) as [|Hn]; [done|].
  intros H. apply loader_init_Ok in H as [Hd Hk].
  split; [tauto|]. split; [|done].
  apply Forall_forall. intros p Hp Hin. apply Hn. right. right.
  apply Exists_exists. eauto.
Qed.

(** X20: every loader that a data module hands out collates with
    [TimeSeriesLoader._collate_fn], whatever [collate_fn] the user put in
    [dataloaders_kwargs]; the validation and prediction loaders never
    shuffle; the prediction loader does not receive the module's
    [drop_last]; every other keyword of [dataloaders_kwargs] reaches the
    loader unchanged.  This holds whatever [DataLoader.__init__]
    accepts. *)
Theorem datamodule_loaders (DataLoader_init : DataLoader_init_t)
    (self : TimeSeriesDataModule) (ld : TimeSeriesLoader) :
  (train_dataloader DataLoader_init self = Ok ld
   \/ val_dataloader DataLoader_init self = Ok ld
   \/ predict_dataloader DataLoader_init self = Ok ld) ->
  dm_dataset self = Some (ld_dataset ld)
  /\ ld_kwargs ld !! "collate_fn" = Some own_collate_fn
  /\ (forall k, k ∉ ["collate_fn"; "batch_size"; "shuffle"; "drop_last"] ->
        ld_kwargs ld !! k = dm_dataloaders_kwargs self !! k)
  /\ (train_dataloader DataLoader_init self = Ok ld ->
      ld_kwargs ld !! "batch_size" = Some (KInt (dm_batch_size self))
      /\ ld_kwargs ld !! "shuffle" = Some (KBool (dm_shuffle_train self))
      /\ ld_kwargs ld !! "drop_last" = Some (KBool (dm_drop_last self)))
  /\ (val_dataloader DataLoader_init self = Ok ld ->
      ld_kwargs ld !! "batch_size" = Some (KInt (dm_valid_batch_size self))
      /\ ld_kwargs ld !! "shuffle" = Some (KBool false)
      /\ ld_kwargs ld !! "drop_last" = Some (KBool (dm_drop_last self)))
  /\ (predict_dataloader DataLoader_init self = Ok ld ->
      ld_kwargs ld !! "batch_size" = Some (KInt (dm_valid_batch_size self))
      /\ ld_kwargs ld !! "shuffle" = Some (KBool false)
      /\ ld_kwargs ld !! "drop_last"
         = dm_dataloaders_kwargs self !! "drop_last").
Proof.
  intros Hld.
  assert (forall explicit,
    (dataset ← getattr (dm_dataset self);
     call_loader DataLoader_init dataset explicit (dm_dataloaders_kwargs self))
    = Ok ld ->
    dm_dataset self = Some (ld_dataset ld)
    /\ Forall (fun p => p.1 ∉ dom (dm_dataloaders_kwargs self)) explicit
    /\ ld_kwargs ld !! "collate_fn" = Some own_collate_fn
    /\ forall k, k <> "collate_fn" ->
         ld_kwargs ld !! k
         = (list_to_map explicit ∪ dm_dataloaders_kwargs self) !! k) as Hcall.
  { intros explicit H. apply bind_Ok in H as (d & Hd & H).
    apply call_loader_Ok in H as (_ & Hfresh & Hds & Hk).
    destruct (dm_dataset self); [|done]. injection Hd as ->.
    split; [by rewrite Hds|]. split; [done|]. rewrite Hk.
    split; [apply lookup_insert_eq|].
    intros k Hne. by apply lookup_insert_ne. }
  assert (forall (explicit : list (string * kwarg)) k,
    k ∉ ["collate_fn"; "batch_size"; "shuffle"; "drop_last"] ->
    explicit.*1 ⊆ ["batch_size"; "shuffle"; "drop_last"] ->
    (list_to_map explicit ∪ dm_dataloaders_kwargs self) !! k
    = dm_dataloaders_kwargs self !! k) as Hother.
  { intros explicit k Hk Hsub. apply lookup_union_r.
    apply not_elem_of_list_to_map_1. intros Hin. apply Hk.
    right. by apply Hsub. }
  assert (forall k, k ∉ ["collate_fn"; "batch_size"; "shuffle"; "drop_last"] ->
            k <> "collate_fn") as Hnc.
  { intros k Hk ->. apply Hk. by left. }
  unfold train_dataloader, val_dataloader, predict_dataloader in *.
  assert (dm_dataset self = Some (ld_dataset ld)
          /\ ld_kwargs ld !! "collate_fn" = Some own_collate_fn
          /\ forall k, k ∉ ["collate_fn"; "batch_size"; "shuffle"; "drop_last"] ->
               ld_kwargs ld !! k = dm_dataloaders_kwargs self !! k)
    as (Hd & Hc & Hk).
  { destruct Hld as [H|[H|H]]; apply Hcall in H as (Hd & _ & Hc & Hk);
      (split; [done|]); (split; [done|]); intros k Hkk;
      rewrite Hk by (by apply Hnc); apply Hother; try done; set_solver. }
  split; [done|]. split; [done|]. split; [done|].
  split; [|split].
  - intros H. apply Hcall in H as (_ & _ & _ & Hget).
    rewrite !Hget by done.
    repeat split; apply lookup_union_Some_l; reflexivity.
  - intros H. apply Hcall in H as (_ & _ & _ & Hget).
    rewrite !Hget by done.
    repeat split; apply lookup_union_Some_l; reflexivity.
  - intros H. apply Hcall in H as (_ & _ & _ & Hget).
    rewrite !Hget by done.
    split; [apply lookup_union_Some_l; reflexivity|].
    split; [apply lookup_union_Some_l; reflexivity|].
    apply lookup_union_r. reflexivity.
Qed.

(** X21: a distributed data module has no dataset before [setup]: its
    loaders raise AttributeError; after a successful [setup] it holds the
    dataset that [from_df] built from the file of its rank.  For any module
    with a dataset, the call of a loader method raises TypeError when
    [dataloaders_kwargs] repeats a keyword that the method passes itself
    (or gives ['self'] or ['dataset']); otherwise the outcome is that of
    the loader's constructor on the method's keywords and those of
    [dataloaders_kwargs]. *)
Theorem datamodule_protocol (DataLoader_init : DataLoader_init_t)
    (files_ds : _FilesDataset)
    (batch_size valid_batch_size : Z) (drop_last shuffle_train : bool)
    (dataloaders_kwargs : gmap string kwarg) :
  let m0 := _DistributedTimeSeriesDataModule_init files_ds batch_size
              valid_batch_size drop_last shuffle_train dataloaders_kwargs in
  (train_dataloader DataLoader_init m0 = Raise AttributeError
   /\ val_dataloader DataLoader_init m0 = Raise AttributeError
   /\ predict_dataloader DataLoader_init m0 = Raise AttributeError)
  /\ (forall read_parquet rank m1,
        module_setup read_parquet rank m0 = Ok m1 ->
        exists d, dm_dataset m1 = Some d
                  /\ setup read_parquet rank files_ds = Ok d
                  /\ produced d
                  /\ dm_dataloaders_kwargs m1 = dataloaders_kwargs)
  /\ (forall m d,
        dm_dataset m = Some d ->
        let clash keys := exists k, k ∈ keys /\ k ∈ dom (dm_dataloaders_kwargs m) in
        (clash ["self"; "dataset"; "batch_size"; "shuffle"; "drop_last"]
         -> train_dataloader DataLoader_init m = Raise TypeError
            /\ val_dataloader DataLoader_init m = Raise TypeError)
        /\ (~ clash ["self"; "dataset"; "batch_size"; "shuffle"; "drop_last"]
            -> train_dataloader DataLoader_init m
               = TimeSeriesLoader_init DataLoader_init d
                   (list_to_map [("batch_size", KInt (dm_batch_size m));
                                 ("shuffle", KBool (dm_shuffle_train m));
                                 ("drop_last", KBool (dm_drop_last m))]
                    ∪ dm_dataloaders_kwargs m)
               /\ val_dataloader DataLoader_init m
                  = TimeSeriesLoader_init DataLoader_init d
                      (list_to_map
                         [("batch_size", KInt (dm_valid_batch_size m));
                          ("shuffle", KBool false);
                          ("drop_last", KBool (dm_drop_last m))]
                       ∪ dm_dataloaders_kwargs m))
        /\ (clash ["self"; "dataset"; "batch_size"; "shuffle"]
            -> predict_dataloader DataLoader_init m = Raise TypeError)
        /\ (~ clash ["self"; "dataset"; "batch_size"; "shuffle"]
            -> predict_dataloader DataLoader_init m
               = TimeSeriesLoader_init DataLoader_init d
                   (list_to_map
                      [("batch_size", KInt (dm_valid_batch_size m));
                       ("shuffle", KBool false)]
                    ∪ dm_dataloaders_kwargs m))).
Proof.
  cbv zeta. split; [done|]. split.
  - intros read_parquet rank m1 H. unfold module_setup in H. cbn in H.
    apply bind_Ok in H as (d & Hd & H). injection H as <-. cbn.
    exists d. split; [done|]. split; [done|]. split; [|done].
    unfold setup in Hd.
    apply bind_Ok in Hd as (path & _ & Hd).
    apply bind_Ok in Hd as (df & _ & Hd).
    apply bind_Ok in Hd as ([sdf df'] & _ & Hd).
    apply bind_Ok in Hd as ([[[d0 ids] dates] ds] & Hdf & Hd).
    injection Hd as <-. by eapply produced_from_df.
  - intros m d Hd.
    assert (forall explicit : list (string * kwarg),
      let keys := "self" :: "dataset" :: explicit.*1 in
      ((exists k, k ∈ keys /\ k ∈ dom (dm_dataloaders_kwargs m)) ->
       call_loader DataLoader_init d explicit (dm_dataloaders_kwargs m)
       = Raise TypeError)
      /\ (~ (exists k, k ∈ keys /\ k ∈ dom (dm_dataloaders_kwargs m)) ->
          call_loader DataLoader_init d explicit (dm_dataloaders_kwargs m)
          = TimeSeriesLoader_init DataLoader_init d
              (list_to_map explicit ∪ dm_dataloaders_kwargs m)))
      as Hcall.
    { intros explicit keys. unfold call_loader. split.
      - intros (k & Hk & Hin). rewrite decide_True; [done|].
        apply elem_of_cons in Hk as [->|Hk]; [by left|]. right.
        apply elem_of_cons in Hk as [->|Hk]; [by left|]. right.
        apply list_elem_of_fmap in Hk as (p & -> & Hp).
        apply Exists_exists. eauto.
      - intros Hn. rewrite decide_False; [done|].
        intros [Hin|[Hin|Hex]]; apply Hn.
        + exists "self". split; [by left|done].
        + exists "dataset". split; [by right; left|done].
        + apply Exists_exists in Hex as (p & Hp & Hin).
          exists p.1. split; [|done]. do 2 right.
          apply list_elem_of_fmap. eauto. }
    unfold train_dataloader, val_dataloader, predict_dataloader.
    rewrite Hd. cbn [getattr]. rewrite !bind_Ok_l.
    split; [|split; [|split]].
    + intros Hc. split; by apply (Hcall [(_, _); (_, _); (_, _)]).
    + intros Hc. split; by apply (Hcall [(_, _); (_, _); (_, _)]).
    + intros Hc. by apply (Hcall [(_, _); (_, _)]).
    + intros Hc. by apply (Hcall [(_, _); (_, _)]).
Qed.

(** ** What [from_df] returns besides the dataset *)

Lemma elem_of_zip_seq {A} (l : list A) (p : nat * A) :
  p ∈ zip (seq 0 (length l)) l -> l !! p.1 = Some p.2.
Proof.
  intros Hp. apply list_elem_of_lookup in Hp as [i Hi].
  rewrite lookup_zip_with in Hi.
  destruct (seq 0 (length l) !! i) as [j|] eqn:Hj; [|done].
  destruct (l !! i) as [x|] eqn:Hx; [|done].
  simpl in Hi. injection Hi as <-.
  apply lookup_seq in Hj as [-> _]. done.
Qed.

Lemma group_rows_positions (l : list Row) (u : Z) :
  (group_rows (fun p : nat * Row => row_id p.2) (fun p => row_time p.2)
              (zip (seq 0 (length l)) l) u).*2
  = group_rows row_id row_time l u.
Proof.
  unfold group_rows.
  rewrite <- (snd_zip (seq 0 (length l)) l) at 3
    by (rewrite length_seq; lia).
  change ((zip (seq 0 (length l)) l).*2)
    with (map snd (zip (seq 0 (length l)) l)).
  rewrite (filter_map_comm snd (fun r => row_id r = u)
             (fun p : nat * Row => row_id p.2 = u)) by done.
  symmetry. by apply sort_by_map.
Qed.

Lemma map_nth_seq (l : list Z) :
  map (fun i => nth i l 0%Z) (seq 0 (length l)) = l.
Proof.
  apply list_eq. intros i.
  change (map ?f ?x) with (f <$> x). rewrite list_lookup_fmap.
  destruct (l !! i) as [x|] eqn:Hx.
  - rewrite lookup_seq_lt by (by eapply lookup_lt_Some). simpl.
    by rewrite (nth_lookup_Some _ _ _ _ Hx).
  - rewrite lookup_seq_ge; [done|]. by apply lookup_ge_None.
Qed.

Lemma elem_of_concat {A} (x : A) (ls : list (list A)) :
  x ∈ concat ls <-> exists l, x ∈ l /\ l ∈ ls.
Proof.
  rewrite list_elem_of_In, in_concat. split.
  - intros (l & Hl & Hx). exists l. by rewrite !list_elem_of_In.
  - intros (l & Hx & Hl). exists l. by rewrite <- !list_elem_of_In.
Qed.

(** The time column after [ds[sort_idxs]]: the times of the rows in the
    order of the groups. *)
Lemma sorted_times (df : DataFrame) :
  let positions :=
    concat (map (group_rows (fun p : nat * Row => row_id p.2)
                            (fun p => row_time p.2)
                            (zip (seq 0 (length (rows df))) (rows df)))
                (frame_ids df)) in
  match (if decide (positions.*1 = seq 0 (length (rows df)))
         then None else Some positions.*1) with
  | Some idxs => map (fun i => nth i (map row_time (rows df)) 0%Z) idxs
  | None => map row_time (rows df)
  end = map row_time (concat (frame_groups df)).
Proof.
  intros positions.
  assert (positions.*2 = concat (frame_groups df)) as H2.
  { unfold positions, frame_groups.
    change (?l.*2) with (map snd l). rewrite <- concat_map_map, map_map.
    f_equal. apply map_ext. intros u. apply group_rows_positions. }
  assert (map (fun i => nth i (map row_time (rows df)) 0%Z) positions.*1
          = map row_time positions.*2) as H1.
  { change (?l.*1) with (map fst l). change (?l.*2) with (map snd l).
    rewrite !map_map. apply map_ext_elem. intros p Hp.
    assert (p ∈ zip (seq 0 (length (rows df))) (rows df)) as Hin.
    { unfold positions in Hp. apply elem_of_concat in Hp as (g & Hp & Hg).
      apply elem_of_map_In in Hg as (u & -> & _).
      by apply group_rows_elem in Hp. }
    apply elem_of_zip_seq in Hin. apply nth_lookup_Some.
    change (map row_time (rows df)) with (row_time <$> rows df).
    by rewrite list_lookup_fmap, Hin. }
  destruct (decide (positions.*1 = seq 0 (length (rows df)))) as [E|E].
  - rewrite <- H2, <- H1, E.
    rewrite <- (length_map row_time (rows df)). symmetry.
    apply map_nth_seq.
  - by rewrite H1, H2.
Qed.

(** [from_df] in terms of the groups of the frame. *)
Lemma from_df_closed (df : DataFrame) (sdf : option StaticFrame)
    (target : string) :
  from_df df sdf target
  = if decide (int_max int64 < Z.of_nat (length (rows df)))%Z
    then Raise ValueError
    else if decide (target ∈ value_cols df) then
      let groups := frame_groups df in
      let cols := data_cols df target in
      r ← _ensure_available_mask
            {| ncols := length cols;
               mrows := map (row_data cols) (concat groups) |} cols;
      dataset ← TimeSeriesDataset_init r.1 r.2
                  (offsets 0 (map zlength groups))
                  (offsets_dtype (Z.of_nat (length (rows df)))) 0
                  (_extract_static_features sdf).1
                  (_extract_static_features sdf).2;
      Ok (dataset, frame_ids df,
          map (fun g => default 0%Z (row_time <$> last g)) groups,
          map row_time (concat groups))
    else Raise ValueError.
Proof.
  unfold from_df. destruct (_extract_static_features sdf) as [st sc].
  unfold process_df. destruct (decide (_ < _)%Z) as [Hbig|Hbig]; [done|].
  destruct (decide (target ∈ value_cols df)) as [Ht|Ht]; [|done].
  rewrite bind_Ok_l.
  cbn [p_data p_ids p_times p_indptr p_indptr_dtype p_sort_idxs fst snd].
  cbv zeta.
  destruct (_ensure_available_mask _ _) as [[data cols]|e1]; [|done].
  rewrite !bind_Ok_l. cbn [fst snd].
  destruct (TimeSeriesDataset_init _ _ _ _ _ _ _) as [d|e2]; [|done].
  rewrite !bind_Ok_l. do 2 f_equal. apply (sorted_times df).
Qed.

Lemma from_df_ds df sdf target d ids dates ds :
  from_df df sdf target = Ok (d, ids, dates, ds) ->
  ds = map row_time (concat (frame_groups df))
  /\ ids = frame_ids df
  /\ dates = map (fun g => default 0%Z (row_time <$> last g)) (frame_groups df)
  /\ indptr d = offsets 0 (map zlength (frame_groups df)).
Proof.
  rewrite from_df_closed. destruct (decide _); [done|].
  destruct (decide _); [|done]. cbv zeta.
  intros H. apply bind_Ok in H as (r & _ & H).
  apply bind_Ok in H as (d0 & Hd & H).
  apply init_Ok in Hd as (_ & _ & Hip & _).
  injection H as <- <- <- <-. done.
Qed.

Lemma lookup_concat_last {A} (pre post : list (list A)) (g : list A) (x : A) :
  last g = Some x ->
  concat (pre ++ g :: post) !! (length (concat pre) + length g - 1) = Some x.
Proof.
  intros Hl. rewrite last_lookup in Hl.
  assert (g <> []) as Hne by (by destruct g).
  assert (0 < length g) by (destruct g; simpl; [done|lia]).
  rewrite concat_app. simpl.
  rewrite lookup_app_r by lia. rewrite lookup_app_l by lia.
  rewrite <- Hl. f_equal. lia.
Qed.

(** X22: besides the dataset, [from_df] returns the ids, strictly
    increasing, one per group; the time column in the order of the rows
    of [temporal] (by id, then by time); and, for every group, the time of
    its last row: [dates[i] = ds[indptr[i + 1] - 1]]. *)
Theorem from_df_outputs (df : DataFrame) (sdf : option StaticFrame)
    (target : string) (d : TimeSeriesDataset) (ids dates ds : list Z) :
  from_df df sdf target = Ok (d, ids, dates, ds) ->
  increasing ids
  /\ (forall u, u ∈ ids <-> u ∈ map row_id (rows df))
  /\ __len__ d = zlength ids
  /\ zlength dates = n_groups d
  /\ ds = map row_time (concat (frame_groups df))
  /\ length ds = nrows (temporal d)
  /\ (forall (i : nat) (b : Z),
        indptr d !! S i = Some b ->
        exists t, dates !! i = Some t /\ ds !! Z.to_nat (b - 1) = Some t).
Proof.
  intros Hdf. pose proof (from_df_ok _ _ _ _ _ _ _ Hdf) as [Hinit Hinv].
  pose proof (from_df_ds _ _ _ _ _ _ _ Hdf) as (Hds & Hids & Hdates & Hip).
  assert (length (frame_groups df) = length (frame_ids df)) as Hgl.
  { unfold frame_groups. by rewrite length_map. }
  assert (n_groups d = zlength (frame_ids df)) as Hn.
  { rewrite (init_n_groups d Hinit), Hip, length_offsets, length_map, Hgl.
    unfold zlength. lia. }
  split; [rewrite Hids; apply unique_sorted_increasing|].
  split; [intros u; rewrite Hids; apply elem_of_unique_sorted|].
  split; [unfold __len__; by rewrite Hids|].
  split; [rewrite Hdates, Hn; unfold zlength; by rewrite length_map, Hgl|].
  split; [done|].
  split.
  { destruct (invariant_increments d Hinv) as (_ & _ & _ & Hsum).
    rewrite Hip, differences_offsets, zsum_lengths in Hsum.
    rewrite Hds, length_map. unfold zlength in Hsum. lia. }
  intros i b Hb. rewrite Hip in Hb.
  assert (i < length (frame_groups df)) as Hi.
  { apply lookup_lt_Some in Hb. rewrite length_offsets, length_map in Hb. lia. }
  destruct (lookup_lt_is_Some_2 _ _ Hi) as [g Hg].
  pose proof (take_drop_middle _ _ _ Hg) as Hsplit.
  set (pre := take i (frame_groups df)) in *.
  set (post := drop (S i) (frame_groups df)) in *.
  assert (length pre = i) as Hpre.
  { unfold pre. rewrite length_take. lia. }
  assert (g <> []) as Hne.
  { pose proof (frame_groups_rows df) as Hall. rewrite Forall_forall in Hall.
    apply Hall. by eapply list_elem_of_lookup_2. }
  destruct (last g) as [x|] eqn:Hlast; [|by destruct g using rev_ind;
    [|rewrite last_snoc in Hlast]].
  exists (row_time x). split.
  - rewrite Hdates. change (map ?f ?l) with (f <$> l).
    rewrite list_lookup_fmap, Hg. simpl. by rewrite Hlast.
  - rewrite <- Hsplit in Hb. clearbody pre post. subst i.
    rewrite offsets_lookup_stop in Hb. injection Hb as <-.
    rewrite Hds. change (map ?f ?l) with (f <$> l).
    rewrite list_lookup_fmap, <- Hsplit.
    unfold zlength.
    replace (Z.to_nat (Z.of_nat (length (concat pre)) + Z.of_nat (length g) - 1))
      with (length (concat pre) + length g - 1).
    2:{ destruct g; [done|]. simpl. lia. }
    by rewrite (lookup_concat_last pre post g x Hlast).
Qed.

(** ** The order of the rows of a frame *)

Lemma insert_by_perm {A} (key : A -> Z) (x : A) (l : list A) :
  insert_by key x l ≡ₚ x :: l.
Proof.
  induction l as [|y l IH]; simpl; [done|].
  destruct (Z.leb_spec (key x) (key y)); [done|].
  rewrite IH. apply Permutation_swap.
Qed.

Lemma sort_by_perm {A} (key : A -> Z) (l : list A) : sort_by key l ≡ₚ l.
Proof.
  induction l as [|x l IH]; simpl; [done|].
  unfold sort_by in IH. by rewrite insert_by_perm, IH.
Qed.

(** Two lists with strictly increasing keys and the same elements are
    equal. *)
Lemma increasing_perm_eq {A} (key : A -> Z) (l1 l2 : list A) :
  increasing (map key l1) -> increasing (map key l2) -> l1 ≡ₚ l2 -> l1 = l2.
Proof.
  revert l2. induction l1 as [|x l1 IH]; intros l2 H1 H2 Hp.
  { by apply Permutation_nil_l in Hp. }
  destruct l2 as [|y l2]; [by apply Permutation_nil_r in Hp|].
  inversion H1 as [|? ? Hx Hl1]; inversion H2 as [|? ? Hy Hl2]; subst.
  rewrite List.Forall_map, Forall_forall in Hx, Hy.
  assert (x = y) as ->.
  { assert (x ∈ y :: l2) as Hin1 by (rewrite <- Hp; by left).
    assert (y ∈ x :: l1) as Hin2 by (rewrite Hp; by left).
    apply elem_of_cons in Hin1 as [?|Hin1]; [done|].
    apply elem_of_cons in Hin2 as [?|Hin2]; [done|].
    specialize (Hx y Hin2). specialize (Hy x Hin1). simpl in *. lia. }
  f_equal. apply IH; [done|done|]. by apply Permutation_cons_inv in Hp.
Qed.

Lemma sort_by_perm_eq {A} (key : A -> Z) (l1 l2 : list A) :
  NoDup (map key l1) -> l1 ≡ₚ l2 -> sort_by key l1 = sort_by key l2.
Proof.
  intros Hnd Hp. apply (increasing_perm_eq key).
  - by apply sort_by_increasing.
  - apply sort_by_increasing.
    change (map key l2) with (key <$> l2). rewrite <- Hp. done.
  - by rewrite !sort_by_perm.
Qed.

(** The rows of one id have distinct times when no two rows of the frame
    share id and time. *)
Lemma NoDup_group_times (l : list Row) (u : Z) :
  NoDup (map (fun r => (row_id r, row_time r)) l) ->
  NoDup (map row_time (filter (fun r => row_id r = u) l)).
Proof.
  induction l as [|r l IH]; intros Hnd; [constructor|].
  inversion Hnd as [|? ? Hr Hl]; subst.
  destruct (decide (row_id r = u)) as [E|E].
  - rewrite filter_cons_True by done. simpl. constructor; [|by apply IH].
    intros Hin. apply Hr. apply elem_of_map_In in Hin as (r' & Ht & Hr').
    apply list_elem_of_filter in Hr' as [Hid Hr'].
    apply elem_of_map_In. exists r'. split; [|done]. congruence.
  - rewrite filter_cons_False by done. by apply IH.
Qed.

Lemma frame_groups_perm (df df' : DataFrame) :
  rows df ≡ₚ rows df' ->
  NoDup (map (fun r => (row_id r, row_time r)) (rows df)) ->
  frame_ids df = frame_ids df' /\ frame_groups df = frame_groups df'.
Proof.
  intros Hp Hnd.
  assert (frame_ids df = frame_ids df') as Hids.
  { unfold frame_ids. apply unique_sorted_ext. intros u.
    change (map row_id ?l) with (row_id <$> l). by rewrite Hp. }
  split; [done|]. unfold frame_groups. rewrite <- Hids.
  apply map_ext. intros u. unfold group_rows.
  apply sort_by_perm_eq; [by apply NoDup_group_times|]. by rewrite Hp.
Qed.

(** X23: [from_df] does not depend on the order of the rows of the frame,
    as long as no two rows share id and time: a shuffled frame gives the
    same dataset, ids, last dates and time column. *)
Theorem from_df_row_order (df df' : DataFrame) (sdf : option StaticFrame)
    (target : string) :
  value_cols df = value_cols df' ->
  rows df ≡ₚ rows df' ->
  NoDup (map (fun r => (row_id r, row_time r)) (rows df)) ->
  from_df df sdf target = from_df df' sdf target.
Proof.
  intros Hc Hp Hnd. destruct (frame_groups_perm df df' Hp Hnd) as [Hids Hg].
  rewrite !from_df_closed. unfold data_cols.
  by rewrite Hc, Hids, Hg, (Permutation_length Hp).
Qed.

(** ** Offsets beyond their integer type *)

Lemma unique_sorted_const (u : Z) (l : list Z) :
  l <> [] -> Forall (fun x => x = u) l -> unique_sorted l = [u].
Proof.
  intros Hne Hall. induction Hall as [|x l -> Hl IH]; [done|].
  simpl. destruct l as [|y l]; [done|].
  rewrite IH by done. simpl.
  by rewrite Z.ltb_irrefl, Z.eqb_refl.
Qed.

Lemma long_frame_groups (n : nat) :
  0 < n ->
  exists g, frame_groups (long_frame n) = [g] /\ length g = n.
Proof.
  intros Hn. pose proof (frame_groups_length (long_frame n)) as Hlen.
  unfold frame_groups, frame_ids in *.
  rewrite (unique_sorted_const 1) in *.
  - eexists. split; [reflexivity|]. simpl in Hlen.
    rewrite app_nil_r, length_map, length_seq in Hlen. exact Hlen.
  - simpl. destruct n; [lia|done].
  - simpl. rewrite map_map. apply Forall_forall. intros x Hx.
    apply elem_of_map_In in Hx as (i & -> & _). done.
  - simpl. destruct n; [lia|done].
  - simpl. rewrite map_map. apply Forall_forall. intros x Hx.
    apply elem_of_map_In in Hx as (i & -> & _). done.
Qed.

(** [from_df] on the long frame: one series, offsets [0, n] of type
    int32. *)
Lemma long_from_df (n : nat) :
  0 < n -> (Z.of_nat n <= int_max int32)%Z ->
  exists d ids dates ds,
    from_df (long_frame n) None "y" = Ok (d, ids, dates, ds)
    /\ dataset_ok d
    /\ indptr d = [0; Z.of_nat n]%Z
    /\ indptr_dtype d = int32
    /\ n_groups d = 1%Z
    /\ nrows (temporal d) = n
    /\ ncols (temporal d) = 2.
Proof.
  intros Hn Hfit.
  destruct (from_df_run (long_frame n) None "y")
    as (d & ids & dates & ds & Hd & Ht & Hip & _ & _ & _ & _ & Hdt & Hrows).
  { simpl. by left. }
  { simpl. destruct n; [lia|done]. }
  { pose proof (int_max_ge int64). simpl. rewrite length_map, length_seq. lia. }
  pose proof (from_df_ok _ _ _ _ _ _ _ Hd) as Hok.
  exists d, ids, dates, ds. split; [done|]. split; [done|].
  destruct (long_frame_groups n Hn) as (g & Hg & Hlen).
  rewrite Hg in Hip. simpl in Hip. unfold zlength in Hip. rewrite Hlen in Hip.
  simpl in Hrows, Hdt. rewrite length_map, length_seq in Hrows, Hdt.
  split; [by rewrite Hip|]. split.
  { rewrite Hdt. unfold offsets_dtype. by rewrite decide_True. }
  split.
  { destruct Hok as [Hf _]. rewrite (init_n_groups d Hf), Hip. done. }
  split; [done|]. by rewrite Ht.
Qed.

Lemma setitem_rows_bounds dest start stop src lo hi :
  slice_bounds start stop (nrows dest) = (lo, hi) ->
  setitem_rows dest start stop src
  = if broadcastable (nrows src) (hi - lo)
       && broadcastable (ncols src) (ncols dest)
    then Ok {| ncols := ncols dest;
               mrows := take lo (mrows dest)
                        ++ bcast (nrows src) (hi - lo)
                             (map (bcast (ncols src) (ncols dest)) (mrows src))
                        ++ drop (lo + (hi - lo)) (mrows dest) |}
    else Raise RuntimeError.
Proof. intros H. unfold setitem_rows. by rewrite H. Qed.

Lemma nrows_rows_slice (m : Matrix) (b : Z) :
  (0 <= b <= Z.of_nat (nrows m))%Z ->
  nrows (rows_slice (Some 0%Z) (Some b) m) = Z.to_nat b.
Proof.
  intros Hb. unfold rows_slice, nrows in *. simpl.
  rewrite py_slice_inside by lia.
  rewrite length_take, length_drop. lia.
Qed.

(** [append] of two datasets of one series. *)
Lemma append_one_series mem self futr (a b : Z) :
  indptr self = [0; a]%Z -> indptr futr = [0; b]%Z ->
  n_groups self = 1%Z ->
  append mem self futr
  = (let dt := promote (indptr_dtype self) (indptr_dtype futr) in
     let mid := int_add dt (int_add dt 0 0)
                        (int_sub (indptr_dtype self) a 0) in
     nt ← torch_empty mem
            (Z.of_nat (nrows (temporal self))
             + Z.of_nat (nrows (temporal futr)))
            (Z.of_nat (ncols (temporal self)));
     nt ← setitem_rows nt (Some (int_add dt 0 0)) (Some mid)
            (rows_slice (Some 0%Z) (Some a) (temporal self));
     nt ← setitem_rows nt (Some mid) (Some (int_add dt a b))
            (rows_slice (Some 0%Z) (Some b) (temporal futr));
     TimeSeriesDataset_init nt (temporal_cols self)
       [int_add dt 0 0; int_add dt a b] dt
       (y_idx self) (static self) (static_cols self)).
Proof.
  intros Hs Hf Hn. rewrite append_unfold by (by rewrite Hs, Hf).
  rewrite Hs, Hf, Hn. cbv zeta.
  destruct (torch_empty _ _ _) as [nt|e]; [|done].
  rewrite !bind_Ok_l.
  change (seq 0 (Z.to_nat 1)) with [0].
  cbn [for_each zip_with]. unfold append_step. rewrite Hs, Hf.
  change (np_getitem [0%Z; a] (Z.of_nat 0)) with (Ok (A:=Z) 0%Z).
  change (np_getitem [0%Z; a] (Z.of_nat 0 + 1)) with (Ok a).
  change (np_getitem [0%Z; b] (Z.of_nat 0)) with (Ok (A:=Z) 0%Z).
  change (np_getitem [0%Z; b] (Z.of_nat 0 + 1)) with (Ok b).
  rewrite !bind_Ok_l.
  set (dt := promote (indptr_dtype self) (indptr_dtype futr)).
  change (np_getitem [int_add dt 0 0; int_add dt a b] (Z.of_nat 0))
    with (Ok (int_add dt 0 0)).
  change (np_getitem [int_add dt 0 0; int_add dt a b] (Z.of_nat 0 + 1))
    with (Ok (int_add dt a b)).
  rewrite !bind_Ok_l.
  destruct (setitem_rows nt _ _ _) as [nt1|e]; [|done].
  rewrite !bind_Ok_l.
  destruct (setitem_rows nt1 _ _ _) as [nt2|e]; [|done].
  by rewrite !bind_Ok_l.
Qed.

(** Two int32 datasets of one series whose rows together are [2^31]:
    the summed offset wraps to [-2^31], the rows of [self] are copied,
    and the slice left for the rows of [futr] is empty. *)
Lemma append_overflow_steps mem self futr (n k : nat) :
  indptr self = [0; Z.of_nat n]%Z -> indptr futr = [0; Z.of_nat k]%Z ->
  indptr_dtype self = int32 -> indptr_dtype futr = int32 ->
  n_groups self = 1%Z ->
  nrows (temporal self) = n -> nrows (temporal futr) = k ->
  ncols (temporal futr) = ncols (temporal self) ->
  (Z.of_nat n + Z.of_nat k = 2147483648)%Z -> 0 < k -> k <= n ->
  exists nt1,
    nrows nt1 = n + k /\ ncols nt1 = ncols (temporal self)
    /\ append mem self futr
       = (nt ← setitem_rows nt1 (Some (Z.of_nat n)) (Some (-2147483648)%Z)
                 (rows_slice (Some 0%Z) (Some (Z.of_nat k)) (temporal futr));
          TimeSeriesDataset_init nt (temporal_cols self)
            [0; -2147483648]%Z int32
            (y_idx self) (static self) (static_cols self))
    /\ slice_bounds (Some (Z.of_nat n)) (Some (-2147483648)%Z) (nrows nt1)
       = (n, 0).
Proof.
  intros Hs Hf Hds Hdf Hg Hn Hk Hc Hsum Hk0 Hkn.
  rewrite (append_one_series mem self futr _ _ Hs Hf Hg).
  rewrite Hds, Hdf, Hn, Hk. cbv zeta.
  change (promote int32 int32) with int32.
  pose proof int_max_int32 as H32.
  assert (int_add int32 0 0 = 0%Z) as -> by reflexivity.
  assert (int_sub int32 (Z.of_nat n) 0 = Z.of_nat n) as ->.
  { unfold int_sub. rewrite Z.sub_0_r. apply wrap_small. lia. }
  assert (int_add int32 0 (Z.of_nat n) = Z.of_nat n) as ->.
  { unfold int_add. rewrite Z.add_0_l. apply wrap_small. lia. }
  assert (int_add int32 (Z.of_nat n) (Z.of_nat k) = (-2147483648)%Z) as ->.
  { unfold int_add. rewrite Hsum. reflexivity. }
  destruct (torch_empty_Ok mem (Z.of_nat n + Z.of_nat k)
              (Z.of_nat (ncols (temporal self)))) as [nt Hnt]; [lia..|].
  rewrite Hnt, bind_Ok_l.
  apply torch_empty_Ok_inv in Hnt as (_ & _ & Hr & Hcn).
  rewrite Nat2Z.id in Hcn.
  assert (nrows nt = n + k) as Hr' by lia. clear Hr.
  destruct (setitem_rows nt (Some 0%Z) (Some (Z.of_nat n))
              (rows_slice (Some 0%Z) (Some (Z.of_nat n)) (temporal self)))
    as [nt1|e] eqn:E1.
  2:{ exfalso. rewrite (setitem_rows_bounds nt _ _ _ 0 n) in E1.
      2:{ rewrite slice_bounds_inside by lia. f_equal. lia. }
      rewrite nrows_rows_slice in E1 by lia.
      rewrite Nat2Z.id, Nat.sub_0_r in E1.
      rewrite broadcastable_refl in E1. cbn [rows_slice ncols] in E1.
      rewrite Hcn, broadcastable_refl in E1. discriminate. }
  apply setitem_rows_shape in E1 as [Hr1 Hc1]. rewrite bind_Ok_l.
  exists nt1. split; [lia|]. split; [congruence|]. split; [reflexivity|].
  rewrite Hr1, Hr'. unfold slice_bounds, norm_index.
  destruct (Z.ltb_spec (Z.of_nat n) 0); [lia|].
  destruct (Z.ltb_spec (-2147483648) 0); [|lia].
  f_equal; lia.
Qed.

Lemma append_overflow_one mem self futr (n : nat) :
  indptr self = [0; Z.of_nat n]%Z -> indptr futr = [0; 1]%Z ->
  indptr_dtype self = int32 -> indptr_dtype futr = int32 ->
  n_groups self = 1%Z ->
  nrows (temporal self) = n -> nrows (temporal futr) = 1 ->
  ncols (temporal futr) = ncols (temporal self) ->
  Z.of_nat n = 2147483647%Z ->
  exists d, append mem self futr = Ok d /\ indptr d = [0; -2147483648]%Z.
Proof.
  intros Hs Hf Hds Hdf Hg Hn Hk Hc Hsum.
  destruct (append_overflow_steps mem self futr n 1)
    as (nt1 & Hr1 & Hc1 & -> & Hsl); try done; [lia..|].
  rewrite (setitem_rows_bounds nt1 _ _ _ n 0 Hsl).
  rewrite nrows_rows_slice by lia.
  change (Z.to_nat (Z.of_nat 1)) with 1. rewrite Nat.sub_0_l.
  cbn [rows_slice ncols]. rewrite Hc, Hc1, broadcastable_refl.
  change (broadcastable 1 0) with true. cbn [andb]. rewrite bind_Ok_l.
  destruct (init_total
              {| ncols := ncols (temporal self);
                 mrows := take n (mrows nt1)
                          ++ bcast 1 0
                               (map (bcast (ncols (temporal self))
                                           (ncols (temporal self)))
                                    (py_slice (Some 0%Z) (Some (Z.of_nat 1))
                                              (mrows (temporal futr))))
                          ++ drop (n + 0) (mrows nt1) |}
              (temporal_cols self) [0; -2147483648]%Z int32
              (y_idx self) (static self) (static_cols self)) as [d Hd];
    [simpl; lia|].
  exists d. split; [exact Hd|].
  by apply init_Ok in Hd as (_ & _ & -> & _).
Qed.

Lemma append_overflow_many mem self futr (n k : nat) :
  indptr self = [0; Z.of_nat n]%Z -> indptr futr = [0; Z.of_nat k]%Z ->
  indptr_dtype self = int32 -> indptr_dtype futr = int32 ->
  n_groups self = 1%Z ->
  nrows (temporal self) = n -> nrows (temporal futr) = k ->
  ncols (temporal futr) = ncols (temporal self) ->
  (Z.of_nat n + Z.of_nat k = 2147483648)%Z -> 1 < k -> k <= n ->
  append mem self futr = Raise RuntimeError.
Proof.
  intros Hs Hf Hds Hdf Hg Hn Hk Hc Hsum Hk1 Hkn.
  destruct (append_overflow_steps mem self futr n k)
    as (nt1 & Hr1 & Hc1 & -> & Hsl); try done; [lia|].
  rewrite (setitem_rows_bounds nt1 _ _ _ n 0 Hsl).
  rewrite nrows_rows_slice by lia. rewrite Nat2Z.id, Nat.sub_0_l.
  assert (broadcastable k 0 = false) as ->; [|done].
  unfold broadcastable.
  destruct (Nat.eqb_spec k 0); [lia|]. destruct (Nat.eqb_spec k 1); [lia|done].
Qed.

(** ** More worked examples *)

Lemma sample_from_df_static :
  from_df sample_frame (Some sample_static_full) "y"
  = Ok (sample_dataset_static, [1; 2]%Z, [2; 2]%Z, [1; 2; 1; 2]%Z).
Proof. vm_compute. reflexivity. Qed.

Lemma sample_from_df_uneven :
  from_df sample_frame_uneven None "y"
  = Ok (sample_dataset_uneven, [1; 2]%Z, [4; 4]%Z, [1; 2; 3; 4; 2; 3; 4]%Z).
Proof. vm_compute. reflexivity. Qed.

Lemma sample_uneven_ok : dataset_ok sample_dataset_uneven.
Proof. exact (from_df_ok _ _ _ _ _ _ _ sample_from_df_uneven). Qed.

Lemma sample_append :
  append sample_mem sample_dataset_uneven sample_dataset
  = Ok sample_dataset_appended.
Proof. vm_compute. reflexivity. Qed.

Lemma sample_setup :
  setup sample_read_parquet 0 sample_files = Ok sample_dataset_static.
Proof. vm_compute. reflexivity. Qed.

Lemma sample_from_data_directories :
  from_data_directories sample_fs sample_directories None [] "ds" "y"
  = Ok sample_local.
Proof. vm_compute. reflexivity. Qed.

Lemma sample_train_dataloader :
  train_dataloader sample_DataLoader_init sample_module = Ok sample_loader.
Proof. vm_compute. reflexivity. Qed.

(** X1 on the sample with a series of four and a series of three rows. *)
Lemma produced_sizes_witness :
  (1 <= n_groups sample_dataset_uneven)%Z
  /\ (1 <= min_size sample_dataset_uneven <= max_size sample_dataset_uneven)%Z
  /\ (forall i : nat, (Z.of_nat i < n_groups sample_dataset_uneven)%Z ->
        (min_size sample_dataset_uneven
         <= zlength (series sample_dataset_uneven i)
         <= max_size sample_dataset_uneven)%Z)
  /\ (exists i : nat, (Z.of_nat i < n_groups sample_dataset_uneven)%Z
                      /\ zlength (series sample_dataset_uneven i)
                         = min_size sample_dataset_uneven)
  /\ (exists i : nat, (Z.of_nat i < n_groups sample_dataset_uneven)%Z
                      /\ zlength (series sample_dataset_uneven i)
                         = max_size sample_dataset_uneven).
Proof.
  apply (produced_sizes sample_dataset_uneven).
  apply (fits_from_df _ _ _ _ _ _ _ sample_from_df_uneven).
  vm_compute. discriminate.
Defined.

(** X2 on the sample, trimming one row on the left. *)
Lemma trim_dataset_sizes_witness :
  exists d',
    trim_dataset sample_dataset 1 0 = Ok d'
    /\ min_size d' = (min_size sample_dataset - (1 + 0))%Z
    /\ max_size d' = (max_size sample_dataset - (1 + 0))%Z
    /\ ncols (temporal d') = ncols (temporal sample_dataset)
    /\ temporal_cols d' = temporal_cols sample_dataset
    /\ static d' = static sample_dataset
    /\ static_cols d' = static_cols sample_dataset
    /\ y_idx d' = y_idx sample_dataset.
Proof.
  apply (trim_dataset_sizes sample_dataset 1 0).
  - exact sample_dataset_ok.
  - lia.
  - lia.
  - simpl. lia.
  - vm_compute. discriminate.
Defined.

(** X3 on the uneven sample: one row off the left, then one off the
    right. *)
Lemma trim_dataset_compose_witness :
  (d1 ← trim_dataset sample_dataset_uneven 1 0; trim_dataset d1 0 1)
  = trim_dataset sample_dataset_uneven (1 + 0) (0 + 1).
Proof.
  apply (trim_dataset_compose sample_dataset_uneven 1 0 0 1).
  - exact sample_uneven_ok.
  - lia.
  - lia.
  - lia.
  - lia.
  - vm_compute. discriminate.
Defined.

(** X4 on the sample. *)
Lemma trim_dataset_zero_witness :
  trim_dataset sample_dataset 0 0 = Ok sample_dataset.
Proof.
  apply (trim_dataset_zero sample_dataset).
  apply (fits_from_df _ _ _ _ _ _ _ sample_from_df).
  vm_compute. discriminate.
Defined.

(** X5 on the samples: fresh memory full of NaN or full of zeros. *)
Lemma append_overwrites_memory_witness :
  append sample_mem sample_dataset_uneven sample_dataset
  = append (fun _ => f32_zero) sample_dataset_uneven sample_dataset.
Proof.
  apply (append_overwrites_memory sample_mem (fun _ => f32_zero)
           sample_dataset_uneven sample_dataset).
  - exact sample_uneven_ok.
  - exact sample_dataset_ok.
  - reflexivity.
  - vm_compute. discriminate.
Defined.

(** X6 on the samples. *)
Lemma append_assoc_witness :
  exists d,
    (ab ← append sample_mem sample_dataset_uneven sample_dataset;
     append sample_mem ab sample_dataset_uneven) = Ok d
    /\ (bc ← append sample_mem sample_dataset sample_dataset_uneven;
        append sample_mem sample_dataset_uneven bc) = Ok d.
Proof.
  apply (append_assoc sample_mem sample_dataset_uneven sample_dataset
           sample_dataset_uneven).
  - exact sample_uneven_ok.
  - exact sample_dataset_ok.
  - exact sample_uneven_ok.
  - reflexivity.
  - reflexivity.
  - reflexivity.
  - reflexivity.
  - vm_compute. discriminate.
Defined.

(** X7 on the samples: two rows per series appended and trimmed again. *)
Lemma append_then_trim_witness :
  (d ← append sample_mem sample_dataset_uneven sample_dataset;
   trim_dataset d 0 2)
  = Ok (set_updated false sample_dataset_uneven).
Proof.
  apply (append_then_trim sample_mem sample_dataset_uneven sample_dataset 2).
  - exact sample_uneven_ok.
  - exact sample_dataset_ok.
  - reflexivity.
  - reflexivity.
  - repeat constructor.
  - simpl. lia.
  - reflexivity.
  - vm_compute. discriminate.
Defined.

(** X8 on the sample of two series: index 2 is out of range, -1 fails,
    and -2 is the last series. *)
Lemma getitem_index_range_witness :
  __getitem__ sample_dataset (IdxInt 2) = Raise IndexError
  /\ __getitem__ sample_dataset (IdxInt (2 ^ 63)) = Raise OverflowError
  /\ __getitem__ sample_dataset (IdxInt (-1)) = Raise RuntimeError
  /\ __getitem__ sample_dataset (IdxInt (-2))
     = __getitem__ sample_dataset (IdxInt (-2 + n_groups sample_dataset + 1)).
Proof.
  assert (produced_fits sample_dataset) as Hp.
  { apply (fits_from_df _ _ _ _ _ _ _ sample_from_df).
    vm_compute. discriminate. }
  destruct (getitem_index_range sample_dataset 2 Hp) as (Hout & _ & Hlast & _).
  destruct (getitem_index_range sample_dataset (2 ^ 63) Hp)
    as (_ & Hover & _).
  destruct (getitem_index_range sample_dataset (-2) Hp) as (_ & _ & _ & Hneg).
  split; [apply Hout; simpl; lia|]. split; [apply Hover; lia|].
  split; [exact Hlast|].
  apply Hneg; [simpl; lia|reflexivity].
Defined.

(** X9 on the sample with static features: index -2 reads the window of
    series 1 and the static row of series 0. *)
Lemma getitem_negative_static_witness :
  exists item item_t item_s,
    __getitem__ sample_dataset_static (IdxInt (-2)) = Ok item
    /\ __getitem__ sample_dataset_static
         (IdxInt (-2 + n_groups sample_dataset_static + 1)) = Ok item_t
    /\ __getitem__ sample_dataset_static
         (IdxInt (-2 + n_groups sample_dataset_static)) = Ok item_s
    /\ item !! "temporal" = item_t !! "temporal"
    /\ item !! "static" = item_s !! "static".
Proof.
  apply (getitem_negative_static sample_dataset_static
           (sample_matrix 1 [[9]; [8]]%Z) (-2)).
  - apply (fits_from_df _ _ _ _ _ _ _ sample_from_df_static).
    vm_compute. discriminate.
  - reflexivity.
  - reflexivity.
  - simpl. lia.
Defined.

(** X10 on the shorter series of the uneven sample. *)
Lemma getitem_mask_marks_padding_witness :
  exists item t,
    __getitem__ sample_dataset_uneven (IdxInt 1) = Ok item
    /\ item !! "temporal" = Some (LTensor (Arr2 t))
    /\ last (temporal_cols sample_dataset_uneven) = Some "available_mask"
    /\ forall j : nat, (Z.of_nat j < max_size sample_dataset_uneven)%Z ->
         mat_get t (length (temporal_cols sample_dataset_uneven) - 1) j
         = if (Z.of_nat j <? max_size sample_dataset_uneven
                             - zlength (series sample_dataset_uneven
                                               (Z.to_nat 1)))%Z
           then f32_zero else f32_one.
Proof.
  apply (getitem_mask_marks_padding sample_frame_uneven None "y"
           sample_dataset_uneven [1; 2]%Z [4; 4]%Z [1; 2; 3; 4; 2; 3; 4]%Z 1).
  - exact sample_from_df_uneven.
  - compute_done.
  - simpl. lia.
  - exact I.
Defined.

(** X11 on the sample with static features, for the batch [1, 0]. *)
Lemma fetch_batch_witness :
  exists out temporals,
    fetch true sample_dataset_static [1; 0]%Z = Ok (CDict out)
    /\ out !! "temporal"
       = Some (LTensor (Stacked [length (temporal_cols sample_dataset_static);
                                 Z.to_nat (max_size sample_dataset_static)]
                                (map Arr2 temporals)))
    /\ Forall2 (fun idx t =>
                  left_padded t (length (temporal_cols sample_dataset_static))
                              (Z.to_nat (max_size sample_dataset_static))
                              (series sample_dataset_static (Z.to_nat idx)))
               [1; 0]%Z temporals
    /\ out !! "temporal_cols"
       = Some (LIndex (temporal_cols sample_dataset_static))
    /\ out !! "y_idx" = Some (LInt (y_idx sample_dataset_static))
    /\ exists rs,
         out !! "static"
         = Some (LTensor (Stacked [ncols (sample_matrix 1 [[9]; [8]]%Z)]
                                  (map Arr1 rs)))
         /\ Forall2 (fun idx r =>
                       mrows (sample_matrix 1 [[9]; [8]]%Z) !! Z.to_nat idx
                       = Some r) [1; 0]%Z rs
         /\ out !! "static_cols"
            = Some (option_index (static_cols sample_dataset_static)).
Proof.
  apply (fetch_batch true sample_dataset_static [1; 0]%Z).
  - apply (fits_from_df _ _ _ _ _ _ _ sample_from_df_static).
    vm_compute. discriminate.
  - intros s Hs. injection Hs as <-. split; [|reflexivity].
    unfold mat_wf. simpl. repeat constructor.
  - discriminate.
  - repeat constructor; simpl; lia.
Defined.

(** X12 on the sample and a future frame of one row per series that
    lacks the mask column and has a column more. *)
Lemma update_dataset_spec_witness :
  exists d',
    update_dataset sample_mem sample_dataset sample_future "y" = Ok d'
    /\ temporal_cols d' = temporal_cols sample_dataset
    /\ n_groups d' = n_groups sample_dataset
    /\ forall (i : nat) (g : list Row),
         frame_groups sample_future !! i = Some g ->
         series d' i
         = series sample_dataset i
           ++ map (aligned_row (temporal_cols sample_dataset) sample_future) g.
Proof.
  destruct (update_dataset_spec sample_mem sample_dataset sample_future "y"
              ["available_mask"]) as [_ Hsame].
  - exact sample_dataset_ok.
  - reflexivity.
  - reflexivity.
  - compute_done.
  - compute_done.
  - discriminate.
  - vm_compute. discriminate.
  - apply Hsame. reflexivity.
Defined.

(** X13 on the sample partition. *)
Lemma setup_static_rows_witness :
  exists s,
    static sample_dataset_static = Some s
    /\ static_cols sample_dataset_static = Some ["s"]
    /\ Z.of_nat (nrows s) = n_groups sample_dataset_static /\ mat_wf s
    /\ (forall (i : nat) (u : Z),
          frame_ids sample_partition !! i = Some u ->
          exists r,
            head (filter (fun r0 => row_id r0 = u) (rows sample_partition))
            = Some r
            /\ mrows s !! i = Some (map (row_get r) ["s"]))
    /\ (forall idx, (0 <= idx < n_groups sample_dataset_static)%Z ->
          exists item, __getitem__ sample_dataset_static (IdxInt idx) = Ok item).
Proof.
  apply (setup_static_rows sample_read_parquet 0 sample_files
           "part-0.parquet" sample_partition ["s"] sample_dataset_static).
  - reflexivity.
  - reflexivity.
  - reflexivity.
  - exact sample_setup.
Defined.

(** X14 on the sample directories. *)
Lemma from_data_directories_columns_witness :
  Forall (fun dir => is_dir (sample_fs dir) = true) sample_directories
  /\ Forall (fun meta => has_column "ds" meta
                         /\ has_column "y" meta
                         /\ Forall (fun c => has_column c meta) [])
            (listed_files sample_fs sample_directories)
  /\ ((listed_files sample_fs sample_directories <> []
       /\ Forall (has_column "available_mask")
                 (listed_files sample_fs sample_directories)
       /\ lf_temporal_cols sample_local = ["y"; "available_mask"])
      \/ (Forall (fun meta => ~ has_column "available_mask" meta)
                 (listed_files sample_fs sample_directories)
          /\ lf_temporal_cols sample_local = ["y"])).
Proof.
  apply (from_data_directories_columns sample_fs sample_directories None []
           "ds" "y" sample_local).
  - exact sample_from_data_directories.
  - discriminate.
  - compute_done.
Defined.

(** X15 on the sample directories. *)
Lemma from_data_directories_sizes_witness :
  lf_files_ds sample_local = sample_directories
  /\ lf_n_groups sample_local = Z.of_nat (length sample_directories)
  /\ lf_indices sample_local
     = map (fun dir => after_last equals_sign (dir_name (sample_fs dir)))
           sample_directories
  /\ Forall (fun uid => str_contains equals_sign uid = false)
            (lf_indices sample_local)
  /\ length (lf_last_times sample_local) = length sample_directories
  /\ Forall (fun dir => (dir_rows sample_fs dir <= lf_max_size sample_local)%Z)
            sample_directories
  /\ (lf_max_size sample_local = 0%Z
      \/ exists dir, dir ∈ sample_directories
                     /\ lf_max_size sample_local = dir_rows sample_fs dir)
  /\ (exists dir, dir ∈ sample_directories /\ 1%Z = dir_rows sample_fs dir)
  /\ Forall (fun dir => (1 <= dir_rows sample_fs dir)%Z) sample_directories
  /\ (1 <= lf_max_size sample_local)%Z.
Proof.
  exact (from_data_directories_sizes sample_fs sample_directories None []
           "ds" "y" sample_local sample_from_data_directories).
Defined.

(** X16 on the sample directories: the one row of series [b] is padded
    to three columns. *)
Lemma local_getitem_padded_witness :
  exists item t data1 cols1,
    _ensure_available_mask (sample_matrix 1 [[4]]%Z)
                           (lf_temporal_cols sample_local)
    = Ok (data1, cols1)
    /\ local_getitem sample_read_columns sample_local (IdxInt 1) = Ok item
    /\ item !! "temporal" = Some (LTensor (Arr2 t))
    /\ item !! "temporal_cols" = Some (LIndex cols1)
    /\ left_padded t (length cols1) (Z.to_nat (lf_max_size sample_local))
                   (mrows data1).
Proof.
  destruct (local_getitem_padded sample_read_columns sample_local 1
              "data/unique_id=b" (sample_matrix 1 [[4]]%Z)) as [Hpad _].
  - reflexivity.
  - reflexivity.
  - reflexivity.
  - apply Hpad; [unfold nrows; simpl; lia|discriminate].
Defined.

(** X18 on the samples. *)
Lemma append_sizes_witness :
  n_groups sample_dataset_appended = n_groups sample_dataset_uneven
  /\ (forall i : nat, (Z.of_nat i < n_groups sample_dataset_uneven)%Z ->
        zlength (series sample_dataset_appended i)
        = (zlength (series sample_dataset_uneven i)
           + zlength (series sample_dataset i))%Z)
  /\ (min_size sample_dataset_uneven + min_size sample_dataset
      <= min_size sample_dataset_appended)%Z
  /\ (max_size sample_dataset_appended
      <= max_size sample_dataset_uneven + max_size sample_dataset)%Z
  /\ temporal_cols sample_dataset_appended
     = temporal_cols sample_dataset_uneven
  /\ static sample_dataset_appended = static sample_dataset_uneven
  /\ static_cols sample_dataset_appended = static_cols sample_dataset_uneven
  /\ y_idx sample_dataset_appended = y_idx sample_dataset_uneven.
Proof.
  apply (append_sizes sample_mem sample_dataset_uneven sample_dataset
           sample_dataset_appended).
  - exact sample_uneven_ok.
  - exact sample_dataset_ok.
  - vm_compute. discriminate.
  - exact sample_append.
Defined.

(** X20 on the training loader of the sample module: the collate function
    of [dataloaders_kwargs] is replaced, the number of workers passes
    through. *)
Lemma datamodule_loaders_witness :
  dm_dataset sample_module = Some (ld_dataset sample_loader)
  /\ ld_kwargs sample_loader !! "collate_fn" = Some own_collate_fn
  /\ ld_kwargs sample_loader !! "num_workers"
     = dm_dataloaders_kwargs sample_module !! "num_workers"
  /\ ld_kwargs sample_loader !! "batch_size"
     = Some (KInt (dm_batch_size sample_module))
  /\ ld_kwargs sample_loader !! "shuffle"
     = Some (KBool (dm_shuffle_train sample_module))
  /\ ld_kwargs sample_loader !! "drop_last"
     = Some (KBool (dm_drop_last sample_module)).
Proof.
  destruct (datamodule_loaders sample_DataLoader_init sample_module
              sample_loader (or_introl sample_train_dataloader))
    as (Hd & Hc & Hother & Htrain & _).
  split; [exact Hd|]. split; [exact Hc|].
  split; [apply Hother; compute_done|].
  exact (Htrain sample_train_dataloader).
Defined.

(** X22 on the uneven sample. *)
Lemma from_df_outputs_witness :
  increasing [1; 2]%Z
  /\ (forall u, u ∈ [1; 2]%Z <-> u ∈ map row_id (rows sample_frame_uneven))
  /\ __len__ sample_dataset_uneven = zlength [1; 2]%Z
  /\ zlength [4; 4]%Z = n_groups sample_dataset_uneven
  /\ [1; 2; 3; 4; 2; 3; 4]%Z
     = map row_time (concat (frame_groups sample_frame_uneven))
  /\ length [1; 2; 3; 4; 2; 3; 4]%Z = nrows (temporal sample_dataset_uneven)
  /\ (forall (i : nat) (b : Z),
        indptr sample_dataset_uneven !! S i = Some b ->
        exists t, [4; 4]%Z !! i = Some t
                  /\ [1; 2; 3; 4; 2; 3; 4]%Z !! Z.to_nat (b - 1) = Some t).
Proof.
  exact (from_df_outputs sample_frame_uneven None "y" sample_dataset_uneven
           [1; 2]%Z [4; 4]%Z [1; 2; 3; 4; 2; 3; 4]%Z sample_from_df_uneven).
Defined.

(** X23 on the sample and its rows in reverse order. *)
Lemma from_df_row_order_witness :
  from_df sample_frame None "y" = from_df sample_frame_reversed None "y".
Proof.
  apply (from_df_row_order sample_frame sample_frame_reversed None "y").
  - reflexivity.
  - symmetry. exact (reverse_Permutation (rows sample_frame)).
  - compute_done.
Defined.

(** C4 fails beyond the range of int32.  A frame of [2^31 - 1] rows and a
    frame of one row, one series each, give two datasets that
    [trim_dataset] (trimming nothing) leaves with offsets of type int32;
    the sum [2^31] of the last offsets wraps to [-2^31] in the dataset
    that [append] returns. *)
Lemma produced_overflow_counterexample :
  exists d1 ids1 dates1 ds1 d2 ids2 dates2 ds2 t1 t2 d,
    from_df (long_frame (Z.to_nat 2147483647)) None "y"
    = Ok (d1, ids1, dates1, ds1)
    /\ from_df (long_frame 1) None "y" = Ok (d2, ids2, dates2, ds2)
    /\ trim_dataset d1 0 0 = Ok t1
    /\ trim_dataset d2 0 0 = Ok t2
    /\ append sample_mem t1 t2 = Ok d
    /\ produced d
    /\ indptr d = [0; -2147483648]%Z
    /\ last (indptr d) <> Some (Z.of_nat (nrows (temporal d))).
Proof.
  assert (Z.of_nat (Z.to_nat 2147483647) = 2147483647%Z) as Hn
    by (apply Z2Nat.id; lia).
  revert Hn. generalize (Z.to_nat 2147483647). intros n Hn.
  pose proof int_max_int32 as H32.
  destruct (long_from_df n)
    as (d1 & ids1 & dates1 & ds1 & Hd1 & Hok1 & Hip1 & Hdt1 & Hg1 & Hr1 & Hc1);
    [lia..|].
  destruct (long_from_df 1)
    as (d2 & ids2 & dates2 & ds2 & Hd2 & Hok2 & Hip2 & Hdt2 & _ & Hr2 & Hc2);
    [lia..|].
  pose proof (produced_from_df _ _ _ _ _ _ _ Hd1) as Hp1.
  pose proof (produced_from_df _ _ _ _ _ _ _ Hd2) as Hp2.
  pose proof (trim_zero_same d1 Hok1 (from_df_nonempty _ _ _ _ _ _ _ Hd1)
                (produced_updated d1 Hp1) Hdt1) as Ht1.
  pose proof (trim_zero_same d2 Hok2 (from_df_nonempty _ _ _ _ _ _ _ Hd2)
                (produced_updated d2 Hp2) Hdt2) as Ht2.
  destruct (append_overflow_one sample_mem d1 d2 n) as (d & Hd & Hip);
    try done; [congruence|].
  exists d1, ids1, dates1, ds1, d2, ids2, dates2, ds2, d1, d2, d.
  do 5 (split; [done|]). split.
  { exact (produced_append _ _ _ _ (produced_trim _ _ _ _ Hp1 Ht1)
             (produced_trim _ _ _ _ Hp2 Ht2) Hd). }
  split; [done|]. rewrite Hip. simpl. intros H. injection H as H. lia.
Qed.

(** "Any number of times" fails beyond the range of int32.  A frame of
    one series of [2^30] rows gives a consistent dataset that
    [trim_dataset] (trimming nothing) leaves with offsets of type int32;
    appended to itself, the summed offset [2^31] wraps to [-2^31], no
    slice is left for the second copy of the rows, and [append] raises on
    its first application. *)
Lemma append_overflow_counterexample :
  exists d ids dates ds t,
    from_df (long_frame (Z.to_nat 1073741824)) None "y"
    = Ok (d, ids, dates, ds)
    /\ trim_dataset d 0 0 = Ok t
    /\ dataset_ok t
    /\ updated t = false
    /\ append sample_mem t t = Raise RuntimeError
    /\ append_times sample_mem t 1 t = Raise RuntimeError.
Proof.
  assert (Z.of_nat (Z.to_nat 1073741824) = 1073741824%Z) as Hn
    by (apply Z2Nat.id; lia).
  revert Hn. generalize (Z.to_nat 1073741824). intros n Hn.
  pose proof int_max_int32 as H32.
  destruct (long_from_df n)
    as (d & ids & dates & ds & Hd & Hok & Hip & Hdt & Hg & Hr & Hc);
    [lia..|].
  pose proof (produced_updated d (produced_from_df _ _ _ _ _ _ _ Hd)) as Hup.
  pose proof (trim_zero_same d Hok (from_df_nonempty _ _ _ _ _ _ _ Hd)
                Hup Hdt) as Ht.
  assert (append sample_mem d d = Raise RuntimeError) as Happ.
  { apply (append_overflow_many sample_mem d d n n); try done; lia. }
  exists d, ids, dates, ds, d. do 4 (split; [done|]).
  split; [done|]. simpl. by rewrite Happ.
Qed.
